(** * XCSoar ordered task engine: a shallow embedding

    The definitions below follow [src/Engine/Task/Ordered/OrderedTask.cpp],
    [src/Engine/Task/Stats/StartStats.cpp] and [src/NMEA/Checksum.hpp].

    Conventions of the embedding:
    - a C++ [double] is a rational number ([Q]); a cast to [unsigned]
      truncates and wraps at 2^32; the subtractions of
      [ScanDistanceNominal], whose results are compared and returned as
      they are, are rounded to binary64 ([Double.sub]);
    - a [std::vector<std::unique_ptr<T>>] is a [list] of objects; every
      object carries the address it lives at, and a raw pointer is such an
      address, looked up among the owned objects when it is dereferenced;
    - an access outside a vector, or through a null or dangling pointer, is
      undefined in C++ and is a [Fault] here. *)

From Stdlib Require Import ZArith QArith Qpower Qround Qabs Qminmax Lia Lqa Bool List.
From stdpp Require Import base list.
Import ListNotations.

Set Default Proof Using "Type".

(** ** Results of code that may step outside the language's rules *)

Inductive fault : Type :=
| OutOfRange   (* index past the end of a vector or buffer *)
| NullDeref    (* dereference of a null pointer *)
| Dangling     (* dereference of a pointer whose object is gone *)
| OutOfFuel.   (* not a C++ fault: the bound given to a model loop was too small *)

Inductive result (A : Type) : Type :=
| Ret (a : A)
| Fault (f : fault).

Arguments Ret {A} a.
Arguments Fault {A} f.

#[global] Instance result_ret : MRet result := fun A a => Ret a.

#[global] Instance result_bind : MBind result := fun A B k m =>
  match m with
  | Ret a => k a
  | Fault f => Fault f
  end.

Definition of_option {A : Type} (f : fault) (o : option A) : result A :=
  match o with
  | Some a => Ret a
  | None => Fault f
  end.

Definition is_ret {A : Type} (r : result A) : bool :=
  match r with Ret _ => true | Fault _ => false end.

(** ** NMEA checksum ([src/NMEA/Checksum.hpp]) *)

Module NMEA.

Local Open Scope Z_scope.

(** A [char] is its integer value; [static_cast<uint8_t>] keeps the low
    eight bits. *)
Definition uint8_of_char (c : Z) : Z := c mod 256.

Definition dollar : Z := 36.
Definition exclamation : Z := 33.
Definition asterisk : Z := 42.

Definition is_lead (c : Z) : bool := (c =? dollar) || (c =? exclamation).

(** The memory behind a [const char *] is the list of chars from the
    pointer to the end of its buffer.  [apple] is the compile-time switch
    [defined(__APPLE__) && (!defined(TARGET_OS_IPHONE) || !TARGET_OS_IPHONE)]. *)
Fixpoint xor_to_terminator (apple : bool) (p : list Z) (checksum : Z) : result Z :=
  match p with
  | [] => Fault OutOfRange
  | c :: p' =>
      if (c =? 0) || (apple && (c =? asterisk)) then Ret checksum
      else xor_to_terminator apple p' (Z.lxor checksum (uint8_of_char c))
  end.

Definition NMEAChecksum (apple : bool) (p : list Z) : result Z :=
  match p with
  | [] => Fault OutOfRange
  | c :: p' => xor_to_terminator apple (if is_lead c then p' else p) 0
  end.

(** [for (; i < length; ++i) checksum ^= static_cast<uint8_t>( *p++ )],
    with [n] the number of iterations left. *)
Fixpoint xor_count (p : list Z) (n : nat) (checksum : Z) : result Z :=
  match n with
  | O => Ret checksum
  | S n' =>
      match p with
      | [] => Fault OutOfRange
      | c :: p' => xor_count p' n' (Z.lxor checksum (uint8_of_char c))
      end
  end.

Definition NMEAChecksum_length (p : list Z) (length : nat) : result Z :=
  match length with
  | O => Ret 0
  | S l' =>
      match p with
      | [] => Fault OutOfRange
      | c :: p' => if is_lead c then xor_count p' l' 0 else xor_count p length 0
      end
  end.

(** What the header's comments describe: drop one leading '$' or '!',
    then XOR every remaining byte. *)
Definition skip_lead (s : list Z) : list Z :=
  match s with
  | c :: s' => if is_lead c then s' else s
  | [] => []
  end.

Definition xor_bytes (s : list Z) (checksum : Z) : Z :=
  fold_left (fun acc c => Z.lxor acc (uint8_of_char c)) s checksum.

(** The chars of a C string body: none is NUL, and none is '*'. *)
Definition plain_char (c : Z) : bool := negb (c =? 0) && negb (c =? asterisk).

End NMEA.

(** ** Scalars *)

(** [(unsigned)d] for a [double] [d]: the fraction is dropped, and the
    value is kept in 32 bits. *)
Definition Qtrunc (q : Q) : Z := Z.quot (Qnum q) (Zpos (Qden q)).
Definition uint32 (z : Z) : Z := (z mod 2 ^ 32)%Z.
Definition unsigned_of_double (d : Q) : Z := uint32 (Qtrunc d).

Definition Qltb (a b : Q) : bool := negb (Qle_bool b a).

(** The result of an arithmetic operation on [double]s is the exact result
    rounded to binary64: 53 bits of precision, the least exponent -1022,
    to the nearest value and to the even one of two that are equally
    near.  Infinities and NaN have no counterpart here: the results that
    are rounded below lie between 0 and an operand. *)
Module Double.

Local Open Scope Q_scope.

Definition prec : Z := 53.
Definition emin : Z := (-1022)%Z.

(** [floor (log2 x)] for [0 < x] *)
Definition ilog2 (x : Q) : Z :=
  let e := (Z.log2 (Qnum x) - Z.log2 (Z.pos (Qden x)))%Z in
  if Qle_bool (2 ^ e) x then e else (e - 1)%Z.

(** the distance between the doubles around [x] *)
Definition ulp (x : Q) : Q := 2 ^ (Z.max (ilog2 (Qabs x)) emin - (prec - 1)).

(** the nearest integer, the even one of two that are equally near *)
Definition rne (x : Q) : Z :=
  let f := Qfloor x in
  match Qcompare (x - inject_Z f) (1 # 2) with
  | Lt => f
  | Gt => (f + 1)%Z
  | Eq => if Z.even f then f else (f + 1)%Z
  end.

Definition round (x : Q) : Q :=
  let x := Qred x in
  if Qeq_bool x 0 then 0 else Qred (inject_Z (rne (x / ulp x)) * ulp x).

Definition is_double (x : Q) : Prop := round x == x.

Definition sub (a b : Q) : Q := round (a - b).

End Double.

(** Modelled from the spec: [TimeStamp] ([time/Stamp.hpp] is not among the
    sources) holds seconds as a [double]; the undefined stamp is negative. *)
Module TimeStamp.
Definition t : Type := Q.
Definition Undefined : t := (-1)%Q.
Definition IsDefined (s : t) : bool := Qle_bool 0 s.
End TimeStamp.

(** Modelled from the spec: [BrokenTime] ([time/BrokenTime.hpp] is not among
    the sources), an hour, minute and second of the day. *)
Module BrokenTime.
Record t : Type := { hour : Z; minute : Z; second : Z }.
End BrokenTime.

(** Modelled from the spec: [RoughTime], [RoughTimeDelta] and
    [RoughTimeSpan] ([time/RoughTime.hpp] is not among the sources).  A
    [RoughTime] is a minute of the day or invalid; a duration is truncated
    to whole minutes when it is converted; adding a delta wraps at
    midnight; a span has begun when its start is invalid or not after
    now. *)
Module RoughTime.
Local Open Scope Z_scope.
Inductive t : Type :=
  | Invalid
  | MinuteOfDay (m : Z).
Definition MAX : Z := 24 * 60.
Definition IsValid (r : t) : bool :=
    match r with Invalid => false | MinuteOfDay _ => true end.
  (** [duration_cast<std::chrono::minutes>] of a number of seconds *)
Definition minutes_of_seconds (d : Q) : Z := Qtrunc (d / 60).
Definition FromSinceMidnight (d : Q) : t := MinuteOfDay (minutes_of_seconds d).
Definition FromTimeStamp (s : TimeStamp.t) : t :=
    if TimeStamp.IsDefined s then MinuteOfDay (minutes_of_seconds s mod MAX)
    else Invalid.
Definition plus (r : t) (delta_minutes : Z) : t :=
    match r with
    | Invalid => Invalid
    | MinuteOfDay m => MinuteOfDay ((m + delta_minutes) mod MAX)
    end.
Definition geb (a b : t) : bool :=
    match a, b with
    | MinuteOfDay x, MinuteOfDay y => y <=? x
    | _, _ => false
    end.
End RoughTime.

Module RoughTimeDelta.
  (** [RoughTimeDelta::FromDuration(d).AsMinutes()], [d] in whole seconds *)
Definition FromDuration (seconds : Z) : Z := Z.quot seconds 60.
End RoughTimeDelta.

Module RoughTimeSpan.
Record t : Type := { start : RoughTime.t; finish : RoughTime.t }.
Definition HasBegun (s : t) (now : RoughTime.t) : bool :=
    negb (RoughTime.IsValid (start s)) || RoughTime.geb now (start s).
End RoughTimeSpan.

(** The members of [StartConstraints] and [OrderedTaskSettings] that
    [OrderedTask.cpp] reads or writes; the two waiting times are whole
    seconds ([std::chrono::duration<unsigned>]). *)
Module StartConstraints.
Record t : Type := {
    open_time_span : RoughTimeSpan.t;
    score_pev : bool;
    pev_start_wait_time : Z;
    pev_start_window : Z;
  }.
Definition set_open_time_span (c : t) (ts : RoughTimeSpan.t) : t :=
    {| open_time_span := ts; score_pev := score_pev c;
       pev_start_wait_time := pev_start_wait_time c;
       pev_start_window := pev_start_window c |}.
End StartConstraints.

Module OrderedTaskSettings.
Record t : Type := {
    start_constraints : StartConstraints.t;
    aat_min_time : Z;
  }.
Definition set_start_constraints (s : t) (c : StartConstraints.t) : t :=
    {| start_constraints := c; aat_min_time := aat_min_time s |}.
End OrderedTaskSettings.

Module TaskPointType.
Inductive t : Type := UNORDERED | START | AST | AAT | FINISH.
Definition eqb (a b : t) : bool :=
    match a, b with
    | UNORDERED, UNORDERED | START, START | AST, AST | AAT, AAT
    | FINISH, FINISH => true
    | _, _ => false
    end.
End TaskPointType.

Module TaskFactoryType.
Inductive t : Type :=
    FAI_GENERAL | FAI_TRIANGLE | FAI_OR | FAI_GOAL | RACING | AAT | MAT
  | MIXED | TOURING.
Definition eqb (a b : t) : bool :=
    match a, b with
    | FAI_GENERAL, FAI_GENERAL | FAI_TRIANGLE, FAI_TRIANGLE | FAI_OR, FAI_OR
    | FAI_GOAL, FAI_GOAL | RACING, RACING | AAT, AAT | MAT, MAT
    | MIXED, MIXED | TOURING, TOURING => true
    | _, _ => false
    end.
End TaskFactoryType.

(** The observation zone of a task point, as the tagged variant of the
    data model; only a cylinder's radius is read by [OrderedTask.cpp]. *)
Module ObservationZone.
Inductive Shape : Type := LINE | CYLINDER | FAI_SECTOR | KEYHOLE | CUSTOM.
Inductive t : Type :=
  | Cylinder (radius : Q)
  | Line (length : Q)
  | FaiSector (radius : Q)
  | Keyhole
  | Custom.
Definition GetShape (oz : t) : Shape :=
    match oz with
    | Cylinder _ => CYLINDER
    | Line _ => LINE
    | FaiSector _ => FAI_SECTOR
    | Keyhole => KEYHOLE
    | Custom => CUSTOM
    end.
End ObservationZone.

(** [StartStats] ([StartStats.hpp], [StartStats.cpp]) *)
Module StartStats.
Record t : Type := {
    advanced_by_pev : bool;
    time : TimeStamp.t;
    altitude : Q;
    ground_speed : Q;
  }.
Definition Reset (s : t) : t :=
    {| time := TimeStamp.Undefined; advanced_by_pev := false;
       altitude := altitude s; ground_speed := ground_speed s |}.
Definition HasStarted (s : t) : bool := TimeStamp.IsDefined (time s).
Definition GetStartedTime (s : t) : TimeStamp.t := time s.
End StartStats.

(** ** The collaborators' data

    The geometry, the sampled state of a task point, the advance policy and
    the distance statistics live in classes that are not among the sources;
    the engine only stores and passes them on. *)

Class Carriers : Type := {
  GeoPoint : Type;
  GeoBounds : Type;
  TaskProjection : Type;
  SearchPoint : Type;
  Waypoint : Type;
  SampleState : Type;
  TaskAdvance : Type;
  DistanceStats : Type;
}.

(** An object address; a raw pointer is an [option addr], [None] when null. *)
Definition addr : Type := nat.
Bind Scope nat_scope with addr.

Module AircraftState.
Record t {K : Carriers} : Type := {
    location : GeoPoint;
    altitude : Q;
    ground_speed : Q;
    time : TimeStamp.t;
    flying : bool;
  }.
Definition HasTime {K : Carriers} (s : t) : bool := TimeStamp.IsDefined (time s).
End AircraftState.

(** [StartStats::SetStarted(aircraft, pev)] and the one-argument overload *)
Definition StartStats_SetStarted2 {K : Carriers}
    (aircraft : AircraftState.t) (pev : bool) : StartStats.t :=
  {| StartStats.advanced_by_pev := pev;
     StartStats.time := AircraftState.time aircraft;
     StartStats.altitude := AircraftState.altitude aircraft;
     StartStats.ground_speed := AircraftState.ground_speed aircraft |}.

Definition StartStats_SetStarted {K : Carriers} (aircraft : AircraftState.t) : StartStats.t :=
  StartStats_SetStarted2 aircraft false.

(** [FlatBoundingBox(center, radius)] in projected integer coordinates *)
Module FlatBoundingBox.
Record t : Type := { center : Z * Z; radius : Z }.
End FlatBoundingBox.

(** One task point object.  [addr] is where the object lives (what
    [unique_ptr::get()] returns); [prev] and [next] are the non-owning
    neighbour links that [OrderedTaskPoint::SetNeighbours] stores; [sample]
    is the rest of the object. *)
Module OrderedTaskPoint.
Record t {K : Carriers} : Type := {
    addr_of : addr;
    type : TaskPointType.t;
    waypoint : Waypoint;
    oz : ObservationZone.t;
    prev : option addr;
    next : option addr;
    sample : SampleState;
  }.
Definition with_sample {K : Carriers} (p : t) (s : SampleState) : t :=
    {| addr_of := addr_of p; type := type p; waypoint := waypoint p; oz := oz p;
       prev := prev p; next := next p; sample := s |}.
Definition SetNeighbours {K : Carriers} (p : t) (pr nx : option addr) : t :=
    {| addr_of := addr_of p; type := type p; waypoint := waypoint p; oz := oz p;
       prev := pr; next := nx; sample := sample p |}.
Definition GetType {K : Carriers} (p : t) : TaskPointType.t := type p.
End OrderedTaskPoint.

(** The callbacks of [TaskEvents], each with the object it is given. *)
Module TaskEvent.
Inductive t : Type :=
  | EnterTransition (point : addr)
  | ExitTransition (point : addr)
  | ActiveAdvanced (point : addr) (index : Z)
  | RequestArm (point : addr)
  | TaskStart
  | TaskFinish.
End TaskEvent.

Module TaskStats.
Record t {K : Carriers} : Type := {
    bounds : GeoBounds;
    task_valid : bool;
    has_targets : bool;
    is_mat : bool;
    has_optional_starts : bool;
    task_finished : bool;
    start : StartStats.t;
    pev_based_advance_ready : bool;
    need_to_arm : bool;
    inside_oz : bool;
    distances : DistanceStats;
  }.
Section setters.
Context {K : Carriers}.
Definition set_bounds (r : t) (v : GeoBounds) : t :=
    {| bounds := v; task_valid := task_valid r; has_targets := has_targets r; is_mat := is_mat r; has_optional_starts := has_optional_starts r; task_finished := task_finished r; start := start r; pev_based_advance_ready := pev_based_advance_ready r; need_to_arm := need_to_arm r; inside_oz := inside_oz r; distances := distances r |}.
Definition set_task_valid (r : t) (v : bool) : t :=
    {| bounds := bounds r; task_valid := v; has_targets := has_targets r; is_mat := is_mat r; has_optional_starts := has_optional_starts r; task_finished := task_finished r; start := start r; pev_based_advance_ready := pev_based_advance_ready r; need_to_arm := need_to_arm r; inside_oz := inside_oz r; distances := distances r |}.
Definition set_has_targets (r : t) (v : bool) : t :=
    {| bounds := bounds r; task_valid := task_valid r; has_targets := v; is_mat := is_mat r; has_optional_starts := has_optional_starts r; task_finished := task_finished r; start := start r; pev_based_advance_ready := pev_based_advance_ready r; need_to_arm := need_to_arm r; inside_oz := inside_oz r; distances := distances r |}.
Definition set_is_mat (r : t) (v : bool) : t :=
    {| bounds := bounds r; task_valid := task_valid r; has_targets := has_targets r; is_mat := v; has_optional_starts := has_optional_starts r; task_finished := task_finished r; start := start r; pev_based_advance_ready := pev_based_advance_ready r; need_to_arm := need_to_arm r; inside_oz := inside_oz r; distances := distances r |}.
Definition set_has_optional_starts (r : t) (v : bool) : t :=
    {| bounds := bounds r; task_valid := task_valid r; has_targets := has_targets r; is_mat := is_mat r; has_optional_starts := v; task_finished := task_finished r; start := start r; pev_based_advance_ready := pev_based_advance_ready r; need_to_arm := need_to_arm r; inside_oz := inside_oz r; distances := distances r |}.
Definition set_task_finished (r : t) (v : bool) : t :=
    {| bounds := bounds r; task_valid := task_valid r; has_targets := has_targets r; is_mat := is_mat r; has_optional_starts := has_optional_starts r; task_finished := v; start := start r; pev_based_advance_ready := pev_based_advance_ready r; need_to_arm := need_to_arm r; inside_oz := inside_oz r; distances := distances r |}.
Definition set_start (r : t) (v : StartStats.t) : t :=
    {| bounds := bounds r; task_valid := task_valid r; has_targets := has_targets r; is_mat := is_mat r; has_optional_starts := has_optional_starts r; task_finished := task_finished r; start := v; pev_based_advance_ready := pev_based_advance_ready r; need_to_arm := need_to_arm r; inside_oz := inside_oz r; distances := distances r |}.
Definition set_pev_based_advance_ready (r : t) (v : bool) : t :=
    {| bounds := bounds r; task_valid := task_valid r; has_targets := has_targets r; is_mat := is_mat r; has_optional_starts := has_optional_starts r; task_finished := task_finished r; start := start r; pev_based_advance_ready := v; need_to_arm := need_to_arm r; inside_oz := inside_oz r; distances := distances r |}.
Definition set_need_to_arm (r : t) (v : bool) : t :=
    {| bounds := bounds r; task_valid := task_valid r; has_targets := has_targets r; is_mat := is_mat r; has_optional_starts := has_optional_starts r; task_finished := task_finished r; start := start r; pev_based_advance_ready := pev_based_advance_ready r; need_to_arm := v; inside_oz := inside_oz r; distances := distances r |}.
Definition set_inside_oz (r : t) (v : bool) : t :=
    {| bounds := bounds r; task_valid := task_valid r; has_targets := has_targets r; is_mat := is_mat r; has_optional_starts := has_optional_starts r; task_finished := task_finished r; start := start r; pev_based_advance_ready := pev_based_advance_ready r; need_to_arm := need_to_arm r; inside_oz := v; distances := distances r |}.
Definition set_distances (r : t) (v : DistanceStats) : t :=
    {| bounds := bounds r; task_valid := task_valid r; has_targets := has_targets r; is_mat := is_mat r; has_optional_starts := has_optional_starts r; task_finished := task_finished r; start := start r; pev_based_advance_ready := pev_based_advance_ready r; need_to_arm := need_to_arm r; inside_oz := inside_oz r; distances := v |}.
End setters.
End TaskStats.

(** The state of an [OrderedTask].  A solver pointer is [None] until the
    solver is allocated and then counts the solves it has run;
    [task_events] is [None] for a null sink and otherwise the callbacks
    delivered so far, oldest first; [next_addr] is the address the next
    cloned object is placed at. *)
Module OrderedTask.
Record t {K : Carriers} : Type := {
    task_points : list OrderedTaskPoint.t;
    optional_start_points : list OrderedTaskPoint.t;
    active_task_point : nat;
    taskpoint_start : option addr;
    taskpoint_finish : option addr;
    task_projection : TaskProjection;
    last_min_location : GeoPoint;
    force_full_update : bool;
    stats : TaskStats.t;
    task_advance : TaskAdvance;
    ordered_settings : OrderedTaskSettings.t;
    factory_mode : TaskFactoryType.t;
    dijkstra_min : option nat;
    dijkstra_max : option nat;
    dijkstra_max_total : option nat;
    task_events : option (list TaskEvent.t);
    pev_received : bool;
    pev_receive_time : BrokenTime.t;
    last_state_time : TimeStamp.t;
    next_addr : addr;
  }.
Section setters.
Context {K : Carriers}.
Definition set_task_points (r : t) (v : list OrderedTaskPoint.t) : t :=
    {| task_points := v; optional_start_points := optional_start_points r; active_task_point := active_task_point r; taskpoint_start := taskpoint_start r; taskpoint_finish := taskpoint_finish r; task_projection := task_projection r; last_min_location := last_min_location r; force_full_update := force_full_update r; stats := stats r; task_advance := task_advance r; ordered_settings := ordered_settings r; factory_mode := factory_mode r; dijkstra_min := dijkstra_min r; dijkstra_max := dijkstra_max r; dijkstra_max_total := dijkstra_max_total r; task_events := task_events r; pev_received := pev_received r; pev_receive_time := pev_receive_time r; last_state_time := last_state_time r; next_addr := next_addr r |}.
Definition set_optional_start_points (r : t) (v : list OrderedTaskPoint.t) : t :=
    {| task_points := task_points r; optional_start_points := v; active_task_point := active_task_point r; taskpoint_start := taskpoint_start r; taskpoint_finish := taskpoint_finish r; task_projection := task_projection r; last_min_location := last_min_location r; force_full_update := force_full_update r; stats := stats r; task_advance := task_advance r; ordered_settings := ordered_settings r; factory_mode := factory_mode r; dijkstra_min := dijkstra_min r; dijkstra_max := dijkstra_max r; dijkstra_max_total := dijkstra_max_total r; task_events := task_events r; pev_received := pev_received r; pev_receive_time := pev_receive_time r; last_state_time := last_state_time r; next_addr := next_addr r |}.
Definition set_active_task_point (r : t) (v : nat) : t :=
    {| task_points := task_points r; optional_start_points := optional_start_points r; active_task_point := v; taskpoint_start := taskpoint_start r; taskpoint_finish := taskpoint_finish r; task_projection := task_projection r; last_min_location := last_min_location r; force_full_update := force_full_update r; stats := stats r; task_advance := task_advance r; ordered_settings := ordered_settings r; factory_mode := factory_mode r; dijkstra_min := dijkstra_min r; dijkstra_max := dijkstra_max r; dijkstra_max_total := dijkstra_max_total r; task_events := task_events r; pev_received := pev_received r; pev_receive_time := pev_receive_time r; last_state_time := last_state_time r; next_addr := next_addr r |}.
Definition set_taskpoint_start (r : t) (v : option addr) : t :=
    {| task_points := task_points r; optional_start_points := optional_start_points r; active_task_point := active_task_point r; taskpoint_start := v; taskpoint_finish := taskpoint_finish r; task_projection := task_projection r; last_min_location := last_min_location r; force_full_update := force_full_update r; stats := stats r; task_advance := task_advance r; ordered_settings := ordered_settings r; factory_mode := factory_mode r; dijkstra_min := dijkstra_min r; dijkstra_max := dijkstra_max r; dijkstra_max_total := dijkstra_max_total r; task_events := task_events r; pev_received := pev_received r; pev_receive_time := pev_receive_time r; last_state_time := last_state_time r; next_addr := next_addr r |}.
Definition set_taskpoint_finish (r : t) (v : option addr) : t :=
    {| task_points := task_points r; optional_start_points := optional_start_points r; active_task_point := active_task_point r; taskpoint_start := taskpoint_start r; taskpoint_finish := v; task_projection := task_projection r; last_min_location := last_min_location r; force_full_update := force_full_update r; stats := stats r; task_advance := task_advance r; ordered_settings := ordered_settings r; factory_mode := factory_mode r; dijkstra_min := dijkstra_min r; dijkstra_max := dijkstra_max r; dijkstra_max_total := dijkstra_max_total r; task_events := task_events r; pev_received := pev_received r; pev_receive_time := pev_receive_time r; last_state_time := last_state_time r; next_addr := next_addr r |}.
Definition set_task_projection (r : t) (v : TaskProjection) : t :=
    {| task_points := task_points r; optional_start_points := optional_start_points r; active_task_point := active_task_point r; taskpoint_start := taskpoint_start r; taskpoint_finish := taskpoint_finish r; task_projection := v; last_min_location := last_min_location r; force_full_update := force_full_update r; stats := stats r; task_advance := task_advance r; ordered_settings := ordered_settings r; factory_mode := factory_mode r; dijkstra_min := dijkstra_min r; dijkstra_max := dijkstra_max r; dijkstra_max_total := dijkstra_max_total r; task_events := task_events r; pev_received := pev_received r; pev_receive_time := pev_receive_time r; last_state_time := last_state_time r; next_addr := next_addr r |}.
Definition set_last_min_location (r : t) (v : GeoPoint) : t :=
    {| task_points := task_points r; optional_start_points := optional_start_points r; active_task_point := active_task_point r; taskpoint_start := taskpoint_start r; taskpoint_finish := taskpoint_finish r; task_projection := task_projection r; last_min_location := v; force_full_update := force_full_update r; stats := stats r; task_advance := task_advance r; ordered_settings := ordered_settings r; factory_mode := factory_mode r; dijkstra_min := dijkstra_min r; dijkstra_max := dijkstra_max r; dijkstra_max_total := dijkstra_max_total r; task_events := task_events r; pev_received := pev_received r; pev_receive_time := pev_receive_time r; last_state_time := last_state_time r; next_addr := next_addr r |}.
Definition set_force_full_update (r : t) (v : bool) : t :=
    {| task_points := task_points r; optional_start_points := optional_start_points r; active_task_point := active_task_point r; taskpoint_start := taskpoint_start r; taskpoint_finish := taskpoint_finish r; task_projection := task_projection r; last_min_location := last_min_location r; force_full_update := v; stats := stats r; task_advance := task_advance r; ordered_settings := ordered_settings r; factory_mode := factory_mode r; dijkstra_min := dijkstra_min r; dijkstra_max := dijkstra_max r; dijkstra_max_total := dijkstra_max_total r; task_events := task_events r; pev_received := pev_received r; pev_receive_time := pev_receive_time r; last_state_time := last_state_time r; next_addr := next_addr r |}.
Definition set_stats (r : t) (v : TaskStats.t) : t :=
    {| task_points := task_points r; optional_start_points := optional_start_points r; active_task_point := active_task_point r; taskpoint_start := taskpoint_start r; taskpoint_finish := taskpoint_finish r; task_projection := task_projection r; last_min_location := last_min_location r; force_full_update := force_full_update r; stats := v; task_advance := task_advance r; ordered_settings := ordered_settings r; factory_mode := factory_mode r; dijkstra_min := dijkstra_min r; dijkstra_max := dijkstra_max r; dijkstra_max_total := dijkstra_max_total r; task_events := task_events r; pev_received := pev_received r; pev_receive_time := pev_receive_time r; last_state_time := last_state_time r; next_addr := next_addr r |}.
Definition set_task_advance (r : t) (v : TaskAdvance) : t :=
    {| task_points := task_points r; optional_start_points := optional_start_points r; active_task_point := active_task_point r; taskpoint_start := taskpoint_start r; taskpoint_finish := taskpoint_finish r; task_projection := task_projection r; last_min_location := last_min_location r; force_full_update := force_full_update r; stats := stats r; task_advance := v; ordered_settings := ordered_settings r; factory_mode := factory_mode r; dijkstra_min := dijkstra_min r; dijkstra_max := dijkstra_max r; dijkstra_max_total := dijkstra_max_total r; task_events := task_events r; pev_received := pev_received r; pev_receive_time := pev_receive_time r; last_state_time := last_state_time r; next_addr := next_addr r |}.
Definition set_ordered_settings (r : t) (v : OrderedTaskSettings.t) : t :=
    {| task_points := task_points r; optional_start_points := optional_start_points r; active_task_point := active_task_point r; taskpoint_start := taskpoint_start r; taskpoint_finish := taskpoint_finish r; task_projection := task_projection r; last_min_location := last_min_location r; force_full_update := force_full_update r; stats := stats r; task_advance := task_advance r; ordered_settings := v; factory_mode := factory_mode r; dijkstra_min := dijkstra_min r; dijkstra_max := dijkstra_max r; dijkstra_max_total := dijkstra_max_total r; task_events := task_events r; pev_received := pev_received r; pev_receive_time := pev_receive_time r; last_state_time := last_state_time r; next_addr := next_addr r |}.
Definition set_factory_mode (r : t) (v : TaskFactoryType.t) : t :=
    {| task_points := task_points r; optional_start_points := optional_start_points r; active_task_point := active_task_point r; taskpoint_start := taskpoint_start r; taskpoint_finish := taskpoint_finish r; task_projection := task_projection r; last_min_location := last_min_location r; force_full_update := force_full_update r; stats := stats r; task_advance := task_advance r; ordered_settings := ordered_settings r; factory_mode := v; dijkstra_min := dijkstra_min r; dijkstra_max := dijkstra_max r; dijkstra_max_total := dijkstra_max_total r; task_events := task_events r; pev_received := pev_received r; pev_receive_time := pev_receive_time r; last_state_time := last_state_time r; next_addr := next_addr r |}.
Definition set_dijkstra_min (r : t) (v : option nat) : t :=
    {| task_points := task_points r; optional_start_points := optional_start_points r; active_task_point := active_task_point r; taskpoint_start := taskpoint_start r; taskpoint_finish := taskpoint_finish r; task_projection := task_projection r; last_min_location := last_min_location r; force_full_update := force_full_update r; stats := stats r; task_advance := task_advance r; ordered_settings := ordered_settings r; factory_mode := factory_mode r; dijkstra_min := v; dijkstra_max := dijkstra_max r; dijkstra_max_total := dijkstra_max_total r; task_events := task_events r; pev_received := pev_received r; pev_receive_time := pev_receive_time r; last_state_time := last_state_time r; next_addr := next_addr r |}.
Definition set_dijkstra_max (r : t) (v : option nat) : t :=
    {| task_points := task_points r; optional_start_points := optional_start_points r; active_task_point := active_task_point r; taskpoint_start := taskpoint_start r; taskpoint_finish := taskpoint_finish r; task_projection := task_projection r; last_min_location := last_min_location r; force_full_update := force_full_update r; stats := stats r; task_advance := task_advance r; ordered_settings := ordered_settings r; factory_mode := factory_mode r; dijkstra_min := dijkstra_min r; dijkstra_max := v; dijkstra_max_total := dijkstra_max_total r; task_events := task_events r; pev_received := pev_received r; pev_receive_time := pev_receive_time r; last_state_time := last_state_time r; next_addr := next_addr r |}.
Definition set_dijkstra_max_total (r : t) (v : option nat) : t :=
    {| task_points := task_points r; optional_start_points := optional_start_points r; active_task_point := active_task_point r; taskpoint_start := taskpoint_start r; taskpoint_finish := taskpoint_finish r; task_projection := task_projection r; last_min_location := last_min_location r; force_full_update := force_full_update r; stats := stats r; task_advance := task_advance r; ordered_settings := ordered_settings r; factory_mode := factory_mode r; dijkstra_min := dijkstra_min r; dijkstra_max := dijkstra_max r; dijkstra_max_total := v; task_events := task_events r; pev_received := pev_received r; pev_receive_time := pev_receive_time r; last_state_time := last_state_time r; next_addr := next_addr r |}.
Definition set_task_events (r : t) (v : option (list TaskEvent.t)) : t :=
    {| task_points := task_points r; optional_start_points := optional_start_points r; active_task_point := active_task_point r; taskpoint_start := taskpoint_start r; taskpoint_finish := taskpoint_finish r; task_projection := task_projection r; last_min_location := last_min_location r; force_full_update := force_full_update r; stats := stats r; task_advance := task_advance r; ordered_settings := ordered_settings r; factory_mode := factory_mode r; dijkstra_min := dijkstra_min r; dijkstra_max := dijkstra_max r; dijkstra_max_total := dijkstra_max_total r; task_events := v; pev_received := pev_received r; pev_receive_time := pev_receive_time r; last_state_time := last_state_time r; next_addr := next_addr r |}.
Definition set_pev_received (r : t) (v : bool) : t :=
    {| task_points := task_points r; optional_start_points := optional_start_points r; active_task_point := active_task_point r; taskpoint_start := taskpoint_start r; taskpoint_finish := taskpoint_finish r; task_projection := task_projection r; last_min_location := last_min_location r; force_full_update := force_full_update r; stats := stats r; task_advance := task_advance r; ordered_settings := ordered_settings r; factory_mode := factory_mode r; dijkstra_min := dijkstra_min r; dijkstra_max := dijkstra_max r; dijkstra_max_total := dijkstra_max_total r; task_events := task_events r; pev_received := v; pev_receive_time := pev_receive_time r; last_state_time := last_state_time r; next_addr := next_addr r |}.
Definition set_pev_receive_time (r : t) (v : BrokenTime.t) : t :=
    {| task_points := task_points r; optional_start_points := optional_start_points r; active_task_point := active_task_point r; taskpoint_start := taskpoint_start r; taskpoint_finish := taskpoint_finish r; task_projection := task_projection r; last_min_location := last_min_location r; force_full_update := force_full_update r; stats := stats r; task_advance := task_advance r; ordered_settings := ordered_settings r; factory_mode := factory_mode r; dijkstra_min := dijkstra_min r; dijkstra_max := dijkstra_max r; dijkstra_max_total := dijkstra_max_total r; task_events := task_events r; pev_received := pev_received r; pev_receive_time := v; last_state_time := last_state_time r; next_addr := next_addr r |}.
Definition set_last_state_time (r : t) (v : TimeStamp.t) : t :=
    {| task_points := task_points r; optional_start_points := optional_start_points r; active_task_point := active_task_point r; taskpoint_start := taskpoint_start r; taskpoint_finish := taskpoint_finish r; task_projection := task_projection r; last_min_location := last_min_location r; force_full_update := force_full_update r; stats := stats r; task_advance := task_advance r; ordered_settings := ordered_settings r; factory_mode := factory_mode r; dijkstra_min := dijkstra_min r; dijkstra_max := dijkstra_max r; dijkstra_max_total := dijkstra_max_total r; task_events := task_events r; pev_received := pev_received r; pev_receive_time := pev_receive_time r; last_state_time := v; next_addr := next_addr r |}.
Definition set_next_addr (r : t) (v : addr) : t :=
    {| task_points := task_points r; optional_start_points := optional_start_points r; active_task_point := active_task_point r; taskpoint_start := taskpoint_start r; taskpoint_finish := taskpoint_finish r; task_projection := task_projection r; last_min_location := last_min_location r; force_full_update := force_full_update r; stats := stats r; task_advance := task_advance r; ordered_settings := ordered_settings r; factory_mode := factory_mode r; dijkstra_min := dijkstra_min r; dijkstra_max := dijkstra_max r; dijkstra_max_total := dijkstra_max_total r; task_events := task_events r; pev_received := pev_received r; pev_receive_time := pev_receive_time r; last_state_time := last_state_time r; next_addr := v |}.
End setters.
End OrderedTask.


(** ** The collaborators' operations

    Methods of [OrderedTaskPoint], [StartPoint], [FinishPoint], [TaskLeg],
    [TaskAdvance], the path solvers, the task factory and [AbstractTask]
    that [OrderedTask.cpp] calls but whose code is not among the sources.
    A method that changes its object returns the object's new [sample]; a
    method that walks the chain of neighbours is given the vector of task
    points. *)

Inductive LegScan : Type :=
| LegMin | LegMax | LegMaxTotal | LegScored | LegRemaining | LegTravelled
| LegPlanned.

(** What [AbstractTask::UpdateStatsDistances] may change. *)
Record DistanceUpdate {K : Carriers} : Type := {
  du_distances : DistanceStats;
  du_samples : list SampleState;
  du_last_min_location : GeoPoint;
  du_dijkstra_min : option nat;
  du_dijkstra_max : option nat;
  du_dijkstra_max_total : option nat;
}.

Class Ops {K : Carriers} : Type := {
  (* geometry *)
  GeoPoint_Invalid : GeoPoint;
  GeoPoint_IsValid : GeoPoint -> bool;
  Distance : GeoPoint -> GeoPoint -> Q;
  IntermediatePoint : GeoPoint -> GeoPoint -> Q -> GeoPoint;
  Waypoint_location : Waypoint -> GeoPoint;
  GeoBounds_Invalid : GeoBounds;
  GeoBounds_of : GeoPoint -> GeoBounds;
  TaskProjection_of : GeoBounds -> TaskProjection;
  ProjectInteger : TaskProjection -> GeoPoint -> Z * Z;
  SearchPoint_of : GeoPoint -> TaskProjection -> SearchPoint;
  SearchPoint_GetLocation : SearchPoint -> GeoPoint;
  FlatSquareDistanceTo : SearchPoint -> SearchPoint -> Z;
  (* task points: queries *)
  HasEntered : OrderedTaskPoint.t -> bool;
  HasExited : OrderedTaskPoint.t -> bool;
  HasSampled : OrderedTaskPoint.t -> bool;
  HasTarget : OrderedTaskPoint.t -> bool;
  GetScorePEV : OrderedTaskPoint.t -> bool;
  IsInSector : OrderedTaskPoint.t -> AircraftState.t -> bool;
  BoundingBoxOverlaps : OrderedTaskPoint.t -> FlatBoundingBox.t -> bool;
  GetExitedState : OrderedTaskPoint.t -> AircraftState.t;
  IsPredecessorAllowed : OrderedTaskPoint.t -> bool;
  IsSuccessorAllowed : OrderedTaskPoint.t -> bool;
  Equals : OrderedTaskPoint.t -> OrderedTaskPoint.t -> bool;
  GetSearchPoints : OrderedTaskPoint.t -> list SearchPoint;
  GetBoundaryPoints : OrderedTaskPoint.t -> list SearchPoint;
  GetNominalPoints : OrderedTaskPoint.t -> list SearchPoint;
  CalculateFinishHeightFromStart : OrderedTaskPoint.t -> Q -> Q;
  ScanBounds : OrderedTaskPoint.t -> GeoBounds -> GeoBounds;
  TaskLeg_ScanDistanceNominal : list OrderedTaskPoint.t -> Q;
  (* task points: methods that change the object *)
  TransitionEnter :
    OrderedTaskPoint.t -> AircraftState.t -> AircraftState.t -> bool * SampleState;
  TransitionExit :
    OrderedTaskPoint.t -> AircraftState.t -> AircraftState.t -> bool ->
    TaskProjection -> bool * SampleState;
  UpdateSampleNear :
    OrderedTaskPoint.t -> AircraftState.t -> TaskProjection -> bool * SampleState;
  UpdateSampleFar :
    OrderedTaskPoint.t -> AircraftState.t -> TaskProjection -> bool * SampleState;
  Reset : OrderedTaskPoint.t -> SampleState;
  find_best_start :
    OrderedTaskPoint.t -> AircraftState.t -> OrderedTaskPoint.t -> TaskProjection ->
    SampleState;
  UpdateOZ : list OrderedTaskPoint.t -> OrderedTaskPoint.t -> TaskProjection -> SampleState;
  UpdateBoundingBox : OrderedTaskPoint.t -> TaskProjection -> SampleState;
  SetSearchMin : OrderedTaskPoint.t -> SearchPoint -> SampleState;
  SetSearchMax : OrderedTaskPoint.t -> SearchPoint -> SampleState;
  SetSearchMaxTotal : OrderedTaskPoint.t -> SearchPoint -> SampleState;
  SetFaiFinishHeight : OrderedTaskPoint.t -> Q -> SampleState;
  Clone : OrderedTaskPoint.t -> OrderedTaskSettings.t -> SampleState;
  Clone_waypoint :
    OrderedTaskPoint.t -> OrderedTaskSettings.t -> Waypoint -> SampleState;
  (* the chain of task points *)
  ScanActive : list OrderedTaskPoint.t -> addr -> addr -> list SampleState;
  TaskLeg_ScanDistance :
    LegScan -> option GeoPoint -> list OrderedTaskPoint.t -> Q * list SampleState;
  (* path solvers: a solution gives one point per layer *)
  DistanceMin : list (list SearchPoint) -> SearchPoint -> option (nat -> SearchPoint);
  DistanceMax : list (list SearchPoint) -> option (nat -> SearchPoint);
  (* advance policy *)
  NeedToArm : TaskAdvance -> bool;
  CheckReadyToAdvance :
    TaskAdvance -> OrderedTaskPoint.t -> AircraftState.t -> bool -> bool ->
    bool * TaskAdvance;
  SetArmed : TaskAdvance -> bool -> TaskAdvance;
  (* factory: [true] when [Validate()] reports no error *)
  Validate :
    TaskFactoryType.t -> list OrderedTaskPoint.t -> list OrderedTaskPoint.t -> bool;
  (* base class *)
  UpdateStatsDistances : OrderedTask.t -> GeoPoint -> bool -> DistanceUpdate;
}.

(** ** The ordered task ([OrderedTask.cpp])

    Indices and sizes are [nat]: every decrement in the file is guarded by a
    test that the value is positive and every [size() - 1] by a test that the
    vector is not empty, so no 32-bit wrap-around occurs in the code below
    except where it is written out.  [assert] is compiled out ([NDEBUG]);
    each one is kept as a comment at its place. *)

Section Engine.
Context {K : Carriers} {Op : Ops}.

Abbreviation Point := OrderedTaskPoint.t.
Abbreviation Task := OrderedTask.t.

Local Open Scope bool_scope.

(** *** Objects and pointers *)

Definition addrs (l : list Point) : list addr := fmap OrderedTaskPoint.addr_of l.

(** the objects the task owns *)
Definition objects (t : Task) : list Point :=
  OrderedTask.task_points t ++ OrderedTask.optional_start_points t.

Definition find_object (a : addr) (l : list Point) : option Point :=
  List.find (fun p => Nat.eqb (OrderedTaskPoint.addr_of p) a) l.

Definition deref (ptr : option addr) (t : Task) : result Point :=
  match ptr with
  | None => Fault NullDeref
  | Some a => of_option Dangling (find_object a (objects t))
  end.

(** [v[i]] on a vector *)
Definition at_index (l : list Point) (i : nat) : result Point :=
  of_option OutOfRange (l !! i).

(** a method call that changes the object at address [a] *)
Definition update_in (a : addr) (f : Point -> SampleState) (l : list Point) : list Point :=
  fmap (fun p => if Nat.eqb (OrderedTaskPoint.addr_of p) a
                then OrderedTaskPoint.with_sample p (f p) else p) l.

Definition update_object (a : addr) (f : Point -> SampleState) (t : Task) : Task :=
  OrderedTask.set_optional_start_points
    (OrderedTask.set_task_points t (update_in a f (OrderedTask.task_points t)))
    (update_in a f (OrderedTask.optional_start_points t)).

(** new samples for the objects of a vector, in order *)
Fixpoint restate (l : list Point) (ss : list SampleState) : list Point :=
  match l, ss with
  | p :: l', s :: ss' => OrderedTaskPoint.with_sample p s :: restate l' ss'
  | _, _ => l
  end.

Definition emit (e : TaskEvent.t) (t : Task) : Task :=
  match OrderedTask.task_events t with
  | None => t
  | Some log => OrderedTask.set_task_events t (Some (log ++ [e]))
  end.

Definition GetLocation (p : Point) : GeoPoint :=
  Waypoint_location (OrderedTaskPoint.waypoint p).

Definition TaskSize (t : Task) : nat := length (OrderedTask.task_points t).
Definition GetActiveIndex (t : Task) : nat := OrderedTask.active_task_point t.
Definition HasStart (t : Task) : bool := bool_decide (is_Some (OrderedTask.taskpoint_start t)).
Definition HasFinish (t : Task) : bool := bool_decide (is_Some (OrderedTask.taskpoint_finish t)).
Definition HasOptionalStarts (t : Task) : bool :=
  negb (bool_decide (OrderedTask.optional_start_points t = [])).

Definition GetCylinderRadiusOrMinusOne (oz : ObservationZone.t) : Q :=
  match oz with
  | ObservationZone.Cylinder radius => radius
  | _ => -1
  end.

(** [taskpoint_start->ScanActive( *task_points[active_task_point] )] *)
Definition ScanActive_from (receiver : option addr) (t : Task) : result Task :=
  start ← deref receiver t;
  active ← at_index (OrderedTask.task_points t) (OrderedTask.active_task_point t);
  Ret (OrderedTask.set_task_points t
         (restate (OrderedTask.task_points t)
            (ScanActive (OrderedTask.task_points t)
               (OrderedTaskPoint.addr_of start) (OrderedTaskPoint.addr_of active)))).

(** *** Vectors of task points *)

Inductive Vec : Type := TaskPoints | OptionalStarts.

Definition vec (v : Vec) (t : Task) : list Point :=
  match v with
  | TaskPoints => OrderedTask.task_points t
  | OptionalStarts => OrderedTask.optional_start_points t
  end.

Definition set_vec (v : Vec) (t : Task) (l : list Point) : Task :=
  match v with
  | TaskPoints => OrderedTask.set_task_points t l
  | OptionalStarts => OrderedTask.set_optional_start_points t l
  end.

(** [v[i]->method(...)], a method that changes the object *)
Definition call_at (v : Vec) (i : nat) (f : Point -> SampleState) (t : Task) : result Task :=
  p ← at_index (vec v t) i;
  Ret (set_vec v t (<[i := OrderedTaskPoint.with_sample p (f p)]> (vec v t))).

(** [for (const auto &i : v) i->method(...)], from index [i], [n] objects left *)
Fixpoint for_each_from (v : Vec) (f : Task -> Point -> SampleState) (n i : nat) (t : Task)
  : Task :=
  match n with
  | O => t
  | S n' =>
      match vec v t !! i with
      | Some p =>
          for_each_from v f n' (S i)
            (set_vec v t (<[i := OrderedTaskPoint.with_sample p (f t p)]> (vec v t)))
      | None => t
      end
  end.

Definition for_each (v : Vec) (f : Task -> Point -> SampleState) (t : Task) : Task :=
  for_each_from v f (length (vec v t)) 0 t.

(** *** [SetNeighbours] *)

Definition SetNeighbours (position : nat) (t : Task) : Task :=
  let tps := OrderedTask.task_points t in
  if length tps <=? position then t (* nothing to do *)
  else
    let prev :=
      if 0 <? position then OrderedTaskPoint.addr_of <$> tps !! (position - 1)
      else None in
    let next :=
      if position + 1 <? length tps then OrderedTaskPoint.addr_of <$> tps !! (position + 1)
      else None in
    let t1 :=
      OrderedTask.set_task_points t
        (alter (fun p => OrderedTaskPoint.SetNeighbours p prev next) position tps) in
    if position =? 0 then
      OrderedTask.set_optional_start_points t1
        (fmap (fun tp => OrderedTaskPoint.SetNeighbours tp prev next)
           (OrderedTask.optional_start_points t1))
    else t1.

(** *** [ScanStartFinish], [UpdateStatsGeometry], [UpdateGeometry] *)

Definition ScanStartFinish (t : Task) : bool * Task :=
  match OrderedTask.task_points t with
  | [] =>
      (false, OrderedTask.set_taskpoint_finish (OrderedTask.set_taskpoint_start t None) None)
  | front :: _ =>
      let s :=
        if TaskPointType.eqb (OrderedTaskPoint.GetType front) TaskPointType.START
        then Some (OrderedTaskPoint.addr_of front) else None in
      let f :=
        match last (OrderedTask.task_points t) with
        | Some back =>
            if (1 <? length (OrderedTask.task_points t))
               && TaskPointType.eqb (OrderedTaskPoint.GetType back) TaskPointType.FINISH
            then Some (OrderedTaskPoint.addr_of back) else None
        | None => None
        end in
      let t1 := OrderedTask.set_taskpoint_finish (OrderedTask.set_taskpoint_start t s) f in
      (HasStart t1 && HasFinish t1, t1)
  end.

Definition HasTargets (t : Task) : bool := existsb HasTarget (OrderedTask.task_points t).

(** [CheckTask()]: [true] when the factory's validation reports no error *)
Definition CheckTask_ok (t : Task) : bool :=
  Validate (OrderedTask.factory_mode t) (OrderedTask.task_points t)
    (OrderedTask.optional_start_points t).

Definition UpdateStatsGeometry (t : Task) : Task :=
  let t := snd (ScanStartFinish t) in
  let bounds :=
    match OrderedTask.task_points t with
    | [] => GeoBounds_Invalid
    | first :: _ =>
        (* scan location of task points ... and optional start points *)
        fold_left (fun b tp => ScanBounds tp b) (OrderedTask.optional_start_points t)
          (fold_left (fun b tp => ScanBounds tp b) (OrderedTask.task_points t)
             (GeoBounds_of (GetLocation first)))
    end in
  let st := TaskStats.set_bounds (OrderedTask.stats t) bounds in
  let st := TaskStats.set_task_valid st (CheckTask_ok t) in
  let st := TaskStats.set_has_targets st (TaskStats.task_valid st && HasTargets t) in
  let st :=
    TaskStats.set_is_mat st
      (TaskFactoryType.eqb (OrderedTask.factory_mode t) TaskFactoryType.MAT) in
  let st :=
    TaskStats.set_has_optional_starts st (TaskStats.task_valid st && HasOptionalStarts t) in
  OrderedTask.set_stats t st.

Definition UpdateObservationZones (v : Vec) (projection : TaskProjection) (t : Task) : Task :=
  for_each v (fun t p => UpdateOZ (objects t) p projection) t.

Definition apply_DistanceUpdate (u : DistanceUpdate) (t : Task) : Task :=
  let t := OrderedTask.set_stats t (TaskStats.set_distances (OrderedTask.stats t) (du_distances u)) in
  let t := OrderedTask.set_task_points t (restate (OrderedTask.task_points t) (du_samples u)) in
  let t := OrderedTask.set_last_min_location t (du_last_min_location u) in
  let t := OrderedTask.set_dijkstra_min t (du_dijkstra_min u) in
  let t := OrderedTask.set_dijkstra_max t (du_dijkstra_max u) in
  OrderedTask.set_dijkstra_max_total t (du_dijkstra_max_total u).

Definition UpdateGeometry (t : Task) : result Task :=
  let t := UpdateStatsGeometry t in
  match OrderedTask.task_points t with
  | [] => Ret t
  | first :: _ =>
      t ← ScanActive_from (Some (OrderedTaskPoint.addr_of first)) t;
      let t := OrderedTask.set_task_projection t
                 (TaskProjection_of (TaskStats.bounds (OrderedTask.stats t))) in
      (* update OZ's for items that depend on next-point geometry *)
      let t := UpdateObservationZones TaskPoints (OrderedTask.task_projection t) t in
      let t := UpdateObservationZones OptionalStarts (OrderedTask.task_projection t) t in
      (* the bounding box in projected coordinates *)
      let t := for_each TaskPoints
                 (fun t tp => UpdateBoundingBox tp (OrderedTask.task_projection t)) t in
      let t := for_each OptionalStarts
                 (fun t tp => UpdateBoundingBox tp (OrderedTask.task_projection t)) t in
      front ← at_index (OrderedTask.task_points t) 0;
      let t :=
        if negb (HasEntered front)
        then apply_DistanceUpdate (UpdateStatsDistances t GeoPoint_Invalid true) t
        else t in
      Ret (OrderedTask.set_force_full_update t true)
  end.

(** *** Distances *)

Fixpoint foldM {A : Type} (f : A -> Task -> result Task) (l : list A) (t : Task)
  : result Task :=
  match l with
  | [] => Ret t
  | a :: l' => t' ← f a t; foldM f l' t'
  end.

Definition SetPointSearchMin (tp : nat) (sol : SearchPoint) (t : Task) : result Task :=
  call_at TaskPoints tp (fun p => SetSearchMin p sol) t.

Definition set_tp_search_achieved (tp : nat) (sol : SearchPoint) (t : Task) : result Task :=
  p ← at_index (OrderedTask.task_points t) tp;
  if HasSampled p then SetPointSearchMin tp sol t else Ret t.

Definition SetPointSearchMax (tp : nat) (sol : SearchPoint) (t : Task) : result Task :=
  call_at TaskPoints tp (fun p => SetSearchMax p sol) t.

Definition SetPointSearchMaxTotal (tp : nat) (sol : SearchPoint) (t : Task) : result Task :=
  call_at TaskPoints tp (fun p => SetSearchMaxTotal p sol) t.

(** The solver is allocated on first use; its count goes up with each
    [DistanceMin] it runs. *)
Definition RunDijsktraMin (location : GeoPoint) (t : Task) : result (bool * Task) :=
  let task_size := TaskSize t in
  if task_size <? 2 then Ret (false, t)
  else
    let runs := default 0 (OrderedTask.dijkstra_min t) in
    let t := OrderedTask.set_dijkstra_min t (Some runs) in
    let active_index := GetActiveIndex t in
    (* for (i = active_index; i != task_size; ++i) task_points[i] ... *)
    if task_size <? active_index then Fault OutOfRange
    else
      let boundaries :=
        fmap GetSearchPoints (drop active_index (OrderedTask.task_points t)) in
      let ac := SearchPoint_of location (OrderedTask.task_projection t) in
      let t := OrderedTask.set_dijkstra_min t (Some (S runs)) in
      match DistanceMin boundaries ac with
      | None => Ret (false, t)
      | Some solution =>
          t ← foldM (fun i t => SetPointSearchMin i (solution (i - active_index)) t)
                (seq active_index (task_size - active_index)) t;
          Ret (true, t)
      end.

Definition DistanceIsSignificant_points (a1 a2 : SearchPoint) (dist_threshold : Z) : bool :=
  (uint32 (dist_threshold * dist_threshold) <? FlatSquareDistanceTo a1 a2)%Z.

Definition DistanceIsSignificant (location location_last : GeoPoint) (t : Task) : bool :=
  let a1 := SearchPoint_of location (OrderedTask.task_projection t) in
  let a2 := SearchPoint_of location_last (OrderedTask.task_projection t) in
  DistanceIsSignificant_points a1 a2 1.

Definition GetActiveTaskPoint (t : Task) : option Point :=
  if OrderedTask.active_task_point t <? length (OrderedTask.task_points t)
  then OrderedTask.task_points t !! OrderedTask.active_task_point t
  else None.

(** [task_points.front()->ScanDistance...()] *)
Definition front_scan (kind : LegScan) (location : option GeoPoint) (t : Task)
  : result (Q * Task) :=
  match OrderedTask.task_points t with
  | [] => Fault OutOfRange
  | _ :: _ =>
      let '(d, ss) := TaskLeg_ScanDistance kind location (OrderedTask.task_points t) in
      Ret (d, OrderedTask.set_task_points t (restate (OrderedTask.task_points t) ss))
  end.

(** the test that turns an incremental scan into a full one *)
Definition rescan_needed (last_distance cur_distance : Z) : bool :=
  ((last_distance <? 2000) || (cur_distance <? 2000)
   || (uint32 (cur_distance * 21) <=? uint32 (last_distance * 20))
   || (uint32 (last_distance * 21) <=? uint32 (cur_distance * 20)))%Z.

Definition ScanDistanceMin (location : GeoPoint) (full : bool) (t : Task)
  : result (Q * Task) :=
  let full :=
    if negb full && GeoPoint_IsValid location
       && GeoPoint_IsValid (OrderedTask.last_min_location t)
       && DistanceIsSignificant location (OrderedTask.last_min_location t) t
    then
      match GetActiveTaskPoint t with
      | Some active =>
          let target := Waypoint_location (OrderedTaskPoint.waypoint active) in
          let last_distance :=
            unsigned_of_double (Distance (OrderedTask.last_min_location t) target) in
          let cur_distance := unsigned_of_double (Distance location target) in
          (* do the full scan only if the distance to the active task
             point has changed by more than 5% *)
          if rescan_needed last_distance cur_distance then true else full
      | None => full
      end
    else full in
  t ← (if full then
         '(_, t) ← RunDijsktraMin location t;
         Ret (OrderedTask.set_last_min_location t location)
       else Ret t);
  front_scan LegMin None t.

(** [results] is returned, [None] when the solver was not run or failed;
    [runs] is the count of the solver that is passed in. *)
Definition RunDijsktraMax (runs : nat) (ignoreSampledPoints : bool) (t : Task)
  : result (option (list SearchPoint) * nat) :=
  let task_size := TaskSize t in
  if task_size <? 2 then Ret (None, runs)
  else
    let active_index := GetActiveIndex t in
    let boundaries :=
      imap (fun i p =>
              if (i =? active_index) || ignoreSampledPoints
              then GetBoundaryPoints p (* the full boundary *)
              else GetSearchPoints p) (OrderedTask.task_points t) in
    (* subtract_start_finish_cylinder_radius is the constant true *)
    start ← at_index (OrderedTask.task_points t) 0;
    let start_radius := GetCylinderRadiusOrMinusOne (OrderedTaskPoint.oz start) in
    let boundaries :=
      if Qltb 0 start_radius then <[0 := GetNominalPoints start]> boundaries
      else boundaries in
    finish ← at_index (OrderedTask.task_points t) (task_size - 1);
    let finish_radius := GetCylinderRadiusOrMinusOne (OrderedTaskPoint.oz finish) in
    let boundaries :=
      if Qltb 0 finish_radius
      then <[task_size - 1 := GetNominalPoints finish]> boundaries
      else boundaries in
    match DistanceMax boundaries with
    | None => Ret (None, S runs)
    | Some solution =>
        let point_at (i : nat) : SearchPoint :=
          let r := solution i in
          let r :=
            if (i =? 0) && Qltb 0 start_radius then
              SearchPoint_of
                (IntermediatePoint (GetLocation start)
                   (SearchPoint_GetLocation (solution (i + 1))) start_radius)
                (OrderedTask.task_projection t)
            else r in
          if (i =? task_size - 1) && Qltb 0 finish_radius then
            SearchPoint_of
              (IntermediatePoint (GetLocation finish)
                 (SearchPoint_GetLocation (solution (i - 1))) finish_radius)
              (OrderedTask.task_projection t)
          else r in
        Ret (Some (fmap point_at (seq 0 task_size)), S runs)
    end.

Definition ScanDistanceMax (t : Task) : result (Q * Task) :=
  match OrderedTask.task_points t with
  | [] => Ret (0%Q, t) (* nothing to do! *)
  | _ :: _ =>
      (* assert(active_task_point < task_size) *)
      let runs := default 0 (OrderedTask.dijkstra_max t) in
      '(maxDistancePoints, runs) ← RunDijsktraMax runs false t;
      let t := OrderedTask.set_dijkstra_max t (Some runs) in
      t ← match maxDistancePoints with
          | Some points =>
              foldM (fun '(i, sol) t =>
                       t ← SetPointSearchMax i sol t;
                       if i <=? GetActiveIndex t then set_tp_search_achieved i sol t
                       else Ret t)
                (imap (fun i sol => (i, sol)) points) t
          | None => Ret t
          end;
      front_scan LegMax None t
  end.

Definition ScanDistanceMaxTotal (t : Task) : result (Q * Task) :=
  match OrderedTask.task_points t with
  | [] => Ret (0%Q, t) (* nothing to do! *)
  | _ :: _ =>
      (* assert(active_task_point < task_size) *)
      let runs := default 0 (OrderedTask.dijkstra_max_total t) in
      '(maxDistancePoints, runs) ← RunDijsktraMax runs true t;
      let t := OrderedTask.set_dijkstra_max_total t (Some runs) in
      t ← match maxDistancePoints with
          | Some points =>
              foldM (fun '(i, sol) t => SetPointSearchMaxTotal i sol t)
                (imap (fun i sol => (i, sol)) points) t
          | None => Ret t
          end;
      front_scan LegMaxTotal None t
  end.

(** [dmax] is written only when [force] is set *)
Definition ScanDistanceMinMax (location : GeoPoint) (force : bool) (t : Task)
  : result (Q * option Q * Task) :=
  '(dmax, t) ← (if force then '(d, t) ← ScanDistanceMax t; Ret (Some d, t)
                else Ret (None, t));
  '(dmin, t) ← ScanDistanceMin location force t;
  Ret (dmin, dmax, t).

Definition ScanDistanceNominal (t : Task) : result Q :=
  match OrderedTask.task_points t with
  | [] => Ret 0%Q
  | start :: _ =>
      let d := TaskLeg_ScanDistanceNominal (OrderedTask.task_points t) in
      let radius := GetCylinderRadiusOrMinusOne (OrderedTaskPoint.oz start) in
      (* d -= radius *)
      let d := if Qltb 0 radius && Qltb radius d then Double.sub d radius else d in
      finish ← of_option OutOfRange (last (OrderedTask.task_points t));
      let radius := GetCylinderRadiusOrMinusOne (OrderedTaskPoint.oz finish) in
      let d := if Qltb 0 radius && Qltb radius d then Double.sub d radius else d in
      Ret d
  end.

Definition ScanDistanceScored (location : GeoPoint) (t : Task) : result (Q * Task) :=
  match OrderedTask.task_points t with
  | [] => Ret (0%Q, t)
  | _ :: _ => front_scan LegScored (Some location) t
  end.

Definition ScanDistanceRemaining (location : GeoPoint) (t : Task) : result (Q * Task) :=
  match OrderedTask.task_points t with
  | [] => Ret (0%Q, t)
  | _ :: _ => front_scan LegRemaining (Some location) t
  end.

Definition ScanDistanceTravelled (location : GeoPoint) (t : Task) : result (Q * Task) :=
  match OrderedTask.task_points t with
  | [] => Ret (0%Q, t)
  | _ :: _ => front_scan LegTravelled (Some location) t
  end.

Definition ScanDistancePlanned (t : Task) : result (Q * Task) :=
  match OrderedTask.task_points t with
  | [] => Ret (0%Q, t)
  | _ :: _ => front_scan LegPlanned None t
  end.

(** *** Transitions *)

Definition TaskStarted (soft : bool) (t : Task) : result bool :=
  match OrderedTask.taskpoint_start t with
  | None => Ret false
  | Some _ =>
      start ← deref (OrderedTask.taskpoint_start t) t;
      (* have we really started? *)
      if HasExited start then Ret true
      (* if soft starts allowed, consider started if we progressed to next tp *)
      else if soft && (0 <? OrderedTask.active_task_point t) then Ret true
      else Ret false
  end.

Definition SetActiveTaskPoint (index : nat) (t : Task) : Task :=
  if (length (OrderedTask.task_points t) <=? index)
     || (index =? OrderedTask.active_task_point t)
  then t
  else
    let t := OrderedTask.set_task_advance t (SetArmed (OrderedTask.task_advance t) false) in
    let t := OrderedTask.set_active_task_point t index in
    OrderedTask.set_force_full_update t true.

Definition UpdateStartTransition (state : AircraftState.t) (start : addr) (t : Task)
  : result Task :=
  if OrderedTask.active_task_point t =? 0 then
    (* find boundary point that produces shortest distance from state
       to that point to next tp point *)
    s ← deref (OrderedTask.taskpoint_start t) t;
    next ← at_index (OrderedTask.task_points t) 1;
    Ret (update_object (OrderedTaskPoint.addr_of s)
           (fun s => find_best_start s state next (OrderedTask.task_projection t)) t)
  else
    p ← deref (Some start) t;
    if negb (HasExited p) && negb (IsInSector p state)
    then Ret (update_object start Reset t) (* reset on invalid transition to outside *)
    else Ret t.

Definition CheckTransitionPoint (point : addr)
    (state state_last : AircraftState.t) (bb_now bb_last : FlatBoundingBox.t)
    (transition_enter transition_exit : bool)
    (pev_ready_to_advance is_start : bool) (t : Task)
  : result (bool * (bool * bool) * Task) :=
  p ← deref (Some point) t;
  let nearby := BoundingBoxOverlaps p bb_now || BoundingBoxOverlaps p bb_last in
  let '(transition_enter, t) :=
    if nearby then
      let '(fired, s) := TransitionEnter p state state_last in
      let t := update_object point (fun _ => s) t in
      if fired then (true, emit (TaskEvent.EnterTransition point) t)
      else (transition_enter, t)
    else (transition_enter, t) in
  p ← deref (Some point) t;
  let '(transition_exit, t) :=
    if nearby then
      let '(fired, s) :=
        TransitionExit p state state_last pev_ready_to_advance
          (OrderedTask.task_projection t) in
      let t := update_object point (fun _ => s) t in
      if fired then (true, emit (TaskEvent.ExitTransition point) t)
      else (transition_exit, t)
    else (transition_exit, t) in
  t ← (if is_start then UpdateStartTransition state point t else Ret t);
  p ← deref (Some point) t;
  let '(updated, s) :=
    if nearby then UpdateSampleNear p state (OrderedTask.task_projection t)
    else UpdateSampleFar p state (OrderedTask.task_projection t) in
  Ret (updated, (transition_enter, transition_exit), update_object point (fun _ => s) t).

Definition SelectOptionalStart (pos : nat) (t : Task) : result Task :=
  (* assert(pos < optional_start_points.size()) *)
  match OrderedTask.task_points t with
  | [] => Fault OutOfRange
  | front :: rest =>
      (* put task start onto end *)
      let optional := OrderedTask.optional_start_points t ++ [front] in
      (* set task start from top optional item *)
      chosen ← at_index optional pos;
      let t := OrderedTask.set_task_points t (chosen :: rest) in
      (* remove top optional item from list *)
      let t := OrderedTask.set_optional_start_points t (delete pos optional) in
      (* update neighbour links *)
      let t := SetNeighbours 0 t in
      let t := if 1 <? length (OrderedTask.task_points t) then SetNeighbours 1 t else t in
      (* we've changed the task, so update geometry *)
      UpdateGeometry t
  end.

(** The loop over the optional start points: [i] is the position of the
    iterator and [n] the distance to [end]. *)
Fixpoint CheckTransitionOptionalStart_from (n i : nat)
    (state state_last : AircraftState.t) (bb_now bb_last : FlatBoundingBox.t)
    (transition_enter transition_exit : bool) (pev_based_advance_ready : bool)
    (full_update : bool) (t : Task)
  : result (bool * (bool * bool) * Task) :=
  match n with
  | O => Ret (full_update, (transition_enter, transition_exit), t)
  | S n' =>
      p ← at_index (OrderedTask.optional_start_points t) i;
      '(updated, (transition_enter, transition_exit), t) ←
        CheckTransitionPoint (OrderedTaskPoint.addr_of p) state state_last bb_now bb_last
          transition_enter transition_exit pev_based_advance_ready true t;
      let full_update := full_update || updated in
      if transition_enter || transition_exit then
        (* we have entered or exited this optional start point, so select it *)
        t ← SelectOptionalStart i t;
        Ret (full_update, (transition_enter, transition_exit), t)
      else
        CheckTransitionOptionalStart_from n' (S i) state state_last bb_now bb_last
          transition_enter transition_exit pev_based_advance_ready full_update t
  end.

Definition CheckTransitionOptionalStart
    (state state_last : AircraftState.t) (bb_now bb_last : FlatBoundingBox.t)
    (transition_enter transition_exit : bool) (pev_based_advance_ready : bool) (t : Task)
  : result (bool * (bool * bool) * Task) :=
  CheckTransitionOptionalStart_from (length (OrderedTask.optional_start_points t)) 0
    state state_last bb_now bb_last transition_enter transition_exit
    pev_based_advance_ready false t.

(** One pass of the body of [for (int i = t_min; i <= t_max; i++)]; the
    result carries the value of [i] at the end of the body. *)
Definition CheckTransitions_body (i n_task : Z)
    (state state_last : AircraftState.t) (bb_now bb_last : FlatBoundingBox.t)
    (full_update : bool) (t : Task)
  : result (Z * bool * Task) :=
  '(updated, (transition_enter, transition_exit), t) ←
    (if (i =? 0)%Z then
       CheckTransitionOptionalStart state state_last bb_now bb_last false false
         (TaskStats.pev_based_advance_ready (OrderedTask.stats t)) t
     else Ret (false, (false, false), t));
  let full_update := full_update || updated in
  p ← at_index (OrderedTask.task_points t) (Z.to_nat i);
  '(updated, (transition_enter, transition_exit), t) ←
    CheckTransitionPoint (OrderedTaskPoint.addr_of p) state state_last bb_now bb_last
      transition_enter transition_exit
      (TaskStats.pev_based_advance_ready (OrderedTask.stats t)) (i =? 0)%Z t;
  let full_update := full_update || updated in
  if (i =? Z.of_nat (OrderedTask.active_task_point t))%Z then
    let last_request_armed := NeedToArm (OrderedTask.task_advance t) in
    p ← at_index (OrderedTask.task_points t) (Z.to_nat i);
    let '(ready, advance) :=
      CheckReadyToAdvance (OrderedTask.task_advance t) p state
        transition_enter transition_exit in
    let t := OrderedTask.set_task_advance t advance in
    if ready then
      let t := OrderedTask.set_task_advance t (SetArmed (OrderedTask.task_advance t) false) in
      if (i + 1 <? n_task)%Z then
        let i := (i + 1)%Z in
        let t := SetActiveTaskPoint (Z.to_nat i) t in
        t ← ScanActive_from (OrderedTask.taskpoint_start t) t;
        p ← at_index (OrderedTask.task_points t) (Z.to_nat i);
        let t := emit (TaskEvent.ActiveAdvanced (OrderedTaskPoint.addr_of p) i) t in
        (* on sector exit, must update samples since start sector
           exit transition clears samples *)
        Ret (i, true, t)
      else Ret (i, full_update, t)
    else if negb last_request_armed && NeedToArm (OrderedTask.task_advance t) then
      Ret (i, full_update, emit (TaskEvent.RequestArm (OrderedTaskPoint.addr_of p)) t)
    else Ret (i, full_update, t)
  else Ret (i, full_update, t).

Fixpoint CheckTransitions_loop (fuel : nat) (i t_max n_task : Z)
    (state state_last : AircraftState.t) (bb_now bb_last : FlatBoundingBox.t)
    (full_update : bool) (t : Task)
  : result (bool * Task) :=
  if (i <=? t_max)%Z then
    match fuel with
    | O => Fault OutOfFuel
    | S fuel' =>
        '(i, full_update, t) ←
          CheckTransitions_body i n_task state state_last bb_now bb_last full_update t;
        CheckTransitions_loop fuel' (i + 1)%Z t_max n_task state state_last bb_now bb_last
          full_update t
    end
  else Ret (full_update, t).

(** The part of [CheckTransitions] that follows the loop. *)
Definition CheckTransitions_end (last_started_time : TimeStamp.t)
    (last_finished full_update : bool) (t : Task)
  : result (bool * Task) :=
  let t :=
    OrderedTask.set_stats t
      (TaskStats.set_need_to_arm (OrderedTask.stats t)
         (NeedToArm (OrderedTask.task_advance t))) in
  t ← ScanActive_from (OrderedTask.taskpoint_start t) t;
  finished ←
    match OrderedTask.taskpoint_finish t with
    | None => Ret false
    | Some _ =>
        finish ← deref (OrderedTask.taskpoint_finish t) t;
        Ret (HasEntered finish)
    end;
  let t :=
    OrderedTask.set_stats t (TaskStats.set_task_finished (OrderedTask.stats t) finished) in
  started ← TaskStarted false t;
  t ← (if (started : bool) then
         start ← deref (OrderedTask.taskpoint_start t) t;
         let start_state := GetExitedState start in
         (* assert(start_state.HasTime()) *)
         let t :=
           OrderedTask.set_stats t
             (TaskStats.set_start (OrderedTask.stats t)
                (StartStats_SetStarted start_state)) in
         let t :=
           OrderedTask.set_stats t
             (TaskStats.set_pev_based_advance_ready (OrderedTask.stats t) false) in
         match OrderedTask.taskpoint_finish t with
         | None => Ret t
         | Some f =>
             finish ← deref (OrderedTask.taskpoint_finish t) t;
             (* Calculation based on FAI finish or max_height_loss *)
             Ret (update_object f
                    (fun finish =>
                       SetFaiFinishHeight finish
                         (CalculateFinishHeightFromStart finish
                            (StartStats.altitude
                               (TaskStats.start (OrderedTask.stats t))))) t)
         end
       else Ret t);
  let t :=
    if Qltb last_started_time
         (StartStats.GetStartedTime (TaskStats.start (OrderedTask.stats t)))
    then emit TaskEvent.TaskStart t else t in
  let t :=
    if TaskStats.task_finished (OrderedTask.stats t) && negb last_finished
    then emit TaskEvent.TaskFinish t else t in
  Ret (full_update, t).

Definition CheckTransitions (state state_last : AircraftState.t) (t : Task)
  : result (bool * Task) :=
  match OrderedTask.taskpoint_start t with
  | None => Ret (false, t)
  | Some _ =>
      t ← ScanActive_from (OrderedTask.taskpoint_start t) t;
      if negb (AircraftState.flying state) then Ret (false, t)
      else
        let n_task := Z.of_nat (length (OrderedTask.task_points t)) in
        if (n_task =? 0)%Z then Ret (false, t)
        else
          let bb_last :=
            {| FlatBoundingBox.center :=
                 ProjectInteger (OrderedTask.task_projection t)
                   (AircraftState.location state_last);
               FlatBoundingBox.radius := 1 |} in
          let bb_now :=
            {| FlatBoundingBox.center :=
                 ProjectInteger (OrderedTask.task_projection t)
                   (AircraftState.location state);
               FlatBoundingBox.radius := 1 |} in
          let last_started_time :=
            StartStats.GetStartedTime (TaskStats.start (OrderedTask.stats t)) in
          let last_finished := TaskStats.task_finished (OrderedTask.stats t) in
          let t_min := Z.max 0 (Z.of_nat (OrderedTask.active_task_point t) - 1) in
          let t_max := Z.min (n_task - 1) (Z.of_nat (OrderedTask.active_task_point t)) in
          '(full_update, t) ←
            CheckTransitions_loop (Z.to_nat (t_max - t_min + 1)) t_min t_max n_task
              state state_last bb_now bb_last false t;
          CheckTransitions_end last_started_time last_finished full_update t
  end.

(** *** Pilot events *)

Definition UpdateAfterPEV (state : AircraftState.t) (bt : BrokenTime.t) (t : Task) : Task :=
  let t := OrderedTask.set_pev_received t false in
  if Qltb (AircraftState.time state) 0 then t
  else
    let new_start := RoughTime.FromSinceMidnight (AircraftState.time state) in
    let new_end := RoughTime.Invalid in
    let ots := OrderedTask.ordered_settings t in
    let start := OrderedTaskSettings.start_constraints ots in
    (* Set start time to the next full minute after wait time. *)
    let new_start_after_wait :=
      if (0 <? StartConstraints.pev_start_wait_time start)%Z then
        let w := Z.quot (StartConstraints.pev_start_wait_time start) 60 in
        let w := if (0 <? BrokenTime.second bt)%Z then (w + 1)%Z else w in
        RoughTime.plus new_start w
      else new_start in
    if StartConstraints.score_pev start then
      let t :=
        OrderedTask.set_stats t
          (TaskStats.set_pev_based_advance_ready (OrderedTask.stats t) true) in
      let new_start := new_start_after_wait in
      (* start window end is not limited *)
      let ts := {| RoughTimeSpan.start := new_start; RoughTimeSpan.finish := new_end |} in
      OrderedTask.set_ordered_settings t
        (OrderedTaskSettings.set_start_constraints ots
           (StartConstraints.set_open_time_span start ts))
    else
      let new_start := new_start_after_wait in
      let new_end :=
        if (0 <? StartConstraints.pev_start_window start)%Z then
          RoughTime.plus new_start
            (RoughTimeDelta.FromDuration (StartConstraints.pev_start_window start))
        else new_end in
      let ts := {| RoughTimeSpan.start := new_start; RoughTimeSpan.finish := new_end |} in
      OrderedTask.set_ordered_settings t
        (OrderedTaskSettings.set_start_constraints ots
           (StartConstraints.set_open_time_span start ts)).

Definition SetPEV (bt : BrokenTime.t) (t : Task) : result (bool * Task) :=
  if negb (TimeStamp.IsDefined (OrderedTask.last_state_time t)) then Ret (false, t)
  else
    refused ←
      match OrderedTask.taskpoint_start t with
      | None => Ret false
      | Some _ =>
          start ← deref (OrderedTask.taskpoint_start t) t;
          Ret (GetScorePEV start
               && negb (RoughTimeSpan.HasBegun
                          (StartConstraints.open_time_span
                             (OrderedTaskSettings.start_constraints
                                (OrderedTask.ordered_settings t)))
                          (RoughTime.FromTimeStamp (OrderedTask.last_state_time t))))
      end;
    if (refused : bool) then
      (* the start gate is not yet open when we left the OZ *)
      Ret (false, t)
    else
      let t := OrderedTask.set_pev_received t true in
      Ret (true, OrderedTask.set_pev_receive_time t bt).

(** *** Editing the task *)

(** [new_tp.Clone(task_behaviour, ordered_settings)]: a new object at a
    fresh address, with no neighbours yet *)
Definition clone_point (new_tp : Point) (t : Task) : Point * Task :=
  ({| OrderedTaskPoint.addr_of := OrderedTask.next_addr t;
      OrderedTaskPoint.type := OrderedTaskPoint.type new_tp;
      OrderedTaskPoint.waypoint := OrderedTaskPoint.waypoint new_tp;
      OrderedTaskPoint.oz := OrderedTaskPoint.oz new_tp;
      OrderedTaskPoint.prev := None;
      OrderedTaskPoint.next := None;
      OrderedTaskPoint.sample := Clone new_tp (OrderedTask.ordered_settings t) |},
   OrderedTask.set_next_addr t (S (OrderedTask.next_addr t))).

(** [tp.Clone(task_behaviour, ordered_settings, std::move(waypoint))] *)
Definition clone_point_at (tp : Point) (wp : Waypoint) (t : Task) : Point * Task :=
  ({| OrderedTaskPoint.addr_of := OrderedTask.next_addr t;
      OrderedTaskPoint.type := OrderedTaskPoint.type tp;
      OrderedTaskPoint.waypoint := wp;
      OrderedTaskPoint.oz := OrderedTaskPoint.oz tp;
      OrderedTaskPoint.prev := None;
      OrderedTaskPoint.next := None;
      OrderedTaskPoint.sample := Clone_waypoint tp (OrderedTask.ordered_settings t) wp |},
   OrderedTask.set_next_addr t (S (OrderedTask.next_addr t))).

Definition ErasePoint (index : nat) (t : Task) : Task :=
  OrderedTask.set_task_points t (delete index (OrderedTask.task_points t)).

Definition EraseOptionalStartPoint (index : nat) (t : Task) : Task :=
  OrderedTask.set_optional_start_points t
    (delete index (OrderedTask.optional_start_points t)).

Definition Remove (position : nat) (t : Task) : bool * Task :=
  if length (OrderedTask.task_points t) <=? position then (false, t)
  else
    let t :=
      if (position <? OrderedTask.active_task_point t)
         || ((0 <? OrderedTask.active_task_point t)
             && (OrderedTask.active_task_point t =? length (OrderedTask.task_points t) - 1))
      then OrderedTask.set_active_task_point t (OrderedTask.active_task_point t - 1)
      else t in
    let t := ErasePoint position t in
    let t :=
      if position <? length (OrderedTask.task_points t) then SetNeighbours position t
      else t in
    let t := if 0 <? position then SetNeighbours (position - 1) t else t in
    (true, t).

Definition RemoveOptionalStart (position : nat) (t : Task) : bool * Task :=
  if length (OrderedTask.optional_start_points t) <=? position then (false, t)
  else
    let t := EraseOptionalStartPoint position t in
    let t := if 1 <? length (OrderedTask.task_points t) then SetNeighbours 0 t else t in
    (true, t).

Definition Append (new_tp : Point) (t : Task) : bool * Task :=
  let refused :=
    match last (OrderedTask.task_points t) with
    | None => false (* the task is empty *)
    | Some back =>
        (* is the new_tp allowed in this context? *)
        negb (IsPredecessorAllowed new_tp)
        (* can a tp be appended after the last one? *)
        || negb (IsSuccessorAllowed back)
    end in
  if refused then (false, t)
  else
    let i := length (OrderedTask.task_points t) in
    let '(c, t) := clone_point new_tp t in
    let t := OrderedTask.set_task_points t (OrderedTask.task_points t ++ [c]) in
    let t :=
      if 0 <? i then SetNeighbours (i - 1) t
      else
        (* give it a value when we have one tp so it is not uninitialised *)
        OrderedTask.set_last_min_location t (GetLocation new_tp) in
    (true, SetNeighbours i t).

Definition AppendOptionalStart (new_tp : Point) (t : Task) : bool * Task :=
  let '(c, t) := clone_point new_tp t in
  let t :=
    OrderedTask.set_optional_start_points t (OrderedTask.optional_start_points t ++ [c]) in
  let t := if 1 <? length (OrderedTask.task_points t) then SetNeighbours 0 t else t in
  (true, t).

Definition Insert (new_tp : Point) (position : nat) (t : Task) : bool * Task :=
  if length (OrderedTask.task_points t) <=? position then Append new_tp t
  else
    let tps := OrderedTask.task_points t in
    let successor_allowed_before :=
      match tps !! (position - 1) with Some p => IsSuccessorAllowed p | None => true end in
    let predecessor_allowed_at :=
      match tps !! position with Some p => IsPredecessorAllowed p | None => true end in
    if (* is the new_tp allowed in this context? *)
       ((0 <? position) && negb (IsPredecessorAllowed new_tp))
       || negb (IsSuccessorAllowed new_tp)
       (* can a tp be inserted at this position? *)
       || ((0 <? position) && negb successor_allowed_before)
       || negb predecessor_allowed_at
    then (false, t)
    else
      let t :=
        if position <=? OrderedTask.active_task_point t
        then OrderedTask.set_active_task_point t (S (OrderedTask.active_task_point t))
        else t in
      let '(c, t) := clone_point new_tp t in
      let t := OrderedTask.set_task_points t (take position tps ++ c :: drop position tps) in
      let t := if 0 <? position then SetNeighbours (position - 1) t else t in
      let t := SetNeighbours position t in
      (true, SetNeighbours (position + 1) t).

Definition Replace (new_tp : Point) (position : nat) (t : Task) : bool * Task :=
  match OrderedTask.task_points t !! position with
  | None => (false, t) (* position >= task_points.size() *)
  | Some old =>
      if Equals old new_tp then (true, t) (* nothing to do *)
      else if (* is the new_tp allowed in this context? *)
              ((0 <? position) && negb (IsPredecessorAllowed new_tp))
              || ((position + 1 <? length (OrderedTask.task_points t))
                  && negb (IsSuccessorAllowed new_tp))
      then (false, t)
      else
        let '(c, t) := clone_point new_tp t in
        let t := OrderedTask.set_task_points t (<[position := c]> (OrderedTask.task_points t)) in
        let t := if 0 <? position then SetNeighbours (position - 1) t else t in
        let t := SetNeighbours position t in
        let t :=
          if position + 1 <? length (OrderedTask.task_points t)
          then SetNeighbours (position + 1) t else t in
        (true, t)
  end.

Definition ReplaceOptionalStart (new_tp : Point) (position : nat) (t : Task) : bool * Task :=
  match OrderedTask.optional_start_points t !! position with
  | None => (false, t) (* position >= optional_start_points.size() *)
  | Some old =>
      if Equals old new_tp then (true, t) (* nothing to do *)
      else
        let '(c, t) := clone_point new_tp t in
        let t :=
          OrderedTask.set_optional_start_points t
            (<[position := c]> (OrderedTask.optional_start_points t)) in
        (true, SetNeighbours 0 t)
  end.

Definition RelocateOptionalStart (position : nat) (wp : Waypoint) (t : Task) : bool * Task :=
  match OrderedTask.optional_start_points t !! position with
  | None => (false, t)
  | Some old =>
      let '(c, t) := clone_point_at old wp t in
      (true,
       OrderedTask.set_optional_start_points t
         (<[position := c]> (OrderedTask.optional_start_points t)))
  end.

Definition Relocate (position : nat) (wp : Waypoint) (t : Task) : bool * Task :=
  match OrderedTask.task_points t !! position with
  | None => (false, t) (* position >= TaskSize() *)
  | Some old =>
      let '(new_tp, t) := clone_point_at old wp t in
      Replace new_tp position t
  end.

(** *** Views of a task used in the statements *)

(** an object without its neighbour links *)
Definition unlinked (p : Point) : Point := OrderedTaskPoint.SetNeighbours p None None.

(** the links [SetNeighbours(i)] gives to slot [i] of the vector *)
Definition neighbours_of (l : list Point) (i : nat) : option addr * option addr :=
  (if 0 <? i then OrderedTaskPoint.addr_of <$> l !! (i - 1) else None,
   OrderedTaskPoint.addr_of <$> l !! (i + 1)).

Definition linked (l : list Point) (i : nat) : Prop :=
  forall p, l !! i = Some p ->
            (OrderedTaskPoint.prev p, OrderedTaskPoint.next p) = neighbours_of l i.

(** what [ScanStartFinish] leaves in the two cached pointers *)
Definition start_of (l : list Point) : option addr :=
  match l with
  | front :: _ =>
      if TaskPointType.eqb (OrderedTaskPoint.GetType front) TaskPointType.START
      then Some (OrderedTaskPoint.addr_of front) else None
  | [] => None
  end.

Definition finish_of (l : list Point) : option addr :=
  match last l with
  | Some back =>
      if (1 <? length l)
         && TaskPointType.eqb (OrderedTaskPoint.GetType back) TaskPointType.FINISH
      then Some (OrderedTaskPoint.addr_of back) else None
  | None => None
  end.

Definition is_start_point (p : Point) : bool :=
  TaskPointType.eqb (OrderedTaskPoint.type p) TaskPointType.START.

(** A task that [CheckTransitions] can work on: two points or more, the
    active index inside the vector, a start point, the cached pointers as
    [UpdateGeometry] leaves them, start points as optional starts, and no
    two objects at one address. *)
Definition ready (t : Task) : bool :=
  (2 <=? length (OrderedTask.task_points t))
  && (OrderedTask.active_task_point t <? length (OrderedTask.task_points t))
  && bool_decide (is_Some (OrderedTask.taskpoint_start t))
  && bool_decide (OrderedTask.taskpoint_start t = start_of (OrderedTask.task_points t))
  && bool_decide (OrderedTask.taskpoint_finish t = finish_of (OrderedTask.task_points t))
  && forallb is_start_point (OrderedTask.optional_start_points t)
  && bool_decide (NoDup (addrs (objects t))).

(** [TaskStart] and [TaskFinish] against the other callbacks *)
Definition minor (e : TaskEvent.t) : bool :=
  match e with
  | TaskEvent.TaskStart | TaskEvent.TaskFinish => false
  | _ => true
  end.

(** the sink has received [new] on top of what it had *)
Definition delivered (new : list TaskEvent.t) (t t' : Task) : Prop :=
  OrderedTask.task_events t' = (fun log => log ++ new) <$> OrderedTask.task_events t.

(** [CheckTransitionPoint] on the optional start points [i], ...,
    [i + n - 1], one after the other, whatever their transitions *)
Fixpoint examine_optional_starts (n i : nat)
    (state state_last : AircraftState.t) (bb_now bb_last : FlatBoundingBox.t)
    (transition_enter transition_exit : bool) (pev_based_advance_ready : bool)
    (full_update : bool) (t : Task)
  : result (bool * (bool * bool) * Task) :=
  match n with
  | O => Ret (full_update, (transition_enter, transition_exit), t)
  | S n' =>
      p ← at_index (OrderedTask.optional_start_points t) i;
      '(updated, (transition_enter, transition_exit), t) ←
        CheckTransitionPoint (OrderedTaskPoint.addr_of p) state state_last bb_now bb_last
          transition_enter transition_exit pev_based_advance_ready true t;
      examine_optional_starts n' (S i) state state_last bb_now bb_last
        transition_enter transition_exit pev_based_advance_ready
        (full_update || updated) t
  end.

(** the bounding box of a fix, as [CheckTransitions] builds it *)
Definition bounding_box (location : GeoPoint) (t : Task) : FlatBoundingBox.t :=
  {| FlatBoundingBox.center := ProjectInteger (OrderedTask.task_projection t) location;
     FlatBoundingBox.radius := 1 |}.

(** *** Relations between the task before and after a call *)

Definition ident (p : Point) : addr * TaskPointType.t :=
  (OrderedTaskPoint.addr_of p, OrderedTaskPoint.type p).

(** the members of a task besides the two vectors *)
Definition blank (t : Task) : Task :=
  OrderedTask.set_optional_start_points (OrderedTask.set_task_points t []) [].

Definition muted (t : Task) : Task := OrderedTask.set_task_events t None.

(** Only the samples and links of the objects have changed. *)
Definition quiet (t t' : Task) : Prop :=
  ident <$> OrderedTask.task_points t' = ident <$> OrderedTask.task_points t
  /\ ident <$> OrderedTask.optional_start_points t'
     = ident <$> OrderedTask.optional_start_points t
  /\ blank t' = blank t.

(** The same, except that callbacks other than [TaskStart] and
    [TaskFinish] may have been delivered. *)
Definition noisy (t t' : Task) : Prop :=
  ident <$> OrderedTask.task_points t' = ident <$> OrderedTask.task_points t
  /\ ident <$> OrderedTask.optional_start_points t'
     = ident <$> OrderedTask.optional_start_points t
  /\ muted (blank t') = muted (blank t)
  /\ exists new, delivered new t t' /\ forallb minor new = true.

(** What every step of [CheckTransitions] before its last part keeps: the
    size, an active index that does not go down and stays inside the
    vector, the start statistics, the pilot event flag and the finished
    flag. *)
Definition onward (t t' : Task) : Prop :=
  length (OrderedTask.task_points t') = length (OrderedTask.task_points t)
  /\ OrderedTask.active_task_point t <= OrderedTask.active_task_point t'
  /\ (OrderedTask.active_task_point t < length (OrderedTask.task_points t) ->
      OrderedTask.active_task_point t' < length (OrderedTask.task_points t))
  /\ TaskStats.start (OrderedTask.stats t') = TaskStats.start (OrderedTask.stats t)
  /\ TaskStats.pev_based_advance_ready (OrderedTask.stats t')
     = TaskStats.pev_based_advance_ready (OrderedTask.stats t)
  /\ TaskStats.task_finished (OrderedTask.stats t')
     = TaskStats.task_finished (OrderedTask.stats t)
  /\ exists new, delivered new t t' /\ forallb minor new = true.

(** the members that neither a method call on an object nor
    [UpdateGeometry] touches *)
Definition same_scalars (t t' : Task) : Prop :=
  OrderedTask.active_task_point t' = OrderedTask.active_task_point t
  /\ OrderedTask.task_events t' = OrderedTask.task_events t
  /\ OrderedTask.task_advance t' = OrderedTask.task_advance t
  /\ TaskStats.start (OrderedTask.stats t') = TaskStats.start (OrderedTask.stats t)
  /\ TaskStats.pev_based_advance_ready (OrderedTask.stats t')
     = TaskStats.pev_based_advance_ready (OrderedTask.stats t)
  /\ TaskStats.task_finished (OrderedTask.stats t')
     = TaskStats.task_finished (OrderedTask.stats t).

(** the two cached pointers are as [ScanStartFinish] computes them *)
Definition fresh (t : Task) : Prop :=
  OrderedTask.taskpoint_start t = start_of (OrderedTask.task_points t)
  /\ OrderedTask.taskpoint_finish t = finish_of (OrderedTask.task_points t).

(** the objects keep their place and the cached pointers their value *)
Definition settled (t t' : Task) : Prop :=
  ident <$> OrderedTask.task_points t' = ident <$> OrderedTask.task_points t
  /\ ident <$> OrderedTask.optional_start_points t'
     = ident <$> OrderedTask.optional_start_points t
  /\ OrderedTask.taskpoint_start t' = OrderedTask.taskpoint_start t
  /\ OrderedTask.taskpoint_finish t' = OrderedTask.taskpoint_finish t
  /\ same_scalars t t'.

(** the objects, the cached pointers and the active index stay *)
Definition placed (t t' : Task) : Prop :=
  ident <$> OrderedTask.task_points t' = ident <$> OrderedTask.task_points t
  /\ ident <$> OrderedTask.optional_start_points t'
     = ident <$> OrderedTask.optional_start_points t
  /\ OrderedTask.taskpoint_start t' = OrderedTask.taskpoint_start t
  /\ OrderedTask.taskpoint_finish t' = OrderedTask.taskpoint_finish t
  /\ OrderedTask.active_task_point t' = OrderedTask.active_task_point t.

(** the objects keep their place in the two vectors *)
Definition arranged (t t' : Task) : Prop :=
  ident <$> OrderedTask.task_points t' = ident <$> OrderedTask.task_points t
  /\ ident <$> OrderedTask.optional_start_points t'
     = ident <$> OrderedTask.optional_start_points t.

End Engine.

(** ** Further methods of [OrderedTask] *)

Section MoreEngine.
Context {K : Carriers} {Op : Ops}.
Abbreviation Point := OrderedTaskPoint.t.
Abbreviation Task := OrderedTask.t.

(** [for (unsigned i = 1; i < TaskSize() - 1; i++)] of
    [GetLastIntermediateAchieved], from index [i] with [n] passes left *)
Fixpoint GetLastIntermediateAchieved_from (n i : nat) (t : Task) : result nat :=
  match n with
  | O => Ret (TaskSize t - 2)
  | S n' =>
      p ← at_index (OrderedTask.task_points t) i;
      if negb (HasEntered p) then Ret (i - 1)
      else GetLastIntermediateAchieved_from n' (S i) t
  end.

Definition GetLastIntermediateAchieved (t : Task) : result nat :=
  if TaskSize t <? 2 then Ret 0
  else GetLastIntermediateAchieved_from (TaskSize t - 1 - 1) 1 t.

(** [std::size_t] arithmetic wraps at 2^64 (at 2^32 on a 32 bit target,
    which makes no difference to an [unsigned] index) *)
Definition size_t (z : Z) : Z := (z mod 2 ^ 64)%Z.

(** The result is the [AATPoint *], null as [None]. *)
Definition GetAATTaskPoint (TPindex : nat) (t : Task) : result (option addr) :=
  if (size_t (Z.of_nat (length (OrderedTask.task_points t)) - 1) <? Z.of_nat TPindex)%Z
  then Ret None
  else
    p ← at_index (OrderedTask.task_points t) TPindex;
    if TaskPointType.eqb (OrderedTaskPoint.GetType p) TaskPointType.AAT
    then Ret (Some (OrderedTaskPoint.addr_of p))
    else Ret None.

(** [index_offset] is an [int]; the sum is taken in [unsigned]. *)
Definition IsValidTaskPoint (index_offset : Z) (t : Task) : bool :=
  let index := uint32 (Z.of_nat (OrderedTask.active_task_point t) + index_offset) in
  (index <? Z.of_nat (length (OrderedTask.task_points t)))%Z.

Definition RemoveAllPoints (t : Task) : Task :=
  let t := OrderedTask.set_task_points t [] in
  let t := OrderedTask.set_optional_start_points t [] in
  let t := OrderedTask.set_active_task_point t 0 in
  let t := OrderedTask.set_taskpoint_start t None in
  let t := OrderedTask.set_taskpoint_finish t None in
  OrderedTask.set_force_full_update t true.

(** *** Views used in the statements *)

(** [n] calls of [SelectOptionalStart(0)], one after the other *)
Fixpoint SelectOptionalStart_0_times (n : nat) (t : Task) : result Task :=
  match n with
  | O => Ret t
  | S n' => t ← SelectOptionalStart 0 t; SelectOptionalStart_0_times n' t
  end.

(** [CheckTransitions] on the fixes of a flight, each with the fix before
    it as [state_last] *)
Fixpoint CheckTransitions_along (fixes : list AircraftState.t)
    (state_last : AircraftState.t) (t : Task) : result Task :=
  match fixes with
  | [] => Ret t
  | state :: rest =>
      '(_, t) ← CheckTransitions state state_last t;
      CheckTransitions_along rest state t
  end.

End MoreEngine.

(** ** A one-dimensional world

    Modelled from the spec: the collaborators of the ordered task (geometry,
    observation zones, task points, advance policy, solvers), which are not
    among the sources, reduced to positions along one great circle, in
    metres.  A cylinder contains the positions within its radius of its
    centre; a point is entered when the last fix was outside and this one is
    inside; it is exited when the last fix was inside and this one is
    outside, and for a start point only if the pilot event is ready or the
    start does not score pilot events; the exited state is the fix of the
    exit.  The concrete scenarios further down run the engine in this
    world. *)

Module Track.

Local Open Scope Q_scope.

Record gps_fix : Type := {
  fix_location : option Q;
  fix_altitude : Q;
  fix_ground_speed : Q;
  fix_time : Q;
  fix_flying : bool;
}.

Record sample : Type := {
  entered : bool;
  exited : option gps_fix;
  score_pev : bool;
  search_min : option Q;
  fai_finish_height : Q;
}.

#[global] Instance carriers : Carriers := {|
  GeoPoint := option Q;
  GeoBounds := option (Q * Q);
  TaskProjection := unit;
  SearchPoint := option Q * Z;
  Waypoint := option Q;
  SampleState := sample;
  TaskAdvance := bool;
  DistanceStats := unit;
|}.

Definition fix_of (s : AircraftState.t) : gps_fix :=
  {| fix_location := AircraftState.location s;
     fix_altitude := AircraftState.altitude s;
     fix_ground_speed := AircraftState.ground_speed s;
     fix_time := AircraftState.time s;
     fix_flying := AircraftState.flying s |}.

Definition state_of (f : gps_fix) : AircraftState.t :=
  {| AircraftState.location := fix_location f;
     AircraftState.altitude := fix_altitude f;
     AircraftState.ground_speed := fix_ground_speed f;
     AircraftState.time := fix_time f;
     AircraftState.flying := fix_flying f |}.

Definition no_fix : gps_fix :=
  {| fix_location := None; fix_altitude := 0; fix_ground_speed := 0;
     fix_time := TimeStamp.Undefined; fix_flying := false |}.

Definition distance (a b : option Q) : Q :=
  match a, b with
  | Some x, Some y => Qabs (x - y)
  | _, _ => 0
  end.

Definition flat (p : option Q) : Z :=
  match p with Some x => Qfloor x | None => 0%Z end.

Definition centre (p : OrderedTaskPoint.t) : option Q := OrderedTaskPoint.waypoint p.

Definition contains (p : OrderedTaskPoint.t) (loc : option Q) : bool :=
  match OrderedTaskPoint.oz p, centre p, loc with
  | ObservationZone.Cylinder r, Some c, Some x => Qle_bool (Qabs (x - c)) r
  | _, _, _ => false
  end.

Definition set_entered (s : sample) : sample :=
  {| entered := true; exited := exited s; score_pev := score_pev s;
     search_min := search_min s; fai_finish_height := fai_finish_height s |}.

Definition set_exited (s : sample) (f : gps_fix) : sample :=
  {| entered := entered s; exited := Some f; score_pev := score_pev s;
     search_min := search_min s; fai_finish_height := fai_finish_height s |}.

Definition set_search_min (s : sample) (x : option Q) : sample :=
  {| entered := entered s; exited := exited s; score_pev := score_pev s;
     search_min := x; fai_finish_height := fai_finish_height s |}.

Definition set_fai_finish_height (s : sample) (h : Q) : sample :=
  {| entered := entered s; exited := exited s; score_pev := score_pev s;
     search_min := search_min s; fai_finish_height := h |}.

Definition fresh (pev : bool) : sample :=
  {| entered := false; exited := None; score_pev := pev; search_min := None;
     fai_finish_height := 0 |}.

Definition is_start (p : OrderedTaskPoint.t) : bool :=
  TaskPointType.eqb (OrderedTaskPoint.type p) TaskPointType.START.

Definition transition_enter (p : OrderedTaskPoint.t) (state state_last : AircraftState.t)
  : bool * sample :=
  if negb (contains p (AircraftState.location state_last))
     && contains p (AircraftState.location state)
  then (true, set_entered (OrderedTaskPoint.sample p))
  else (false, OrderedTaskPoint.sample p).

Definition transition_exit (p : OrderedTaskPoint.t) (state state_last : AircraftState.t)
    (pev_ready : bool) : bool * sample :=
  if contains p (AircraftState.location state_last)
     && negb (contains p (AircraftState.location state))
     && (negb (is_start p) || pev_ready || negb (score_pev (OrderedTaskPoint.sample p)))
  then (true, set_exited (OrderedTaskPoint.sample p) (fix_of state))
  else (false, OrderedTaskPoint.sample p).

Fixpoint legs (l : list (option Q)) : Q :=
  match l with
  | a :: (b :: _) as l' => distance a b + legs l'
  | _ => 0
  end.

Definition search_point (p : OrderedTaskPoint.t) : option Q :=
  match search_min (OrderedTaskPoint.sample p) with
  | Some x => Some x
  | None => centre p
  end.

Definition boundary (p : OrderedTaskPoint.t) : list (option Q * Z) :=
  match OrderedTaskPoint.oz p, centre p with
  | ObservationZone.Cylinder r, Some c =>
      [(Some (c - r), Qfloor (c - r)); (Some (c + r), Qfloor (c + r))]
  | _, c => [(c, flat c)]
  end.

Definition first_of_layer (layers : list (list (option Q * Z))) (i : nat) : option Q * Z :=
  match layers !! i with
  | Some (sp :: _) => sp
  | _ => (None, 0%Z)
  end.

Definition equal_points (p q : OrderedTaskPoint.t) : bool :=
  TaskPointType.eqb (OrderedTaskPoint.type p) (OrderedTaskPoint.type q)
  && match centre p, centre q with
     | Some x, Some y => Qeq_bool x y
     | None, None => true
     | _, _ => false
     end
  && match OrderedTaskPoint.oz p, OrderedTaskPoint.oz q with
     | ObservationZone.Cylinder r, ObservationZone.Cylinder r' => Qeq_bool r r'
     | ObservationZone.Line r, ObservationZone.Line r' => Qeq_bool r r'
     | ObservationZone.FaiSector r, ObservationZone.FaiSector r' => Qeq_bool r r'
     | ObservationZone.Keyhole, ObservationZone.Keyhole => true
     | ObservationZone.Custom, ObservationZone.Custom => true
     | _, _ => false
     end.

#[global] Instance ops : Ops := {|
  GeoPoint_Invalid := None;
  GeoPoint_IsValid := fun p => match p with Some _ => true | None => false end;
  Distance := distance;
  IntermediatePoint := fun a b d =>
    match a, b with
    | Some x, Some y => if Qle_bool x y then Some (x + d) else Some (x - d)
    | _, _ => a
    end;
  Waypoint_location := fun w => w;
  GeoBounds_Invalid := None;
  GeoBounds_of := fun p => match p with Some x => Some (x, x) | None => None end;
  TaskProjection_of := fun _ => tt;
  ProjectInteger := fun _ p => (flat p, 0%Z);
  SearchPoint_of := fun p _ => (p, flat p);
  SearchPoint_GetLocation := fst;
  FlatSquareDistanceTo := fun a b => ((snd a - snd b) * (snd a - snd b))%Z;
  HasEntered := fun p => entered (OrderedTaskPoint.sample p);
  HasExited := fun p =>
    match exited (OrderedTaskPoint.sample p) with Some _ => true | None => false end;
  HasSampled := fun p => entered (OrderedTaskPoint.sample p);
  HasTarget := fun p => TaskPointType.eqb (OrderedTaskPoint.type p) TaskPointType.AAT;
  GetScorePEV := fun p => score_pev (OrderedTaskPoint.sample p);
  IsInSector := fun p state => contains p (AircraftState.location state);
  BoundingBoxOverlaps := fun _ _ => true;
  GetExitedState := fun p =>
    state_of (default no_fix (exited (OrderedTaskPoint.sample p)));
  IsPredecessorAllowed := fun p => negb (is_start p);
  IsSuccessorAllowed := fun p =>
    negb (TaskPointType.eqb (OrderedTaskPoint.type p) TaskPointType.FINISH);
  Equals := equal_points;
  GetSearchPoints := fun p => [(search_point p, flat (search_point p))];
  GetBoundaryPoints := boundary;
  GetNominalPoints := fun p => [(centre p, flat (centre p))];
  CalculateFinishHeightFromStart := fun _ altitude => altitude - 1000;
  ScanBounds := fun p b =>
    match centre p, b with
    | Some x, Some (lo, hi) => Some (Qmin lo x, Qmax hi x)
    | Some x, None => Some (x, x)
    | None, _ => b
    end;
  TaskLeg_ScanDistanceNominal := fun l => legs (map centre l);
  TransitionEnter := transition_enter;
  TransitionExit := fun p state state_last pev_ready _ =>
    transition_exit p state state_last pev_ready;
  UpdateSampleNear := fun p _ _ => (false, OrderedTaskPoint.sample p);
  UpdateSampleFar := fun p _ _ => (false, OrderedTaskPoint.sample p);
  Reset := fun p => fresh (score_pev (OrderedTaskPoint.sample p));
  find_best_start := fun p _ _ _ => OrderedTaskPoint.sample p;
  UpdateOZ := fun _ p _ => OrderedTaskPoint.sample p;
  UpdateBoundingBox := fun p _ => OrderedTaskPoint.sample p;
  SetSearchMin := fun p sp => set_search_min (OrderedTaskPoint.sample p) (fst sp);
  SetSearchMax := fun p _ => OrderedTaskPoint.sample p;
  SetSearchMaxTotal := fun p _ => OrderedTaskPoint.sample p;
  SetFaiFinishHeight := fun p h => set_fai_finish_height (OrderedTaskPoint.sample p) h;
  Clone := fun _ settings =>
    fresh (StartConstraints.score_pev (OrderedTaskSettings.start_constraints settings));
  Clone_waypoint := fun _ settings _ =>
    fresh (StartConstraints.score_pev (OrderedTaskSettings.start_constraints settings));
  ScanActive := fun l _ _ => map OrderedTaskPoint.sample l;
  TaskLeg_ScanDistance := fun _ _ l =>
    (legs (map search_point l), map OrderedTaskPoint.sample l);
  DistanceMin := fun layers _ => Some (first_of_layer layers);
  DistanceMax := fun layers => Some (first_of_layer layers);
  NeedToArm := fun _ => false;
  CheckReadyToAdvance := fun advance p _ transition_enter transition_exit =>
    (if is_start p then transition_exit else transition_enter, advance);
  SetArmed := fun _ armed => armed;
  Validate := fun _ tps _ =>
    match tps with p :: _ :: _ => is_start p | _ => false end;
  UpdateStatsDistances := fun t _ _ =>
    {| du_distances := tt;
       du_samples := map OrderedTaskPoint.sample (OrderedTask.task_points t);
       du_last_min_location := OrderedTask.last_min_location t;
       du_dijkstra_min := OrderedTask.dijkstra_min t;
       du_dijkstra_max := OrderedTask.dijkstra_max t;
       du_dijkstra_max_total := OrderedTask.dijkstra_max_total t |};
|}.

(** Builders for the scenarios. *)

Definition point (a : addr) (ty : TaskPointType.t) (c r : Q) : OrderedTaskPoint.t :=
  {| OrderedTaskPoint.addr_of := a; OrderedTaskPoint.type := ty;
     OrderedTaskPoint.waypoint := Some c;
     OrderedTaskPoint.oz := ObservationZone.Cylinder r;
     OrderedTaskPoint.prev := None; OrderedTaskPoint.next := None;
     OrderedTaskPoint.sample := fresh false |}.

Definition aircraft (x altitude speed time : Q) (fly : bool) : AircraftState.t :=
  {| AircraftState.location := Some x; AircraftState.altitude := altitude;
     AircraftState.ground_speed := speed; AircraftState.time := time;
     AircraftState.flying := fly |}.

Definition settings (pev : bool) (wait window : Z) : OrderedTaskSettings.t :=
  {| OrderedTaskSettings.start_constraints :=
       {| StartConstraints.open_time_span :=
            {| RoughTimeSpan.start := RoughTime.Invalid;
               RoughTimeSpan.finish := RoughTime.Invalid |};
          StartConstraints.score_pev := pev;
          StartConstraints.pev_start_wait_time := wait;
          StartConstraints.pev_start_window := window |};
     OrderedTaskSettings.aat_min_time := 0%Z |}.

(** The task a default-constructed [OrderedTask] starts as. *)
Definition empty_task : OrderedTask.t :=
  {| OrderedTask.task_points := [];
     OrderedTask.optional_start_points := [];
     OrderedTask.active_task_point := 0%nat;
     OrderedTask.taskpoint_start := None;
     OrderedTask.taskpoint_finish := None;
     OrderedTask.task_projection := tt;
     OrderedTask.last_min_location := None;
     OrderedTask.force_full_update := false;
     OrderedTask.stats :=
       {| TaskStats.bounds := None; TaskStats.task_valid := false;
          TaskStats.has_targets := false; TaskStats.is_mat := false;
          TaskStats.has_optional_starts := false; TaskStats.task_finished := false;
          TaskStats.start :=
            {| StartStats.advanced_by_pev := false;
               StartStats.time := TimeStamp.Undefined;
               StartStats.altitude := 0; StartStats.ground_speed := 0 |};
          TaskStats.pev_based_advance_ready := false;
          TaskStats.need_to_arm := false; TaskStats.inside_oz := false;
          TaskStats.distances := tt |};
     OrderedTask.task_advance := false;
     OrderedTask.ordered_settings := settings false 0 0;
     OrderedTask.factory_mode := TaskFactoryType.RACING;
     OrderedTask.dijkstra_min := None;
     OrderedTask.dijkstra_max := None;
     OrderedTask.dijkstra_max_total := None;
     OrderedTask.task_events := Some [];
     OrderedTask.pev_received := false;
     OrderedTask.pev_receive_time :=
       {| BrokenTime.hour := 0%Z; BrokenTime.minute := 0%Z; BrokenTime.second := 0%Z |};
     OrderedTask.last_state_time := TimeStamp.Undefined;
     OrderedTask.next_addr := 1%nat |}.

(** Append the points in order, then the optional starts, then
    [UpdateGeometry], as [Clone] does. *)
Definition build (points optional : list OrderedTaskPoint.t) : result OrderedTask.t :=
  let t := fold_left (fun t p => snd (Append p t)) points empty_task in
  let t := fold_left (fun t p => snd (AppendOptionalStart p t)) optional t in
  UpdateGeometry t.

End Track.

(** ** Scenarios

    Tasks and flights in the one-dimensional world, for the concrete
    cases of the statements further down. *)

Module Scenarios.
Import Track.

Local Open Scope Q_scope.

Definition unwrap (r : result OrderedTask.t) : OrderedTask.t :=
  match r with Ret t => t | Fault _ => empty_task end.

Definition nth_point (t : OrderedTask.t) (i : nat) : OrderedTaskPoint.t :=
  default (point 0 TaskPointType.UNORDERED 0 0) (OrderedTask.task_points t !! i).

Definition after (r : result (bool * OrderedTask.t)) : OrderedTask.t :=
  match r with Ret (_, t) => t | Fault _ => empty_task end.

(** Start and Finish, cylinders of 1000 m, 111195 m apart. *)
Definition racing : OrderedTask.t :=
  unwrap (build [point 0 TaskPointType.START 0 1000;
                 point 0 TaskPointType.FINISH 111195 1000] []).

(** The flight: outside the start, inside it, out of it at 100 s (1000 m,
    30 m/s), on the leg, inside the finish. *)
Definition before_start : AircraftState.t := aircraft (-2000) 900 30 10 true.
Definition in_start : AircraftState.t := aircraft 0 900 30 50 true.
Definition out_of_start : AircraftState.t := aircraft 1500 1000 30 100 true.
Definition on_leg : AircraftState.t := aircraft 50000 1000 30 2000 true.
Definition in_finish : AircraftState.t := aircraft 110500 800 30 4000 true.

Definition racing_entered : OrderedTask.t :=
  after (CheckTransitions in_start before_start racing).
Definition racing_started : OrderedTask.t :=
  after (CheckTransitions out_of_start in_start racing_entered).
Definition racing_on_leg : OrderedTask.t :=
  after (CheckTransitions on_leg out_of_start racing_started).
Definition racing_finished : OrderedTask.t :=
  after (CheckTransitions in_finish on_leg racing_on_leg).

(** A second pilot event after the start, on a task that scores pilot
    events: [UpdateAfterPEV] raises [pev_based_advance_ready] again. *)
Definition pev_racing : OrderedTask.t :=
  let t := OrderedTask.set_ordered_settings racing_started (settings true 0 0) in
  UpdateAfterPEV out_of_start
    {| BrokenTime.hour := 0; BrokenTime.minute := 1; BrokenTime.second := 40 |} t.

(** Two cylinders of 6000 m, 10000 m apart. *)
Definition overlapping : OrderedTask.t :=
  unwrap (build [point 0 TaskPointType.START 0 6000;
                 point 0 TaskPointType.FINISH 10000 6000] []).

(** The [double]s nearest to 0.1 and to 10000.1: a start cylinder of
    0.1 m and a finish cylinder of 10000 m, 10000.1 m apart. *)
Definition a_tenth : Q := Double.round (1 # 10).
Definition ten_thousand_and_a_tenth : Q := Double.round (100001 # 10).

Definition grazing : OrderedTask.t :=
  unwrap (build [point 0 TaskPointType.START 0 a_tenth;
                 point 0 TaskPointType.FINISH ten_thousand_and_a_tenth 10000] []).

(** A start point alone. *)
Definition lone_start : OrderedTask.t :=
  unwrap (build [point 0 TaskPointType.START 0 1000] []).

(** A turnpoint and a finish, no start point. *)
Definition no_start : OrderedTask.t :=
  unwrap (build [point 0 TaskPointType.AST 0 1000;
                 point 0 TaskPointType.FINISH 20000 1000] []).

(** Out of the start cylinder, on the ground. *)
Definition on_ground : AircraftState.t := aircraft 1500 300 0 100 false.

(** One primary start at 0 and the optional starts at 5000 and 10000. *)
Definition with_optional_starts : OrderedTask.t :=
  unwrap (build [point 0 TaskPointType.START 0 1000;
                 point 0 TaskPointType.FINISH 111195 1000]
                [point 0 TaskPointType.START 5000 1000;
                 point 0 TaskPointType.START 10000 1000]).

Definition near_second_optional : AircraftState.t := aircraft 8500 900 30 10 true.
Definition in_second_optional : AircraftState.t := aircraft 10000 900 30 50 true.

Definition second_optional : OrderedTaskPoint.t :=
  default (point 0 TaskPointType.UNORDERED 0 0)
    (OrderedTask.optional_start_points with_optional_starts !! 1%nat).

Definition second_optional_fired : OrderedTask.t :=
  match
    CheckTransitionPoint (OrderedTaskPoint.addr_of second_optional)
      in_second_optional near_second_optional
      (bounding_box (AircraftState.location in_second_optional) with_optional_starts)
      (bounding_box (AircraftState.location near_second_optional) with_optional_starts)
      false false false true with_optional_starts
  with
  | Ret (_, _, t) => t
  | Fault _ => empty_task
  end.

(** Four points, the third one active. *)
Definition four_points : OrderedTask.t :=
  SetActiveTaskPoint 2
    (unwrap (build [point 0 TaskPointType.START 0 1000;
                    point 0 TaskPointType.AST 10000 500;
                    point 0 TaskPointType.AST 20000 500;
                    point 0 TaskPointType.FINISH 30000 1000] [])).

(** A wait of 5 minutes and a window of 10 minutes, pilot events not
    scored; the last fix was at 12:03:20. *)
Definition pev_window : OrderedTask.t :=
  OrderedTask.set_last_state_time
    (OrderedTask.set_ordered_settings racing (settings false 300 600)) 43400.

Definition at_12_03_20 : BrokenTime.t :=
  {| BrokenTime.hour := 12; BrokenTime.minute := 3; BrokenTime.second := 20 |}.

(** Start at 0 and the active finish at 20000; a full scan with the
    aircraft at 10000, 10000 m before the finish. *)
Definition two_legs : OrderedTask.t :=
  SetActiveTaskPoint 1
    (unwrap (build [point 0 TaskPointType.START 0 1000;
                    point 0 TaskPointType.FINISH 20000 1000] [])).

Definition position (x : Q) : @GeoPoint carriers := Some x.

Definition scanned_at (x : Q) (t : OrderedTask.t) : OrderedTask.t :=
  match ScanDistanceMin (position x) true t with
  | Ret (_, t) => t
  | Fault _ => empty_task
  end.

(** The active point at 0, the last solve 2000 m on one side of it. *)
Definition around_finish : OrderedTask.t :=
  scanned_at (-2000)
    (SetActiveTaskPoint 1
       (unwrap (build [point 0 TaskPointType.START (-50000) 1000;
                       point 0 TaskPointType.FINISH 0 1000] []))).

(** Start and a turnpoint, no finish yet. *)
Definition open_ended : OrderedTask.t :=
  unwrap (build [point 0 TaskPointType.START 0 1000;
                 point 0 TaskPointType.AST 10000 500] []).

Definition new_finish : OrderedTaskPoint.t := point 0 TaskPointType.FINISH 20000 1000.

End Scenarios.

(** ** More scenarios *)

Module MoreScenarios.
Import Track Scenarios.

Local Open Scope Q_scope.

(** a turnpoint to insert *)
Definition turnpoint : OrderedTaskPoint.t := point 0 TaskPointType.AST 5000 500.

(** Start, an AAT area and Finish. *)
Definition area_task : OrderedTask.t :=
  unwrap (build [point 0 TaskPointType.START 0 1000;
                 point 0 TaskPointType.AAT 10000 5000;
                 point 0 TaskPointType.FINISH 30000 1000] []).

(** The flight of the racing task, fix by fix. *)
Definition racing_flight : list AircraftState.t :=
  [in_start; out_of_start; on_leg; in_finish].

(** The start scores pilot events, with a wait of 5 minutes. *)
Definition pev_scored : OrderedTask.t :=
  OrderedTask.set_ordered_settings racing (settings true 300 0).

End MoreScenarios.

(** * Theorems *)

(** ** Reasoning about results *)

Lemma bind_Ret {A B : Type} (a : A) (k : A -> result B) : (Ret a ≫= k) = k a.
Proof. reflexivity. Qed.

Lemma bind_Fault {A B : Type} (f : fault) (k : A -> result B) :
  (Fault f ≫= k) = Fault f.
Proof. reflexivity. Qed.

Lemma bind_Ret_inv {A B : Type} (m : result A) (k : A -> result B) (b : B) :
  (m ≫= k) = Ret b -> exists a, m = Ret a /\ k a = Ret b.
Proof. destruct m as [a|f]; [intros H; exists a; auto|intros [=]]. Qed.

Ltac inv_bind H :=
  let a := fresh "x" in
  let E := fresh "E" in
  apply bind_Ret_inv in H as (a & E & H).

(** ** Rounding to [double] *)

Module Double_facts.
Import Double.
Local Open Scope Q_scope.

Lemma two_pow_pos (e : Z) : 0 < 2 ^ e.
Proof. apply Qpower_0_lt. reflexivity. Qed.

Lemma two_pow_Z (k : Z) : (0 <= k)%Z -> 2 ^ k == inject_Z (2 ^ k).
Proof. intros H. symmetry. apply (Zpower_Qpower 2 k H). Qed.

Lemma two_pow_plus (a b : Z) : 2 ^ (a + b) == 2 ^ a * 2 ^ b.
Proof. apply Qpower_plus. discriminate. Qed.

Lemma two_pow_succ (a : Z) : 2 ^ (a + 1) == 2 * 2 ^ a.
Proof. rewrite two_pow_plus. change (2 ^ 1) with 2. ring. Qed.

(** [ilog2 x] is the exponent of the binade of [x] *)
Lemma ilog2_spec (x : Q) : 0 < x -> 2 ^ ilog2 x <= x /\ x < 2 ^ (ilog2 x + 1).
Proof.
  intros Hx. destruct x as [n d]. unfold ilog2. cbn [Qnum Qden].
  assert (Hn : (0 < n)%Z) by (unfold Qlt in Hx; cbn in Hx; lia).
  set (a := Z.log2 n). set (b := Z.log2 (Z.pos d)).
  destruct (Z.log2_spec n Hn) as [Ha1 Ha2]. fold a in Ha1, Ha2.
  destruct (Z.log2_spec (Z.pos d) eq_refl) as [Hb1 Hb2]. fold b in Hb1, Hb2.
  assert (Ha : (0 <= a)%Z) by apply Z.log2_nonneg.
  assert (Hb : (0 <= b)%Z) by apply Z.log2_nonneg.
  assert (Hx' : n # d == inject_Z n / inject_Z (Z.pos d)) by apply Qmake_Qdiv.
  assert (Hd : 0 < inject_Z (Z.pos d)) by reflexivity.
  assert (A1 : 2 ^ a <= inject_Z n) by (rewrite two_pow_Z by lia; rewrite <- Zle_Qle; lia).
  assert (A2 : inject_Z n < 2 ^ (a + 1))
    by (rewrite two_pow_Z by lia; rewrite <- Zlt_Qlt; replace (a + 1)%Z with (Z.succ a) by lia; lia).
  assert (B1 : 2 ^ b <= inject_Z (Z.pos d)) by (rewrite two_pow_Z by lia; rewrite <- Zle_Qle; lia).
  assert (B2 : inject_Z (Z.pos d) < 2 ^ (b + 1))
    by (rewrite two_pow_Z by lia; rewrite <- Zlt_Qlt; replace (b + 1)%Z with (Z.succ b) by lia; lia).
  pose proof (two_pow_pos a) as Pa. pose proof (two_pow_pos b) as Pb.
  pose proof (two_pow_pos (a - b)) as Pab.
  assert (E : 2 ^ a == 2 ^ (a - b) * 2 ^ b).
  { rewrite <- two_pow_plus. replace (a - b + b)%Z with a by lia. reflexivity. }
  rewrite two_pow_succ in A2, B2.
  set (N := inject_Z n) in *. set (D := inject_Z (Z.pos d)) in *.
  set (P := 2 ^ (a - b)) in *. set (PA := 2 ^ a) in *. set (PB := 2 ^ b) in *.
  assert (X : (n # d) * D == N).
  { rewrite Hx'. field. intros H0. rewrite H0 in Hd. discriminate. }
  destruct (Qle_bool P (n # d)) eqn:Ho.
  - apply Qle_bool_iff in Ho. split; [exact Ho|].
    rewrite two_pow_succ. fold P.
    apply Qnot_le_lt. intros Hc.
    assert (2 * P * D <= (n # d) * D) by (apply Qmult_le_compat_r; [exact Hc|lra]).
    assert (2 * P * PB <= 2 * P * D) by (apply Qmult_le_l; [nra|exact B1]).
    nra.
  - assert (Hlt : (n # d) < P).
    { apply Qnot_le_lt. intros Hc. apply Qle_bool_iff in Hc. congruence. }
    replace (a - b - 1 + 1)%Z with (a - b)%Z by lia. fold P. split; [|exact Hlt].
    assert (Eh : P == 2 * 2 ^ (a - b - 1)).
    { rewrite <- two_pow_succ. replace (a - b - 1 + 1)%Z with (a - b)%Z by lia. reflexivity. }
    set (H := 2 ^ (a - b - 1)) in *.
    apply Qnot_lt_le. intros Hc.
    assert ((n # d) * D < H * D) by (apply Qmult_lt_compat_r; [exact Hd|exact Hc]).
    assert (H * D < H * (2 * PB)).
    { apply Qmult_lt_l; [|exact B2]. pose proof (two_pow_pos (a - b - 1)). exact H1. }
    nra.
Qed.

Lemma ilog2_mono (x y : Q) : 0 < x -> x <= y -> (ilog2 x <= ilog2 y)%Z.
Proof.
  intros Hx Hxy.
  destruct (ilog2_spec x Hx) as [Lx _].
  destruct (ilog2_spec y) as [_ Uy]; [lra|].
  assert (H : 2 ^ ilog2 x < 2 ^ (ilog2 y + 1)) by lra.
  apply Qpower_lt_compat_l_inv in H; [lia|reflexivity].
Qed.

Lemma Qabs_of_pos (x : Q) : 0 < x -> Qabs x = x.
Proof.
  destruct x as [n d]. unfold Qlt. cbn. intros H. f_equal. lia.
Qed.

Lemma ulp_pos (x : Q) : 0 < ulp x.
Proof. apply two_pow_pos. Qed.

(** a larger number has an [ulp] that is a power of two times as large *)
Lemma ulp_mono (x y : Q) :
  0 < x -> x <= y -> exists k : Z, (0 < k)%Z /\ ulp y == inject_Z k * ulp x.
Proof.
  intros Hx Hxy. unfold ulp.
  rewrite (Qabs_of_pos x Hx), (Qabs_of_pos y) by lra.
  pose proof (ilog2_mono x y Hx Hxy) as Hm.
  set (ex := Z.max (ilog2 x) emin). set (ey := Z.max (ilog2 y) emin).
  assert (Hk : (0 <= ey - ex)%Z) by (unfold ex, ey; lia).
  exists (2 ^ (ey - ex))%Z. split; [apply Z.pow_pos_nonneg; lia|].
  rewrite <- two_pow_Z by exact Hk. rewrite <- two_pow_plus.
  replace (ey - ex + (ex - (prec - 1)))%Z with (ey - (prec - 1))%Z by lia. reflexivity.
Qed.

Lemma rne_floor (x : Q) : (Qfloor x <= rne x <= Qfloor x + 1)%Z.
Proof.
  unfold rne. destruct (Qcompare _ _); [destruct (Z.even _)| |]; lia.
Qed.

Lemma rne_le (x : Q) (m : Z) : x <= inject_Z m -> (rne x <= m)%Z.
Proof.
  intros H. pose proof (Qfloor_resp_le _ _ H) as Hf. rewrite Qfloor_Z in Hf.
  destruct (Z.eq_dec (Qfloor x) m) as [E|E]; [|pose proof (rne_floor x); lia].
  unfold rne. rewrite E.
  assert (Hlt : x - inject_Z m < 1 # 2) by lra.
  rewrite (proj1 (Qlt_alt _ _) Hlt). lia.
Qed.

Lemma rne_ge (x : Q) (m : Z) : inject_Z m <= x -> (m <= rne x)%Z.
Proof.
  intros H. pose proof (Qfloor_resp_le _ _ H) as Hf. rewrite Qfloor_Z in Hf.
  pose proof (rne_floor x). lia.
Qed.

Lemma round_eq (x y : Q) : x == y -> round x = round y.
Proof. intros H. unfold round. rewrite (Qred_complete _ _ H). reflexivity. Qed.

Lemma round_unfold (x : Q) :
  ~ x == 0 -> round x == inject_Z (rne (Qred x / ulp (Qred x))) * ulp (Qred x).
Proof.
  intros H. unfold round.
  destruct (Qeq_bool (Qred x) 0) eqn:E.
  - apply Qeq_bool_eq in E. rewrite Qred_correct in E. contradiction.
  - apply Qred_correct.
Qed.

Lemma round_0 : round 0 = 0.
Proof. reflexivity. Qed.

(** Rounding does not cross a double: below a double [d], the rounded
    value of a positive number is between 0 and [d]. *)
Lemma round_below (y d : Q) :
  is_double d -> 0 < y -> y <= d -> 0 <= round y /\ round y <= d.
Proof.
  intros Hd Hy Hyd. unfold is_double in Hd.
  assert (Hd0 : ~ d == 0) by (intros E; lra).
  assert (Hy0 : ~ y == 0) by (intros E; lra).
  rewrite (round_unfold d Hd0) in Hd. rewrite (round_unfold y Hy0).
  pose proof (Qred_correct y) as Ey. pose proof (Qred_correct d) as Ed.
  set (y' := Qred y) in *. set (d' := Qred d) in *.
  assert (Hy' : 0 < y') by lra. assert (Hyd' : y' <= d') by lra.
  destruct (ulp_mono y' d' Hy' Hyd') as (k & Hk & Hu).
  pose proof (ulp_pos y') as Up. set (u := ulp y') in *.
  set (m := rne (d' / ulp d')) in *.
  assert (Hdm : d == inject_Z (m * k) * u).
  { rewrite <- Hd, Hu, inject_Z_mult. ring. }
  split.
  - apply Qmult_le_0_compat; [|lra].
    change 0 with (inject_Z 0). rewrite <- Zle_Qle. apply rne_ge.
    change (inject_Z 0) with 0. apply Qle_shift_div_l; lra.
  - rewrite Hdm. apply Qmult_le_compat_r; [|lra].
    rewrite <- Zle_Qle. apply rne_le.
    apply Qle_shift_div_r; [exact Up|]. rewrite <- Hdm. lra.
Qed.

Lemma rne_near (x : Q) : Qabs (inject_Z (rne x) - x) <= 1 # 2.
Proof.
  pose proof (Qfloor_le x) as Lo. pose proof (Qlt_floor x) as Hi.
  rewrite inject_Z_plus in Hi. change (inject_Z 1) with 1 in Hi.
  apply Qabs_Qle_condition. unfold rne.
  destruct (Qcompare (x - inject_Z (Qfloor x)) (1 # 2)) eqn:C.
  - apply Qeq_alt in C.
    destruct (Z.even (Qfloor x)); [|rewrite inject_Z_plus; change (inject_Z 1) with 1];
      split; lra.
  - apply Qlt_alt in C. split; lra.
  - apply Qgt_alt in C. rewrite inject_Z_plus. change (inject_Z 1) with 1. split; lra.
Qed.

(** [round x] is a multiple of the [ulp] of [x] that is nearest to [x] *)
Lemma round_nearest (x : Q) : Qabs (round x - x) <= ulp (Qred x) / 2.
Proof.
  pose proof (ulp_pos (Qred x)) as Up.
  destruct (Qeq_dec x 0) as [E|E].
  - rewrite (round_eq x 0 E), round_0.
    assert (Hh : ulp (Qred x) / 2 == (1 # 2) * ulp (Qred x)) by field.
    rewrite Hh. apply Qabs_Qle_condition. split; lra.
  - rewrite (round_unfold x E). pose proof (Qred_correct x) as Ex.
    set (u := ulp (Qred x)) in *. set (x' := Qred x) in *.
    pose proof (rne_near (x' / u)) as N.
    apply Qabs_Qle_condition in N as [N1 N2]. apply Qabs_Qle_condition.
    assert (Xu : x' / u * u == x') by (field; lra).
    set (q := x' / u) in *. set (n := inject_Z (rne q)) in *.
    assert (Hh : u / 2 == (1 # 2) * u) by (field).
    rewrite Hh. split.
    + assert ((- (1 # 2)) * u <= (n - q) * u) by (apply Qmult_le_compat_r; lra). lra.
    + assert ((n - q) * u <= (1 # 2) * u) by (apply Qmult_le_compat_r; lra). lra.
Qed.

Example round_a_tenth : round (1 # 10) = 3602879701896397 # 36028797018963968.
Proof. vm_compute. reflexivity. Qed.

Example round_ties_to_even :
  round 9007199254740993 = 9007199254740992 /\ round 9007199254740995 = 9007199254740996.
Proof. split; vm_compute; reflexivity. Qed.

Lemma rne_eq (x y : Q) : x == y -> rne x = rne y.
Proof.
  intros E. unfold rne.
  assert (F : Qfloor x = Qfloor y) by (apply Qfloor_comp, E).
  rewrite F.
  assert (C : Qcompare (x - inject_Z (Qfloor y)) (1 # 2)
              = Qcompare (y - inject_Z (Qfloor y)) (1 # 2))
    by (apply Qcompare_comp; [rewrite E|]; reflexivity).
  rewrite C. reflexivity.
Qed.

Lemma rne_Z (x : Q) (k : Z) : x == inject_Z k -> rne x = k.
Proof.
  intros E. apply Z.le_antisymm; [apply rne_le|apply rne_ge]; rewrite E; apply Qle_refl.
Qed.

Lemma ilog2_unique (x : Q) (k : Z) : 2 ^ k <= x -> x < 2 ^ (k + 1) -> ilog2 x = k.
Proof.
  intros L U. pose proof (two_pow_pos k) as P.
  destruct (ilog2_spec x) as [L' U']; [lra|].
  assert (H1 : 2 ^ k < 2 ^ (ilog2 x + 1)) by lra.
  assert (H2 : 2 ^ ilog2 x < 2 ^ (k + 1)) by lra.
  apply Qpower_lt_compat_l_inv in H1; [|reflexivity].
  apply Qpower_lt_compat_l_inv in H2; [|reflexivity]. lia.
Qed.

Lemma rne_opp (x : Q) : rne (- x) = (- rne x)%Z.
Proof.
  pose proof (Qfloor_le x) as Lo. pose proof (Qlt_floor x) as Hi.
  rewrite inject_Z_plus in Hi. change (inject_Z 1) with 1 in Hi.
  set (f := Qfloor x) in *.
  destruct (Qeq_dec x (inject_Z f)) as [E|E].
  - rewrite (rne_Z x f E). apply rne_Z. rewrite E, inject_Z_opp. reflexivity.
  - assert (Hf : Qfloor (- x) = (- f - 1)%Z).
    { apply Z.le_antisymm.
      - assert (H : (Qfloor (- x) < - f)%Z); [|lia].
        rewrite Zlt_Qlt. pose proof (Qfloor_le (- x)). rewrite inject_Z_opp.
        destruct (Qlt_le_dec (inject_Z (Qfloor (- x))) (- inject_Z f)) as [A|A]; [exact A|].
        exfalso. apply E. lra.
      - replace (- f - 1)%Z with (Qfloor (inject_Z (- f - 1))) by apply Qfloor_Z.
        apply Qfloor_resp_le. unfold Z.sub. rewrite inject_Z_plus, inject_Z_opp.
        change (inject_Z (- (1))) with (- (1)). lra. }
    unfold rne. rewrite Hf. fold f.
    unfold Z.sub at 1. rewrite inject_Z_plus, inject_Z_opp. change (inject_Z (- (1))) with (-(1)).
    destruct (Qcompare (x - inject_Z f) (1 # 2)) eqn:C.
    + apply Qeq_alt in C.
      assert (C' : Qcompare (- x - (- inject_Z f + - (1))) (1 # 2) = Eq) by (apply (proj1 (Qeq_alt _ _)); lra).
      rewrite C'. replace (- f - 1)%Z with (- (f + 1))%Z by lia. rewrite Z.even_opp.
      replace (f + 1)%Z with (Z.succ f) by lia. rewrite Z.even_succ, <- Z.negb_even.
      destruct (Z.even f); cbn [negb]; lia.
    + apply Qlt_alt in C.
      assert (C' : Qcompare (- x - (- inject_Z f + - (1))) (1 # 2) = Gt) by (apply (proj1 (Qgt_alt _ _)); lra).
      rewrite C'. lia.
    + apply Qgt_alt in C.
      assert (C' : Qcompare (- x - (- inject_Z f + - (1))) (1 # 2) = Lt) by (apply (proj1 (Qlt_alt _ _)); lra).
      rewrite C'. lia.
Qed.

Lemma Qabs_opp_eq (x : Q) : Qabs (- x) = Qabs x.
Proof. destruct x as [n d]. unfold Qabs, Qopp. cbn. f_equal. apply Z.abs_opp. Qed.

Lemma round_opp (x : Q) : round (- x) == - round x.
Proof.
  destruct (Qeq_dec x 0) as [E|E].
  - rewrite (round_eq (- x) 0), (round_eq x 0 E) by lra. reflexivity.
  - rewrite (round_unfold x E), (round_unfold (- x)) by (intros H; apply E; lra).
    rewrite Qred_opp. unfold ulp. rewrite Qabs_opp_eq. fold (ulp (Qred x)).
    pose proof (ulp_pos (Qred x)).
    rewrite (rne_eq (- Qred x / ulp (Qred x)) (- (Qred x / ulp (Qred x))))
      by (field; lra).
    rewrite rne_opp, inject_Z_opp. ring.
Qed.

Lemma round_round_pos (x : Q) : 0 < x -> round (round x) == round x.
Proof.
  intros Hx. assert (E : ~ x == 0) by lra.
  pose proof (round_unfold x E) as R. pose proof (Qred_correct x) as Ex.
  set (x' := Qred x) in *. assert (Hx' : 0 < x') by lra.
  unfold ulp in R. rewrite (Qabs_of_pos x' Hx') in R.
  destruct (ilog2_spec x' Hx') as [Lx Ux].
  set (e := ilog2 x') in *. set (E' := Z.max e emin) in *.
  set (u := 2 ^ (E' - (prec - 1))) in *.
  pose proof (two_pow_pos (E' - (prec - 1))) as Up. fold u in Up.
  set (n := rne (x' / u)) in *.
  assert (P53 : 2 ^ (E' + 1) == inject_Z (2 ^ 53) * u).
  { unfold u. rewrite <- two_pow_Z by lia. rewrite <- two_pow_plus.
    unfold prec. replace (53 + (E' - (53 - 1)))%Z with (E' + 1)%Z by lia. reflexivity. }
  assert (P52 : 2 ^ E' == inject_Z (2 ^ 52) * u).
  { unfold u. rewrite <- two_pow_Z by lia. rewrite <- two_pow_plus.
    unfold prec. replace (52 + (E' - (53 - 1)))%Z with E' by lia. reflexivity. }
  assert (Hle : 2 ^ (e + 1) <= 2 ^ (E' + 1)).
  { apply Qpower_le_compat_l; [unfold E'; lia|discriminate]. }
  assert (Hn53 : (n <= 2 ^ 53)%Z).
  { apply rne_le. apply Qle_shift_div_r; [exact Up|]. lra. }
  assert (Hn0 : (0 <= n)%Z).
  { apply rne_ge. change (inject_Z 0) with 0. apply Qle_shift_div_l; lra. }
  assert (Hn52 : (emin <= e)%Z -> (2 ^ 52 <= n)%Z).
  { intros He. apply rne_ge. apply Qle_shift_div_l; [exact Up|].
    rewrite <- P52. replace E' with e by (unfold E'; lia). exact Lx. }
  destruct (Z.eq_dec n 0%Z) as [Z0|Z0].
  - rewrite (round_eq (round x) 0) by (rewrite R, Z0; ring).
    rewrite R, Z0. rewrite round_0. ring.
  - assert (Hr : 0 < round x).
    { rewrite R. apply Qmult_lt_0_compat; [|exact Up].
      change 0 with (inject_Z 0). rewrite <- Zlt_Qlt. lia. }
    assert (Er : ~ round x == 0) by lra.
    rewrite (round_unfold (round x) Er).
    pose proof (Qred_correct (round x)) as Exr.
    set (r' := Qred (round x)) in *. assert (Hr' : 0 < r') by lra.
    unfold ulp. rewrite (Qabs_of_pos r' Hr').
    destruct (Z.eq_dec n (2 ^ 53)%Z) as [T|T].
    + (* the rounding has reached the next power of two *)
      assert (Rv : r' == 2 ^ (E' + 1)) by (rewrite Exr, R, T, P53; reflexivity).
      assert (Il : ilog2 r' = (E' + 1)%Z).
      { apply ilog2_unique; [rewrite Rv; apply Qle_refl|].
        rewrite Rv. apply Qpower_lt_compat_l; [lia|reflexivity]. }
      rewrite Il. replace (Z.max (E' + 1) emin) with (E' + 1)%Z by (unfold E'; lia).
      assert (U2 : 2 ^ (E' + 1 - (prec - 1)) == 2 * u).
      { unfold u. replace (E' + 1 - (prec - 1))%Z with (E' - (prec - 1) + 1)%Z by lia.
        apply two_pow_succ. }
      rewrite (rne_Z _ (2 ^ 52)).
      * rewrite U2, R, T. change (inject_Z (2 ^ 53)) with (2 * inject_Z (2 ^ 52)). ring.
      * rewrite U2, Rv, P53. change (inject_Z (2 ^ 53)) with (2 * inject_Z (2 ^ 52)).
        field. lra.
    + assert (Rv : r' == inject_Z n * u) by (rewrite Exr, R; reflexivity).
      assert (Ub : r' < 2 ^ (E' + 1)).
      { rewrite Rv, P53. apply Qmult_lt_compat_r; [exact Up|]. rewrite <- Zlt_Qlt. lia. }
      assert (Em : Z.max (ilog2 r') emin = E').
      { destruct (ilog2_spec r' Hr') as [Lr Ur].
        assert (H1 : 2 ^ ilog2 r' < 2 ^ (E' + 1)) by lra.
        apply Qpower_lt_compat_l_inv in H1; [|reflexivity].
        destruct (Z.le_gt_cases emin e) as [He|He].
        - assert (Lb : 2 ^ E' <= r').
          { rewrite Rv, P52. apply Qmult_le_compat_r; [|lra].
            rewrite <- Zle_Qle. apply Hn52, He. }
          assert (H2 : 2 ^ E' < 2 ^ (ilog2 r' + 1)) by lra.
          apply Qpower_lt_compat_l_inv in H2; [|reflexivity].
          unfold E' in *. lia.
        - unfold E' in *. lia. }
      rewrite Em. fold u.
      rewrite (rne_Z _ n); [rewrite R; reflexivity|].
      rewrite Rv. field. lra.
Qed.

(** the rounded value is a [double] *)
Lemma round_is_double (x : Q) : is_double (round x).
Proof.
  unfold is_double.
  destruct (Qlt_le_dec 0 x) as [H|H]; [apply round_round_pos, H|].
  destruct (Qeq_dec x 0) as [E|E].
  - rewrite (round_eq x 0 E). reflexivity.
  - assert (Hn : 0 < - x) by lra.
    pose proof (round_round_pos (- x) Hn) as R.
    rewrite (round_eq (round (- x)) (- round x) (round_opp x)) in R.
    rewrite round_opp in R. rewrite round_opp in R. lra.
Qed.

End Double_facts.

(** ** The NMEA checksum *)

Module NMEA_facts.
Import NMEA.
Local Open Scope Z_scope.

Lemma xor_to_terminator_app apple s acc :
  forallb plain_char s = true ->
  xor_to_terminator apple (s ++ [0]) acc = Ret (xor_bytes s acc).
Proof.
  revert acc. induction s as [|c s IH]; intros acc Hs.
  - reflexivity.
  - cbn in Hs. apply andb_prop in Hs as [Hc Hs].
    unfold plain_char in Hc. apply andb_prop in Hc as [Hz Ha].
    cbn [app xor_to_terminator].
    apply negb_true_iff in Hz, Ha. rewrite Hz, Ha, andb_false_r. cbn [orb].
    apply IH, Hs.
Qed.

Lemma xor_count_app s acc :
  xor_count (s ++ [0]) (length s) acc = Ret (xor_bytes s acc).
Proof.
  revert acc. induction s as [|c s IH]; intros acc; [reflexivity|].
  cbn [app length xor_count]. apply IH.
Qed.

Lemma xor_bytes_range s acc :
  0 <= acc < 256 -> 0 <= xor_bytes s acc < 256.
Proof.
  revert acc. induction s as [|c s IH]; intros acc Hacc; [exact Hacc|].
  apply IH.
  assert (Hc : 0 <= uint8_of_char c < 256) by (apply Z.mod_pos_bound; lia).
  split.
  - apply Z.lxor_nonneg. lia.
  - change 256 with (2 ^ 8).
    destruct (Z.eq_dec (Z.lxor acc (uint8_of_char c)) 0) as [->|Hne]; [lia|].
    apply Z.log2_lt_pow2; [pose proof (Z.lxor_nonneg acc (uint8_of_char c)); lia|].
    eapply Z.le_lt_trans; [apply Z.log2_lxor; lia|].
    apply Z.max_lub_lt.
    + destruct (Z.eq_dec acc 0) as [->|]; [cbn; lia|apply Z.log2_lt_pow2; lia].
    + destruct (Z.eq_dec (uint8_of_char c) 0) as [->|]; [cbn; lia|apply Z.log2_lt_pow2; lia].
Qed.

(** C10.  For a NUL-terminated string whose body [s] holds no '*', the two
    overloads agree ([NMEAChecksum(p, strlen(p)) = NMEAChecksum(p)], on
    either build); both drop exactly one leading '$' or '!' when there is
    one and XOR the remaining bytes, and the value fits in eight bits. *)
Theorem NMEAChecksum_overloads_agree (apple : bool) (s : list Z) :
  forallb plain_char s = true ->
  NMEAChecksum_length (s ++ [0]) (length s) = NMEAChecksum apple (s ++ [0])
  /\ NMEAChecksum apple (s ++ [0]) = Ret (xor_bytes (skip_lead s) 0)
  /\ 0 <= xor_bytes (skip_lead s) 0 < 256.
Proof.
  intros Hs.
  assert (Hp : NMEAChecksum apple (s ++ [0]) = Ret (xor_bytes (skip_lead s) 0)).
  { destruct s as [|c s]; [reflexivity|].
    cbn in Hs. apply andb_prop in Hs as [Hc Hs].
    cbn [app NMEAChecksum skip_lead].
    destruct (is_lead c).
    - apply xor_to_terminator_app, Hs.
    - apply (xor_to_terminator_app apple (c :: s)). cbn. now rewrite Hc, Hs. }
  split; [|split; [exact Hp|apply xor_bytes_range; lia]].
  rewrite Hp. destruct s as [|c s]; [reflexivity|].
  cbn [app length NMEAChecksum_length skip_lead].
  destruct (is_lead c).
  - apply xor_count_app.
  - apply (xor_count_app (c :: s)).
Qed.

(** The sentence "$GPGLL" (bytes 36 71 80 71 76 76). *)
Lemma NMEAChecksum_overloads_agree_witness :
  forallb plain_char [36; 71; 80; 71; 76; 76] = true
  /\ NMEAChecksum_length ([36; 71; 80; 71; 76; 76] ++ [0]) 6
     = NMEAChecksum true ([36; 71; 80; 71; 76; 76] ++ [0])
  /\ NMEAChecksum true ([36; 71; 80; 71; 76; 76] ++ [0]) = Ret 80.
Proof.
  split; [reflexivity|].
  destruct (@NMEAChecksum_overloads_agree true [36; 71; 80; 71; 76; 76] eq_refl)
    as (H1 & H2 & _).
  split; [exact H1|exact H2].
Defined.

End NMEA_facts.

Section ScanFacts.
Context {K : Carriers} {Op : Ops}.

Lemma Qltb_lt (a b : Q) : Qltb a b = true <-> (a < b)%Q.
Proof.
  unfold Qltb. rewrite negb_true_iff. split.
  - intros H. apply Qnot_le_lt. intros Hle. apply Qle_bool_iff in Hle. congruence.
  - intros H. destruct (Qle_bool b a) eqn:E; [|reflexivity].
    apply Qle_bool_iff in E. exfalso. apply (Qlt_not_le _ _ H E).
Qed.

Lemma Qltb_ge (a b : Q) : Qltb a b = false <-> (b <= a)%Q.
Proof.
  unfold Qltb. rewrite negb_false_iff. apply Qle_bool_iff.
Qed.

(** C3 (amended).  For a task of exactly two points, a cylinder start of
    radius [R1] and a cylinder finish of radius [R2], with nominal
    centre-to-centre distance [D], every subtraction of
    [ScanDistanceNominal()] is rounded to [double] and the finish radius
    is compared with the rounded distance that is left: for positive
    radii and [R1 < D] the result is [round (round (D - R1) - R2)] when
    [R2 < round (D - R1)], and [round (D - R1)] otherwise.  It is
    [D - R1 - R2] itself whenever [R1 + R2 < D] and the two differences
    [D - R1] and [D - R1 - R2] are [double]s. *)
Theorem ScanDistanceNominal_two_cylinders
    (t : OrderedTask.t) (start finish : OrderedTaskPoint.t) (R1 R2 : Q) :
  OrderedTask.task_points t = [start; finish] ->
  OrderedTaskPoint.oz start = ObservationZone.Cylinder R1 ->
  OrderedTaskPoint.oz finish = ObservationZone.Cylinder R2 ->
  let D := TaskLeg_ScanDistanceNominal [start; finish] in
  ((0 < R1)%Q -> (R1 < D)%Q -> (0 < R2)%Q ->
   ((R2 < Double.round (D - R1))%Q ->
    ScanDistanceNominal t = Ret (Double.round (Double.round (D - R1) - R2)))
   /\ ((Double.round (D - R1) <= R2)%Q ->
       ScanDistanceNominal t = Ret (Double.round (D - R1))))
  /\ ((0 <= R1)%Q -> (0 <= R2)%Q -> (R1 + R2 < D)%Q ->
      Double.is_double (D - R1) -> Double.is_double (D - R1 - R2) ->
      exists d, ScanDistanceNominal t = Ret d /\ (d == D - R1 - R2)%Q).
Proof.
  intros Htp Hs Hf D.
  unfold ScanDistanceNominal. rewrite Htp. cbn [last of_option mbind result_bind].
  rewrite Hs, Hf. cbn [GetCylinderRadiusOrMinusOne]. fold D. unfold Double.sub.
  split.
  - intros H1 HD H2.
    rewrite (proj2 (Qltb_lt 0 R1) H1), (proj2 (Qltb_lt R1 D) HD), (proj2 (Qltb_lt 0 R2) H2).
    cbn [andb]. split; intros H.
    + rewrite (proj2 (Qltb_lt _ _) H). reflexivity.
    + rewrite (proj2 (Qltb_ge _ _) H). reflexivity.
  - intros H1 H2 HD E1 E2. unfold Double.is_double in E1, E2.
    destruct (Qltb 0 R1) eqn:P1.
    + assert (Hlt : Qltb R1 D = true) by (apply Qltb_lt; lra).
      rewrite Hlt. cbn [andb].
      destruct (Qltb 0 R2) eqn:P2; cbn [andb].
      * assert (Hlt2 : Qltb R2 (Double.round (D - R1)) = true)
          by (apply Qltb_lt; rewrite E1; lra).
        rewrite Hlt2. eexists; split; [reflexivity|].
        rewrite (Double_facts.round_eq _ (D - R1 - R2)) by (rewrite E1; reflexivity).
        exact E2.
      * apply Qltb_ge in P2. eexists; split; [reflexivity|]. rewrite E1. lra.
    + cbn [andb]. apply Qltb_ge in P1.
      destruct (Qltb 0 R2) eqn:P2; cbn [andb].
      * assert (Hlt2 : Qltb R2 D = true) by (apply Qltb_lt; lra).
        rewrite Hlt2. eexists; split; [reflexivity|].
        rewrite (Double_facts.round_eq _ (D - R1 - R2)) by lra.
        exact E2.
      * apply Qltb_ge in P2. eexists; split; [reflexivity|lra].
Qed.

(** C8.  On an empty task [ScanDistanceNominal], [ScanDistanceScored],
    [ScanDistanceRemaining], [ScanDistanceTravelled], [ScanDistancePlanned]
    and [ScanDistanceMax] return 0 and leave the task as it is, but
    [ScanDistanceMin] goes on to [task_points.front()] of the empty vector,
    whatever its arguments. *)
Theorem scans_of_empty_task (t : OrderedTask.t) (location : GeoPoint) (full : bool) :
  OrderedTask.task_points t = [] ->
  ScanDistanceNominal t = Ret 0%Q
  /\ ScanDistanceScored location t = Ret (0%Q, t)
  /\ ScanDistanceRemaining location t = Ret (0%Q, t)
  /\ ScanDistanceTravelled location t = Ret (0%Q, t)
  /\ ScanDistancePlanned t = Ret (0%Q, t)
  /\ ScanDistanceMax t = Ret (0%Q, t)
  /\ ScanDistanceMin location full t = Fault OutOfRange.
Proof.
  intros He.
  unfold ScanDistanceNominal, ScanDistanceScored, ScanDistanceRemaining,
    ScanDistanceTravelled, ScanDistancePlanned, ScanDistanceMax.
  rewrite He. repeat (split; [reflexivity|]).
  unfold ScanDistanceMin.
  assert (Hrun : RunDijsktraMin location t = Ret (false, t)).
  { unfold RunDijsktraMin, TaskSize. rewrite He. reflexivity. }
  assert (Hfront : forall t', OrderedTask.task_points t' = [] ->
                              front_scan LegMin None t' = Fault OutOfRange).
  { intros t' He'. unfold front_scan. rewrite He'. reflexivity. }
  match goal with
  | |- context [if ?c then _ else full] => destruct c
  end.
  - unfold GetActiveTaskPoint. rewrite He. cbn [length].
    replace (OrderedTask.active_task_point t <? 0) with false
      by (symmetry; apply Nat.ltb_ge; lia).
    destruct full; cbn.
    + rewrite Hrun. cbn. apply Hfront. exact He.
    + apply Hfront, He.
  - destruct full; cbn.
    + rewrite Hrun. cbn. apply Hfront. exact He.
    + apply Hfront, He.
Qed.

End ScanFacts.

Section EditFacts.
Context {K : Carriers} {Op : Ops}.

Abbreviation Point := OrderedTaskPoint.t.
Abbreviation Task := OrderedTask.t.

(** [SetNeighbours] touches nothing but the links. *)

Lemma SetNeighbours_active i (t : Task) :
  OrderedTask.active_task_point (SetNeighbours i t) = OrderedTask.active_task_point t.
Proof.
  unfold SetNeighbours. destruct (_ <=? _); [reflexivity|].
  destruct (i =? 0); reflexivity.
Qed.

Lemma SetNeighbours_task_points i (t : Task) :
  OrderedTask.task_points (SetNeighbours i t)
  = if length (OrderedTask.task_points t) <=? i then OrderedTask.task_points t
    else alter (fun p => OrderedTaskPoint.SetNeighbours p
                           (fst (neighbours_of (OrderedTask.task_points t) i))
                           (snd (neighbours_of (OrderedTask.task_points t) i)))
           i (OrderedTask.task_points t).
Proof.
  unfold SetNeighbours, neighbours_of.
  destruct (length (OrderedTask.task_points t) <=? i) eqn:E; [reflexivity|].
  apply Nat.leb_gt in E.
  assert (Hnext : (if i + 1 <? length (OrderedTask.task_points t)
                   then OrderedTaskPoint.addr_of <$> OrderedTask.task_points t !! (i + 1)
                   else None)
                  = OrderedTaskPoint.addr_of <$> OrderedTask.task_points t !! (i + 1)).
  { destruct (i + 1 <? _) eqn:E'; [reflexivity|].
    apply Nat.ltb_ge in E'. rewrite lookup_ge_None_2 by lia. reflexivity. }
  rewrite Hnext. cbn [fst snd].
  destruct (i =? 0); reflexivity.
Qed.

Lemma SetNeighbours_length i (t : Task) :
  length (OrderedTask.task_points (SetNeighbours i t)) = length (OrderedTask.task_points t).
Proof.
  rewrite SetNeighbours_task_points. destruct (_ <=? _); [reflexivity|].
  apply length_alter.
Qed.

Lemma unlinked_SetNeighbours (p : Point) pr nx :
  unlinked (OrderedTaskPoint.SetNeighbours p pr nx) = unlinked p.
Proof. reflexivity. Qed.

Lemma SetNeighbours_unlinked i (t : Task) :
  unlinked <$> OrderedTask.task_points (SetNeighbours i t)
  = unlinked <$> OrderedTask.task_points t.
Proof.
  rewrite SetNeighbours_task_points. destruct (_ <=? _); [reflexivity|].
  apply list_eq. intros j. rewrite !list_lookup_fmap.
  destruct (decide (i = j)) as [->|Hne].
  - rewrite list_lookup_alter_eq. destruct (_ !! j); reflexivity.
  - rewrite list_lookup_alter_ne by exact Hne. reflexivity.
Qed.

Lemma SetNeighbours_addrs i (t : Task) :
  addrs (OrderedTask.task_points (SetNeighbours i t)) = addrs (OrderedTask.task_points t).
Proof.
  unfold addrs.
  rewrite (list_fmap_ext OrderedTaskPoint.addr_of
             (OrderedTaskPoint.addr_of ∘ unlinked) _) by reflexivity.
  rewrite (list_fmap_ext OrderedTaskPoint.addr_of
             (OrderedTaskPoint.addr_of ∘ unlinked) (OrderedTask.task_points t))
    by reflexivity.
  rewrite !list_fmap_compose, SetNeighbours_unlinked. reflexivity.
Qed.

Lemma neighbours_of_addrs (l l' : list Point) i :
  addrs l = addrs l' -> neighbours_of l i = neighbours_of l' i.
Proof.
  intros H. unfold neighbours_of, addrs in *.
  rewrite <- !list_lookup_fmap, H. reflexivity.
Qed.

Lemma SetNeighbours_linked i (t : Task) :
  i < length (OrderedTask.task_points t) ->
  linked (OrderedTask.task_points (SetNeighbours i t)) i.
Proof.
  intros Hi p Hp.
  rewrite (neighbours_of_addrs _ (OrderedTask.task_points t)) by apply SetNeighbours_addrs.
  rewrite SetNeighbours_task_points in Hp.
  replace (_ <=? i) with false in Hp by (symmetry; apply Nat.leb_gt; lia).
  rewrite list_lookup_alter_eq in Hp.
  destruct (OrderedTask.task_points t !! i) as [q|]; [|discriminate].
  injection Hp as <-. reflexivity.
Qed.

Lemma SetNeighbours_linked_other i j (t : Task) :
  i <> j ->
  linked (OrderedTask.task_points t) j ->
  linked (OrderedTask.task_points (SetNeighbours i t)) j.
Proof.
  intros Hne Hl p Hp.
  rewrite (neighbours_of_addrs _ (OrderedTask.task_points t)) by apply SetNeighbours_addrs.
  apply Hl. rewrite SetNeighbours_task_points in Hp.
  destruct (_ <=? i); [exact Hp|].
  rewrite list_lookup_alter_ne in Hp by exact Hne. exact Hp.
Qed.

Lemma maybe_SetNeighbours_length (c : bool) i (t : Task) :
  length (OrderedTask.task_points (if c then SetNeighbours i t else t))
  = length (OrderedTask.task_points t).
Proof. destruct c; [apply SetNeighbours_length|reflexivity]. Qed.

Lemma maybe_SetNeighbours_active (c : bool) i (t : Task) :
  OrderedTask.active_task_point (if c then SetNeighbours i t else t)
  = OrderedTask.active_task_point t.
Proof. destruct c; [apply SetNeighbours_active|reflexivity]. Qed.

Lemma maybe_SetNeighbours_unlinked (c : bool) i (t : Task) :
  unlinked <$> OrderedTask.task_points (if c then SetNeighbours i t else t)
  = unlinked <$> OrderedTask.task_points t.
Proof. destruct c; [apply SetNeighbours_unlinked|reflexivity]. Qed.

Lemma Remove_effect (position : nat) (t : Task) :
  position < length (OrderedTask.task_points t) ->
  let a := OrderedTask.active_task_point t in
  let n := length (OrderedTask.task_points t) in
  let t' := snd (Remove position t) in
  fst (Remove position t) = true
  /\ unlinked <$> OrderedTask.task_points t'
     = delete position (unlinked <$> OrderedTask.task_points t)
  /\ length (OrderedTask.task_points t') = n - 1
  /\ (position < a \/ (0 < a /\ a = n - 1) -> OrderedTask.active_task_point t' = a - 1)
  /\ (~ (position < a \/ (0 < a /\ a = n - 1)) -> OrderedTask.active_task_point t' = a)
  /\ (position < n - 1 -> linked (OrderedTask.task_points t') position)
  /\ (0 < position -> linked (OrderedTask.task_points t') (position - 1)).
Proof.
  intros Hpos a n t'. subst t'. unfold Remove.
  replace (length (OrderedTask.task_points t) <=? position) with false
    by (symmetry; apply Nat.leb_gt; exact Hpos).
  cbn [fst snd]. split; [reflexivity|].
  remember (if (position <? OrderedTask.active_task_point t)
               || (0 <? OrderedTask.active_task_point t)
                  && (OrderedTask.active_task_point t
                      =? length (OrderedTask.task_points t) - 1)
            then OrderedTask.set_active_task_point t (OrderedTask.active_task_point t - 1)
            else t) as t1 eqn:Ht1.
  assert (Htp1 : OrderedTask.task_points t1 = OrderedTask.task_points t)
    by (subst t1; destruct (_ || _); reflexivity).
  remember (ErasePoint position t1) as t2 eqn:Ht2.
  assert (Htp2 : OrderedTask.task_points t2 = delete position (OrderedTask.task_points t))
    by (subst t2; unfold ErasePoint; cbn; now rewrite Htp1).
  assert (Hlen2 : length (OrderedTask.task_points t2) = n - 1).
  { rewrite Htp2, length_delete; [reflexivity|]. apply lookup_lt_is_Some_2, Hpos. }
  assert (Hact2 : OrderedTask.active_task_point t2 = OrderedTask.active_task_point t1)
    by (subst t2; reflexivity).
  remember (if position <? length (OrderedTask.task_points t2)
            then SetNeighbours position t2 else t2) as t3 eqn:Ht3.
  assert (Hlen3 : length (OrderedTask.task_points t3) = n - 1)
    by (subst t3; rewrite maybe_SetNeighbours_length; exact Hlen2).
  split.
  { rewrite maybe_SetNeighbours_unlinked. subst t3.
    rewrite maybe_SetNeighbours_unlinked, Htp2. apply list_fmap_delete. }
  split.
  { rewrite maybe_SetNeighbours_length. exact Hlen3. }
  assert (Hact4 : OrderedTask.active_task_point
                    (if 0 <? position then SetNeighbours (position - 1) t3 else t3)
                  = OrderedTask.active_task_point t1).
  { rewrite maybe_SetNeighbours_active. subst t3.
    rewrite maybe_SetNeighbours_active. exact Hact2. }
  split.
  { intros Hc. rewrite Hact4. subst t1.
    replace ((position <? OrderedTask.active_task_point t)
             || (0 <? OrderedTask.active_task_point t)
                && (OrderedTask.active_task_point t
                    =? length (OrderedTask.task_points t) - 1)) with true; [reflexivity|].
    symmetry. apply orb_true_iff. destruct Hc as [Hc|[Hc1 Hc2]].
    - left. apply Nat.ltb_lt, Hc.
    - right. apply andb_true_iff. split; [apply Nat.ltb_lt, Hc1|apply Nat.eqb_eq, Hc2]. }
  split.
  { intros Hc. rewrite Hact4. subst t1.
    replace ((position <? OrderedTask.active_task_point t)
             || (0 <? OrderedTask.active_task_point t)
                && (OrderedTask.active_task_point t
                    =? length (OrderedTask.task_points t) - 1)) with false; [reflexivity|].
    symmetry. apply orb_false_iff. split.
    - apply Nat.ltb_ge. fold a. lia.
    - apply andb_false_iff.
      destruct (Nat.eq_dec a 0) as [Hz|Hnz].
      + left. apply Nat.ltb_ge. fold a. lia.
      + right. apply Nat.eqb_neq. fold a n. lia. }
  split.
  { intros Hp.
    assert (Hl3 : linked (OrderedTask.task_points t3) position).
    { subst t3. replace (position <? length (OrderedTask.task_points t2)) with true
        by (symmetry; apply Nat.ltb_lt; rewrite Hlen2; exact Hp).
      apply SetNeighbours_linked. rewrite Hlen2. exact Hp. }
    destruct (0 <? position) eqn:E; [|exact Hl3].
    apply Nat.ltb_lt in E. apply SetNeighbours_linked_other; [lia|exact Hl3]. }
  { intros Hp.
    replace (0 <? position) with true by (symmetry; apply Nat.ltb_lt; exact Hp).
    apply SetNeighbours_linked. rewrite Hlen3. lia. }
Qed.

Lemma Remove_keeps_active_inside (position : nat) (t : Task) :
  OrderedTask.active_task_point t < length (OrderedTask.task_points t) ->
  OrderedTask.task_points (snd (Remove position t)) <> [] ->
  OrderedTask.active_task_point (snd (Remove position t))
  < length (OrderedTask.task_points (snd (Remove position t))).
Proof.
  intros Ha Hne.
  destruct (Nat.lt_ge_cases position (length (OrderedTask.task_points t))) as [Hp|Hp].
  - destruct (Remove_effect position t Hp) as (_ & _ & Hlen & Hdec & Hkeep & _).
    cbv zeta in *.
    assert (Hpos : 0 < length (OrderedTask.task_points (snd (Remove position t))))
      by (destruct (OrderedTask.task_points (snd (Remove position t)));
          [congruence|cbn; lia]).
    rewrite Hlen in *.
    destruct (decide (position < OrderedTask.active_task_point t
                      \/ (0 < OrderedTask.active_task_point t
                          /\ OrderedTask.active_task_point t
                             = length (OrderedTask.task_points t) - 1))) as [Hc|Hc].
    + rewrite (Hdec Hc). lia.
    + rewrite (Hkeep Hc). lia.
  - unfold Remove.
    replace (length (OrderedTask.task_points t) <=? position) with true
      by (symmetry; apply Nat.leb_le; exact Hp).
    exact Ha.
Qed.

Lemma Append_effect (new_tp : Point) (t : Task) :
  OrderedTask.active_task_point (snd (Append new_tp t)) = OrderedTask.active_task_point t
  /\ length (OrderedTask.task_points t)
     <= length (OrderedTask.task_points (snd (Append new_tp t))).
Proof.
  unfold Append. destruct (match last _ with Some _ => _ | None => _ end); [auto|].
  cbn [clone_point snd].
  rewrite SetNeighbours_active, SetNeighbours_length.
  destruct (0 <? _).
  - rewrite SetNeighbours_active, SetNeighbours_length. cbn. rewrite length_app. cbn.
    split; [reflexivity|lia].
  - cbn. rewrite length_app. cbn. split; [reflexivity|lia].
Qed.

Lemma Insert_keeps_active_inside (new_tp : Point) (position : nat) (t : Task) :
  OrderedTask.active_task_point t < length (OrderedTask.task_points t) ->
  OrderedTask.active_task_point (snd (Insert new_tp position t))
  < length (OrderedTask.task_points (snd (Insert new_tp position t))).
Proof.
  intros Ha. unfold Insert.
  destruct (length (OrderedTask.task_points t) <=? position) eqn:Ep.
  - destruct (Append_effect new_tp t) as [E L]. rewrite E. lia.
  - apply Nat.leb_gt in Ep. cbv zeta.
    destruct (_ || _); [exact Ha|].
    cbn [clone_point snd].
    rewrite SetNeighbours_active, SetNeighbours_length, SetNeighbours_active,
      SetNeighbours_length, maybe_SetNeighbours_active, maybe_SetNeighbours_length.
    cbn. rewrite length_app. cbn. rewrite length_take, length_drop.
    destruct (position <=? OrderedTask.active_task_point t); cbn; lia.
Qed.

(** C5.  [Remove(position)] with [position < task_points.size()] returns
    true, erases that slot (the other objects are kept, in order, up to
    their links), gives the slots next to the erased one the links to their
    new neighbours, and decrements [active_task_point] exactly when
    [active_task_point > position], or [active_task_point > 0] and
    [active_task_point] is the size before the removal minus one. *)
Theorem Remove_in_range (position : nat) (t : Task) :
  position < length (OrderedTask.task_points t) ->
  let a := OrderedTask.active_task_point t in
  let n := length (OrderedTask.task_points t) in
  let t' := snd (Remove position t) in
  fst (Remove position t) = true
  /\ unlinked <$> OrderedTask.task_points t'
     = delete position (unlinked <$> OrderedTask.task_points t)
  /\ length (OrderedTask.task_points t') = n - 1
  /\ (position < a \/ (0 < a /\ a = n - 1) -> OrderedTask.active_task_point t' = a - 1)
  /\ (~ (position < a \/ (0 < a /\ a = n - 1)) -> OrderedTask.active_task_point t' = a)
  /\ (position < n - 1 -> linked (OrderedTask.task_points t') position)
  /\ (0 < position -> linked (OrderedTask.task_points t') (position - 1)).
Proof. apply Remove_effect. Qed.


(** C7 (amended).  With an index that is out of range, [Remove],
    [Replace], [Relocate], [RemoveOptionalStart], [ReplaceOptionalStart] and
    [RelocateOptionalStart] return false and leave the task as it is;
    [Insert] with such an index is [Append]. *)
Theorem out_of_range_edits
    (new_tp : Point) (wp : Waypoint) (position optional_position : nat) (t : Task) :
  length (OrderedTask.task_points t) <= position ->
  length (OrderedTask.optional_start_points t) <= optional_position ->
  Remove position t = (false, t)
  /\ Replace new_tp position t = (false, t)
  /\ Relocate position wp t = (false, t)
  /\ RemoveOptionalStart optional_position t = (false, t)
  /\ ReplaceOptionalStart new_tp optional_position t = (false, t)
  /\ RelocateOptionalStart optional_position wp t = (false, t)
  /\ Insert new_tp position t = Append new_tp t.
Proof.
  intros Hp Ho.
  unfold Remove, Replace, Relocate, RemoveOptionalStart, ReplaceOptionalStart,
    RelocateOptionalStart, Insert.
  rewrite (lookup_ge_None_2 (OrderedTask.task_points t) position) by exact Hp.
  rewrite (lookup_ge_None_2 (OrderedTask.optional_start_points t) optional_position)
    by exact Ho.
  replace (length (OrderedTask.task_points t) <=? position) with true
    by (symmetry; apply Nat.leb_le; exact Hp).
  replace (length (OrderedTask.optional_start_points t) <=? optional_position) with true
    by (symmetry; apply Nat.leb_le; exact Ho).
  repeat split.
Qed.

(** [SetPEV] latches the event; the settings are not touched. *)
Lemma SetPEV_settings (bt : BrokenTime.t) (t t1 : Task) (b : bool) :
  SetPEV bt t = Ret (b, t1) ->
  OrderedTask.ordered_settings t1 = OrderedTask.ordered_settings t.
Proof.
  unfold SetPEV. destruct (negb _); [intros ?; simplify_eq; reflexivity|].
  intros H. inv_bind H. destruct x; simplify_eq; reflexivity.
Qed.

(** C6.  After a successful [SetPEV(bt)], [UpdateAfterPEV(state, bt)] with
    [score_pev = false], [pev_start_wait_time = w > 0] and
    [pev_start_window = p > 0] (in seconds), for a state with a defined
    time, sets the start [open_time_span] to [[t + c, t + c + p]]: [t] is
    [state.time] in whole minutes, [c] is [w] in whole minutes plus one
    when [bt.second > 0], [p] is taken in whole minutes, and the sums wrap
    at midnight. *)
Theorem UpdateAfterPEV_open_time_span
    (state : AircraftState.t) (bt : BrokenTime.t) (w p : Z) (t t1 : Task) :
  SetPEV bt t = Ret (true, t1) ->
  StartConstraints.score_pev
    (OrderedTaskSettings.start_constraints (OrderedTask.ordered_settings t)) = false ->
  StartConstraints.pev_start_wait_time
    (OrderedTaskSettings.start_constraints (OrderedTask.ordered_settings t)) = w ->
  StartConstraints.pev_start_window
    (OrderedTaskSettings.start_constraints (OrderedTask.ordered_settings t)) = p ->
  (0 < w)%Z -> (0 < p)%Z ->
  (0 <= AircraftState.time state)%Q ->
  let minute := RoughTime.minutes_of_seconds (AircraftState.time state) in
  let c := (w / 60 + (if 0 <? BrokenTime.second bt then 1 else 0))%Z in
  let new_start := ((minute + c) mod RoughTime.MAX)%Z in
  StartConstraints.open_time_span
    (OrderedTaskSettings.start_constraints
       (OrderedTask.ordered_settings (UpdateAfterPEV state bt t1)))
  = {| RoughTimeSpan.start := RoughTime.MinuteOfDay new_start;
       RoughTimeSpan.finish :=
         RoughTime.MinuteOfDay ((new_start + p / 60) mod RoughTime.MAX)%Z |}.
Proof.
  intros Hpev Hscore Hw Hp Hw0 Hp0 Htime minute c new_start.
  apply SetPEV_settings in Hpev.
  unfold UpdateAfterPEV. cbn [OrderedTask.ordered_settings OrderedTask.set_pev_received].
  replace (Qltb (AircraftState.time state) 0) with false
    by (symmetry; apply Qltb_ge; exact Htime).
  rewrite Hpev, Hscore, Hw, Hp.
  replace (0 <? w)%Z with true by (symmetry; apply Z.ltb_lt; exact Hw0).
  replace (0 <? p)%Z with true by (symmetry; apply Z.ltb_lt; exact Hp0).
  cbn. unfold RoughTimeDelta.FromDuration.
  rewrite !Z.quot_div_nonneg by lia.
  subst new_start c minute. unfold RoughTime.FromSinceMidnight, RoughTime.plus.
  destruct (0 <? BrokenTime.second bt)%Z; rewrite ?Z.add_0_r; reflexivity.
Qed.

End EditFacts.

Section IncrementalScan.
Context {K : Carriers} {Op : Ops}.

Abbreviation Task := OrderedTask.t.

Lemma call_at_TaskPoints_Ret i f (t : Task) :
  i < length (OrderedTask.task_points t) ->
  exists t', call_at TaskPoints i f t = Ret t'
             /\ length (OrderedTask.task_points t') = length (OrderedTask.task_points t)
             /\ OrderedTask.last_min_location t' = OrderedTask.last_min_location t
             /\ OrderedTask.dijkstra_min t' = OrderedTask.dijkstra_min t.
Proof.
  intros Hi. unfold call_at, at_index. cbn [vec set_vec].
  destruct (lookup_lt_is_Some_2 _ _ Hi) as [p Hp]. rewrite Hp.
  cbn [of_option]. rewrite bind_Ret. eexists. split; [reflexivity|].
  cbn. rewrite length_insert. auto.
Qed.

Lemma write_back_Ret (sol : nat -> SearchPoint) (l : list nat) (t : Task) :
  Forall (fun i => i < length (OrderedTask.task_points t)) l ->
  exists t', foldM (fun i t => SetPointSearchMin i (sol i) t) l t = Ret t'
             /\ length (OrderedTask.task_points t') = length (OrderedTask.task_points t)
             /\ OrderedTask.last_min_location t' = OrderedTask.last_min_location t
             /\ OrderedTask.dijkstra_min t' = OrderedTask.dijkstra_min t.
Proof.
  revert t. induction l as [|i l IH]; intros t Hl.
  - exists t. auto.
  - inversion Hl as [|? ? Hi Hl']; subst.
    destruct (call_at_TaskPoints_Ret i (fun p => SetSearchMin p (sol i)) t Hi)
      as (t1 & E1 & Hlen & Hmin & Hd).
    change (call_at TaskPoints i (fun p => SetSearchMin p (sol i)) t)
      with (SetPointSearchMin i (sol i) t) in E1.
    cbn [foldM]. rewrite E1, bind_Ret.
    destruct (IH t1) as (t' & E' & Hlen' & Hmin' & Hd').
    { rewrite Hlen. exact Hl'. }
    exists t'. split; [exact E'|]. rewrite Hlen', Hmin', Hd'. auto.
Qed.

Lemma RunDijsktraMin_Ret (location : GeoPoint) (t : Task) :
  OrderedTask.active_task_point t < length (OrderedTask.task_points t) ->
  exists b t1, RunDijsktraMin location t = Ret (b, t1)
    /\ length (OrderedTask.task_points t1) = length (OrderedTask.task_points t)
    /\ OrderedTask.last_min_location t1 = OrderedTask.last_min_location t
    /\ (2 <= length (OrderedTask.task_points t) ->
        OrderedTask.dijkstra_min t1 = Some (S (default 0 (OrderedTask.dijkstra_min t))))
    /\ (length (OrderedTask.task_points t) < 2 -> t1 = t).
Proof.
  intros Ha. unfold RunDijsktraMin, TaskSize, GetActiveIndex.
  destruct (length (OrderedTask.task_points t) <? 2) eqn:E2.
  { apply Nat.ltb_lt in E2. exists false, t. repeat split; auto; lia. }
  apply Nat.ltb_ge in E2.
  cbn [OrderedTask.active_task_point OrderedTask.set_dijkstra_min
       OrderedTask.task_points OrderedTask.task_projection].
  replace (length (OrderedTask.task_points t) <? OrderedTask.active_task_point t)
    with false by (symmetry; apply Nat.ltb_ge; lia).
  destruct (DistanceMin _ _) as [sol|].
  - set (t0 := OrderedTask.set_dijkstra_min _ _).
    destruct (write_back_Ret
                (fun i => sol (i - OrderedTask.active_task_point t))
                (seq (OrderedTask.active_task_point t)
                   (length (OrderedTask.task_points t) - OrderedTask.active_task_point t))
                t0) as (t' & E' & Hlen & Hmin & Hd).
    { apply Forall_forall. intros i Hi. apply elem_of_seq in Hi. subst t0. cbn. lia. }
    rewrite E', bind_Ret. exists true, t'. split; [reflexivity|].
    rewrite Hlen, Hmin, Hd. subst t0. cbn. repeat split; auto; lia.
  - eexists false, _. split; [reflexivity|]. cbn. repeat split; auto; lia.
Qed.

Lemma front_scan_Ret kind location (t : Task) :
  OrderedTask.task_points t <> [] ->
  exists d t', front_scan kind location t = Ret (d, t')
               /\ OrderedTask.last_min_location t' = OrderedTask.last_min_location t
               /\ OrderedTask.dijkstra_min t' = OrderedTask.dijkstra_min t.
Proof.
  intros Hne. unfold front_scan.
  destruct (OrderedTask.task_points t) as [|p l] eqn:E; [congruence|].
  destruct (TaskLeg_ScanDistance _ _ _) as [d ss].
  eexists d, _. split; [reflexivity|]. cbn. auto.
Qed.

(** C1 (amended).  [ScanDistanceMin(location, full = false)] on a task
    with an active task point, for a valid [location] and a valid
    [last_min_location] whose projected flat squared distance exceeds 1.
    Let [L] and [C] be the old and the new distance to the active point in
    whole metres (truncated; below 200000 km).  The re-solve is skipped
    (the solver is not run, [last_min_location] stays, the value is that of
    the leg scan on the task as it is) exactly when [L >= 2000],
    [C >= 2000], [20 L < 21 C] and [20 C < 21 L]; otherwise
    [RunDijsktraMin] runs (one solve more when the task has two points or
    more) and [last_min_location] becomes [location]. *)
Theorem ScanDistanceMin_incremental
    (location : GeoPoint) (active : OrderedTaskPoint.t) (t : Task) :
  GetActiveTaskPoint t = Some active ->
  GeoPoint_IsValid location = true ->
  GeoPoint_IsValid (OrderedTask.last_min_location t) = true ->
  DistanceIsSignificant location (OrderedTask.last_min_location t) t = true ->
  let target := Waypoint_location (OrderedTaskPoint.waypoint active) in
  let L := Qtrunc (Distance (OrderedTask.last_min_location t) target) in
  let C := Qtrunc (Distance location target) in
  (0 <= L < 200000000)%Z -> (0 <= C < 200000000)%Z ->
  exists d t',
    ScanDistanceMin location false t = Ret (d, t')
    /\ if ((2000 <=? L) && (2000 <=? C) && (20 * L <? 21 * C) && (20 * C <? 21 * L))%Z
       then front_scan LegMin None t = Ret (d, t')
            /\ OrderedTask.dijkstra_min t' = OrderedTask.dijkstra_min t
            /\ OrderedTask.last_min_location t' = OrderedTask.last_min_location t
       else (exists b t1,
               RunDijsktraMin location t = Ret (b, t1)
               /\ front_scan LegMin None (OrderedTask.set_last_min_location t1 location)
                  = Ret (d, t'))
            /\ OrderedTask.last_min_location t' = location
            /\ (2 <= TaskSize t ->
                OrderedTask.dijkstra_min t'
                = Some (S (default 0 (OrderedTask.dijkstra_min t)))).
Proof.
  intros Hact Hv Hvl Hsig target L C HL HC.
  assert (Ha : OrderedTask.active_task_point t < length (OrderedTask.task_points t)).
  { unfold GetActiveTaskPoint in Hact.
    destruct (_ <? _) eqn:E; [apply Nat.ltb_lt in E; exact E|discriminate]. }
  assert (Hne : OrderedTask.task_points t <> [])
    by (destruct (OrderedTask.task_points t); [cbn in Ha; lia|discriminate]).
  unfold ScanDistanceMin. rewrite Hv, Hvl, Hsig, Hact. cbn [negb andb].
  fold target. unfold unsigned_of_double. fold L C.
  assert (Hu : forall z, (0 <= z < 4294967296)%Z -> uint32 z = z)
    by (intros z Hz; unfold uint32; apply Z.mod_small; exact Hz).
  assert (Hresc : rescan_needed (uint32 L) (uint32 C)
                  = negb ((2000 <=? L) && (2000 <=? C) && (20 * L <? 21 * C)
                          && (20 * C <? 21 * L))%Z).
  { unfold rescan_needed. rewrite (Hu L), (Hu C) by lia.
    rewrite (Hu (C * 21)%Z), (Hu (L * 20)%Z), (Hu (L * 21)%Z), (Hu (C * 20)%Z) by lia.
    destruct (Z.ltb_spec L 2000), (Z.ltb_spec C 2000),
      (Z.leb_spec (C * 21) (L * 20)), (Z.leb_spec (L * 21) (C * 20)),
      (Z.leb_spec 2000 L), (Z.leb_spec 2000 C),
      (Z.ltb_spec (20 * L) (21 * C)), (Z.ltb_spec (20 * C) (21 * L));
      cbn; try reflexivity; lia. }
  rewrite Hresc.
  destruct ((2000 <=? L) && (2000 <=? C) && (20 * L <? 21 * C) && (20 * C <? 21 * L))%Z.
  - cbn [negb]. rewrite bind_Ret.
    destruct (front_scan_Ret LegMin None t Hne) as (d & t' & E & Hmin & Hd).
    exists d, t'. rewrite E. auto.
  - cbn [negb].
    destruct (RunDijsktraMin_Ret location t Ha) as (b & t1 & E1 & Hlen & Hmin & Hd & _).
    rewrite E1. rewrite !bind_Ret.
    destruct (front_scan_Ret LegMin None (OrderedTask.set_last_min_location t1 location))
      as (d & t' & E & Hmin' & Hd').
    { cbn. intros Hnil. rewrite Hnil in Hlen. cbn in Hlen.
      destruct (OrderedTask.task_points t); [congruence|discriminate]. }
    exists d, t'. split; [exact E|]. split; [exists b, t1; auto|].
    split; [rewrite Hmin'; reflexivity|].
    intros H2. rewrite Hd'. cbn. apply Hd. exact H2.
Qed.

End IncrementalScan.

Section TransitionFacts.
Context {K : Carriers} {Op : Ops}.

Abbreviation Point := OrderedTaskPoint.t.
Abbreviation Task := OrderedTask.t.

(** *** Identities of the objects *)

Lemma idents_update_in a f (l : list Point) : ident <$> update_in a f l = ident <$> l.
Proof.
  unfold update_in. rewrite <- list_fmap_compose. apply list_fmap_ext.
  intros i p _. cbn. destruct (Nat.eqb _ a); reflexivity.
Qed.

Lemma idents_restate (l : list Point) ss : ident <$> restate l ss = ident <$> l.
Proof.
  revert ss. induction l as [|p l IH]; intros [|s ss]; cbn; try reflexivity.
  f_equal. apply IH.
Qed.

Lemma idents_insert_with_sample (l : list Point) i p s :
  l !! i = Some p ->
  ident <$> <[i := OrderedTaskPoint.with_sample p s]> l = ident <$> l.
Proof.
  intros Hp. rewrite list_fmap_insert. apply list_insert_id.
  rewrite list_lookup_fmap, Hp. reflexivity.
Qed.

Lemma idents_length (l l' : list Point) : ident <$> l' = ident <$> l -> length l' = length l.
Proof. intros H. apply (f_equal length) in H. rewrite !length_fmap in H. exact H. Qed.

Lemma idents_addrs (l l' : list Point) : ident <$> l' = ident <$> l -> addrs l' = addrs l.
Proof.
  intros H. unfold addrs.
  rewrite (list_fmap_ext OrderedTaskPoint.addr_of (fst ∘ ident) l') by reflexivity.
  rewrite (list_fmap_ext OrderedTaskPoint.addr_of (fst ∘ ident) l) by reflexivity.
  rewrite !list_fmap_compose, H. reflexivity.
Qed.

Lemma idents_start_of (l l' : list Point) :
  ident <$> l' = ident <$> l -> start_of l' = start_of l.
Proof.
  destruct l as [|p l], l' as [|p' l']; cbn; try discriminate; [reflexivity|].
  intros H. injection H as Ha Ht _. unfold OrderedTaskPoint.GetType.
  rewrite Ha, Ht. reflexivity.
Qed.

Lemma idents_finish_of (l l' : list Point) :
  ident <$> l' = ident <$> l -> finish_of l' = finish_of l.
Proof.
  intros H. unfold finish_of. rewrite (idents_length _ _ H).
  assert (Hl : ident <$> last l' = ident <$> last l) by (rewrite <- !fmap_last, H; reflexivity).
  destruct (last l') as [b'|], (last l) as [b|]; cbn in Hl; try discriminate; [|reflexivity].
  injection Hl as Ha Ht. unfold OrderedTaskPoint.GetType. rewrite Ha, Ht. reflexivity.
Qed.

Lemma idents_all_starts (l l' : list Point) :
  ident <$> l' = ident <$> l -> forallb is_start_point l' = forallb is_start_point l.
Proof.
  revert l'. induction l as [|p l IH]; intros [|p' l']; cbn; try discriminate; [reflexivity|].
  intros H. injection H as _ Ht H. unfold is_start_point at 1 3. rewrite Ht.
  f_equal. apply IH, H.
Qed.

(** *** The relations *)

Lemma delivered_nil (t t' : Task) :
  OrderedTask.task_events t' = OrderedTask.task_events t -> delivered [] t t'.
Proof.
  intros H. unfold delivered. rewrite H.
  destruct (OrderedTask.task_events t); cbn; [rewrite app_nil_r|]; reflexivity.
Qed.

Lemma delivered_app n1 n2 (t t1 t2 : Task) :
  delivered n1 t t1 -> delivered n2 t1 t2 -> delivered (n1 ++ n2) t t2.
Proof.
  unfold delivered. intros H1 H2. rewrite H2, H1.
  destruct (OrderedTask.task_events t); cbn; [rewrite app_assoc|]; reflexivity.
Qed.

Lemma quiet_refl (t : Task) : quiet t t.
Proof. repeat split. Qed.

Lemma quiet_trans (t t1 t2 : Task) : quiet t t1 -> quiet t1 t2 -> quiet t t2.
Proof.
  intros (A1 & B1 & C1) (A2 & B2 & C2).
  repeat split; [rewrite A2|rewrite B2|rewrite C2]; assumption.
Qed.

Lemma quiet_events (t t' : Task) :
  quiet t t' -> OrderedTask.task_events t' = OrderedTask.task_events t.
Proof. intros (_ & _ & H). apply (f_equal OrderedTask.task_events) in H. exact H. Qed.

Lemma quiet_noisy (t t' : Task) : quiet t t' -> noisy t t'.
Proof.
  intros Hq. pose proof (quiet_events _ _ Hq) as He. destruct Hq as (A & B & C).
  split_and!; [exact A|exact B|rewrite C; reflexivity|].
  exists []. split; [apply delivered_nil, He|reflexivity].
Qed.

Lemma noisy_refl (t : Task) : noisy t t.
Proof. apply quiet_noisy, quiet_refl. Qed.

Lemma noisy_trans (t t1 t2 : Task) : noisy t t1 -> noisy t1 t2 -> noisy t t2.
Proof.
  intros (A1 & B1 & C1 & n1 & D1 & M1) (A2 & B2 & C2 & n2 & D2 & M2).
  split_and!; [rewrite A2|rewrite B2|rewrite C2|]; try assumption.
  exists (n1 ++ n2). split; [eapply delivered_app; eassumption|].
  rewrite forallb_app, M1, M2. reflexivity.
Qed.

Lemma quiet_update_object a f (t : Task) : quiet t (update_object a f t).
Proof.
  repeat split; cbn; apply idents_update_in.
Qed.

Lemma noisy_emit e (t : Task) : minor e = true -> noisy t (emit e t).
Proof.
  intros He. unfold emit.
  destruct (OrderedTask.task_events t) as [log|] eqn:E; [|apply noisy_refl].
  split_and!; try reflexivity. exists [e]. split.
  - unfold delivered. rewrite E. reflexivity.
  - cbn. rewrite He. reflexivity.
Qed.

Lemma quiet_set_vec_insert v i p s (t : Task) :
  vec v t !! i = Some p ->
  quiet t (set_vec v t (<[i := OrderedTaskPoint.with_sample p s]> (vec v t))).
Proof.
  intros Hp. destruct v; cbn in *; repeat split; cbn;
    apply idents_insert_with_sample; exact Hp.
Qed.

Lemma quiet_call_at v i f (t t' : Task) : call_at v i f t = Ret t' -> quiet t t'.
Proof.
  unfold call_at, at_index. intros H. inv_bind H.
  destruct (vec v t !! i) as [p|] eqn:Hp; [|discriminate].
  cbn in E. injection E as <-. injection H as <-.
  apply quiet_set_vec_insert, Hp.
Qed.

Lemma quiet_for_each_from v f n i (t : Task) : quiet t (for_each_from v f n i t).
Proof.
  revert i t. induction n as [|n IH]; intros i t; cbn [for_each_from].
  - apply quiet_refl.
  - destruct (vec v t !! i) as [p|] eqn:Hp; [|apply quiet_refl].
    eapply quiet_trans; [apply quiet_set_vec_insert, Hp|apply IH].
Qed.

Lemma quiet_restate_task_points ss (t : Task) :
  quiet t (OrderedTask.set_task_points t (restate (OrderedTask.task_points t) ss)).
Proof. repeat split. cbn. apply idents_restate. Qed.

Lemma quiet_ScanActive_from receiver (t t' : Task) :
  ScanActive_from receiver t = Ret t' -> quiet t t'.
Proof.
  unfold ScanActive_from. intros H. inv_bind H. inv_bind H. injection H as <-.
  apply quiet_restate_task_points.
Qed.

Lemma quiet_SetNeighbours i (t : Task) : quiet t (SetNeighbours i t).
Proof.
  unfold SetNeighbours. destruct (_ <=? i); [apply quiet_refl|].
  assert (Hal : forall pr nx (l : list Point),
             ident <$> alter (fun p => OrderedTaskPoint.SetNeighbours p pr nx) i l
             = ident <$> l).
  { intros pr nx l. apply list_eq. intros j. rewrite !list_lookup_fmap.
    destruct (decide (i = j)) as [->|Hne].
    - rewrite list_lookup_alter_eq. destruct (l !! j); reflexivity.
    - rewrite list_lookup_alter_ne by exact Hne. reflexivity. }
  destruct (i =? 0); repeat split; cbn; try apply Hal.
  rewrite <- list_fmap_compose. apply list_fmap_ext. intros; reflexivity.
Qed.

Lemma noisy_objects (t t' : Task) : noisy t t' -> addrs (objects t') = addrs (objects t).
Proof.
  intros (A & B & _). unfold objects, addrs. rewrite !fmap_app.
  f_equal; [apply (idents_addrs _ _ A)|apply (idents_addrs _ _ B)].
Qed.

Lemma noisy_scalars (t t' : Task) :
  noisy t t' ->
  OrderedTask.active_task_point t' = OrderedTask.active_task_point t
  /\ OrderedTask.taskpoint_start t' = OrderedTask.taskpoint_start t
  /\ OrderedTask.taskpoint_finish t' = OrderedTask.taskpoint_finish t
  /\ OrderedTask.stats t' = OrderedTask.stats t
  /\ OrderedTask.task_advance t' = OrderedTask.task_advance t
  /\ OrderedTask.task_projection t' = OrderedTask.task_projection t.
Proof.
  intros (_ & _ & C & _).
  repeat split;
    [apply (f_equal OrderedTask.active_task_point) in C
    |apply (f_equal OrderedTask.taskpoint_start) in C
    |apply (f_equal OrderedTask.taskpoint_finish) in C
    |apply (f_equal OrderedTask.stats) in C
    |apply (f_equal OrderedTask.task_advance) in C
    |apply (f_equal OrderedTask.task_projection) in C]; exact C.
Qed.

Lemma noisy_ready (t t' : Task) : noisy t t' -> ready t' = ready t.
Proof.
  intros Hn. pose proof (noisy_objects _ _ Hn) as Ho.
  destruct (noisy_scalars _ _ Hn) as (Ha & Hs & Hf & _).
  destruct Hn as (A & B & _). unfold ready.
  rewrite (idents_length _ _ A), Ha, Hs, Hf, (idents_start_of _ _ A),
    (idents_finish_of _ _ A), (idents_all_starts _ _ B), Ho.
  reflexivity.
Qed.

Lemma noisy_onward (t t' : Task) : noisy t t' -> onward t t'.
Proof.
  intros Hn. destruct (noisy_scalars _ _ Hn) as (Ha & _ & _ & Hst & _).
  destruct Hn as (A & _ & _ & Hnew).
  unfold onward. rewrite (idents_length _ _ A), Ha, Hst. split_and!; auto.
Qed.

Lemma onward_refl (t : Task) : onward t t.
Proof. apply noisy_onward, noisy_refl. Qed.

Lemma onward_trans (t t1 t2 : Task) : onward t t1 -> onward t1 t2 -> onward t t2.
Proof.
  intros (L1 & A1 & I1 & S1 & P1 & F1 & n1 & D1 & M1)
         (L2 & A2 & I2 & S2 & P2 & F2 & n2 & D2 & M2).
  unfold onward. rewrite L2, L1, S2, S1, P2, P1, F2, F1.
  split_and!; try lia; try reflexivity.
  exists (n1 ++ n2). split; [eapply delivered_app; eassumption|].
  rewrite forallb_app, M1, M2. reflexivity.
Qed.

(** *** Pointers *)

Lemma find_object_Some a (l : list Point) p :
  find_object a l = Some p -> OrderedTaskPoint.addr_of p = a /\ p ∈ l.
Proof.
  unfold find_object. induction l as [|q l IH]; cbn; [discriminate|].
  destruct (Nat.eqb (OrderedTaskPoint.addr_of q) a) eqn:E.
  - intros [= <-]. apply Nat.eqb_eq in E. split; [exact E|left].
  - intros H. destruct (IH H) as [Ha Hin]. split; [exact Ha|right; exact Hin].
Qed.

Lemma find_object_live a (l : list Point) :
  a ∈ addrs l -> is_Some (find_object a l).
Proof.
  unfold find_object, addrs. induction l as [|q l IH]; cbn; intros H.
  - inversion H.
  - destruct (Nat.eqb (OrderedTaskPoint.addr_of q) a) eqn:E; [eexists; reflexivity|].
    apply Nat.eqb_neq in E. inversion H; subst; [congruence|]. apply IH. assumption.
Qed.

Lemma deref_live a (t : Task) :
  a ∈ addrs (objects t) ->
  exists p, deref (Some a) t = Ret p /\ OrderedTaskPoint.addr_of p = a.
Proof.
  intros H. destruct (find_object_live _ _ H) as [p Hp].
  exists p. cbn. rewrite Hp. split; [reflexivity|].
  apply (find_object_Some _ _ _ Hp).
Qed.

Lemma lookup_live (l : list Point) i p :
  l !! i = Some p -> OrderedTaskPoint.addr_of p ∈ addrs l.
Proof.
  intros H. unfold addrs. apply list_elem_of_fmap_2.
  apply list_elem_of_lookup_2 with i. exact H.
Qed.

Lemma task_point_live (t : Task) i p :
  OrderedTask.task_points t !! i = Some p -> OrderedTaskPoint.addr_of p ∈ addrs (objects t).
Proof.
  intros H. unfold objects, addrs. rewrite fmap_app. apply elem_of_app. left.
  apply (lookup_live _ _ _ H).
Qed.

Lemma optional_start_live (t : Task) i p :
  OrderedTask.optional_start_points t !! i = Some p ->
  OrderedTaskPoint.addr_of p ∈ addrs (objects t).
Proof.
  intros H. unfold objects, addrs. rewrite fmap_app. apply elem_of_app. right.
  apply (lookup_live _ _ _ H).
Qed.

(** *** What [ready] gives *)

Lemma ready_elim (t : Task) :
  ready t = true ->
  2 <= length (OrderedTask.task_points t)
  /\ OrderedTask.active_task_point t < length (OrderedTask.task_points t)
  /\ (exists front, OrderedTask.task_points t !! 0 = Some front
                    /\ OrderedTaskPoint.type front = TaskPointType.START
                    /\ OrderedTask.taskpoint_start t = Some (OrderedTaskPoint.addr_of front))
  /\ OrderedTask.taskpoint_finish t = finish_of (OrderedTask.task_points t)
  /\ forallb is_start_point (OrderedTask.optional_start_points t) = true
  /\ NoDup (addrs (objects t)).
Proof.
  unfold ready. rewrite !andb_true_iff, !bool_decide_eq_true.
  intros ((((((H2 & Ha) & Hs) & Hso) & Hf) & Hopt) & Hnd).
  apply Nat.leb_le in H2. apply Nat.ltb_lt in Ha.
  repeat split; try assumption.
  destruct Hs as [a Hs]. rewrite Hs in Hso. unfold start_of in Hso.
  destruct (OrderedTask.task_points t) as [|front l]; [discriminate|].
  exists front. split; [reflexivity|].
  unfold OrderedTaskPoint.GetType in Hso.
  destruct (OrderedTaskPoint.type front); cbn in Hso; try discriminate.
  split; [reflexivity|]. rewrite Hs. exact Hso.
Qed.

Lemma ready_start_live (t : Task) :
  ready t = true ->
  exists a, OrderedTask.taskpoint_start t = Some a /\ a ∈ addrs (objects t).
Proof.
  intros H. destruct (ready_elim _ H) as (_ & _ & (front & Hf & _ & Hs) & _).
  eexists. split; [exact Hs|]. apply (task_point_live _ _ _ Hf).
Qed.

Lemma finish_of_live (l : list Point) f : finish_of l = Some f -> f ∈ addrs l.
Proof.
  unfold finish_of. rewrite last_lookup.
  destruct (l !! pred (length l)) as [back|] eqn:E; [|discriminate].
  destruct (_ && _); [|discriminate]. intros [= <-]. apply (lookup_live _ _ _ E).
Qed.

Lemma ready_finish_live (t : Task) f :
  ready t = true -> OrderedTask.taskpoint_finish t = Some f -> f ∈ addrs (objects t).
Proof.
  intros H Hf. destruct (ready_elim _ H) as (_ & _ & _ & Hfo & _).
  rewrite Hfo in Hf. apply finish_of_live in Hf.
  unfold objects, addrs in *. rewrite fmap_app. apply elem_of_app. left. exact Hf.
Qed.

(** *** [ScanActive], [UpdateStartTransition], [CheckTransitionPoint] *)

Lemma ScanActive_from_total (t : Task) :
  ready t = true ->
  exists t', ScanActive_from (OrderedTask.taskpoint_start t) t = Ret t'.
Proof.
  intros H. destruct (ready_start_live _ H) as (a & Hs & Hl).
  destruct (ready_elim _ H) as (_ & Ha & _).
  destruct (deref_live _ _ Hl) as (p & Hp & _).
  destruct (lookup_lt_is_Some_2 _ _ Ha) as [q Hq].
  unfold ScanActive_from, at_index. rewrite Hs, Hp, Hq. cbn. eauto.
Qed.

Lemma quiet_UpdateStartTransition state start (t t' : Task) :
  UpdateStartTransition state start t = Ret t' -> quiet t t'.
Proof.
  unfold UpdateStartTransition. destruct (_ =? 0).
  - intros H. inv_bind H. inv_bind H. injection H as <-. apply quiet_update_object.
  - intros H. inv_bind H. destruct (_ && _); injection H as <-;
      [apply quiet_update_object|apply quiet_refl].
Qed.

Lemma UpdateStartTransition_total state start (t : Task) :
  ready t = true -> start ∈ addrs (objects t) ->
  exists t', UpdateStartTransition state start t = Ret t'.
Proof.
  intros H Hl. unfold UpdateStartTransition.
  destruct (ready_elim _ H) as (H2 & _).
  destruct (ready_start_live _ H) as (a & Hs & Hal).
  destruct (deref_live _ _ Hal) as (p & Hp & _).
  destruct (deref_live _ _ Hl) as (q & Hq & _).
  destruct (lookup_lt_is_Some_2 (OrderedTask.task_points t) 1 ltac:(lia)) as [nx Hnx].
  destruct (_ =? 0).
  - rewrite Hs, Hp. unfold at_index. rewrite Hnx. cbn. eauto.
  - rewrite Hq. rewrite bind_Ret. destruct (_ && _); eauto.
Qed.

Lemma fire_block (nearby : bool) (r : bool * SampleState) ev point (flag : bool)
    (t t1 : Task) (flag1 : bool) :
  minor ev = true ->
  (if nearby then
     let '(fired, s) := r in
     if fired then (true, emit ev (update_object point (fun _ => s) t))
     else (flag, update_object point (fun _ => s) t)
   else (flag, t)) = (flag1, t1) ->
  noisy t t1 /\ (flag = true -> flag1 = true).
Proof.
  intros Hev. destruct nearby; [destruct r as [[] s]|]; intros [= <- <-].
  - split; [|reflexivity].
    eapply noisy_trans; [apply quiet_noisy, quiet_update_object|apply noisy_emit, Hev].
  - split; [apply quiet_noisy, quiet_update_object|auto].
  - split; [apply noisy_refl|auto].
Qed.

Lemma noisy_CheckTransitionPoint point state state_last bb_now bb_last
    enter exit pev is_start (t t' : Task) u en ex :
  CheckTransitionPoint point state state_last bb_now bb_last enter exit pev is_start t
  = Ret (u, (en, ex), t') ->
  noisy t t' /\ (enter = true -> en = true) /\ (exit = true -> ex = true).
Proof.
  unfold CheckTransitionPoint. intros H. inv_bind H. cbv zeta in H.
  match type of H with
  | (match ?X with pair _ _ => _ end) = _ => destruct X as [en1 t1] eqn:B1
  end.
  apply fire_block in B1 as [N1 M1]; [|reflexivity].
  inv_bind H.
  match type of H with
  | (match ?X with pair _ _ => _ end) = _ => destruct X as [ex1 t2] eqn:B2
  end.
  apply fire_block in B2 as [N2 M2]; [|reflexivity].
  inv_bind H.
  assert (N3 : quiet t2 x1).
  { destruct is_start; [eapply quiet_UpdateStartTransition; eassumption|].
    injection E1 as <-. apply quiet_refl. }
  inv_bind H.
  match type of H with
  | (match ?X with pair _ _ => _ end) = _ => destruct X as [upd s]
  end.
  injection H as <- <- <- <-.
  split; [|split; assumption].
  eapply noisy_trans; [exact N1|]. eapply noisy_trans; [exact N2|].
  apply quiet_noisy. eapply quiet_trans; [exact N3|apply quiet_update_object].
Qed.

Lemma CheckTransitionPoint_total point state state_last bb_now bb_last
    enter exit pev is_start (t : Task) :
  ready t = true -> point ∈ addrs (objects t) ->
  exists u en ex t',
    CheckTransitionPoint point state state_last bb_now bb_last enter exit pev is_start t
    = Ret (u, (en, ex), t').
Proof.
  intros Hr Hl. unfold CheckTransitionPoint.
  destruct (deref_live _ _ Hl) as (p & Hp & _). rewrite Hp, bind_Ret. cbv zeta.
  match goal with
  | |- context [match ?X with pair _ _ => _ end] =>
      destruct X as [en1 t1] eqn:B1
  end.
  apply fire_block in B1 as [N1 _]; [|reflexivity].
  assert (Hl1 : point ∈ addrs (objects t1)) by (rewrite (noisy_objects _ _ N1); exact Hl).
  destruct (deref_live _ _ Hl1) as (p1 & Hp1 & _). rewrite Hp1, bind_Ret.
  match goal with
  | |- context [match ?X with pair _ _ => _ end] =>
      destruct X as [ex1 t2] eqn:B2
  end.
  apply fire_block in B2 as [N2 _]; [|reflexivity].
  assert (Hr2 : ready t2 = true).
  { rewrite (noisy_ready _ _ N2), (noisy_ready _ _ N1). exact Hr. }
  assert (Hl2 : point ∈ addrs (objects t2)) by (rewrite (noisy_objects _ _ N2); exact Hl1).
  assert (exists t3, (if is_start then UpdateStartTransition state point t2 else Ret t2)
                     = Ret t3 /\ quiet t2 t3) as (t3 & E3 & N3).
  { destruct is_start.
    - destruct (UpdateStartTransition_total state point t2 Hr2 Hl2) as [t3 E3].
      exists t3. split; [exact E3|]. eapply quiet_UpdateStartTransition, E3.
    - exists t2. split; [reflexivity|apply quiet_refl]. }
  rewrite E3, bind_Ret.
  assert (Hl3 : point ∈ addrs (objects t3))
    by (rewrite (noisy_objects _ _ (quiet_noisy _ _ N3)); exact Hl2).
  destruct (deref_live _ _ Hl3) as (p3 & Hp3 & _). rewrite Hp3, bind_Ret.
  match goal with
  | |- context [match ?X with pair _ _ => _ end] => destruct X as [upd s]
  end.
  eauto.
Qed.

(** *** [UpdateGeometry] and [SelectOptionalStart] *)

Lemma same_scalars_refl (t : Task) : same_scalars t t.
Proof. repeat split. Qed.

Lemma same_scalars_trans (t t1 t2 : Task) :
  same_scalars t t1 -> same_scalars t1 t2 -> same_scalars t t2.
Proof.
  intros (A1 & B1 & C1 & D1 & E1 & F1) (A2 & B2 & C2 & D2 & E2 & F2).
  unfold same_scalars. rewrite A2, B2, C2, D2, E2, F2. auto 10.
Qed.

Lemma settled_refl (t : Task) : settled t t.
Proof. repeat split. Qed.

Lemma settled_trans (t t1 t2 : Task) : settled t t1 -> settled t1 t2 -> settled t t2.
Proof.
  intros (A1 & B1 & C1 & D1 & E1) (A2 & B2 & C2 & D2 & E2).
  unfold settled. rewrite A2, B2, C2, D2.
  split_and!; try assumption. eapply same_scalars_trans; eassumption.
Qed.

Lemma quiet_settled (t t' : Task) : quiet t t' -> settled t t'.
Proof.
  intros Hq. pose proof (quiet_events _ _ Hq) as He.
  destruct (noisy_scalars _ _ (quiet_noisy _ _ Hq)) as (Ha & Hs & Hf & Hst & Hadv & _).
  destruct Hq as (A & B & _).
  unfold settled, same_scalars. rewrite Hst. auto 12.
Qed.

Lemma settled_fresh (t t' : Task) : settled t t' -> fresh t -> fresh t'.
Proof.
  intros (A & _ & Hs & Hf & _) [F1 F2]. unfold fresh.
  rewrite Hs, Hf, (idents_start_of _ _ A), (idents_finish_of _ _ A). auto.
Qed.

Lemma UpdateStatsGeometry_spec (t : Task) :
  OrderedTask.task_points (UpdateStatsGeometry t) = OrderedTask.task_points t
  /\ OrderedTask.optional_start_points (UpdateStatsGeometry t)
     = OrderedTask.optional_start_points t
  /\ same_scalars t (UpdateStatsGeometry t)
  /\ fresh (UpdateStatsGeometry t).
Proof.
  unfold UpdateStatsGeometry, ScanStartFinish, fresh, start_of, finish_of.
  destruct (OrderedTask.task_points t) as [|front l] eqn:E.
  - cbn. rewrite E. repeat split.
  - cbn [snd]. cbn. rewrite E. cbn [last].
    destruct (last (front :: l)) as [back|]; repeat split.
Qed.

Lemma settled_apply_DistanceUpdate u (t : Task) : settled t (apply_DistanceUpdate u t).
Proof.
  unfold apply_DistanceUpdate. repeat split. cbn. apply idents_restate.
Qed.

Lemma UpdateGeometry_spec (t t' : Task) :
  UpdateGeometry t = Ret t' ->
  ident <$> OrderedTask.task_points t' = ident <$> OrderedTask.task_points t
  /\ ident <$> OrderedTask.optional_start_points t'
     = ident <$> OrderedTask.optional_start_points t
  /\ same_scalars t t' /\ fresh t'.
Proof.
  unfold UpdateGeometry. cbv zeta.
  destruct (UpdateStatsGeometry_spec t) as (Htp & Hop & Hsc & Hfr).
  set (t0 := UpdateStatsGeometry t) in *. clearbody t0.
  destruct (OrderedTask.task_points t0) as [|first l] eqn:E.
  - intros [= <-]. rewrite E, Htp, Hop. auto.
  - intros H. inv_bind H. apply quiet_ScanActive_from, quiet_settled in E0.
    inv_bind H.
    match type of H with
    | Ret (OrderedTask.set_force_full_update ?T true) = _ =>
        assert (Hset : settled x T)
    end.
    { match goal with
      | |- settled _ (if _ then apply_DistanceUpdate ?u ?T else _) =>
          assert (Hs1 : settled x T);
          [|destruct (negb _);
            [eapply settled_trans; [exact Hs1|apply settled_apply_DistanceUpdate]
            |exact Hs1]]
      end.
      unfold UpdateObservationZones, for_each.
      repeat (eapply settled_trans; [|apply quiet_settled, quiet_for_each_from]).
      repeat split. }
    match type of H with
    | Ret ?T' = _ => assert (Hall : settled t0 T')
    end.
    { eapply settled_trans; [exact E0|]. eapply settled_trans; [exact Hset|].
      repeat split. }
    injection H as <-.
    pose proof (settled_fresh _ _ Hall Hfr) as Hfr'.
    destruct Hall as (A & B & _ & _ & S).
    split_and!.
    + etransitivity; [exact A|]. rewrite E, Htp. reflexivity.
    + etransitivity; [exact B|]. rewrite Hop. reflexivity.
    + eapply same_scalars_trans; [exact Hsc|exact S].
    + exact Hfr'.
Qed.

Lemma UpdateGeometry_total (t : Task) :
  OrderedTask.active_task_point t < length (OrderedTask.task_points t) ->
  exists t', UpdateGeometry t = Ret t'.
Proof.
  intros Ha. unfold UpdateGeometry. cbv zeta.
  destruct (UpdateStatsGeometry_spec t) as (Htp & Hop & Hsc & Hfr).
  destruct Hsc as (Hact & _).
  set (t0 := UpdateStatsGeometry t) in *. clearbody t0.
  rewrite <- Htp, <- Hact in Ha.
  destruct (OrderedTask.task_points t0) as [|first l] eqn:E; [eauto|].
  assert (Hl : OrderedTaskPoint.addr_of first ∈ addrs (objects t0)).
  { apply (task_point_live t0 0). rewrite E. reflexivity. }
  destruct (deref_live _ _ Hl) as (p & Hp & _).
  rewrite <- E in Ha. destruct (lookup_lt_is_Some_2 _ _ Ha) as [q Hq].
  assert (Es : exists x, ScanActive_from (Some (OrderedTaskPoint.addr_of first)) t0 = Ret x).
  { unfold ScanActive_from, at_index. rewrite Hp, Hq. cbn. eauto. }
  destruct Es as [x Ex]. rewrite Ex, bind_Ret.
  pose proof (quiet_settled _ _ (quiet_ScanActive_from _ _ _ Ex)) as Sx.
  match goal with
  | |- context [at_index (OrderedTask.task_points ?T) 0] =>
      assert (Hs1 : settled x T)
  end.
  { unfold UpdateObservationZones, for_each.
    repeat (eapply settled_trans; [|apply quiet_settled, quiet_for_each_from]).
    repeat split. }
  match goal with
  | |- context [at_index (OrderedTask.task_points ?T) 0] =>
      assert (Hlen : 0 < length (OrderedTask.task_points T))
  end.
  { destruct Hs1 as (A1 & _). destruct Sx as (A0 & _).
    rewrite (idents_length _ _ A1), (idents_length _ _ A0), E. cbn. lia. }
  destruct (lookup_lt_is_Some_2 _ _ Hlen) as [fr Hfront].
  unfold at_index. rewrite Hfront. cbn. eauto.
Qed.

Lemma SelectOptionalStart_spec pos (t t' : Task) :
  SelectOptionalStart pos t = Ret t' ->
  exists front rest chosen,
    OrderedTask.task_points t = front :: rest
    /\ (OrderedTask.optional_start_points t ++ [front]) !! pos = Some chosen
    /\ ident <$> OrderedTask.task_points t' = ident chosen :: (ident <$> rest)
    /\ ident <$> OrderedTask.optional_start_points t'
       = delete pos (ident <$> (OrderedTask.optional_start_points t ++ [front]))
    /\ same_scalars t t' /\ fresh t'.
Proof.
  unfold SelectOptionalStart.
  destruct (OrderedTask.task_points t) as [|front rest] eqn:E; [discriminate|].
  intros H. inv_bind H. cbv zeta in H.
  unfold at_index in E0.
  destruct ((OrderedTask.optional_start_points t ++ [front]) !! pos) as [chosen|] eqn:Hc;
    [|discriminate].
  injection E0 as <-.
  apply UpdateGeometry_spec in H as (A & B & S & F).
  match type of A with
  | _ = ident <$> OrderedTask.task_points ?T =>
      assert (Hq : settled
                     (OrderedTask.set_optional_start_points
                        (OrderedTask.set_task_points t (chosen :: rest))
                        (delete pos (OrderedTask.optional_start_points t ++ [front]))) T)
  end.
  { destruct (1 <? _);
      [eapply settled_trans; [|apply quiet_settled, quiet_SetNeighbours]|];
      apply quiet_settled, quiet_SetNeighbours. }
  destruct Hq as (A' & B' & _ & _ & S').
  exists front, rest, chosen. split_and!; try reflexivity; try exact Hc.
  - rewrite A, A'. reflexivity.
  - rewrite B, B'. cbn. apply list_fmap_delete.
  - eapply same_scalars_trans; [|exact S]. eapply same_scalars_trans; [|exact S'].
    repeat split.
  - exact F.
Qed.

Lemma SelectOptionalStart_total pos (t : Task) :
  ready t = true -> pos < length (OrderedTask.optional_start_points t) ->
  exists t', SelectOptionalStart pos t = Ret t'.
Proof.
  intros Hr Hpos. destruct (ready_elim _ Hr) as (H2 & Ha & _).
  unfold SelectOptionalStart.
  destruct (OrderedTask.task_points t) as [|front rest] eqn:E; [cbn in H2; lia|].
  destruct (lookup_lt_is_Some_2 (OrderedTask.optional_start_points t ++ [front]) pos)
    as [chosen Hc].
  { rewrite length_app. lia. }
  unfold at_index. rewrite Hc. cbn [of_option]. rewrite bind_Ret. cbv zeta.
  apply UpdateGeometry_total.
  match goal with
  | |- OrderedTask.active_task_point ?T < _ =>
      assert (Hq : settled
                     (OrderedTask.set_optional_start_points
                        (OrderedTask.set_task_points t (chosen :: rest))
                        (delete pos (OrderedTask.optional_start_points t ++ [front]))) T)
  end.
  { destruct (1 <? _);
      [eapply settled_trans; [|apply quiet_settled, quiet_SetNeighbours]|];
      apply quiet_settled, quiet_SetNeighbours. }
  destruct Hq as (A' & _ & _ & _ & (Hact & _)).
  rewrite Hact, (idents_length _ _ A'). cbn in *. exact Ha.
Qed.

Lemma ready_intro (t : Task) :
  2 <= length (OrderedTask.task_points t) ->
  OrderedTask.active_task_point t < length (OrderedTask.task_points t) ->
  is_Some (OrderedTask.taskpoint_start t) ->
  fresh t ->
  forallb is_start_point (OrderedTask.optional_start_points t) = true ->
  NoDup (addrs (objects t)) ->
  ready t = true.
Proof.
  intros H2 Ha Hs [F1 F2] Ho Hn. unfold ready.
  rewrite !andb_true_iff, !bool_decide_eq_true.
  split_and!; try assumption; [apply Nat.leb_le, H2|apply Nat.ltb_lt, Ha].
Qed.

Lemma ready_SelectOptionalStart pos (t t' : Task) :
  ready t = true -> pos < length (OrderedTask.optional_start_points t) ->
  SelectOptionalStart pos t = Ret t' -> ready t' = true.
Proof.
  intros Hr Hpos H.
  destruct (ready_elim _ Hr) as (H2 & Ha & (fr & Hfr & Hty & _) & _ & Hopt & Hnd).
  apply SelectOptionalStart_spec in H
    as (front & rest & chosen & E & Hc & A & B & (Hact & _) & [F1 F2]).
  rewrite E in Hfr. injection Hfr as <-.
  rewrite lookup_app_l in Hc by exact Hpos.
  assert (Hcs : is_start_point chosen = true).
  { rewrite forallb_forall in Hopt. apply Hopt.
    apply list_elem_of_In. apply list_elem_of_lookup_2 with pos. exact Hc. }
  assert (Hlen : length (OrderedTask.task_points t') = length (OrderedTask.task_points t)).
  { apply (f_equal length) in A. rewrite length_fmap in A. rewrite A, E. cbn.
    rewrite length_fmap. reflexivity. }
  apply ready_intro.
  - rewrite Hlen. exact H2.
  - rewrite Hlen, Hact. exact Ha.
  - rewrite F1. destruct (OrderedTask.task_points t') as [|p l]; [discriminate|].
    cbn in A. injection A as Hpa Hpt _. unfold start_of, OrderedTaskPoint.GetType.
    unfold is_start_point in Hcs. rewrite Hpt, Hcs. eexists; reflexivity.
  - split; assumption.
  - assert (Hall : forallb (fun i => TaskPointType.eqb (snd i) TaskPointType.START)
                     (ident <$> OrderedTask.optional_start_points t') = true).
    { rewrite B. apply forallb_forall. intros i Hi.
      apply list_elem_of_In in Hi.
      assert (Hi' : i ∈ ident <$> (OrderedTask.optional_start_points t ++ [front])).
      { apply list_elem_of_lookup in Hi as [j Hj].
        rewrite list_lookup_delete in Hj.
        destruct (decide (j < pos)); eapply list_elem_of_lookup_2; exact Hj. }
      apply list_elem_of_fmap in Hi' as (p & -> & Hp).
      apply elem_of_app in Hp as [Hp|Hp].
      - rewrite forallb_forall in Hopt. apply (Hopt p). apply list_elem_of_In, Hp.
      - apply list_elem_of_singleton in Hp. subst p. cbn. rewrite Hty. reflexivity. }
    clear -Hall. induction (OrderedTask.optional_start_points t') as [|p l IH];
      [reflexivity|].
    cbn in *. apply andb_true_iff in Hall as [H1 H2].
    unfold is_start_point at 1. rewrite H1. apply IH, H2.
  - assert (Hperm : addrs (objects t') ≡ₚ addrs (objects t)).
    { unfold objects, addrs. rewrite !fmap_app.
      rewrite (list_fmap_ext OrderedTaskPoint.addr_of (fst ∘ ident)
                 (OrderedTask.task_points t')) by reflexivity.
      rewrite (list_fmap_ext OrderedTaskPoint.addr_of (fst ∘ ident)
                 (OrderedTask.optional_start_points t')) by reflexivity.
      rewrite !list_fmap_compose, A, B, E. cbn [fmap list_fmap fst ident].
      rewrite <- list_fmap_delete, <- list_fmap_compose.
      change (fst ∘ ident) with OrderedTaskPoint.addr_of.
      rewrite <- list_fmap_compose.
      change (fst ∘ ident) with OrderedTaskPoint.addr_of.
      assert (Hd : OrderedTask.optional_start_points t ++ [front]
                   ≡ₚ chosen :: delete pos (OrderedTask.optional_start_points t ++ [front])).
      { apply delete_Permutation. apply lookup_app_l_Some. exact Hc. }
      apply (fmap_Permutation OrderedTaskPoint.addr_of) in Hd.
      rewrite fmap_app in Hd. cbn [fmap list_fmap] in Hd.
      change (OrderedTaskPoint.addr_of chosen
              :: (OrderedTaskPoint.addr_of <$> rest)
                 ++ (OrderedTaskPoint.addr_of
                       <$> delete pos (OrderedTask.optional_start_points t ++ [front]))
              ≡ₚ OrderedTaskPoint.addr_of front
                 :: (OrderedTaskPoint.addr_of <$> rest)
                    ++ (OrderedTaskPoint.addr_of <$> OrderedTask.optional_start_points t)).
      rewrite Permutation_middle. rewrite <- Hd.
      rewrite (Permutation_app_comm _ [OrderedTaskPoint.addr_of front]).
      rewrite app_assoc. rewrite (Permutation_app_comm _ [OrderedTaskPoint.addr_of front]).
      reflexivity. }
    rewrite Hperm. exact Hnd.
Qed.

(** *** The loop over the optional start points *)

Lemma same_scalars_onward (t t' : Task) :
  length (OrderedTask.task_points t') = length (OrderedTask.task_points t) ->
  same_scalars t t' -> onward t t'.
Proof.
  intros Hl (A & B & C & D & E & F). unfold onward. rewrite Hl, A, D, E, F.
  split_and!; auto. exists []. split; [apply delivered_nil, B|reflexivity].
Qed.

Lemma onward_SelectOptionalStart pos (t t' : Task) :
  SelectOptionalStart pos t = Ret t' -> onward t t'.
Proof.
  intros H. apply SelectOptionalStart_spec in H
    as (front & rest & chosen & E & _ & A & _ & S & _).
  apply same_scalars_onward; [|exact S].
  apply (f_equal length) in A. rewrite length_fmap in A. rewrite A, E. cbn.
  rewrite length_fmap. reflexivity.
Qed.

Lemma onward_CheckTransitionOptionalStart_from n i state state_last bb_now bb_last
    enter exit pev fu (t t' : Task) fu' en ex :
  CheckTransitionOptionalStart_from n i state state_last bb_now bb_last enter exit pev fu t
  = Ret (fu', (en, ex), t') ->
  onward t t'.
Proof.
  revert i enter exit fu t. induction n as [|n IH]; intros i enter exit fu t.
  - intros [= <- <- <- <-]. apply onward_refl.
  - cbn [CheckTransitionOptionalStart_from]. intros H. inv_bind H. inv_bind H.
    destruct x0 as [[u [en1 ex1]] t1].
    apply noisy_CheckTransitionPoint in E0 as (N1 & _).
    cbv zeta in H. destruct (en1 || ex1).
    + inv_bind H. injection H as <- <- <- <-.
      eapply onward_trans; [apply noisy_onward, N1|].
      eapply onward_SelectOptionalStart, E0.
    + eapply onward_trans; [apply noisy_onward, N1|]. eapply IH, H.
Qed.

Lemma CheckTransitionOptionalStart_from_total n i state state_last bb_now bb_last
    enter exit pev fu (t : Task) :
  ready t = true ->
  i + n <= length (OrderedTask.optional_start_points t) ->
  exists fu' en ex t',
    CheckTransitionOptionalStart_from n i state state_last bb_now bb_last enter exit pev fu t
    = Ret (fu', (en, ex), t')
    /\ ready t' = true.
Proof.
  revert i enter exit fu t. induction n as [|n IH]; intros i enter exit fu t Hr Hn.
  - cbn. eauto 10.
  - cbn [CheckTransitionOptionalStart_from].
    destruct (lookup_lt_is_Some_2 (OrderedTask.optional_start_points t) i ltac:(lia))
      as [p Hp].
    unfold at_index. rewrite Hp. cbn [of_option]. rewrite bind_Ret.
    destruct (CheckTransitionPoint_total (OrderedTaskPoint.addr_of p) state state_last
                bb_now bb_last enter exit pev true t Hr (optional_start_live _ _ _ Hp))
      as (u & en1 & ex1 & t1 & E1).
    rewrite E1, bind_Ret. cbv zeta.
    apply noisy_CheckTransitionPoint in E1 as (N1 & _).
    assert (Hr1 : ready t1 = true) by (rewrite (noisy_ready _ _ N1); exact Hr).
    assert (Hlen : length (OrderedTask.optional_start_points t1)
                   = length (OrderedTask.optional_start_points t)).
    { destruct N1 as (_ & B & _). apply (idents_length _ _ B). }
    destruct (en1 || ex1).
    + destruct (SelectOptionalStart_total i t1 Hr1 ltac:(lia)) as [t2 E2].
      rewrite E2, bind_Ret. eexists _, _, _, _. split; [reflexivity|].
      eapply ready_SelectOptionalStart; [exact Hr1| |exact E2]. lia.
    + apply IH; [exact Hr1|lia].
Qed.

Lemma examine_optional_starts_flags n i state state_last bb_now bb_last
    enter exit pev fu (t t' : Task) fu' en ex :
  examine_optional_starts n i state state_last bb_now bb_last enter exit pev fu t
  = Ret (fu', (en, ex), t') ->
  (enter = true -> en = true) /\ (exit = true -> ex = true).
Proof.
  revert i enter exit fu t. induction n as [|n IH]; intros i enter exit fu t.
  - intros [= <- <- <- <-]. auto.
  - cbn [examine_optional_starts]. intros H. inv_bind H. inv_bind H.
    destruct x0 as [[u [en1 ex1]] t1].
    apply noisy_CheckTransitionPoint in E0 as (_ & M1 & M2).
    apply IH in H as [M3 M4]. auto.
Qed.

(** The loop goes past the optional starts that [examine_optional_starts]
    finds without a transition. *)
Lemma CheckTransitionOptionalStart_from_skip k n i state state_last bb_now bb_last
    pev fu (t t1 : Task) fu1 :
  examine_optional_starts k i state state_last bb_now bb_last false false pev fu t
  = Ret (fu1, (false, false), t1) ->
  CheckTransitionOptionalStart_from (k + n) i state state_last bb_now bb_last
    false false pev fu t
  = CheckTransitionOptionalStart_from n (i + k) state state_last bb_now bb_last
      false false pev fu1 t1.
Proof.
  revert i fu t. induction k as [|k IH]; intros i fu t.
  - intros [= <- <-]. rewrite Nat.add_0_r. reflexivity.
  - cbn [examine_optional_starts Nat.add CheckTransitionOptionalStart_from].
    intros H. inv_bind H. inv_bind H. destruct x0 as [[u [en1 ex1]] t2].
    rewrite E, bind_Ret, E0, bind_Ret. cbv zeta.
    destruct (examine_optional_starts_flags _ _ _ _ _ _ _ _ _ _ _ _ _ _ _ H) as [M1 M2].
    destruct en1; [specialize (M1 eq_refl); discriminate|].
    destruct ex1; [specialize (M2 eq_refl); discriminate|].
    cbn [orb]. rewrite (IH _ _ _ H). f_equal. lia.
Qed.

(** *** The loop over the scan window *)

Lemma at_index_lookup (l : list Point) i p : l !! i = Some p -> at_index l i = Ret p.
Proof. intros H. unfold at_index. rewrite H. reflexivity. Qed.

Lemma ready_iff (t : Task) :
  ready t = true <->
  2 <= length (OrderedTask.task_points t)
  /\ OrderedTask.active_task_point t < length (OrderedTask.task_points t)
  /\ is_Some (OrderedTask.taskpoint_start t)
  /\ fresh t
  /\ forallb is_start_point (OrderedTask.optional_start_points t) = true
  /\ NoDup (addrs (objects t)).
Proof.
  split.
  - unfold ready, fresh. rewrite !andb_true_iff, !bool_decide_eq_true.
    intros ((((((H2 & Ha) & Hs) & Hso) & Hf) & Hopt) & Hnd).
    apply Nat.leb_le in H2. apply Nat.ltb_lt in Ha. auto 10.
  - intros (H2 & Ha & Hs & Hf & Ho & Hn). apply ready_intro; assumption.
Qed.

Lemma ready_set_task_advance (t : Task) a :
  ready (OrderedTask.set_task_advance t a) = ready t.
Proof. reflexivity. Qed.

Lemma ready_SetActiveTaskPoint index (t : Task) :
  ready t = true -> ready (SetActiveTaskPoint index t) = true.
Proof.
  intros Hr. unfold SetActiveTaskPoint.
  destruct (_ || _) eqn:E; [exact Hr|].
  apply orb_false_iff in E as [E _]. apply Nat.leb_gt in E.
  apply ready_iff in Hr as (H2 & Ha & Hs & Hf & Ho & Hn).
  apply ready_iff. cbn. split_and!; assumption.
Qed.

Lemma onward_SetActiveTaskPoint index (t : Task) :
  OrderedTask.active_task_point t <= index -> onward t (SetActiveTaskPoint index t).
Proof.
  intros Hi. unfold SetActiveTaskPoint.
  destruct (_ || _) eqn:E; [apply onward_refl|].
  apply orb_false_iff in E as [E _]. apply Nat.leb_gt in E.
  unfold onward. cbn. split_and!; auto.
  exists []. split; [apply delivered_nil; reflexivity|reflexivity].
Qed.

Lemma onward_set_task_advance (t : Task) a : onward t (OrderedTask.set_task_advance t a).
Proof.
  unfold onward. cbn. split_and!; auto.
  exists []. split; [apply delivered_nil; reflexivity|reflexivity].
Qed.

Lemma onward_CheckTransitions_body i n_task state state_last bb_now bb_last fu
    (t t' : Task) i' fu' :
  CheckTransitions_body i n_task state state_last bb_now bb_last fu t = Ret (i', fu', t') ->
  onward t t' /\ (i <= i' <= i + 1)%Z.
Proof.
  unfold CheckTransitions_body. intros H. inv_bind H.
  destruct x as [[u1 [en1 ex1]] t1].
  assert (O1 : onward t t1).
  { destruct (i =? 0)%Z.
    - eapply onward_CheckTransitionOptionalStart_from, E.
    - injection E as _ _ _ <-. apply onward_refl. }
  clear E. cbv zeta in H. inv_bind H. inv_bind H.
  destruct x0 as [[u2 [en2 ex2]] t2].
  apply noisy_CheckTransitionPoint in E0 as (N2 & _).
  assert (O2 : onward t t2) by (eapply onward_trans; [exact O1|apply noisy_onward, N2]).
  clear O1 N2.
  destruct (i =? Z.of_nat (OrderedTask.active_task_point t2))%Z eqn:Ei.
  - apply Z.eqb_eq in Ei. inv_bind H.
    destruct (CheckReadyToAdvance _ _ _ _ _) as [rdy adv].
    set (t3 := OrderedTask.set_task_advance t2 adv) in *.
    assert (O3 : onward t t3)
      by (eapply onward_trans; [exact O2|apply onward_set_task_advance]).
    destruct rdy.
    + set (t4 := OrderedTask.set_task_advance t3 _) in *.
      assert (O4 : onward t t4)
        by (eapply onward_trans; [exact O3|apply onward_set_task_advance]).
      destruct (i + 1 <? n_task)%Z.
      * inv_bind H. inv_bind H. injection H as <- <- <-.
        split; [|lia].
        eapply onward_trans; [exact O4|].
        eapply onward_trans;
          [apply (onward_SetActiveTaskPoint (Z.to_nat (i + 1))); subst t4 t3;
           cbn [OrderedTask.active_task_point OrderedTask.set_task_advance]; lia|].
        eapply onward_trans;
          [apply noisy_onward, quiet_noisy; eapply quiet_ScanActive_from; exact E1|].
        apply noisy_onward, noisy_emit. reflexivity.
      * injection H as <- <- <-. split; [exact O4|lia].
    + destruct (_ && _); injection H as <- <- <-; (split; [|lia]).
      * eapply onward_trans; [exact O3|]. apply noisy_onward, noisy_emit. reflexivity.
      * exact O3.
  - injection H as <- <- <-. split; [exact O2|lia].
Qed.

Lemma CheckTransitions_body_total i n_task state state_last bb_now bb_last fu (t : Task) :
  ready t = true ->
  (0 <= i < Z.of_nat (length (OrderedTask.task_points t)))%Z ->
  n_task = Z.of_nat (length (OrderedTask.task_points t)) ->
  exists i' fu' t',
    CheckTransitions_body i n_task state state_last bb_now bb_last fu t = Ret (i', fu', t')
    /\ ready t' = true.
Proof.
  intros Hr Hi Hn. unfold CheckTransitions_body.
  assert (exists u1 en1 ex1 t1,
             (if (i =? 0)%Z then
                CheckTransitionOptionalStart state state_last bb_now bb_last false false
                  (TaskStats.pev_based_advance_ready (OrderedTask.stats t)) t
              else Ret (false, (false, false), t)) = Ret (u1, (en1, ex1), t1)
             /\ ready t1 = true /\ onward t t1) as (u1 & en1 & ex1 & t1 & E1 & Hr1 & O1).
  { destruct (i =? 0)%Z.
    - destruct (CheckTransitionOptionalStart_from_total
                  (length (OrderedTask.optional_start_points t)) 0 state state_last
                  bb_now bb_last false false
                  (TaskStats.pev_based_advance_ready (OrderedTask.stats t)) false t Hr
                  ltac:(lia)) as (fu' & en & ex & t' & E & Hr').
      exists fu', en, ex, t'. split_and!; [exact E|exact Hr'|].
      eapply onward_CheckTransitionOptionalStart_from, E.
    - exists false, false, false, t. split_and!; [reflexivity|exact Hr|apply onward_refl]. }
  rewrite E1, bind_Ret. cbv beta iota zeta.
  assert (Hlen1 : length (OrderedTask.task_points t1) = length (OrderedTask.task_points t))
    by apply O1.
  destruct (lookup_lt_is_Some_2 (OrderedTask.task_points t1) (Z.to_nat i) ltac:(lia))
    as [p Hp].
  rewrite (at_index_lookup _ _ _ Hp), bind_Ret.
  destruct (CheckTransitionPoint_total (OrderedTaskPoint.addr_of p) state state_last
              bb_now bb_last en1 ex1
              (TaskStats.pev_based_advance_ready (OrderedTask.stats t1)) (i =? 0)%Z t1 Hr1
              (task_point_live _ _ _ Hp)) as (u2 & en2 & ex2 & t2 & E2).
  rewrite E2, bind_Ret. cbv beta iota zeta.
  apply noisy_CheckTransitionPoint in E2 as (N2 & _).
  assert (Hr2 : ready t2 = true) by (rewrite (noisy_ready _ _ N2); exact Hr1).
  assert (Hlen2 : length (OrderedTask.task_points t2) = length (OrderedTask.task_points t))
    by (destruct N2 as (A & _); rewrite (idents_length _ _ A); exact Hlen1).
  destruct (i =? Z.of_nat (OrderedTask.active_task_point t2))%Z; [|eauto 10].
  destruct (lookup_lt_is_Some_2 (OrderedTask.task_points t2) (Z.to_nat i) ltac:(lia))
    as [p2 Hp2].
  rewrite (at_index_lookup _ _ _ Hp2), bind_Ret.
  destruct (CheckReadyToAdvance _ _ _ _ _) as [rdy adv].
  destruct rdy.
  - destruct (i + 1 <? n_task)%Z eqn:En;
      [apply Z.ltb_lt in En|eexists _, _, _; split; [reflexivity|exact Hr2]].
    set (t5 := SetActiveTaskPoint _ _).
    assert (Hr5 : ready t5 = true) by (apply ready_SetActiveTaskPoint; exact Hr2).
    destruct (ScanActive_from_total t5 Hr5) as [t6 E6]. rewrite E6, bind_Ret.
    pose proof (quiet_ScanActive_from _ _ _ E6) as Q6.
    assert (Hr6 : ready t6 = true)
      by (rewrite (noisy_ready _ _ (quiet_noisy _ _ Q6)); exact Hr5).
    apply ready_iff in Hr6 as Hr6'. destruct Hr6' as (_ & Ha6 & _).
    assert (Hlen6 : length (OrderedTask.task_points t6) = length (OrderedTask.task_points t)).
    { destruct Q6 as (A & _). rewrite (idents_length _ _ A).
      subst t5. unfold SetActiveTaskPoint. destruct (_ || _); exact Hlen2. }
    destruct (lookup_lt_is_Some_2 (OrderedTask.task_points t6) (Z.to_nat (i + 1))
                ltac:(lia)) as [p6 Hp6].
    rewrite (at_index_lookup _ _ _ Hp6), bind_Ret.
    eexists _, _, _. split; [reflexivity|].
    rewrite (noisy_ready _ _ (noisy_emit (TaskEvent.ActiveAdvanced _ _) _ eq_refl)).
    exact Hr6.
  - destruct (_ && _); eexists _, _, _; (split; [reflexivity|]);
      [rewrite (noisy_ready _ _ (noisy_emit (TaskEvent.RequestArm _) _ eq_refl))|];
      exact Hr2.
Qed.

Lemma onward_CheckTransitions_loop fuel i t_max n_task state state_last bb_now bb_last fu
    (t t' : Task) fu' :
  CheckTransitions_loop fuel i t_max n_task state state_last bb_now bb_last fu t
  = Ret (fu', t') ->
  onward t t'.
Proof.
  revert i fu t. induction fuel as [|fuel IH]; intros i fu t; cbn [CheckTransitions_loop].
  - destruct (i <=? t_max)%Z; [discriminate|]. intros [= <- <-]. apply onward_refl.
  - destruct (i <=? t_max)%Z; [|intros [= <- <-]; apply onward_refl].
    intros H. inv_bind H. destruct x as [[i1 fu1] t1].
    apply onward_CheckTransitions_body in E as [O1 _].
    eapply onward_trans; [exact O1|]. eapply IH, H.
Qed.

Lemma CheckTransitions_loop_total fuel i t_max n_task state state_last bb_now bb_last fu
    (t : Task) :
  ready t = true ->
  (0 <= i)%Z ->
  (t_max < Z.of_nat (length (OrderedTask.task_points t)))%Z ->
  n_task = Z.of_nat (length (OrderedTask.task_points t)) ->
  (t_max + 1 - i <= Z.of_nat fuel)%Z ->
  exists fu' t',
    CheckTransitions_loop fuel i t_max n_task state state_last bb_now bb_last fu t
    = Ret (fu', t')
    /\ ready t' = true.
Proof.
  revert i fu t. induction fuel as [|fuel IH]; intros i fu t Hr Hi Hmax Hn Hfuel;
    cbn [CheckTransitions_loop].
  - destruct (i <=? t_max)%Z eqn:E; [apply Z.leb_le in E; lia|eauto].
  - destruct (i <=? t_max)%Z eqn:E; [apply Z.leb_le in E|eauto].
    destruct (CheckTransitions_body_total i n_task state state_last bb_now bb_last fu t Hr
                ltac:(lia) Hn) as (i1 & fu1 & t1 & E1 & Hr1).
    rewrite E1, bind_Ret. cbv beta iota zeta.
    apply onward_CheckTransitions_body in E1 as [O1 Hi1].
    assert (Hlen : length (OrderedTask.task_points t1) = length (OrderedTask.task_points t))
      by apply O1.
    apply IH; [exact Hr1|lia|rewrite Hlen; exact Hmax|rewrite Hlen; exact Hn|lia].
Qed.

(** *** The last part of [CheckTransitions] *)

Lemma placed_refl (t : Task) : placed t t.
Proof. repeat split. Qed.

Lemma placed_trans (t t1 t2 : Task) : placed t t1 -> placed t1 t2 -> placed t t2.
Proof.
  intros (A1 & B1 & C1 & D1 & E1) (A2 & B2 & C2 & D2 & E2).
  unfold placed. rewrite A2, B2, C2, D2, E2. auto.
Qed.

Lemma noisy_placed (t t' : Task) : noisy t t' -> placed t t'.
Proof.
  intros Hn. destruct (noisy_scalars _ _ Hn) as (Ha & Hs & Hf & _).
  destruct Hn as (A & B & _). unfold placed. auto.
Qed.

Lemma placed_set_stats (t : Task) st : placed t (OrderedTask.set_stats t st).
Proof. repeat split. Qed.

Lemma placed_emit e (t : Task) : placed t (emit e t).
Proof. unfold emit. destruct (OrderedTask.task_events t); repeat split. Qed.

Lemma placed_ready (t t' : Task) : placed t t' -> ready t' = ready t.
Proof.
  intros (A & B & Hs & Hf & Ha). unfold ready, objects, addrs.
  rewrite !fmap_app.
  change (OrderedTaskPoint.addr_of <$> OrderedTask.task_points t')
    with (addrs (OrderedTask.task_points t')).
  change (OrderedTaskPoint.addr_of <$> OrderedTask.optional_start_points t')
    with (addrs (OrderedTask.optional_start_points t')).
  rewrite (idents_length _ _ A), Ha, Hs, Hf, (idents_start_of _ _ A),
    (idents_finish_of _ _ A), (idents_all_starts _ _ B), (idents_addrs _ _ A),
    (idents_addrs _ _ B).
  reflexivity.
Qed.

Lemma placed_objects (t t' : Task) : placed t t' -> addrs (objects t') = addrs (objects t).
Proof.
  intros (A & B & _). unfold objects, addrs. rewrite !fmap_app.
  f_equal; [apply (idents_addrs _ _ A)|apply (idents_addrs _ _ B)].
Qed.

Lemma placed_CheckTransitions_end lst lf fu (t t' : Task) r :
  CheckTransitions_end lst lf fu t = Ret (r, t') -> r = fu /\ placed t t'.
Proof.
  unfold CheckTransitions_end. cbv zeta. intros H.
  inv_bind H. apply quiet_ScanActive_from, quiet_noisy, noisy_placed in E.
  inv_bind H. clear E0. inv_bind H. clear E0. inv_bind H.
  assert (P1 : placed (OrderedTask.set_stats x
                         (TaskStats.set_task_finished (OrderedTask.stats x) x0)) x2).
  { destruct x1.
    - inv_bind E0. cbn [OrderedTask.taskpoint_finish OrderedTask.set_stats] in E0.
      destruct (OrderedTask.taskpoint_finish x) as [f|].
      + inv_bind E0. injection E0 as <-.
        eapply placed_trans; [|apply noisy_placed, quiet_noisy, quiet_update_object].
        repeat split.
      + injection E0 as <-. repeat split.
    - injection E0 as <-. apply placed_refl. }
  injection H as <- <-. split; [reflexivity|].
  eapply placed_trans; [|destruct (_ && _); [apply placed_emit|apply placed_refl]].
  eapply placed_trans; [|destruct (Qltb _ _); [apply placed_emit|apply placed_refl]].
  eapply placed_trans; [|exact P1].
  eapply placed_trans; [|apply placed_set_stats].
  eapply placed_trans; [|exact E]. apply placed_set_stats.
Qed.

Lemma deref_set_stats ptr (t : Task) st : deref ptr (OrderedTask.set_stats t st) = deref ptr t.
Proof. reflexivity. Qed.

Lemma TaskStarted_total soft (t : Task) :
  ready t = true -> exists b, TaskStarted soft t = Ret b.
Proof.
  intros Hr. destruct (ready_start_live _ Hr) as (a & Hs & Hl).
  destruct (deref_live _ _ Hl) as (p & Hp & _).
  unfold TaskStarted. rewrite Hs, Hp, bind_Ret.
  destruct (HasExited p); [eauto|]. destruct (_ && _); eauto.
Qed.

Lemma CheckTransitions_end_total lst lf fu (t : Task) :
  ready t = true -> exists r t', CheckTransitions_end lst lf fu t = Ret (r, t').
Proof.
  intros Hr. unfold CheckTransitions_end. cbv zeta.
  set (t1 := OrderedTask.set_stats t _).
  assert (Hr1 : ready t1 = true) by exact Hr.
  destruct (ScanActive_from_total t1 Hr1) as [t2 E2]. rewrite E2, bind_Ret.
  assert (Hr2 : ready t2 = true).
  { rewrite (noisy_ready _ _ (quiet_noisy _ _ (quiet_ScanActive_from _ _ _ E2))).
    exact Hr1. }
  assert (exists b, match OrderedTask.taskpoint_finish t2 with
                    | Some _ =>
                        finish ← deref (OrderedTask.taskpoint_finish t2) t2;
                        Ret (HasEntered finish)
                    | None => Ret false
                    end = Ret b) as [fin Efin].
  { destruct (OrderedTask.taskpoint_finish t2) as [f|] eqn:Ef; [|eauto].
    destruct (deref_live _ _ (ready_finish_live _ _ Hr2 Ef)) as (p & Hp & _).
    rewrite Hp, bind_Ret. eauto. }
  rewrite Efin, bind_Ret.
  set (t3 := OrderedTask.set_stats t2 _).
  assert (Hr3 : ready t3 = true) by exact Hr2.
  destruct (TaskStarted_total false t3 Hr3) as [st Est]. rewrite Est, bind_Ret.
  destruct st; [|rewrite bind_Ret; eauto].
  destruct (ready_start_live _ Hr3) as (a & Hs & Hl).
  destruct (deref_live _ _ Hl) as (p & Hp & _).
  rewrite Hs, Hp, bind_Ret. subst t3.
  cbn [OrderedTask.taskpoint_finish OrderedTask.set_stats].
  destruct (OrderedTask.taskpoint_finish t2) as [f|] eqn:Ef.
  - destruct (deref_live _ _ (ready_finish_live _ _ Hr2 Ef)) as (q & Hq & _).
    rewrite !deref_set_stats, Hq, !bind_Ret. eauto.
  - rewrite bind_Ret. eauto.
Qed.

Lemma quiet_placed (t t' : Task) : quiet t t' -> placed t t'.
Proof. intros H. apply noisy_placed, quiet_noisy, H. Qed.

Lemma objects_emit e (t : Task) : objects (emit e t) = objects t.
Proof. unfold emit. destruct (OrderedTask.task_events t); reflexivity. Qed.

Lemma stats_emit e (t : Task) : OrderedTask.stats (emit e t) = OrderedTask.stats t.
Proof. unfold emit. destruct (OrderedTask.task_events t); reflexivity. Qed.

Lemma find_object_update_in a f g (l : list Point) :
  find_object a (update_in f g l)
  = (fun p => if Nat.eqb (OrderedTaskPoint.addr_of p) f
              then OrderedTaskPoint.with_sample p (g p) else p) <$> find_object a l.
Proof.
  unfold find_object, update_in. induction l as [|q l IH]; [reflexivity|].
  cbn [fmap list_fmap find].
  assert (Ha : OrderedTaskPoint.addr_of
                 (if Nat.eqb (OrderedTaskPoint.addr_of q) f
                  then OrderedTaskPoint.with_sample q (g q) else q)
               = OrderedTaskPoint.addr_of q)
    by (destruct (Nat.eqb _ f); reflexivity).
  rewrite Ha. destruct (Nat.eqb (OrderedTaskPoint.addr_of q) a); [reflexivity|exact IH].
Qed.

Lemma objects_update_object f g (t : Task) :
  objects (update_object f g t) = update_in f g (objects t).
Proof. unfold objects, update_object, update_in. cbn. rewrite fmap_app. reflexivity. Qed.

Lemma ready_start_finish_differ (t : Task) a f :
  ready t = true ->
  OrderedTask.taskpoint_start t = Some a ->
  OrderedTask.taskpoint_finish t = Some f ->
  a <> f.
Proof.
  intros Hr Hs Hf.
  destruct (ready_elim _ Hr) as (H2 & _ & (front & Hfr & _ & Hs') & Hfo & _ & Hnd).
  rewrite Hs in Hs'. injection Hs' as ->. rewrite Hfo in Hf.
  unfold finish_of in Hf. rewrite last_lookup in Hf.
  destruct (OrderedTask.task_points t !! pred (length (OrderedTask.task_points t)))
    as [back|] eqn:Hb; [|discriminate].
  destruct (_ && _); [|discriminate]. injection Hf as <-.
  unfold objects, addrs in Hnd. rewrite fmap_app in Hnd.
  apply NoDup_app in Hnd as (Hnd & _).
  intros Heq.
  assert (H0 : (OrderedTaskPoint.addr_of <$> OrderedTask.task_points t) !! 0
               = Some (OrderedTaskPoint.addr_of front))
    by (rewrite list_lookup_fmap, Hfr; reflexivity).
  assert (H1 : (OrderedTaskPoint.addr_of <$> OrderedTask.task_points t)
                 !! pred (length (OrderedTask.task_points t))
               = Some (OrderedTaskPoint.addr_of front))
    by (rewrite list_lookup_fmap, Hb, Heq; reflexivity).
  pose proof (NoDup_lookup _ _ _ _ Hnd H0 H1). lia.
Qed.

Lemma emit_if_spec (c : bool) e (t : Task) :
  objects (if c then emit e t else t) = objects t
  /\ OrderedTask.stats (if c then emit e t else t) = OrderedTask.stats t
  /\ OrderedTask.taskpoint_start (if c then emit e t else t)
     = OrderedTask.taskpoint_start t
  /\ OrderedTask.taskpoint_finish (if c then emit e t else t)
     = OrderedTask.taskpoint_finish t
  /\ delivered (if c then [e] else []) t (if c then emit e t else t).
Proof.
  destruct c.
  - unfold emit, delivered. destruct (OrderedTask.task_events t) eqn:E; cbn;
      rewrite ?E; repeat split.
  - split_and!; try reflexivity. apply delivered_nil. reflexivity.
Qed.

(** What the last part of [CheckTransitions] does about the start. *)
Lemma CheckTransitions_end_start lst lf fu (t t' : Task) r :
  ready t = true ->
  CheckTransitions_end lst lf fu t = Ret (r, t') ->
  exists start',
    deref (OrderedTask.taskpoint_start t') t' = Ret start'
    /\ (HasExited start' = true ->
        TaskStats.start (OrderedTask.stats t')
        = StartStats_SetStarted (GetExitedState start')
        /\ TaskStats.pev_based_advance_ready (OrderedTask.stats t') = false
        /\ forall f, OrderedTask.taskpoint_finish t' = Some f ->
             exists finish' s0,
               deref (Some f) t' = Ret finish'
               /\ OrderedTaskPoint.sample finish'
                  = SetFaiFinishHeight (OrderedTaskPoint.with_sample finish' s0)
                      (CalculateFinishHeightFromStart
                         (OrderedTaskPoint.with_sample finish' s0)
                         (StartStats.altitude (TaskStats.start (OrderedTask.stats t')))))
    /\ (HasExited start' = false ->
        TaskStats.start (OrderedTask.stats t') = TaskStats.start (OrderedTask.stats t)
        /\ TaskStats.pev_based_advance_ready (OrderedTask.stats t')
           = TaskStats.pev_based_advance_ready (OrderedTask.stats t))
    /\ delivered
         ((if Qltb lst (StartStats.time (TaskStats.start (OrderedTask.stats t')))
           then [TaskEvent.TaskStart] else [])
          ++ (if TaskStats.task_finished (OrderedTask.stats t') && negb lf
              then [TaskEvent.TaskFinish] else []))
         t t'.
Proof.
  intros Hr H. pose proof (placed_CheckTransitions_end _ _ _ _ _ _ H) as [_ Hpl].
  unfold CheckTransitions_end in H. cbv zeta in H.
  inv_bind H. rename x into t2.
  pose proof (quiet_ScanActive_from _ _ _ E) as Q2.
  assert (Hr2 : ready t2 = true) by (rewrite (noisy_ready _ _ (quiet_noisy _ _ Q2)); exact Hr).
  assert (Hst2 : OrderedTask.stats t2
                 = TaskStats.set_need_to_arm (OrderedTask.stats t)
                     (NeedToArm (OrderedTask.task_advance t))).
  { destruct Q2 as (_ & _ & C). apply (f_equal OrderedTask.stats) in C. exact C. }
  assert (Hev2 : OrderedTask.task_events t2 = OrderedTask.task_events t)
    by apply (quiet_events _ _ Q2).
  clear E. inv_bind H. rename x into fin. clear E. inv_bind H. rename x into started.
  set (t3 := OrderedTask.set_stats t2 _) in *.
  destruct (ready_start_live _ Hr2) as (a & Hs & Hl).
  destruct (deref_live _ _ Hl) as (p & Hp & Hpa).
  assert (Est : started = HasExited p).
  { unfold TaskStarted in E. subst t3.
    cbn [OrderedTask.taskpoint_start OrderedTask.set_stats
         OrderedTask.active_task_point] in E.
    rewrite Hs, deref_set_stats, Hp, bind_Ret in E.
    destruct (HasExited p); cbn in E; injection E as <-; reflexivity. }
  clear E. inv_bind H. rename x into t5. injection H as <- <-.
  assert (Hfinal : forall tt : Task,
             let t6 := if Qltb lst (StartStats.GetStartedTime
                                      (TaskStats.start (OrderedTask.stats tt)))
                       then emit TaskEvent.TaskStart tt else tt in
             let t7 := if TaskStats.task_finished (OrderedTask.stats t6) && negb lf
                       then emit TaskEvent.TaskFinish t6 else t6 in
             objects t7 = objects tt
             /\ OrderedTask.stats t7 = OrderedTask.stats tt
             /\ OrderedTask.taskpoint_start t7 = OrderedTask.taskpoint_start tt
             /\ OrderedTask.taskpoint_finish t7 = OrderedTask.taskpoint_finish tt
             /\ delivered
                  ((if Qltb lst (StartStats.time (TaskStats.start (OrderedTask.stats tt)))
                    then [TaskEvent.TaskStart] else [])
                   ++ (if TaskStats.task_finished (OrderedTask.stats tt) && negb lf
                       then [TaskEvent.TaskFinish] else []))
                  tt t7).
  { intros tt. cbv zeta. unfold StartStats.GetStartedTime.
    destruct (emit_if_spec (Qltb lst (StartStats.time
                                        (TaskStats.start (OrderedTask.stats tt))))
                TaskEvent.TaskStart tt) as (O1 & S1 & P1 & F1 & D1).
    set (t6 := if Qltb lst (StartStats.time (TaskStats.start (OrderedTask.stats tt)))
               then emit TaskEvent.TaskStart tt else tt) in *.
    destruct (emit_if_spec (TaskStats.task_finished (OrderedTask.stats t6) && negb lf)
                TaskEvent.TaskFinish t6) as (O2 & S2 & P2 & F2 & D2).
    rewrite O2, S2, P2, F2. split_and!; try assumption.
    assert (Hlist : (if TaskStats.task_finished (OrderedTask.stats tt) && negb lf
                  then [TaskEvent.TaskFinish] else [])
                 = (if TaskStats.task_finished (OrderedTask.stats t6) && negb lf
                    then [TaskEvent.TaskFinish] else []))
      by (rewrite S1; reflexivity).
    rewrite Hlist. eapply delivered_app; eassumption. }
  specialize (Hfinal t5). cbv zeta in Hfinal.
  destruct Hfinal as (Hobj & Hstats & Hps & Hpf & Hdel).
  unfold StartStats.GetStartedTime in *.
  set (t' := if TaskStats.task_finished _ && negb lf then _ else _) in *.
  assert (Hev5 : OrderedTask.task_events t5 = OrderedTask.task_events t).
  { rewrite <- Hev2. destruct started.
    - inv_bind E. cbn [OrderedTask.taskpoint_finish OrderedTask.set_stats] in E.
      destruct (OrderedTask.taskpoint_finish t3); [inv_bind E|];
        injection E as <-; reflexivity.
    - injection E as <-. reflexivity. }
  assert (Hdel' : delivered
                    ((if Qltb lst (StartStats.time (TaskStats.start (OrderedTask.stats t')))
                      then [TaskEvent.TaskStart] else [])
                     ++ (if TaskStats.task_finished (OrderedTask.stats t') && negb lf
                         then [TaskEvent.TaskFinish] else [])) t t').
  { rewrite Hstats. unfold delivered in *. rewrite Hdel, Hev5. reflexivity. }
  destruct started.
  - (* the task has started *)
    inv_bind E. rename x into p'.
    subst t3. cbn [OrderedTask.taskpoint_start OrderedTask.set_stats] in E0.
    rewrite deref_set_stats, Hs, Hp in E0. injection E0 as <-.
    cbn [OrderedTask.taskpoint_finish OrderedTask.set_stats] in E.
    destruct (OrderedTask.taskpoint_finish t2) as [f|] eqn:Ef.
    + inv_bind E. rename x into q. rewrite !deref_set_stats in E0.
      injection E as <-.
      pose proof (ready_start_finish_differ _ _ _ Hr2 Hs Ef) as Hne.
      exists p. split_and!.
      * rewrite Hps. cbn [OrderedTask.taskpoint_start update_object
                           OrderedTask.set_optional_start_points
                           OrderedTask.set_task_points OrderedTask.set_stats].
        rewrite Hs. cbn [deref]. rewrite Hobj, objects_update_object, find_object_update_in.
        cbn [deref] in Hp.
        change (objects (OrderedTask.set_stats (OrderedTask.set_stats
                  (OrderedTask.set_stats t2 _) _) _)) with (objects t2).
        destruct (find_object a (objects t2)) as [p0|] eqn:Hfo; [|discriminate].
        injection Hp as ->. cbn [fmap option_fmap option_map of_option].
        replace (Nat.eqb (OrderedTaskPoint.addr_of p) f) with false; [reflexivity|].
        symmetry. apply Nat.eqb_neq. rewrite Hpa. exact Hne.
      * intros _. rewrite Hstats. cbn. split_and!; try reflexivity.
        intros f' Hf'. rewrite Hpf in Hf'. cbn in Hf'. rewrite Ef in Hf'.
        injection Hf' as <-.
        cbn [deref] in E0 |- *.
        rewrite Hobj, objects_update_object, find_object_update_in.
        change (objects (OrderedTask.set_stats (OrderedTask.set_stats
                  (OrderedTask.set_stats t2 _) _) _)) with (objects t2).
        destruct (find_object f (objects t2)) as [q0|] eqn:Hfo; [|discriminate].
        injection E0 as ->. cbn [fmap option_fmap option_map of_option].
        destruct (find_object_Some _ _ _ Hfo) as [Hqa _].
        rewrite Hqa, Nat.eqb_refl.
        eexists _, (OrderedTaskPoint.sample q). split; [reflexivity|].
        destruct q. reflexivity.
      * rewrite <- Est. discriminate.
      * exact Hdel'.
    + injection E as <-. exists p. split_and!.
      * rewrite Hps. cbn [OrderedTask.taskpoint_start OrderedTask.set_stats].
        rewrite Hs. cbn [deref]. rewrite Hobj. exact Hp.
      * intros _. rewrite Hstats. cbn. split_and!; try reflexivity.
        intros f' Hf'. rewrite Hpf in Hf'. cbn in Hf'. rewrite Ef in Hf'. discriminate.
      * rewrite <- Est. discriminate.
      * exact Hdel'.
  - (* not started *)
    injection E as <-. exists p. split_and!.
    + rewrite Hps. subst t3. cbn [OrderedTask.taskpoint_start OrderedTask.set_stats].
      rewrite Hs. cbn [deref]. rewrite Hobj. exact Hp.
    + rewrite <- Est. discriminate.
    + intros _. rewrite Hstats. subst t3. cbn. rewrite Hst2. split; reflexivity.
    + exact Hdel'.
Qed.

(** *** [CheckTransitions] as a whole *)

Lemma onward_placed (t t1 t' : Task) :
  onward t t1 -> placed t1 t' ->
  length (OrderedTask.task_points t') = length (OrderedTask.task_points t)
  /\ OrderedTask.active_task_point t <= OrderedTask.active_task_point t'
  /\ (OrderedTask.active_task_point t < length (OrderedTask.task_points t) ->
      OrderedTask.active_task_point t' < length (OrderedTask.task_points t')).
Proof.
  intros (L & A & I & _) (A' & _ & _ & _ & E').
  rewrite (idents_length _ _ A'), L, E'. auto.
Qed.

Lemma CheckTransitions_bounds state state_last (t t' : Task) r :
  CheckTransitions state state_last t = Ret (r, t') ->
  length (OrderedTask.task_points t') = length (OrderedTask.task_points t)
  /\ OrderedTask.active_task_point t <= OrderedTask.active_task_point t'
  /\ (OrderedTask.active_task_point t < length (OrderedTask.task_points t) ->
      OrderedTask.active_task_point t' < length (OrderedTask.task_points t')).
Proof.
  unfold CheckTransitions.
  destruct (OrderedTask.taskpoint_start t) as [a|] eqn:Es.
  2:{ intros [= <- <-]. auto. }
  intros H. inv_bind H. rename x into t0.
  pose proof (quiet_ScanActive_from _ _ _ E) as Q0.
  pose proof (noisy_onward _ _ (quiet_noisy _ _ Q0)) as O0.
  destruct (negb (AircraftState.flying state)).
  { injection H as <- <-. apply (onward_placed _ _ _ O0 (placed_refl _)). }
  cbv zeta in H. destruct (_ =? 0)%Z.
  { injection H as <- <-. apply (onward_placed _ _ _ O0 (placed_refl _)). }
  inv_bind H. destruct x as [fu t1].
  apply onward_CheckTransitions_loop in E0.
  apply placed_CheckTransitions_end in H as [_ P].
  apply (onward_placed t t1 t'); [|exact P].
  eapply onward_trans; eassumption.
Qed.

Lemma CheckTransitions_total state state_last (t : Task) :
  ready t = true -> exists r t', CheckTransitions state state_last t = Ret (r, t').
Proof.
  intros Hr. unfold CheckTransitions.
  destruct (ready_start_live _ Hr) as (a & Hs & _).
  destruct (ScanActive_from_total t Hr) as [t0 E0].
  rewrite Hs in *. rewrite E0, bind_Ret.
  pose proof (quiet_ScanActive_from _ _ _ E0) as Q0.
  assert (Hr0 : ready t0 = true)
    by (rewrite (noisy_ready _ _ (quiet_noisy _ _ Q0)); exact Hr).
  destruct (negb (AircraftState.flying state)); [eauto|].
  cbv zeta. destruct (_ =? 0)%Z; [eauto|].
  destruct (ready_elim _ Hr0) as (H2 & Ha & _).
  match goal with
  | |- context [CheckTransitions_loop ?fuel ?i ?tmax ?n ?s ?sl ?bn ?bl ?fu ?tt] =>
      destruct (CheckTransitions_loop_total fuel i tmax n s sl bn bl fu tt Hr0)
        as (fu' & t1 & E1 & Hr1); [lia|lia|reflexivity|lia|]
  end.
  rewrite E1, bind_Ret. cbv beta iota.
  apply CheckTransitions_end_total. exact Hr1.
Qed.

Lemma placed_size (t t' : Task) :
  placed t t' ->
  length (OrderedTask.task_points t') = length (OrderedTask.task_points t)
  /\ OrderedTask.active_task_point t' = OrderedTask.active_task_point t.
Proof.
  intros (H & _ & _ & _ & Ha). split; [|exact Ha].
  apply (f_equal length) in H. rewrite !length_fmap in H. exact H.
Qed.

(** With the first point active, [UpdateStartTransition] reads
    [task_points[1]]. *)
Lemma UpdateStartTransition_reads_second state start (t t' : Task) :
  OrderedTask.active_task_point t = 0 ->
  UpdateStartTransition state start t = Ret t' ->
  1 < length (OrderedTask.task_points t).
Proof.
  intros Ha. unfold UpdateStartTransition. rewrite Ha. cbn [Nat.eqb].
  intros H. inv_bind H. inv_bind H.
  unfold at_index in E0. destruct (OrderedTask.task_points t !! 1) eqn:L; [|discriminate].
  apply lookup_lt_Some in L. exact L.
Qed.

Lemma CheckTransitionPoint_reads_second point state state_last bb_now bb_last
    enter exit pev (t : Task) x :
  OrderedTask.active_task_point t = 0 ->
  CheckTransitionPoint point state state_last bb_now bb_last enter exit pev true t = Ret x ->
  1 < length (OrderedTask.task_points t).
Proof.
  intros Ha. unfold CheckTransitionPoint. intros H. inv_bind H. cbv zeta in H.
  match type of H with
  | (match ?X with pair _ _ => _ end) = _ => destruct X as [en1 t1] eqn:B1
  end.
  apply fire_block in B1 as [N1 _]; [|reflexivity].
  inv_bind H.
  match type of H with
  | (match ?X with pair _ _ => _ end) = _ => destruct X as [ex1 t2] eqn:B2
  end.
  apply fire_block in B2 as [N2 _]; [|reflexivity].
  inv_bind H.
  destruct (placed_size _ _ (noisy_placed _ _ N1)) as [L1 A1].
  destruct (placed_size _ _ (noisy_placed _ _ N2)) as [L2 A2].
  apply UpdateStartTransition_reads_second in E1; [|congruence].
  congruence.
Qed.

Lemma CheckTransitionOptionalStart_from_reads_second n i state state_last bb_now bb_last
    enter exit pev fu (t t' : Task) u f :
  OrderedTask.active_task_point t = 0 ->
  CheckTransitionOptionalStart_from n i state state_last bb_now bb_last enter exit pev fu t
  = Ret (u, f, t') ->
  1 < length (OrderedTask.task_points t) \/ t' = t.
Proof.
  intros Ha. destruct n as [|n]; cbn [CheckTransitionOptionalStart_from].
  - intros [= <- <- <-]. right. reflexivity.
  - intros H. inv_bind H. inv_bind H. left.
    eapply CheckTransitionPoint_reads_second; eassumption.
Qed.

Lemma CheckTransitions_body_reads_second n_task state state_last bb_now bb_last fu
    (t : Task) x :
  OrderedTask.active_task_point t = 0 ->
  CheckTransitions_body 0 n_task state state_last bb_now bb_last fu t = Ret x ->
  1 < length (OrderedTask.task_points t).
Proof.
  intros Ha. unfold CheckTransitions_body. cbn [Z.eqb]. intros H. inv_bind H.
  destruct x0 as [[u [en ex]] t1].
  destruct (CheckTransitionOptionalStart_from_reads_second _ _ _ _ _ _ _ _ _ _ _ _ _ _ Ha E)
    as [E'| ->]; [exact E'|].
  cbv zeta in H. inv_bind H. inv_bind H.
  eapply CheckTransitionPoint_reads_second; eassumption.
Qed.

(** A task of one point is outside what [CheckTransitions] can be called
    on: with a start point cached and a state that is flying, the call
    reads [task_points[1]] (or faults before that) and returns nothing. *)
Lemma CheckTransitions_needs_two_points state state_last (t : Task) :
  length (OrderedTask.task_points t) = 1 ->
  is_Some (OrderedTask.taskpoint_start t) ->
  AircraftState.flying state = true ->
  is_ret (CheckTransitions state state_last t) = false.
Proof.
  intros Hl [a Hs] Hf.
  destruct (CheckTransitions state state_last t) as [[r t']|] eqn:H; [exfalso|reflexivity].
  unfold CheckTransitions in H. rewrite Hs in H. inv_bind H.
  destruct (placed_size _ _ (quiet_placed _ _ (quiet_ScanActive_from _ _ _ E))) as [L A].
  assert (Ha : OrderedTask.active_task_point t = 0).
  { unfold ScanActive_from in E. inv_bind E. inv_bind E.
    unfold at_index in E1.
    destruct (OrderedTask.task_points t !! OrderedTask.active_task_point t) eqn:Lk;
      [|discriminate].
    apply lookup_lt_Some in Lk. lia. }
  rewrite Hf in H. cbn [negb] in H. cbv zeta in H.
  rewrite L, Hl, A, Ha in H. cbn in H.
  inv_bind H. clear H.
  change (CheckTransitions_loop 1 0 0 1 state state_last
            {| FlatBoundingBox.center :=
                 ProjectInteger (OrderedTask.task_projection x)
                   (AircraftState.location state);
               FlatBoundingBox.radius := 1 |}
            {| FlatBoundingBox.center :=
                 ProjectInteger (OrderedTask.task_projection x)
                   (AircraftState.location state_last);
               FlatBoundingBox.radius := 1 |} false x = Ret x0) in E0.
  cbn [CheckTransitions_loop Z.leb Z.compare] in E0. inv_bind E0.
  apply CheckTransitions_body_reads_second in E1; [lia|congruence].
Qed.

(** C9 (amended).  For a task whose active index is inside the vector:
    [Remove] keeps it inside unless it removes the only point, which
    leaves the empty task with active index 0; [Insert] and
    [SetActiveTaskPoint] keep it inside; whenever [CheckTransitions]
    returns, the size is the same and the active index has not gone down
    and is inside; [CheckTransitions] does return on a [ready] task (two
    points or more, the cached pointers as [UpdateGeometry()] leaves
    them), and does not on a task of one point with a start point cached
    and a state that is flying, where it reads [task_points[1]]; without
    a start point it returns false and the task as it is; and for a
    state that is not flying (the cached start pointer not dangling) it
    returns false with the active index and the delivered callbacks as
    they were. *)
Theorem active_index_stays_in_range
    (new_tp : Point) (position index : nat) (state state_last : AircraftState.t)
    (t : Task) :
  OrderedTask.active_task_point t < length (OrderedTask.task_points t) ->
  (OrderedTask.active_task_point (snd (Remove position t))
   < length (OrderedTask.task_points (snd (Remove position t)))
   <-> ~ (length (OrderedTask.task_points t) = 1 /\ position = 0))
  /\ (length (OrderedTask.task_points t) = 1 -> position = 0 ->
      fst (Remove position t) = true
      /\ OrderedTask.task_points (snd (Remove position t)) = []
      /\ OrderedTask.active_task_point (snd (Remove position t)) = 0)
  /\ OrderedTask.active_task_point (snd (Insert new_tp position t))
     < length (OrderedTask.task_points (snd (Insert new_tp position t)))
  /\ OrderedTask.active_task_point (SetActiveTaskPoint index t)
     < length (OrderedTask.task_points (SetActiveTaskPoint index t))
  /\ (forall r t', CheckTransitions state state_last t = Ret (r, t') ->
        length (OrderedTask.task_points t') = length (OrderedTask.task_points t)
        /\ OrderedTask.active_task_point t <= OrderedTask.active_task_point t'
        /\ OrderedTask.active_task_point t' < length (OrderedTask.task_points t'))
  /\ (ready t = true -> exists r t', CheckTransitions state state_last t = Ret (r, t'))
  /\ (length (OrderedTask.task_points t) = 1 ->
      is_Some (OrderedTask.taskpoint_start t) ->
      AircraftState.flying state = true ->
      is_ret (CheckTransitions state state_last t) = false)
  /\ (OrderedTask.taskpoint_start t = None ->
      CheckTransitions state state_last t = Ret (false, t))
  /\ (AircraftState.flying state = false ->
      (forall a, OrderedTask.taskpoint_start t = Some a -> a ∈ addrs (objects t)) ->
      exists t', CheckTransitions state state_last t = Ret (false, t')
                 /\ OrderedTask.active_task_point t' = OrderedTask.active_task_point t
                 /\ OrderedTask.task_events t' = OrderedTask.task_events t).
Proof.
  intros Ha.
  assert (Hone : length (OrderedTask.task_points t) = 1 -> position = 0 ->
                 fst (Remove position t) = true
                 /\ OrderedTask.task_points (snd (Remove position t)) = []
                 /\ OrderedTask.active_task_point (snd (Remove position t)) = 0).
  { intros Hl ->.
    destruct (Remove_effect 0 t ltac:(lia)) as (Hr & _ & Hlen & _ & Hkeep & _).
    cbv zeta in Hlen, Hkeep. split_and!; [exact Hr| |rewrite Hkeep; lia].
    apply length_zero_iff_nil. rewrite Hlen, Hl. reflexivity. }
  split_and!.
  - split.
    + intros Hin [Hl Hp]. destruct (Hone Hl Hp) as (_ & He & _).
      rewrite He in Hin. cbn in Hin. lia.
    + intros Hn. apply Remove_keeps_active_inside; [exact Ha|].
      destruct (Nat.lt_ge_cases position (length (OrderedTask.task_points t))) as [Hp|Hp].
      * destruct (Remove_effect position t Hp) as (_ & _ & Hlen & _). cbv zeta in Hlen.
        intros He. rewrite He in Hlen. cbn in Hlen. apply Hn. lia.
      * unfold Remove.
        replace (length (OrderedTask.task_points t) <=? position) with true
          by (symmetry; apply Nat.leb_le; exact Hp).
        cbn [snd]. intros He. rewrite He in Ha. cbn in Ha. lia.
  - exact Hone.
  - apply Insert_keeps_active_inside, Ha.
  - unfold SetActiveTaskPoint. destruct (_ || _) eqn:E; [exact Ha|].
    apply orb_false_iff in E as [E _]. apply Nat.leb_gt in E. exact E.
  - intros r t' H. apply CheckTransitions_bounds in H as (L & A & I).
    split_and!; [exact L|exact A|apply I, Ha].
  - apply CheckTransitions_total.
  - apply CheckTransitions_needs_two_points.
  - intros Hs. unfold CheckTransitions. rewrite Hs. reflexivity.
  - intros Hfly Hlive. unfold CheckTransitions.
    destruct (OrderedTask.taskpoint_start t) as [a|] eqn:Es; [|eauto].
    destruct (deref_live _ _ (Hlive a eq_refl)) as (p & Hp & _).
    destruct (lookup_lt_is_Some_2 _ _ Ha) as [q Hq].
    assert (E0 : exists t0, ScanActive_from (Some a) t = Ret t0).
    { unfold ScanActive_from. rewrite Hp, bind_Ret, (at_index_lookup _ _ _ Hq), bind_Ret.
      eauto. }
    destruct E0 as [t0 E0]. rewrite E0, bind_Ret, Hfly. cbn [negb].
    pose proof (quiet_ScanActive_from _ _ _ E0) as Q0.
    exists t0. split_and!; [reflexivity| |apply (quiet_events _ _ Q0)].
    apply (quiet_placed _ _ Q0).
Qed.

(** C2 (amended).  On a [ready] task and for a flying state,
    [CheckTransitions] returns, and with [start'] the start point after
    the call: when it has exited (that is, whenever [TaskStarted()] holds
    after the loop, at this call or at an earlier one), [stats.start] is
    filled from its exited state (time, altitude and ground speed),
    [pev_based_advance_ready] is false and the finish point's FAI finish
    height has been set from the start altitude; when it has not exited,
    [stats.start] and [pev_based_advance_ready] are as before the call.
    The callbacks delivered by the call are others than [TaskStart] and
    [TaskFinish], then [TaskStart] once exactly when the start time is
    later than before the call, then at most [TaskFinish]. *)
Theorem CheckTransitions_start_statistics
    (state state_last : AircraftState.t) (t : Task) :
  ready t = true ->
  AircraftState.flying state = true ->
  exists r t' start',
    CheckTransitions state state_last t = Ret (r, t')
    /\ deref (OrderedTask.taskpoint_start t') t' = Ret start'
    /\ (HasExited start' = true ->
        StartStats.time (TaskStats.start (OrderedTask.stats t'))
        = AircraftState.time (GetExitedState start')
        /\ StartStats.altitude (TaskStats.start (OrderedTask.stats t'))
           = AircraftState.altitude (GetExitedState start')
        /\ StartStats.ground_speed (TaskStats.start (OrderedTask.stats t'))
           = AircraftState.ground_speed (GetExitedState start')
        /\ TaskStats.pev_based_advance_ready (OrderedTask.stats t') = false
        /\ forall f, OrderedTask.taskpoint_finish t' = Some f ->
             exists finish' s0,
               deref (Some f) t' = Ret finish'
               /\ OrderedTaskPoint.sample finish'
                  = SetFaiFinishHeight (OrderedTaskPoint.with_sample finish' s0)
                      (CalculateFinishHeightFromStart
                         (OrderedTaskPoint.with_sample finish' s0)
                         (StartStats.altitude (TaskStats.start (OrderedTask.stats t')))))
    /\ (HasExited start' = false ->
        TaskStats.start (OrderedTask.stats t') = TaskStats.start (OrderedTask.stats t)
        /\ TaskStats.pev_based_advance_ready (OrderedTask.stats t')
           = TaskStats.pev_based_advance_ready (OrderedTask.stats t))
    /\ exists new,
         forallb minor new = true
         /\ delivered
              (new
               ++ (if Qltb (StartStats.time (TaskStats.start (OrderedTask.stats t)))
                        (StartStats.time (TaskStats.start (OrderedTask.stats t')))
                   then [TaskEvent.TaskStart] else [])
               ++ (if TaskStats.task_finished (OrderedTask.stats t')
                      && negb (TaskStats.task_finished (OrderedTask.stats t))
                   then [TaskEvent.TaskFinish] else []))
              t t'.
Proof.
  intros Hr Hfly.
  destruct (CheckTransitions_total state state_last t Hr) as (r & t' & H).
  exists r, t'. pose proof H as H'. unfold CheckTransitions in H'.
  destruct (ready_start_live _ Hr) as (a & Hs & _). rewrite Hs in H'.
  inv_bind H'. rename x into t0. rewrite Hfly in H'. cbn [negb] in H'. cbv zeta in H'.
  pose proof (quiet_ScanActive_from _ _ _ E) as Q0.
  assert (Hr0 : ready t0 = true)
    by (rewrite (noisy_ready _ _ (quiet_noisy _ _ Q0)); exact Hr).
  destruct (ready_elim _ Hr0) as (H2 & Ha & _).
  destruct (_ =? 0)%Z eqn:En; [apply Z.eqb_eq in En; lia|].
  inv_bind H'. destruct x as [fu t1].
  pose proof (onward_CheckTransitions_loop _ _ _ _ _ _ _ _ _ _ _ _ E0) as O1.
  assert (Hr1 : ready t1 = true).
  { match type of E0 with
    | CheckTransitions_loop ?fuel ?i ?tmax ?n ?s ?sl ?bn ?bl ?fu0 ?tt = _ =>
        destruct (CheckTransitions_loop_total fuel i tmax n s sl bn bl fu0 tt Hr0)
          as (fu' & t1' & E1 & Hr1); [lia|lia|reflexivity|lia|]
    end.
    rewrite E1 in E0. injection E0 as _ <-. exact Hr1. }
  pose proof (noisy_onward _ _ (quiet_noisy _ _ Q0)) as O0.
  pose proof (onward_trans _ _ _ O0 O1) as (_ & _ & _ & Hst & Hpev & Hfin & new & Dn & Mn).
  destruct (CheckTransitions_end_start _ _ _ _ _ _ Hr1 H')
    as (start' & Ed & Hyes & Hno & Dl).
  exists start'. split_and!; [exact H|exact Ed| | |].
  - intros He. destruct (Hyes He) as (S1 & S2 & S3).
    split_and!; [rewrite S1; reflexivity|rewrite S1; reflexivity|rewrite S1; reflexivity
                |exact S2|exact S3].
  - intros He. destruct (Hno He) as (S1 & S2). rewrite S1, S2, Hst, Hpev. auto.
  - exists new. split; [exact Mn|].
    assert (Hq0 : OrderedTask.stats t0 = OrderedTask.stats t).
    { destruct Q0 as (_ & _ & C). apply (f_equal OrderedTask.stats) in C. exact C. }
    unfold StartStats.GetStartedTime in Dl. rewrite Hq0 in Dl.
    eapply delivered_app; eassumption.
Qed.

(** *** Selection of an optional start *)

Lemma arranged_refl (t : Task) : arranged t t.
Proof. split; reflexivity. Qed.

Lemma arranged_trans (t t1 t2 : Task) : arranged t t1 -> arranged t1 t2 -> arranged t t2.
Proof. intros [A B] [A' B']. split; [rewrite A', A|rewrite B', B]; reflexivity. Qed.

Lemma noisy_arranged (t t' : Task) : noisy t t' -> arranged t t'.
Proof. intros (A & B & _). split; assumption. Qed.

Lemma placed_arranged (t t' : Task) : placed t t' -> arranged t t'.
Proof. intros (A & B & _). split; assumption. Qed.

Lemma arranged_SetActiveTaskPoint index (t : Task) : arranged t (SetActiveTaskPoint index t).
Proof. unfold SetActiveTaskPoint. destruct (_ || _); split; reflexivity. Qed.

Lemma noisy_examine_optional_starts n i state state_last bb_now bb_last
    enter exit pev fu (t t' : Task) r :
  examine_optional_starts n i state state_last bb_now bb_last enter exit pev fu t
  = Ret (r, t') ->
  noisy t t'.
Proof.
  revert i enter exit fu t. induction n as [|n IH]; intros i enter exit fu t.
  - intros [= <- <-]. apply noisy_refl.
  - cbn [examine_optional_starts]. intros H. inv_bind H. inv_bind H.
    destruct x0 as [[u [en1 ex1]] t1].
    apply noisy_CheckTransitionPoint in E0 as (N1 & _).
    eapply noisy_trans; [exact N1|]. eapply IH, H.
Qed.

(** What follows the optional starts in one pass of the loop leaves the
    objects where they are. *)
Lemma arranged_CheckTransitions_body i n_task state state_last bb_now bb_last fu
    (t t' : Task) i' fu' :
  CheckTransitions_body i n_task state state_last bb_now bb_last fu t = Ret (i', fu', t') ->
  exists r t1,
    (if (i =? 0)%Z then
       CheckTransitionOptionalStart state state_last bb_now bb_last false false
         (TaskStats.pev_based_advance_ready (OrderedTask.stats t)) t
     else Ret (false, (false, false), t)) = Ret (r, t1)
    /\ arranged t1 t'.
Proof.
  unfold CheckTransitions_body. intros H. inv_bind H.
  destruct x as [[u1 [en1 ex1]] t1]. exists (u1, (en1, ex1)), t1. split; [exact E|].
  clear E. cbv zeta in H. inv_bind H. inv_bind H.
  destruct x0 as [[u2 [en2 ex2]] t2].
  apply noisy_CheckTransitionPoint in E0 as (N2 & _).
  apply noisy_arranged in N2.
  destruct (i =? Z.of_nat (OrderedTask.active_task_point t2))%Z.
  - inv_bind H. destruct (CheckReadyToAdvance _ _ _ _ _) as [rdy adv].
    destruct rdy.
    + destruct (i + 1 <? n_task)%Z.
      * inv_bind H. inv_bind H. injection H as <- <- <-.
        eapply arranged_trans; [exact N2|].
        eapply arranged_trans;
          [|apply noisy_arranged, noisy_emit; reflexivity].
        eapply arranged_trans;
          [|apply noisy_arranged, quiet_noisy; eapply quiet_ScanActive_from; exact E1].
        eapply arranged_trans; [|apply arranged_SetActiveTaskPoint].
        split; reflexivity.
      * injection H as <- <- <-.
        eapply arranged_trans; [exact N2|split; reflexivity].
    + destruct (_ && _); injection H as <- <- <-.
      * eapply arranged_trans; [exact N2|].
        eapply arranged_trans; [|apply noisy_arranged, noisy_emit; reflexivity].
        split; reflexivity.
      * eapply arranged_trans; [exact N2|split; reflexivity].
  - injection H as <- <- <-. exact N2.
Qed.

Lemma arranged_CheckTransitions_loop fuel i t_max n_task state state_last bb_now bb_last fu
    (t t' : Task) fu' :
  (1 <= i)%Z ->
  CheckTransitions_loop fuel i t_max n_task state state_last bb_now bb_last fu t
  = Ret (fu', t') ->
  arranged t t'.
Proof.
  revert i fu t. induction fuel as [|fuel IH]; intros i fu t Hi; cbn [CheckTransitions_loop].
  - destruct (i <=? t_max)%Z; [discriminate|]. intros [= <- <-]. apply arranged_refl.
  - destruct (i <=? t_max)%Z; [|intros [= <- <-]; apply arranged_refl].
    intros H. inv_bind H. destruct x as [[i1 fu1] t1].
    pose proof (onward_CheckTransitions_body _ _ _ _ _ _ _ _ _ _ _ E) as [_ Hi1].
    apply arranged_CheckTransitions_body in E as (r & t0 & E0 & A).
    replace (i =? 0)%Z with false in E0 by (symmetry; apply Z.eqb_neq; lia).
    injection E0 as _ <-.
    eapply arranged_trans; [exact A|]. eapply (IH (i1 + 1)%Z); [lia|exact H].
Qed.

Lemma delete_snoc {A} k (l : list A) x : k < length l -> delete k (l ++ [x]) = delete k l ++ [x].
Proof.
  revert k. induction l as [|y l IH]; intros k Hk; cbn in *; [lia|].
  destruct k as [|k]; [reflexivity|]. cbn. f_equal. apply IH. lia.
Qed.

(** C4.  Let the task be [ready], the state flying and position 0 inside
    the scan window (the active index at most 1).  Let the optional start
    points before the [k]-th be examined, after the [ScanActive] of the
    beginning, without a transition, and let [CheckTransitionPoint] on the
    [k]-th, [p], report an enter or an exit.  Then the loop over the
    optional starts ends there, with the task as [SelectOptionalStart(k)]
    leaves it, [CheckTransitions] returns, and afterwards [task_points]
    has [p] at position 0 and is otherwise as before, and the optional
    start points are the former ones without the [k]-th, followed by the
    former [task_points[0]], as many as before. *)
Theorem CheckTransitions_selects_optional_start
    (state state_last : AircraftState.t) (t t0 t1 t2 : Task) (k : nat) (p : Point)
    (u1 u2 en ex : bool) :
  ready t = true ->
  AircraftState.flying state = true ->
  OrderedTask.active_task_point t <= 1 ->
  ScanActive_from (OrderedTask.taskpoint_start t) t = Ret t0 ->
  examine_optional_starts k 0 state state_last
    (bounding_box (AircraftState.location state) t0)
    (bounding_box (AircraftState.location state_last) t0)
    false false (TaskStats.pev_based_advance_ready (OrderedTask.stats t0)) false t0
  = Ret (u1, (false, false), t1) ->
  OrderedTask.optional_start_points t1 !! k = Some p ->
  CheckTransitionPoint (OrderedTaskPoint.addr_of p) state state_last
    (bounding_box (AircraftState.location state) t0)
    (bounding_box (AircraftState.location state_last) t0)
    false false (TaskStats.pev_based_advance_ready (OrderedTask.stats t0)) true t1
  = Ret (u2, (en, ex), t2) ->
  en || ex = true ->
  exists t3 r t' former,
    SelectOptionalStart k t2 = Ret t3
    /\ CheckTransitionOptionalStart state state_last
         (bounding_box (AircraftState.location state) t0)
         (bounding_box (AircraftState.location state_last) t0)
         false false (TaskStats.pev_based_advance_ready (OrderedTask.stats t0)) t0
       = Ret (u1 || u2, (en, ex), t3)
    /\ CheckTransitions state state_last t = Ret (r, t')
    /\ OrderedTask.task_points t !! 0 = Some former
    /\ addrs (OrderedTask.task_points t')
       = <[0 := OrderedTaskPoint.addr_of p]> (addrs (OrderedTask.task_points t))
    /\ addrs (OrderedTask.optional_start_points t')
       = delete k (addrs (OrderedTask.optional_start_points t))
         ++ [OrderedTaskPoint.addr_of former]
    /\ length (OrderedTask.optional_start_points t')
       = length (OrderedTask.optional_start_points t).
Proof.
  intros Hr Hfly Hact E0 Ex Hp Ec Hfire.
  pose proof (quiet_ScanActive_from _ _ _ E0) as Q0.
  pose proof (quiet_noisy _ _ Q0) as N0.
  pose proof (noisy_examine_optional_starts _ _ _ _ _ _ _ _ _ _ _ _ _ Ex) as N1.
  pose proof (noisy_CheckTransitionPoint _ _ _ _ _ _ _ _ _ _ _ _ _ _ Ec) as (N2 & _).
  assert (Hr0 : ready t0 = true) by (rewrite (noisy_ready _ _ N0); exact Hr).
  assert (Hr1 : ready t1 = true) by (rewrite (noisy_ready _ _ N1); exact Hr0).
  assert (Hr2 : ready t2 = true) by (rewrite (noisy_ready _ _ N2); exact Hr1).
  pose proof (noisy_arranged _ _ N0) as [A0 B0].
  pose proof (noisy_arranged _ _ N1) as [A1 B1].
  pose proof (noisy_arranged _ _ N2) as [A2 B2].
  pose proof (lookup_lt_Some _ _ _ Hp) as Hk1.
  assert (Hk2 : k < length (OrderedTask.optional_start_points t2))
    by (rewrite (idents_length _ _ B2); exact Hk1).
  assert (Hk0 : k < length (OrderedTask.optional_start_points t0))
    by (rewrite <- (idents_length _ _ B1); exact Hk1).
  destruct (SelectOptionalStart_total k t2 Hr2 Hk2) as [t3 E3].
  (* the loop over the optional starts *)
  assert (Eo : CheckTransitionOptionalStart state state_last
                 (bounding_box (AircraftState.location state) t0)
                 (bounding_box (AircraftState.location state_last) t0)
                 false false (TaskStats.pev_based_advance_ready (OrderedTask.stats t0)) t0
               = Ret (u1 || u2, (en, ex), t3)).
  { unfold CheckTransitionOptionalStart.
    replace (length (OrderedTask.optional_start_points t0))
      with (k + S (length (OrderedTask.optional_start_points t0) - S k)) by lia.
    rewrite (CheckTransitionOptionalStart_from_skip _ _ _ _ _ _ _ _ _ _ _ _ Ex).
    cbn [CheckTransitionOptionalStart_from Nat.add].
    rewrite (at_index_lookup _ _ _ Hp), bind_Ret, Ec, bind_Ret. cbv zeta.
    rewrite Hfire, E3, bind_Ret. reflexivity. }
  (* the whole call *)
  destruct (CheckTransitions_total state state_last t Hr) as (r & t' & H).
  pose proof H as H'. unfold CheckTransitions in H'.
  destruct (ready_start_live _ Hr) as (a & Hs & _). rewrite Hs in H'.
  rewrite <- Hs, E0, bind_Ret, Hfly in H'. cbn [negb] in H'. cbv zeta in H'.
  destruct (ready_elim _ Hr0) as (H2 & Ha & _).
  destruct (_ =? 0)%Z eqn:En in H'; [apply Z.eqb_eq in En; lia|].
  assert (Hact0 : OrderedTask.active_task_point t0 = OrderedTask.active_task_point t).
  { destruct Q0 as (_ & _ & C).
    apply (f_equal OrderedTask.active_task_point) in C. exact C. }
  replace (Z.max 0 (Z.of_nat (OrderedTask.active_task_point t0) - 1)) with 0%Z in H' by lia.
  inv_bind H'. destruct x as [fu tl].
  apply placed_CheckTransitions_end in H' as [_ Pl]. apply placed_arranged in Pl.
  match type of E with
  | CheckTransitions_loop ?n _ _ _ _ _ _ _ _ _ = _ =>
      destruct n as [|fuel] eqn:Ef; [lia|]
  end.
  cbn [CheckTransitions_loop] in E.
  match type of E with
  | (if ?c then _ else _) = _ => replace c with true in E by (symmetry; apply Z.leb_le; lia)
  end.
  inv_bind E. destruct x as [[i1 fu1] tb].
  pose proof (onward_CheckTransitions_body _ _ _ _ _ _ _ _ _ _ _ E1) as [_ Hi1].
  apply arranged_CheckTransitions_body in E1 as (rb & t3' & Eb & Ab).
  change (0 =? 0)%Z with true in Eb. cbv iota in Eb.
  unfold bounding_box in Eo. rewrite Eo in Eb. injection Eb as <- <-.
  apply arranged_CheckTransitions_loop in E; [|lia].
  pose proof (arranged_trans _ _ _ (arranged_trans _ _ _ Ab E) Pl) as [A' B'].
  (* the vectors after the selection *)
  pose proof E3 as E3'.
  apply SelectOptionalStart_spec in E3'
    as (front & rest & chosen & Hfr & Hch & A3 & B3 & _).
  rewrite lookup_app_l in Hch by exact Hk2.
  assert (Hid : ident chosen = ident p).
  { apply (f_equal (fun l => l !! k)) in B2. rewrite !list_lookup_fmap, Hch, Hp in B2.
    cbn in B2. unfold ident in *. congruence. }
  assert (Ht : ident <$> OrderedTask.task_points t = ident front :: (ident <$> rest)).
  { rewrite <- A0, <- A1, <- A2, Hfr. reflexivity. }
  destruct (OrderedTask.task_points t) as [|former rest0] eqn:Htp; [discriminate|].
  change (ident former :: (ident <$> rest0) = ident front :: (ident <$> rest)) in Ht.
  assert (Hf : ident former = ident front) by congruence.
  assert (Hrest : ident <$> rest0 = ident <$> rest) by congruence.
  clear Ht.
  assert (Hopt : ident <$> OrderedTask.optional_start_points t2
                 = ident <$> OrderedTask.optional_start_points t)
    by (rewrite B2, B1, B0; reflexivity).
  exists t3, r, t', former. split_and!; [exact E3|exact Eo|exact H|reflexivity| | |].
  - unfold addrs.
    transitivity (fst <$> (ident <$> OrderedTask.task_points t')).
    { rewrite <- list_fmap_compose. reflexivity. }
    rewrite A', A3, Hid, <- Hrest, fmap_cons, <- list_fmap_compose. reflexivity.
  - unfold addrs.
    transitivity (fst <$> (ident <$> OrderedTask.optional_start_points t')).
    { rewrite <- list_fmap_compose. reflexivity. }
    rewrite B', B3, (fmap_app ident).
    change (ident <$> [front]) with [ident front].
    rewrite delete_snoc by (rewrite length_fmap; exact Hk2).
    rewrite Hopt, (fmap_app fst), list_fmap_delete, <- list_fmap_compose, <- Hf.
    reflexivity.
  - rewrite (idents_length _ _ B'). apply (f_equal length) in B3.
    rewrite !length_fmap in B3. rewrite B3, length_delete, length_fmap, length_app.
    + cbn. rewrite (idents_length _ _ Hopt). lia.
    + apply lookup_lt_is_Some_2. rewrite length_fmap, length_app. lia.
Qed.
End TransitionFacts.

(** ** The statements on the scenarios *)

Module Cases.
Import Track Scenarios.

Ltac computed :=
  lazymatch goal with
  | |- lt _ _ => apply (proj1 (Nat.ltb_lt _ _)); vm_compute; reflexivity
  | |- le _ _ => apply (proj1 (Nat.leb_le _ _)); vm_compute; reflexivity
  | |- (_ <= _ < _)%Z =>
      split; [apply (proj1 (Z.leb_le _ _))|apply (proj1 (Z.ltb_lt _ _))];
      vm_compute; reflexivity
  | |- _ => vm_compute; first [reflexivity | discriminate]
  end.

(** use the next hypothesis of [W], which holds by computation *)
Ltac feed W := lapply W; [clear W; intros W|computed].

(** S5: 10000 m before the active point, an advance of 100 m is served
    from the last solution; an advance of 1500 m in total runs the solver
    a second time. *)
Lemma ScanDistanceMin_incremental_witness :
  (exists d t',
     ScanDistanceMin (position 10100) false (scanned_at 10000 two_legs) = Ret (d, t')
     /\ front_scan LegMin None (scanned_at 10000 two_legs) = Ret (d, t')
     /\ OrderedTask.dijkstra_min t' = Some 1
     /\ OrderedTask.last_min_location t' = position 10000)
  /\ (exists d t',
        ScanDistanceMin (position 11500) false (scanned_at 10000 two_legs) = Ret (d, t')
        /\ OrderedTask.dijkstra_min t' = Some 2
        /\ OrderedTask.last_min_location t' = position 11500).
Proof.
  split.
  - pose proof (ScanDistanceMin_incremental (position 10100)
                  (nth_point (scanned_at 10000 two_legs) 1) (scanned_at 10000 two_legs))
      as W.
    cbv zeta in W. do 6 feed W. destruct W as (d & t' & H & Hc).
    exists d, t'. split; [exact H|exact Hc].
  - pose proof (ScanDistanceMin_incremental (position 11500)
                  (nth_point (scanned_at 10000 two_legs) 1) (scanned_at 10000 two_legs))
      as W.
    cbv zeta in W. do 6 feed W. destruct W as (d & t' & H & Hc).
    vm_compute in Hc. destruct Hc as (_ & Hl & Hd).
    exists d, t'. split_and!; [exact H|apply Hd, le_n|exact Hl].
Defined.

(** The skip at 2000 m: the last solve was 2000 m on one side of the
    active point, the aircraft is now 2000 m on the other side (a
    significant move, neither distance above 2000 m), and the scan is
    served from the last solution: the solver has run once, before, and
    [last_min_location] stays. *)
Lemma ScanDistanceMin_incremental_counterexample :
  exists d t',
    GetActiveTaskPoint around_finish = Some (nth_point around_finish 1)
    /\ Distance (OrderedTask.last_min_location around_finish)
         (Waypoint_location (OrderedTaskPoint.waypoint (nth_point around_finish 1)))
       = 2000%Q
    /\ Distance (position 2000)
         (Waypoint_location (OrderedTaskPoint.waypoint (nth_point around_finish 1)))
       = 2000%Q
    /\ DistanceIsSignificant (position 2000) (OrderedTask.last_min_location around_finish)
         around_finish = true
    /\ ScanDistanceMin (position 2000) false around_finish = Ret (d, t')
    /\ OrderedTask.dijkstra_min around_finish = Some 1
    /\ OrderedTask.dijkstra_min t' = Some 1
    /\ OrderedTask.last_min_location t' = position (-2000).
Proof.
  destruct (ScanDistanceMin (position 2000) false around_finish) as [[d t']|] eqn:E;
    [|vm_compute in E; discriminate].
  exists d, t'. vm_compute in E. injection E as <- <-.
  split_and!; vm_compute; reflexivity.
Qed.

(** S1: the start exit at 100 s, 1000 m and 30 m/s fills [stats.start]. *)
Lemma CheckTransitions_start_statistics_witness :
  exists r t',
    CheckTransitions out_of_start in_start racing_entered = Ret (r, t')
    /\ TaskStats.start (OrderedTask.stats t')
       = {| StartStats.advanced_by_pev := false; StartStats.time := 100%Q;
            StartStats.altitude := 1000%Q; StartStats.ground_speed := 30%Q |}
    /\ OrderedTask.task_events t'
       = Some [TaskEvent.EnterTransition 1; TaskEvent.ExitTransition 1;
               TaskEvent.ActiveAdvanced 2 1; TaskEvent.TaskStart].
Proof.
  pose proof (CheckTransitions_start_statistics out_of_start in_start racing_entered) as W.
  do 2 feed W. destruct W as (r & t' & start' & H & _).
  exists r, t'. split; [exact H|].
  vm_compute in H. injection H as <- <-. split; reflexivity.
Defined.

(** The task has started, a pilot event has raised
    [pev_based_advance_ready] again, and the next call, at which nothing
    is crossed, clears it and delivers nothing. *)
Lemma CheckTransitions_start_statistics_counterexample :
  exists r t',
    TaskStarted false pev_racing = Ret true
    /\ TaskStats.pev_based_advance_ready (OrderedTask.stats pev_racing) = true
    /\ CheckTransitions on_leg out_of_start pev_racing = Ret (r, t')
    /\ TaskStats.pev_based_advance_ready (OrderedTask.stats t') = false
    /\ OrderedTask.task_events t' = OrderedTask.task_events pev_racing.
Proof.
  destruct (CheckTransitions on_leg out_of_start pev_racing) as [[r t']|] eqn:E;
    [|vm_compute in E; discriminate].
  exists r, t'. vm_compute in E. injection E as <- <-.
  split_and!; vm_compute; reflexivity.
Qed.

(** Start and finish cylinders of 1000 m, 111195 m apart: 109195 m, with
    nothing lost to rounding.  And the cylinders of 0.1 m and 10000 m,
    10000.1 m apart: the finish radius is not below the rounded distance
    that is left, 10000 m, which is the result. *)
Lemma ScanDistanceNominal_two_cylinders_witness :
  ScanDistanceNominal racing = Ret 109195%Q
  /\ (exists d, ScanDistanceNominal racing = Ret d /\ (d == 109195)%Q)
  /\ ScanDistanceNominal grazing = Ret 10000%Q.
Proof.
  split; [|split].
  - pose proof (ScanDistanceNominal_two_cylinders racing (nth_point racing 0)
                  (nth_point racing 1) 1000 1000) as W.
    do 3 feed W. cbv zeta in W. destruct W as [WA _].
    do 3 feed WA. destruct WA as [WA _]. feed WA.
    etransitivity; [exact WA|computed].
  - pose proof (ScanDistanceNominal_two_cylinders racing (nth_point racing 0)
                  (nth_point racing 1) 1000 1000) as W.
    do 3 feed W. cbv zeta in W. destruct W as [_ WB].
    do 5 feed WB. destruct WB as (d & H & Hd).
    exists d. split; [exact H|]. etransitivity; [exact Hd|computed].
  - pose proof (ScanDistanceNominal_two_cylinders grazing (nth_point grazing 0)
                  (nth_point grazing 1) a_tenth 10000) as W.
    do 3 feed W. cbv zeta in W. destruct W as [WA _].
    do 3 feed WA. destruct WA as [_ WA]. feed WA.
    etransitivity; [exact WA|computed].
Defined.

(** Two cylinders of 6000 m, 10000 m apart: each radius is below the
    distance, and the result is 4000 m, not -2000 m.  And the cylinders
    of 0.1 m and 10000 m, 10000.1 m apart: the radii together are below
    the distance, the first subtraction rounds to 10000, which the
    finish radius is not below, and the result is 10000 m. *)
Lemma ScanDistanceNominal_two_cylinders_counterexample :
  (OrderedTask.task_points overlapping = [nth_point overlapping 0; nth_point overlapping 1]
   /\ OrderedTaskPoint.oz (nth_point overlapping 0) = ObservationZone.Cylinder 6000
   /\ OrderedTaskPoint.oz (nth_point overlapping 1) = ObservationZone.Cylinder 6000
   /\ TaskLeg_ScanDistanceNominal [nth_point overlapping 0; nth_point overlapping 1]
      = 10000%Q
   /\ ScanDistanceNominal overlapping = Ret 4000%Q
   /\ ~ (4000 == 10000 - 6000 - 6000)%Q)
  /\ (OrderedTask.task_points grazing = [nth_point grazing 0; nth_point grazing 1]
      /\ OrderedTaskPoint.oz (nth_point grazing 0) = ObservationZone.Cylinder a_tenth
      /\ OrderedTaskPoint.oz (nth_point grazing 1) = ObservationZone.Cylinder 10000
      /\ TaskLeg_ScanDistanceNominal [nth_point grazing 0; nth_point grazing 1]
         = ten_thousand_and_a_tenth
      /\ (a_tenth < ten_thousand_and_a_tenth)%Q
      /\ (10000 < ten_thousand_and_a_tenth)%Q
      /\ (a_tenth + 10000 < ten_thousand_and_a_tenth)%Q
      /\ ScanDistanceNominal grazing = Ret 10000%Q
      /\ ~ (10000 == ten_thousand_and_a_tenth - a_tenth - 10000)%Q).
Proof.
  split; split_and!; try (vm_compute; reflexivity); vm_compute; discriminate.
Qed.

(** S3: the aircraft enters the second optional start, at address 4; it
    takes the place of the primary start, address 1, which becomes the
    second optional start. *)
Lemma CheckTransitions_selects_optional_start_witness :
  exists r t',
    CheckTransitions in_second_optional near_second_optional with_optional_starts
    = Ret (r, t')
    /\ addrs (OrderedTask.task_points with_optional_starts) = [1; 2]
    /\ addrs (OrderedTask.optional_start_points with_optional_starts) = [3; 4]
    /\ addrs (OrderedTask.task_points t') = [4; 2]
    /\ addrs (OrderedTask.optional_start_points t') = [3; 1].
Proof.
  pose proof (CheckTransitions_selects_optional_start
                in_second_optional near_second_optional
                with_optional_starts with_optional_starts with_optional_starts
                second_optional_fired 1 second_optional false false true false) as W.
  do 8 feed W. destruct W as (t3 & r & t' & former & _ & _ & H & Hf & Ht & Ho & _).
  exists r, t'. vm_compute in Hf. injection Hf as <-.
  split_and!; [exact H|reflexivity|reflexivity|exact Ht|exact Ho].
Defined.

(** S6: four points, the third one active, [Remove(1)]. *)
Lemma Remove_in_range_witness :
  fst (Remove 1 four_points) = true
  /\ length (OrderedTask.task_points (snd (Remove 1 four_points))) = 3
  /\ OrderedTask.active_task_point (snd (Remove 1 four_points)) = 1
  /\ linked (OrderedTask.task_points (snd (Remove 1 four_points))) 0
  /\ linked (OrderedTask.task_points (snd (Remove 1 four_points))) 1.
Proof.
  pose proof (Remove_in_range 1 four_points) as W. feed W. cbv zeta in W.
  destruct W as (Hr & _ & Hl & Hd & _ & Hn & Hp).
  split_and!; [exact Hr| | |apply Hp; lia|apply Hn; computed].
  - etransitivity; [exact Hl|computed].
  - etransitivity; [apply Hd; left; computed|computed].
Defined.

(** S4: the event at 12:03:20, a wait of 5 minutes and a window of 10
    minutes: from 12:09 (minute 729) to 12:19 (minute 739). *)
Lemma UpdateAfterPEV_open_time_span_witness :
  SetPEV at_12_03_20 pev_window = Ret (true, after (SetPEV at_12_03_20 pev_window))
  /\ StartConstraints.open_time_span
       (OrderedTaskSettings.start_constraints
          (OrderedTask.ordered_settings
             (UpdateAfterPEV (aircraft 0 1000 30 43400 true) at_12_03_20
                (after (SetPEV at_12_03_20 pev_window)))))
     = {| RoughTimeSpan.start := RoughTime.MinuteOfDay 729;
          RoughTimeSpan.finish := RoughTime.MinuteOfDay 739 |}.
Proof.
  split; [vm_compute; reflexivity|].
  pose proof (UpdateAfterPEV_open_time_span (aircraft 0 1000 30 43400 true) at_12_03_20
                300 600 pev_window (after (SetPEV at_12_03_20 pev_window))) as W.
  do 7 feed W. exact W.
Defined.

(** Position 5 on a task of two points, position 0 among no optional
    starts. *)
Lemma out_of_range_edits_witness :
  Remove 5 open_ended = (false, open_ended)
  /\ Replace new_finish 5 open_ended = (false, open_ended)
  /\ RemoveOptionalStart 0 open_ended = (false, open_ended)
  /\ Insert new_finish 5 open_ended = Append new_finish open_ended.
Proof.
  pose proof (out_of_range_edits new_finish (Some 0%Q) 5 0 open_ended) as W.
  do 2 feed W. destruct W as (H1 & H2 & _ & H4 & _ & _ & H7).
  split_and!; assumption.
Defined.

(** [Insert] at position 5 of a task of two points returns true and the
    task has three points. *)
Lemma out_of_range_edits_counterexample :
  length (OrderedTask.task_points open_ended) = 2
  /\ fst (Insert new_finish 5 open_ended) = true
  /\ length (OrderedTask.task_points (snd (Insert new_finish 5 open_ended))) = 3.
Proof. split_and!; vm_compute; reflexivity. Qed.

(** The task without points, as constructed. *)
Lemma scans_of_empty_task_witness :
  ScanDistanceNominal empty_task = Ret 0%Q
  /\ ScanDistanceMax empty_task = Ret (0%Q, empty_task)
  /\ ScanDistanceMin (position 0) false empty_task = Fault OutOfRange
  /\ ScanDistanceMin (position 0) true empty_task = Fault OutOfRange.
Proof.
  pose proof (scans_of_empty_task empty_task (position 0) false eq_refl)
    as (H1 & _ & _ & _ & _ & H6 & H7).
  pose proof (scans_of_empty_task empty_task (position 0) true eq_refl)
    as (_ & _ & _ & _ & _ & _ & H8).
  split_and!; assumption.
Defined.

(** The racing task in the start cylinder: the edits and the next call of
    [CheckTransitions], which moves the active index from 0 to 1; the
    same task and an aircraft on the ground; the start point alone; and
    a task without a start point. *)
Lemma active_index_stays_in_range_witness :
  (OrderedTask.active_task_point (snd (Remove 1 racing_entered))
   < length (OrderedTask.task_points (snd (Remove 1 racing_entered)))
   /\ OrderedTask.active_task_point (snd (Insert new_finish 1 racing_entered))
      < length (OrderedTask.task_points (snd (Insert new_finish 1 racing_entered)))
   /\ exists r t',
        CheckTransitions out_of_start in_start racing_entered = Ret (r, t')
        /\ length (OrderedTask.task_points t') = 2
        /\ OrderedTask.active_task_point racing_entered
           <= OrderedTask.active_task_point t'
        /\ OrderedTask.active_task_point t' < length (OrderedTask.task_points t'))
  /\ (exists t',
        CheckTransitions on_ground in_start racing_entered = Ret (false, t')
        /\ OrderedTask.active_task_point t' = OrderedTask.active_task_point racing_entered
        /\ OrderedTask.task_events t' = OrderedTask.task_events racing_entered)
  /\ (fst (Remove 0 lone_start) = true
      /\ OrderedTask.task_points (snd (Remove 0 lone_start)) = []
      /\ OrderedTask.active_task_point (snd (Remove 0 lone_start)) = 0
      /\ is_ret (CheckTransitions in_start before_start lone_start) = false)
  /\ CheckTransitions in_start before_start no_start = Ret (false, no_start).
Proof.
  split; [|split; [|split]].
  - pose proof (active_index_stays_in_range new_finish 1 1 out_of_start in_start
                  racing_entered) as W.
    feed W. destruct W as (Hr & _ & Hi & _ & Hc & Ht & _).
    split_and!; [|exact Hi|].
    + apply (proj2 Hr). intros [_ H]. discriminate H.
    + destruct (Ht eq_refl) as (r & t' & H). exists r, t'.
      destruct (Hc r t' H) as (Hl & Ha & Hb).
      split_and!; [exact H|exact Hl|exact Ha|exact Hb].
  - pose proof (active_index_stays_in_range new_finish 1 1 on_ground in_start
                  racing_entered) as W.
    feed W. destruct W as (_ & _ & _ & _ & _ & _ & _ & _ & Hg).
    apply Hg; [reflexivity|].
    intros a Hs. vm_compute in Hs. injection Hs as <-.
    apply (bool_decide_eq_true_1 _). vm_compute. reflexivity.
  - pose proof (active_index_stays_in_range new_finish 0 0 in_start before_start
                  lone_start) as W.
    feed W. destruct W as (_ & Ho & _ & _ & _ & _ & Hn & _).
    destruct Ho as (H1 & H2 & H3); [computed|reflexivity|].
    split_and!; [exact H1|exact H2|exact H3|].
    apply Hn; [computed| |reflexivity].
    apply (bool_decide_eq_true_1 _). vm_compute. reflexivity.
  - pose proof (active_index_stays_in_range new_finish 0 0 in_start before_start
                  no_start) as W.
    feed W. destruct W as (_ & _ & _ & _ & _ & _ & _ & Hs & _).
    apply Hs. computed.
Defined.

(** The start point alone: the active index 0 is inside the vector;
    [Remove(0)] returns true and leaves no point, with the active index
    still 0; and [CheckTransitions], for an aircraft that is flying,
    reads [task_points[1]]. *)
Lemma active_index_stays_in_range_counterexample :
  length (OrderedTask.task_points lone_start) = 1
  /\ OrderedTask.active_task_point lone_start = 0
  /\ OrderedTask.taskpoint_start lone_start <> None
  /\ fst (Remove 0 lone_start) = true
  /\ length (OrderedTask.task_points (snd (Remove 0 lone_start))) = 0
  /\ OrderedTask.active_task_point (snd (Remove 0 lone_start)) = 0
  /\ AircraftState.flying in_start = true
  /\ CheckTransitions in_start before_start lone_start = Fault OutOfRange.
Proof. split_and!; try (vm_compute; reflexivity). vm_compute. discriminate. Qed.

End Cases.

(** ** More on the engine *)

Section MoreEngineFacts.
Context {K : Carriers} {Op : Ops}.
Abbreviation Point := OrderedTaskPoint.t.
Abbreviation Task := OrderedTask.t.

Lemma addr_of_unlinked (p : Point) :
  OrderedTaskPoint.addr_of (unlinked p) = OrderedTaskPoint.addr_of p.
Proof. reflexivity. Qed.

Lemma unlinked_addrs (l l' : list Point) : unlinked <$> l' = unlinked <$> l -> addrs l' = addrs l.
Proof.
  intros H. unfold addrs.
  transitivity (OrderedTaskPoint.addr_of <$> (unlinked <$> l')).
  - rewrite <- list_fmap_compose. reflexivity.
  - rewrite H, <- list_fmap_compose. reflexivity.
Qed.

Lemma SetNeighbours_optional_length i (t : Task) :
  length (OrderedTask.optional_start_points (SetNeighbours i t))
  = length (OrderedTask.optional_start_points t).
Proof.
  unfold SetNeighbours. destruct (_ <=? i); [reflexivity|].
  destruct (i =? 0); cbn; [apply length_fmap|reflexivity].
Qed.

Lemma SetNeighbours_optional_unlinked i (t : Task) :
  unlinked <$> OrderedTask.optional_start_points (SetNeighbours i t)
  = unlinked <$> OrderedTask.optional_start_points t.
Proof.
  unfold SetNeighbours. destruct (_ <=? i); [reflexivity|].
  destruct (i =? 0); cbn; [|reflexivity].
  rewrite <- list_fmap_compose. apply list_fmap_ext. intros ? p _. reflexivity.
Qed.

Lemma maybe_SetNeighbours_linked (c : bool) i j (t : Task) :
  i <> j -> linked (OrderedTask.task_points t) j ->
  linked (OrderedTask.task_points (if c then SetNeighbours i t else t)) j.
Proof. intros Hne Hl. destruct c; [apply SetNeighbours_linked_other; assumption|exact Hl]. Qed.

(** The effect of an accepted [Insert] inside the vector. *)
Lemma Insert_effect (new_tp : Point) (position : nat) (t : Task) :
  position < length (OrderedTask.task_points t) ->
  IsSuccessorAllowed new_tp = true ->
  (0 < position -> IsPredecessorAllowed new_tp = true) ->
  (0 < position ->
   forall p, OrderedTask.task_points t !! (position - 1) = Some p ->
             IsSuccessorAllowed p = true) ->
  (forall p, OrderedTask.task_points t !! position = Some p ->
             IsPredecessorAllowed p = true) ->
  let a := OrderedTask.active_task_point t in
  let t' := snd (Insert new_tp position t) in
  fst (Insert new_tp position t) = true
  /\ unlinked <$> OrderedTask.task_points t'
     = take position (unlinked <$> OrderedTask.task_points t)
       ++ unlinked (fst (clone_point new_tp t))
          :: drop position (unlinked <$> OrderedTask.task_points t)
  /\ OrderedTask.active_task_point t' = (if position <=? a then S a else a)
  /\ (0 < position -> linked (OrderedTask.task_points t') (position - 1))
  /\ linked (OrderedTask.task_points t') position
  /\ linked (OrderedTask.task_points t') (position + 1).
Proof.
  intros Hpos Hs Hp Hsb Hpa a t'. subst t'. unfold Insert.
  replace (length (OrderedTask.task_points t) <=? position) with false
    by (symmetry; apply Nat.leb_gt; exact Hpos).
  cbv zeta.
  destruct (lookup_lt_is_Some_2 _ _ Hpos) as [q Hq].
  rewrite Hq, (Hpa q Hq), Hs. cbn [negb orb].
  assert (Hguard : ((0 <? position) && negb (IsPredecessorAllowed new_tp)) = false).
  { destruct (0 <? position) eqn:E; [|reflexivity].
    apply Nat.ltb_lt in E. rewrite (Hp E). reflexivity. }
  assert (Hguard2 : ((0 <? position)
                     && negb match OrderedTask.task_points t !! (position - 1) with
                             | Some p => IsSuccessorAllowed p
                             | None => true
                             end) = false).
  { destruct (0 <? position) eqn:E; [|reflexivity].
    apply Nat.ltb_lt in E.
    destruct (OrderedTask.task_points t !! (position - 1)) as [p|] eqn:Ep; [|reflexivity].
    rewrite (Hsb E p eq_refl). reflexivity. }
  rewrite Hguard, Hguard2. cbn [orb].
  remember (if position <=? OrderedTask.active_task_point t
            then OrderedTask.set_active_task_point t (S (OrderedTask.active_task_point t))
            else t) as t1 eqn:Ht1.
  assert (Htp1 : OrderedTask.task_points t1 = OrderedTask.task_points t)
    by (subst t1; destruct (_ <=? _); reflexivity).
  assert (Hcl : fst (clone_point new_tp t1) = fst (clone_point new_tp t))
    by (subst t1; destruct (_ <=? _); reflexivity).
  destruct (clone_point new_tp t1) as [c t2] eqn:Ec.
  assert (Hact2 : OrderedTask.active_task_point t2
                  = if position <=? a then S a else a).
  { unfold clone_point in Ec. injection Ec as _ <-. subst t1 a.
    destruct (_ <=? _); reflexivity. }
  cbn [fst] in Hcl. subst c.
  set (c := fst (clone_point new_tp t)) in *.
  remember (OrderedTask.set_task_points t2
              (take position (OrderedTask.task_points t)
               ++ c :: drop position (OrderedTask.task_points t))) as t3 eqn:Ht3.
  assert (Htp3 : OrderedTask.task_points t3
                 = take position (OrderedTask.task_points t)
                   ++ c :: drop position (OrderedTask.task_points t))
    by (subst t3; reflexivity).
  assert (Hlen3 : length (OrderedTask.task_points t3)
                  = S (length (OrderedTask.task_points t))).
  { rewrite Htp3, length_app, length_take. cbn [length]. rewrite length_drop. lia. }
  cbn [fst snd]. split; [reflexivity|].
  split.
  { rewrite !SetNeighbours_unlinked, maybe_SetNeighbours_unlinked, Htp3.
    rewrite fmap_app, fmap_cons, fmap_take, fmap_drop. reflexivity. }
  split.
  { rewrite !SetNeighbours_active, maybe_SetNeighbours_active. subst t3. exact Hact2. }
  remember (if 0 <? position then SetNeighbours (position - 1) t3 else t3) as t4 eqn:Ht4.
  assert (Hlen4 : length (OrderedTask.task_points t4)
                  = S (length (OrderedTask.task_points t)))
    by (subst t4; rewrite maybe_SetNeighbours_length; exact Hlen3).
  split.
  { intros H0.
    apply SetNeighbours_linked_other; [lia|].
    apply SetNeighbours_linked_other; [lia|].
    subst t4. replace (0 <? position) with true by (symmetry; apply Nat.ltb_lt; exact H0).
    apply SetNeighbours_linked. lia. }
  split.
  { apply SetNeighbours_linked_other; [lia|].
    apply SetNeighbours_linked. lia. }
  { apply SetNeighbours_linked. rewrite SetNeighbours_length. lia. }
Qed.

(** X1.  An [Insert] inside the vector that the neighbours allow returns
    true, puts the clone of [new_tp] at [position] and moves the points
    from there on up by one; the active index follows, so that the same
    object stays the active one; and the slots before, at and after
    [position] carry the links of their new neighbours. *)
Theorem Insert_in_range (new_tp : Point) (position : nat) (t : Task) :
  position < length (OrderedTask.task_points t) ->
  IsSuccessorAllowed new_tp = true ->
  (0 < position -> IsPredecessorAllowed new_tp = true) ->
  (0 < position ->
   forall p, OrderedTask.task_points t !! (position - 1) = Some p ->
             IsSuccessorAllowed p = true) ->
  (forall p, OrderedTask.task_points t !! position = Some p ->
             IsPredecessorAllowed p = true) ->
  let t' := snd (Insert new_tp position t) in
  fst (Insert new_tp position t) = true
  /\ length (OrderedTask.task_points t') = S (length (OrderedTask.task_points t))
  /\ unlinked <$> OrderedTask.task_points t' !! position
     = Some (unlinked (fst (clone_point new_tp t)))
  /\ (forall i, i < position ->
        unlinked <$> OrderedTask.task_points t' !! i
        = unlinked <$> OrderedTask.task_points t !! i)
  /\ (forall i, position <= i ->
        unlinked <$> OrderedTask.task_points t' !! S i
        = unlinked <$> OrderedTask.task_points t !! i)
  /\ unlinked <$> OrderedTask.task_points t' !! OrderedTask.active_task_point t'
     = unlinked <$> OrderedTask.task_points t !! OrderedTask.active_task_point t
  /\ (0 < position -> linked (OrderedTask.task_points t') (position - 1))
  /\ linked (OrderedTask.task_points t') position
  /\ linked (OrderedTask.task_points t') (position + 1).
Proof.
  intros Hpos Hs Hp Hsb Hpa t'.
  destruct (Insert_effect new_tp position t Hpos Hs Hp Hsb Hpa)
    as (Hr & Hu & Ha & L1 & L2 & L3).
  fold t' in Hu, Ha, L1, L2, L3.
  assert (Hlt : length (take position (unlinked <$> OrderedTask.task_points t)) = position)
    by (rewrite length_take, length_fmap; lia).
  assert (Hlook : forall i,
             unlinked <$> OrderedTask.task_points t' !! i
             = (take position (unlinked <$> OrderedTask.task_points t)
                ++ unlinked (fst (clone_point new_tp t))
                   :: drop position (unlinked <$> OrderedTask.task_points t)) !! i).
  { intros i. rewrite <- Hu, list_lookup_fmap. reflexivity. }
  assert (Hbelow : forall i, i < position ->
             unlinked <$> OrderedTask.task_points t' !! i
             = unlinked <$> OrderedTask.task_points t !! i).
  { intros i Hi. rewrite Hlook, lookup_app_l by lia.
    rewrite lookup_take_lt by lia. apply list_lookup_fmap. }
  assert (Habove : forall i, position <= i ->
             unlinked <$> OrderedTask.task_points t' !! S i
             = unlinked <$> OrderedTask.task_points t !! i).
  { intros i Hi. rewrite Hlook, lookup_app_r by lia. rewrite Hlt.
    replace (S i - position) with (S (i - position)) by lia. cbn [lookup list_lookup].
    change (drop position (unlinked <$> OrderedTask.task_points t) !! (i - position)
            = unlinked <$> OrderedTask.task_points t !! i).
    rewrite lookup_drop, list_lookup_fmap. f_equal. f_equal. lia. }
  split_and!; [exact Hr| |  |exact Hbelow|exact Habove| |exact L1|exact L2|exact L3].
  - apply (f_equal length) in Hu. rewrite length_fmap in Hu. rewrite Hu.
    rewrite length_app, Hlt. cbn [length]. rewrite length_drop, length_fmap. lia.
  - rewrite Hlook, lookup_app_r by lia. rewrite Hlt, Nat.sub_diag. reflexivity.
  - rewrite Ha. destruct (position <=? OrderedTask.active_task_point t) eqn:E.
    + apply Nat.leb_le in E. apply Habove, E.
    + apply Nat.leb_gt in E. apply Hbelow, E.
Qed.

(** X2.  [Remove(position)] inside the vector, when [position] is not the
    active index, leaves the same object active.  [Remove] of the active
    point makes the point that followed it active, or, when it was the
    last one (and not the only one), the point before it. *)
Theorem Remove_keeps_active_object (position : nat) (t : Task) :
  position < length (OrderedTask.task_points t) ->
  OrderedTask.active_task_point t < length (OrderedTask.task_points t) ->
  let a := OrderedTask.active_task_point t in
  let n := length (OrderedTask.task_points t) in
  let t' := snd (Remove position t) in
  (position <> a ->
   unlinked <$> OrderedTask.task_points t' !! OrderedTask.active_task_point t'
   = unlinked <$> OrderedTask.task_points t !! a)
  /\ (position = a -> S a < n ->
      unlinked <$> OrderedTask.task_points t' !! OrderedTask.active_task_point t'
      = unlinked <$> OrderedTask.task_points t !! S a)
  /\ (position = a -> S a = n -> 0 < a ->
      unlinked <$> OrderedTask.task_points t' !! OrderedTask.active_task_point t'
      = unlinked <$> OrderedTask.task_points t !! (a - 1)).
Proof.
  intros Hpos Hact a n t'.
  destruct (Remove_effect position t Hpos) as (_ & Hu & _ & Hdec & Hkeep & _).
  cbv zeta in Hu, Hdec, Hkeep. fold a n t' in Hu, Hdec, Hkeep.
  assert (Hlook : forall i,
             unlinked <$> OrderedTask.task_points t' !! i
             = delete position (unlinked <$> OrderedTask.task_points t) !! i)
    by (intros i; rewrite <- Hu, list_lookup_fmap; reflexivity).
  split_and!.
  - intros Hne.
    destruct (decide (position < a \/ (0 < a /\ a = n - 1))) as [Hc|Hc].
    + rewrite (Hdec Hc), Hlook.
      assert (position < a) by (subst a n; lia).
      rewrite list_lookup_delete_ge by lia.
      replace (S (a - 1)) with a by lia. apply list_lookup_fmap.
    + rewrite (Hkeep Hc), Hlook, list_lookup_delete_lt by lia. apply list_lookup_fmap.
  - intros He Hn.
    rewrite Hkeep by lia. rewrite Hlook, list_lookup_delete_ge by lia.
    apply list_lookup_fmap.
  - intros He Hn Ha.
    rewrite Hdec by lia. rewrite Hlook, list_lookup_delete_lt by lia.
    apply list_lookup_fmap.
Qed.

(** X3.  [Remove(position)] undoes an accepted [Insert] at [position]:
    the task points are the former ones, in order, and the active index is
    the former one. *)
Theorem Remove_undoes_Insert (new_tp : Point) (position : nat) (t : Task) :
  position < length (OrderedTask.task_points t) ->
  IsSuccessorAllowed new_tp = true ->
  (0 < position -> IsPredecessorAllowed new_tp = true) ->
  (0 < position ->
   forall p, OrderedTask.task_points t !! (position - 1) = Some p ->
             IsSuccessorAllowed p = true) ->
  (forall p, OrderedTask.task_points t !! position = Some p ->
             IsPredecessorAllowed p = true) ->
  let t1 := snd (Insert new_tp position t) in
  let t2 := snd (Remove position t1) in
  fst (Insert new_tp position t) = true
  /\ fst (Remove position t1) = true
  /\ unlinked <$> OrderedTask.task_points t2 = unlinked <$> OrderedTask.task_points t
  /\ unlinked <$> OrderedTask.optional_start_points t2
     = unlinked <$> OrderedTask.optional_start_points t
  /\ OrderedTask.active_task_point t2 = OrderedTask.active_task_point t.
Proof.
  intros Hpos Hs Hp Hsb Hpa t1 t2.
  destruct (Insert_effect new_tp position t Hpos Hs Hp Hsb Hpa)
    as (Hr & Hu & Ha & _).
  fold t1 in Hu, Ha.
  assert (Hlen1 : length (OrderedTask.task_points t1)
                  = S (length (OrderedTask.task_points t))).
  { apply (f_equal length) in Hu. rewrite length_fmap in Hu. rewrite Hu.
    rewrite length_app, length_take. cbn [length]. rewrite length_drop, length_fmap. lia. }
  destruct (Remove_effect position t1 ltac:(lia)) as (Hr2 & Hu2 & _ & Hdec & Hkeep & _).
  cbv zeta in Hu2, Hdec, Hkeep. fold t2 in Hu2, Hdec, Hkeep.
  split_and!; [exact Hr|exact Hr2| | |].
  - rewrite Hu2, Hu.
    assert (Hlt : length (take position (unlinked <$> OrderedTask.task_points t)) = position)
      by (rewrite length_take, length_fmap; lia).
    rewrite <- Hlt at 1. rewrite delete_middle. apply take_drop.
  - subst t2 t1. unfold Remove.
    replace (length (OrderedTask.task_points (snd (Insert new_tp position t))) <=? position)
      with false by (symmetry; apply Nat.leb_gt; lia).
    cbn [snd].
    assert (Hm : forall (c : bool) i (u : Task),
               unlinked <$> OrderedTask.optional_start_points
                              (if c then SetNeighbours i u else u)
               = unlinked <$> OrderedTask.optional_start_points u)
      by (intros [] i u; [apply SetNeighbours_optional_unlinked|reflexivity]).
    rewrite !Hm. unfold ErasePoint. cbn [OrderedTask.optional_start_points
                                            OrderedTask.set_task_points].
    transitivity (unlinked <$> OrderedTask.optional_start_points
                                 (snd (Insert new_tp position t))).
    { destruct (_ || _); reflexivity. }
    unfold Insert.
    replace (length (OrderedTask.task_points t) <=? position) with false
      by (symmetry; apply Nat.leb_gt; exact Hpos).
    cbv zeta. destruct (_ || _); [reflexivity|].
    cbn [clone_point snd].
    rewrite !SetNeighbours_optional_unlinked, Hm.
    destruct (position <=? _); reflexivity.
  - rewrite Ha in Hdec, Hkeep. rewrite Hlen1 in Hdec, Hkeep.
    destruct (position <=? OrderedTask.active_task_point t) eqn:E.
    + apply Nat.leb_le in E. rewrite Hdec by lia. lia.
    + apply Nat.leb_gt in E. rewrite Hkeep by lia. reflexivity.
Qed.

(** X4.  [Append] is refused only on a task that is not empty, when
    [new_tp] allows no predecessor or the last point allows no successor.
    An accepted [Append] returns true, puts the clone of [new_tp] behind
    the former points, leaves the active index and the optional start
    points alone, sets [last_min_location] (to the location of [new_tp])
    only when the task was empty, and links the last two slots. *)
Theorem Append_accepted (new_tp : Point) (t : Task) :
  (forall back, last (OrderedTask.task_points t) = Some back ->
                IsPredecessorAllowed new_tp = true /\ IsSuccessorAllowed back = true) ->
  let n := length (OrderedTask.task_points t) in
  let t' := snd (Append new_tp t) in
  fst (Append new_tp t) = true
  /\ unlinked <$> OrderedTask.task_points t'
     = (unlinked <$> OrderedTask.task_points t) ++ [unlinked (fst (clone_point new_tp t))]
  /\ unlinked <$> OrderedTask.optional_start_points t'
     = unlinked <$> OrderedTask.optional_start_points t
  /\ OrderedTask.active_task_point t' = OrderedTask.active_task_point t
  /\ OrderedTask.last_min_location t'
     = (if n =? 0 then GetLocation new_tp else OrderedTask.last_min_location t)
  /\ (0 < n -> linked (OrderedTask.task_points t') (n - 1))
  /\ linked (OrderedTask.task_points t') n.
Proof.
  intros Hok n t'. subst t'. unfold Append.
  assert (Hrefused : match last (OrderedTask.task_points t) with
                     | Some back =>
                         negb (IsPredecessorAllowed new_tp) || negb (IsSuccessorAllowed back)
                     | None => false
                     end = false).
  { destruct (last (OrderedTask.task_points t)) as [back|]; [|reflexivity].
    destruct (Hok back eq_refl) as [-> ->]. reflexivity. }
  rewrite Hrefused. cbn [clone_point fst snd].
  set (c := {| OrderedTaskPoint.addr_of := OrderedTask.next_addr t |}).
  fold n.
  remember (OrderedTask.set_task_points _ (_ ++ [c])) as t1 eqn:Ht1.
  assert (Htp1 : OrderedTask.task_points t1 = OrderedTask.task_points t ++ [c])
    by (subst t1; reflexivity).
  assert (Hlen1 : length (OrderedTask.task_points t1) = S n)
    by (rewrite Htp1, length_app; cbn; subst n; lia).
  remember (if 0 <? n then SetNeighbours (n - 1) t1
            else OrderedTask.set_last_min_location t1 (GetLocation new_tp)) as t2 eqn:Ht2.
  assert (Hlen2 : length (OrderedTask.task_points t2) = S n)
    by (subst t2; destruct (0 <? n); [rewrite SetNeighbours_length|]; exact Hlen1).
  split_and!.
  - reflexivity.
  - rewrite SetNeighbours_unlinked. subst t2.
    assert (Htp2 : unlinked <$> OrderedTask.task_points
                                  (if 0 <? n then SetNeighbours (n - 1) t1
                                   else OrderedTask.set_last_min_location t1
                                          (GetLocation new_tp))
                   = unlinked <$> OrderedTask.task_points t1)
      by (destruct (0 <? n); [apply SetNeighbours_unlinked|reflexivity]).
    rewrite Htp2, Htp1, fmap_app. reflexivity.
  - rewrite SetNeighbours_optional_unlinked. subst t2.
    destruct (0 <? n); [rewrite SetNeighbours_optional_unlinked|]; subst t1; reflexivity.
  - rewrite SetNeighbours_active. subst t2.
    destruct (0 <? n); [rewrite SetNeighbours_active|]; subst t1; reflexivity.
  - assert (Hl : forall i (u : Task),
               OrderedTask.last_min_location (SetNeighbours i u)
               = OrderedTask.last_min_location u).
    { intros i u. unfold SetNeighbours. destruct (_ <=? i); [reflexivity|].
      destruct (i =? 0); reflexivity. }
    rewrite Hl. subst t2. destruct n as [|n']; cbn [Nat.ltb Nat.leb Nat.eqb].
    + subst t1. reflexivity.
    + rewrite Hl. subst t1. reflexivity.
  - intros Hn. apply SetNeighbours_linked_other; [lia|]. subst t2.
    replace (0 <? n) with true by (symmetry; apply Nat.ltb_lt; exact Hn).
    apply SetNeighbours_linked. lia.
  - apply SetNeighbours_linked. lia.
Qed.

(** X5.  [Replace] inside the vector: a point that [Equals] the old one is
    accepted and nothing changes; otherwise an allowed point is cloned
    into the slot, the other slots, the size and the active index stay,
    and the slot and its two neighbours carry the new links. *)
Theorem Replace_in_range (new_tp old : Point) (position : nat) (t : Task) :
  OrderedTask.task_points t !! position = Some old ->
  (Equals old new_tp = true -> Replace new_tp position t = (true, t))
  /\ (Equals old new_tp = false ->
      (0 < position -> IsPredecessorAllowed new_tp = true) ->
      (position + 1 < length (OrderedTask.task_points t) ->
       IsSuccessorAllowed new_tp = true) ->
      let t' := snd (Replace new_tp position t) in
      fst (Replace new_tp position t) = true
      /\ unlinked <$> OrderedTask.task_points t'
         = <[position := unlinked (fst (clone_point new_tp t))]>
             (unlinked <$> OrderedTask.task_points t)
      /\ OrderedTask.active_task_point t' = OrderedTask.active_task_point t
      /\ (0 < position -> linked (OrderedTask.task_points t') (position - 1))
      /\ linked (OrderedTask.task_points t') position
      /\ linked (OrderedTask.task_points t') (position + 1)).
Proof.
  intros Hold. pose proof (lookup_lt_Some _ _ _ Hold) as Hpos. split.
  - intros He. unfold Replace. rewrite Hold, He. reflexivity.
  - intros He Hp Hs t'. subst t'. unfold Replace. rewrite Hold, He.
    assert (Hguard : ((0 <? position) && negb (IsPredecessorAllowed new_tp))
                     || ((position + 1 <? length (OrderedTask.task_points t))
                         && negb (IsSuccessorAllowed new_tp)) = false).
    { apply orb_false_iff. split.
      - destruct (0 <? position) eqn:E; [|reflexivity].
        apply Nat.ltb_lt in E. rewrite (Hp E). reflexivity.
      - destruct (position + 1 <? _) eqn:E; [|reflexivity].
        apply Nat.ltb_lt in E. rewrite (Hs E). reflexivity. }
    rewrite Hguard. cbn [clone_point fst snd].
    set (c := {| OrderedTaskPoint.addr_of := OrderedTask.next_addr t |}).
    remember (OrderedTask.set_task_points _ (<[position := c]> _)) as t1 eqn:Ht1.
    assert (Htp1 : OrderedTask.task_points t1 = <[position := c]> (OrderedTask.task_points t))
      by (subst t1; reflexivity).
    assert (Hlen1 : length (OrderedTask.task_points t1) = length (OrderedTask.task_points t))
      by (rewrite Htp1; apply length_insert).
    remember (if 0 <? position then SetNeighbours (position - 1) t1 else t1) as t2 eqn:Ht2.
    assert (Hlen2 : length (OrderedTask.task_points t2) = length (OrderedTask.task_points t))
      by (subst t2; rewrite maybe_SetNeighbours_length; exact Hlen1).
    split_and!.
    + reflexivity.
    + rewrite maybe_SetNeighbours_unlinked, SetNeighbours_unlinked. subst t2.
      rewrite maybe_SetNeighbours_unlinked, Htp1. apply list_fmap_insert.
    + rewrite maybe_SetNeighbours_active, SetNeighbours_active. subst t2.
      rewrite maybe_SetNeighbours_active. subst t1. reflexivity.
    + intros H0. apply maybe_SetNeighbours_linked; [lia|].
      apply SetNeighbours_linked_other; [lia|]. subst t2.
      replace (0 <? position) with true by (symmetry; apply Nat.ltb_lt; exact H0).
      apply SetNeighbours_linked. lia.
    + apply maybe_SetNeighbours_linked; [lia|]. apply SetNeighbours_linked. lia.
    + destruct (position + 1 <? length (OrderedTask.task_points (SetNeighbours position t2)))
        eqn:E.
      * apply SetNeighbours_linked. apply Nat.ltb_lt in E. exact E.
      * apply Nat.ltb_ge in E. intros p Hp'. apply lookup_lt_Some in Hp'. lia.
Qed.

(** X6.  A refused edit leaves the task as it was: each of [Append],
    [Insert], [Replace], [Remove], [RemoveOptionalStart] and
    [ReplaceOptionalStart] either returns true or returns false together
    with the unchanged task. *)
Theorem refused_edits_change_nothing (new_tp : Point) (position : nat) (t : Task) :
  (fst (Append new_tp t) = true \/ Append new_tp t = (false, t))
  /\ (fst (Insert new_tp position t) = true \/ Insert new_tp position t = (false, t))
  /\ (fst (Replace new_tp position t) = true \/ Replace new_tp position t = (false, t))
  /\ (fst (Remove position t) = true \/ Remove position t = (false, t))
  /\ (fst (RemoveOptionalStart position t) = true
      \/ RemoveOptionalStart position t = (false, t))
  /\ (fst (ReplaceOptionalStart new_tp position t) = true
      \/ ReplaceOptionalStart new_tp position t = (false, t)).
Proof.
  assert (HA : fst (Append new_tp t) = true \/ Append new_tp t = (false, t)).
  { unfold Append. destruct (match last _ with Some _ => _ | None => _ end); [right|left];
      reflexivity. }
  split_and!.
  - exact HA.
  - unfold Insert. destruct (_ <=? position); [exact HA|].
    cbv zeta. destruct (_ || _); [right|left]; reflexivity.
  - unfold Replace. destruct (_ !! position); [|right; reflexivity].
    destruct (Equals _ _); [left; reflexivity|].
    destruct (_ || _); [right|left]; reflexivity.
  - unfold Remove. destruct (_ <=? position); [right|left]; reflexivity.
  - unfold RemoveOptionalStart. destruct (_ <=? position); [right|left]; reflexivity.
  - unfold ReplaceOptionalStart. destruct (_ !! position); [|right; reflexivity].
    destruct (Equals _ _); left; reflexivity.
Qed.

Lemma SetNeighbours_0_optional (t : Task) (p : Point) :
  0 < length (OrderedTask.task_points t) ->
  p ∈ OrderedTask.optional_start_points (SetNeighbours 0 t) ->
  OrderedTaskPoint.prev p = None
  /\ OrderedTaskPoint.next p = OrderedTaskPoint.addr_of <$> OrderedTask.task_points t !! 1.
Proof.
  intros Hn Hp. unfold SetNeighbours in Hp.
  destruct (OrderedTask.task_points t) as [|a [|b l]] eqn:Et; [cbn in Hn; lia| |];
    cbn in Hp; apply list_elem_of_fmap in Hp as (q & -> & _); split; reflexivity.
Qed.

(** X7.  [AppendOptionalStart] always returns true and puts the clone
    behind the optional start points.  On a task of two points or more
    every optional start point then has no predecessor and
    [task_points[1]] as successor; on a smaller task [SetNeighbours(0)] is
    not called and the new optional start point is left as it was cloned. *)
Theorem AppendOptionalStart_links (new_tp : Point) (t : Task) :
  let t' := snd (AppendOptionalStart new_tp t) in
  fst (AppendOptionalStart new_tp t) = true
  /\ unlinked <$> OrderedTask.optional_start_points t'
     = (unlinked <$> OrderedTask.optional_start_points t)
       ++ [unlinked (fst (clone_point new_tp t))]
  /\ unlinked <$> OrderedTask.task_points t' = unlinked <$> OrderedTask.task_points t
  /\ (if 1 <? length (OrderedTask.task_points t)
      then forall p, p ∈ OrderedTask.optional_start_points t' ->
             OrderedTaskPoint.prev p = None
             /\ OrderedTaskPoint.next p
                = OrderedTaskPoint.addr_of <$> OrderedTask.task_points t !! 1
      else last (OrderedTask.optional_start_points t') = Some (fst (clone_point new_tp t))).
Proof.
  intros t'. subst t'. unfold AppendOptionalStart. cbn [clone_point fst snd].
  set (c := {| OrderedTaskPoint.addr_of := OrderedTask.next_addr t |}).
  cbn [OrderedTask.task_points OrderedTask.set_optional_start_points
         OrderedTask.set_next_addr].
  destruct (1 <? length (OrderedTask.task_points t)) eqn:E.
  - apply Nat.ltb_lt in E. split_and!.
    + reflexivity.
    + rewrite SetNeighbours_optional_unlinked. cbn. rewrite fmap_app. reflexivity.
    + rewrite SetNeighbours_unlinked. reflexivity.
    + intros p Hp. apply SetNeighbours_0_optional in Hp; [exact Hp|cbn; lia].
  - split_and!; [reflexivity|cbn; rewrite fmap_app; reflexivity|reflexivity|].
    cbn. apply last_snoc.
Qed.

(** *** Queries *)

Lemma GetLastIntermediateAchieved_from_spec n i (t : Task) :
  1 <= i ->
  i + n = TaskSize t - 1 ->
  (forall j p, 1 <= j < i -> OrderedTask.task_points t !! j = Some p ->
               HasEntered p = true) ->
  exists k,
    GetLastIntermediateAchieved_from n i t = Ret k
    /\ k <= TaskSize t - 2
    /\ (forall j p, 1 <= j <= k -> OrderedTask.task_points t !! j = Some p ->
                    HasEntered p = true)
    /\ (k < TaskSize t - 2 ->
        exists p, OrderedTask.task_points t !! S k = Some p /\ HasEntered p = false).
Proof.
  revert i. induction n as [|n IH]; intros i Hi Hn Hbelow.
  - exists (TaskSize t - 2). cbn [GetLastIntermediateAchieved_from].
    split_and!; [reflexivity|lia| |lia].
    intros j p Hj. apply Hbelow. lia.
  - cbn [GetLastIntermediateAchieved_from].
    destruct (lookup_lt_is_Some_2 (OrderedTask.task_points t) i) as [p Hp];
      [unfold TaskSize in Hn; lia|].
    unfold at_index. rewrite Hp. cbn [of_option]. rewrite bind_Ret.
    destruct (HasEntered p) eqn:E; cbn [negb].
    + apply IH; [lia|lia|].
      intros j q Hj Hq. destruct (decide (j = i)) as [->|Hne].
      * congruence.
      * apply (Hbelow j q); [lia|exact Hq].
    + exists (i - 1). split_and!; [reflexivity|lia| |].
      * intros j q Hj. apply Hbelow. lia.
      * intros _. exists p. replace (S (i - 1)) with i by lia. split; assumption.
Qed.

(** X8.  [GetLastIntermediateAchieved()] never reads outside the vector.
    On a task of fewer than two points it is 0; otherwise its value [k]
    is at most [TaskSize() - 2], the points 1 to [k] have all been
    entered, and when [k] is below [TaskSize() - 2] the point [k + 1] has
    not been entered. *)
Theorem GetLastIntermediateAchieved_spec (t : Task) :
  exists k,
    GetLastIntermediateAchieved t = Ret k
    /\ k <= TaskSize t - 2
    /\ (forall j p, 1 <= j <= k -> OrderedTask.task_points t !! j = Some p ->
                    HasEntered p = true)
    /\ (k < TaskSize t - 2 ->
        exists p, OrderedTask.task_points t !! S k = Some p /\ HasEntered p = false).
Proof.
  unfold GetLastIntermediateAchieved. destruct (TaskSize t <? 2) eqn:E.
  - apply Nat.ltb_lt in E. exists 0. split_and!; [reflexivity|lia|intros; lia|lia].
  - apply Nat.ltb_ge in E.
    apply GetLastIntermediateAchieved_from_spec; [lia|lia|intros; lia].
Qed.

(** X9.  [GetAATTaskPoint(TPindex)]: on a task with points, an index past
    the end gives the null pointer and an index inside gives the point
    exactly when it is an AAT point.  On the empty task
    [task_points.size() - 1] wraps around, the test lets every index
    through, and [task_points[TPindex]] is read outside the vector. *)
Theorem GetAATTaskPoint_cases (TPindex : nat) (t : Task) :
  (Z.of_nat TPindex < 2 ^ 32)%Z ->
  (Z.of_nat (length (OrderedTask.task_points t)) < 2 ^ 64)%Z ->
  (OrderedTask.task_points t = [] -> GetAATTaskPoint TPindex t = Fault OutOfRange)
  /\ (OrderedTask.task_points t <> [] ->
      length (OrderedTask.task_points t) <= TPindex ->
      GetAATTaskPoint TPindex t = Ret None)
  /\ (forall p, OrderedTask.task_points t !! TPindex = Some p ->
        GetAATTaskPoint TPindex t
        = Ret (if TaskPointType.eqb (OrderedTaskPoint.type p) TaskPointType.AAT
               then Some (OrderedTaskPoint.addr_of p) else None)).
Proof.
  intros Hi Hn. unfold GetAATTaskPoint, size_t. split_and!.
  - intros He. rewrite He. cbn [length].
    replace ((Z.of_nat 0 - 1) mod 2 ^ 64)%Z with (2 ^ 64 - 1)%Z by reflexivity.
    replace (2 ^ 64 - 1 <? Z.of_nat TPindex)%Z with false
      by (symmetry; apply Z.ltb_ge; lia).
    unfold at_index. rewrite lookup_nil. reflexivity.
  - intros Hne Hge.
    assert (0 < length (OrderedTask.task_points t))
      by (destruct (OrderedTask.task_points t); [congruence|cbn; lia]).
    rewrite Z.mod_small by lia.
    replace (_ <? _)%Z with true by (symmetry; apply Z.ltb_lt; lia). reflexivity.
  - intros p Hp. pose proof (lookup_lt_Some _ _ _ Hp) as Hlt.
    rewrite Z.mod_small by lia.
    replace (_ <? _)%Z with false by (symmetry; apply Z.ltb_ge; lia).
    unfold at_index. rewrite Hp. cbn [of_option]. rewrite bind_Ret.
    unfold OrderedTaskPoint.GetType. destruct (TaskPointType.eqb _ _); reflexivity.
Qed.

(** X10.  [IsValidTaskPoint(index_offset)] is true exactly when the active
    index plus the offset is the index of a task point: a sum below zero
    wraps around to a large [unsigned] and is rejected. *)
Theorem IsValidTaskPoint_iff (index_offset : Z) (t : Task) :
  (- 2 ^ 31 <= index_offset < 2 ^ 31)%Z ->
  (Z.of_nat (OrderedTask.active_task_point t) < 2 ^ 31)%Z ->
  (Z.of_nat (length (OrderedTask.task_points t)) < 2 ^ 31)%Z ->
  IsValidTaskPoint index_offset t = true
  <-> (0 <= Z.of_nat (OrderedTask.active_task_point t) + index_offset
       < Z.of_nat (length (OrderedTask.task_points t)))%Z.
Proof.
  intros Ho Ha Hn. unfold IsValidTaskPoint, uint32. cbv zeta.
  rewrite Z.ltb_lt.
  set (a := Z.of_nat (OrderedTask.active_task_point t)) in *.
  set (n := Z.of_nat (length (OrderedTask.task_points t))) in *.
  change (2 ^ 32)%Z with 4294967296%Z. change (2 ^ 31)%Z with 2147483648%Z in *.
  destruct (Z_lt_le_dec (a + index_offset) 0) as [Hneg|Hpos].
  - replace ((a + index_offset) mod 4294967296)%Z with (a + index_offset + 4294967296)%Z.
    + lia.
    + symmetry. rewrite <- (Z.mod_add _ 1) by lia. apply Z.mod_small. lia.
  - rewrite Z.mod_small by lia. lia.
Qed.


Lemma find_object_dead a (l : list Point) : a ∉ addrs l -> find_object a l = None.
Proof.
  intros Hn. destruct (find_object a l) as [p|] eqn:E; [|reflexivity].
  apply find_object_Some in E as [<- Hp]. exfalso. apply Hn.
  unfold addrs. apply list_elem_of_fmap. exists p. split; [reflexivity|exact Hp].
Qed.

Lemma start_of_live (l : list Point) a : start_of l = Some a -> a ∈ addrs l.
Proof.
  destruct l as [|front l]; [discriminate|]. cbn.
  destruct (TaskPointType.eqb _ _); [|discriminate]. intros [= <-]. left.
Qed.

Lemma UpdateGeometry_force_full_update (t t' : Task) :
  UpdateGeometry t = Ret t' -> OrderedTask.task_points t <> [] ->
  OrderedTask.force_full_update t' = true.
Proof.
  unfold UpdateGeometry. intros H Hne.
  destruct (UpdateStatsGeometry_spec t) as (Htp & _).
  destruct (OrderedTask.task_points (UpdateStatsGeometry t)) as [|first l] eqn:E;
    [congruence|].
  inv_bind H. cbv zeta in H. inv_bind H. injection H as <-. reflexivity.
Qed.

(** X11.  [UpdateGeometry()] returns on every task that is empty or has its
    active index inside the vector.  Afterwards the cached start pointer
    is [task_points.front()] exactly when that is a START point, the
    cached finish pointer is [task_points.back()] exactly when the task
    has more than one point and the last one is a FINISH point, and both
    are null otherwise, so neither dangles; every object is in the slot
    it was in, the active index is the same, and on a task with points
    [force_full_update] is set. *)
Theorem UpdateGeometry_cached_pointers (t : Task) :
  OrderedTask.task_points t = []
  \/ OrderedTask.active_task_point t < length (OrderedTask.task_points t) ->
  exists t',
    UpdateGeometry t = Ret t'
    /\ OrderedTask.taskpoint_start t' = start_of (OrderedTask.task_points t')
    /\ OrderedTask.taskpoint_finish t' = finish_of (OrderedTask.task_points t')
    /\ (forall a, OrderedTask.taskpoint_start t' = Some a \/
                  OrderedTask.taskpoint_finish t' = Some a ->
                  a ∈ addrs (OrderedTask.task_points t'))
    /\ ident <$> OrderedTask.task_points t' = ident <$> OrderedTask.task_points t
    /\ ident <$> OrderedTask.optional_start_points t'
       = ident <$> OrderedTask.optional_start_points t
    /\ OrderedTask.active_task_point t' = OrderedTask.active_task_point t
    /\ (OrderedTask.task_points t <> [] -> OrderedTask.force_full_update t' = true).
Proof.
  intros Hc.
  assert (Ht : exists t', UpdateGeometry t = Ret t').
  { destruct Hc as [He|Ha]; [|apply UpdateGeometry_total, Ha].
    unfold UpdateGeometry. destruct (UpdateStatsGeometry_spec t) as (Htp & _).
    rewrite He in Htp. rewrite Htp. eauto. }
  destruct Ht as [t' H]. exists t'.
  destruct (UpdateGeometry_spec _ _ H) as (A & B & S & F1 & F2).
  split_and!; [exact H|exact F1|exact F2| |exact A|exact B|apply S| ].
  - intros a [Ha|Ha].
    + rewrite F1 in Ha. apply start_of_live, Ha.
    + rewrite F2 in Ha. apply finish_of_live, Ha.
  - apply (UpdateGeometry_force_full_update _ _ H).
Qed.

(** X12.  [Remove] does not rescan the cached pointers.  After [Remove(0)]
    on a task with a start point, [taskpoint_start] is still the address
    of the erased object: until [UpdateGeometry()] has run, [TaskStarted]
    and [CheckTransitions] dereference a pointer whose object is gone.
    [UpdateGeometry()] returns and makes the pointer that of the new
    front point, or null. *)
Theorem Remove_front_leaves_start_pointer
    (state state_last : AircraftState.t) (soft : bool) (t : Task) :
  ready t = true ->
  let t1 := snd (Remove 0 t) in
  OrderedTask.taskpoint_start t1 = OrderedTask.taskpoint_start t
  /\ TaskStarted soft t1 = Fault Dangling
  /\ CheckTransitions state state_last t1 = Fault Dangling
  /\ exists t2,
       UpdateGeometry t1 = Ret t2
       /\ OrderedTask.taskpoint_start t2 = start_of (OrderedTask.task_points t2)
       /\ addrs (OrderedTask.task_points t2) = drop 1 (addrs (OrderedTask.task_points t)).
Proof.
  intros Hr t1.
  destruct (ready_elim _ Hr) as (H2 & Ha & (front & Hfr & Hty & Hst) & _ & _ & Hnd).
  destruct (Remove_effect 0 t ltac:(lia)) as (_ & Hu & Hlen & _).
  cbv zeta in Hu, Hlen. fold t1 in Hu, Hlen.
  assert (Hs1 : OrderedTask.taskpoint_start t1 = OrderedTask.taskpoint_start t).
  { subst t1. unfold Remove.
    replace (length (OrderedTask.task_points t) <=? 0) with false
      by (symmetry; apply Nat.leb_gt; lia).
    cbn [snd Nat.ltb Nat.leb]. unfold SetNeighbours, ErasePoint.
    repeat match goal with
           | |- context [if ?c then _ else _] => destruct c
           end; reflexivity. }
  assert (Ho1 : unlinked <$> OrderedTask.optional_start_points t1
                = unlinked <$> OrderedTask.optional_start_points t).
  { subst t1. unfold Remove.
    replace (length (OrderedTask.task_points t) <=? 0) with false
      by (symmetry; apply Nat.leb_gt; lia).
    cbn [snd Nat.ltb Nat.leb].
    match goal with
    | |- context [if ?c then SetNeighbours 0 ?u else ?u] =>
        transitivity (unlinked <$> OrderedTask.optional_start_points u);
        [destruct c; [apply SetNeighbours_optional_unlinked|reflexivity]|]
    end.
    unfold ErasePoint. destruct (_ || _); reflexivity. }
  assert (Htps1 : addrs (OrderedTask.task_points t1)
                  = drop 1 (addrs (OrderedTask.task_points t))).
  { apply (f_equal (fmap OrderedTaskPoint.addr_of)) in Hu.
    rewrite <- list_fmap_compose in Hu. unfold addrs.
    etransitivity; [exact Hu|].
    destruct (OrderedTask.task_points t) as [|f l]; [reflexivity|].
    change (OrderedTaskPoint.addr_of <$> (unlinked <$> l) = OrderedTaskPoint.addr_of <$> l).
    rewrite <- list_fmap_compose. reflexivity. }
  assert (Hdead : OrderedTaskPoint.addr_of front ∉ addrs (objects t1)).
  { assert (Hobj : addrs (objects t1)
                   = drop 1 (addrs (OrderedTask.task_points t))
                     ++ addrs (OrderedTask.optional_start_points t)).
    { unfold objects. unfold addrs at 1. rewrite fmap_app. f_equal.
      - exact Htps1.
      - apply (unlinked_addrs _ _ Ho1). }
    rewrite Hobj. unfold objects, addrs in Hnd. rewrite fmap_app in Hnd.
    destruct (OrderedTask.task_points t) as [|f l]; [discriminate|].
    injection Hfr as ->. cbn in Hnd |- *. rewrite drop_0.
    apply NoDup_cons in Hnd as [Hnot _]. exact Hnot. }
  assert (Hd : deref (OrderedTask.taskpoint_start t1) t1 = Fault Dangling).
  { rewrite Hs1, Hst. cbn [deref]. rewrite (find_object_dead _ _ Hdead). reflexivity. }
  split_and!.
  - exact Hs1.
  - unfold TaskStarted. rewrite Hd. rewrite Hs1, Hst. reflexivity.
  - unfold CheckTransitions, ScanActive_from. rewrite Hd. rewrite Hs1, Hst. reflexivity.
  - destruct (UpdateGeometry_total t1) as [t2 E2].
    { apply Remove_keeps_active_inside; [exact Ha|].
      intros He. unfold t1 in Hlen. rewrite He in Hlen. cbn in Hlen. lia. }
    exists t2. destruct (UpdateGeometry_spec _ _ E2) as (A & _ & _ & F1 & _).
    split_and!; [exact E2|exact F1|].
    rewrite (idents_addrs _ _ A). exact Htps1.
Qed.

Lemma ready_CheckTransitions state state_last (t t' : Task) r :
  ready t = true ->
  CheckTransitions state state_last t = Ret (r, t') ->
  ready t' = true.
Proof.
  intros Hr H. unfold CheckTransitions in H.
  destruct (ready_start_live _ Hr) as (a & Hs & _). rewrite Hs in H.
  inv_bind H. rename x into t0.
  pose proof (quiet_ScanActive_from _ _ _ E) as Q0.
  assert (Hr0 : ready t0 = true)
    by (rewrite (noisy_ready _ _ (quiet_noisy _ _ Q0)); exact Hr).
  destruct (negb (AircraftState.flying state)); [injection H as _ <-; exact Hr0|].
  cbv zeta in H. destruct (_ =? 0)%Z; [injection H as _ <-; exact Hr0|].
  destruct (ready_elim _ Hr0) as (H2 & Ha & _).
  inv_bind H. destruct x as [fu t1].
  assert (Hr1 : ready t1 = true).
  { match type of E0 with
    | CheckTransitions_loop ?fuel ?i ?tmax ?n ?s ?sl ?bn ?bl ?fu0 ?tt = _ =>
        destruct (CheckTransitions_loop_total fuel i tmax n s sl bn bl fu0 tt Hr0)
          as (fu' & t1' & E1 & Hr1); [lia|lia|reflexivity|lia|]
    end.
    rewrite E1 in E0. injection E0 as _ <-. exact Hr1. }
  apply placed_CheckTransitions_end in H as [_ P].
  rewrite (placed_ready _ _ P). exact Hr1.
Qed.

(** X13.  On a task that is [ready] ([UpdateGeometry()] has run, two points
    or more, a start point), [CheckTransitions] can be called for fix
    after fix of a whole flight: every call returns, none reads outside a
    vector or through a null or dangling pointer, the task stays [ready],
    the number of task points stays and the active index never goes
    down. *)
Theorem CheckTransitions_along_a_flight
    (fixes : list AircraftState.t) (state_last : AircraftState.t) (t : Task) :
  ready t = true ->
  exists t',
    CheckTransitions_along fixes state_last t = Ret t'
    /\ ready t' = true
    /\ length (OrderedTask.task_points t') = length (OrderedTask.task_points t)
    /\ OrderedTask.active_task_point t <= OrderedTask.active_task_point t'
    /\ OrderedTask.active_task_point t' < length (OrderedTask.task_points t').
Proof.
  revert state_last t. induction fixes as [|state rest IH]; intros state_last t Hr.
  - exists t. destruct (ready_elim _ Hr) as (_ & Ha & _).
    split_and!; [reflexivity|exact Hr|reflexivity|lia|exact Ha].
  - cbn [CheckTransitions_along].
    destruct (CheckTransitions_total state state_last t Hr) as (r & t1 & E).
    rewrite E, bind_Ret. cbv beta iota.
    pose proof (ready_CheckTransitions _ _ _ _ _ Hr E) as Hr1.
    destruct (CheckTransitions_bounds _ _ _ _ _ E) as (L & A & _).
    destruct (IH state t1 Hr1) as (t' & E' & Hr' & L' & A' & B').
    exists t'. split_and!; [exact E'|exact Hr'|lia|lia|exact B'].
Qed.

(** X14.  [ScanDistanceNominal()] on a task with points returns, without
    reading outside the vector; the nominal distance of the legs being a
    [double], the result is never above it, and is not negative when
    that distance is not negative: a cylinder radius is subtracted only
    while it is below the distance that is left, and the rounding of the
    difference does not take it past 0 or past that distance. *)
Theorem ScanDistanceNominal_bounds (t : Task) :
  OrderedTask.task_points t <> [] ->
  Double.is_double (TaskLeg_ScanDistanceNominal (OrderedTask.task_points t)) ->
  exists d,
    ScanDistanceNominal t = Ret d
    /\ (d <= TaskLeg_ScanDistanceNominal (OrderedTask.task_points t))%Q
    /\ ((0 <= TaskLeg_ScanDistanceNominal (OrderedTask.task_points t))%Q -> (0 <= d)%Q).
Proof.
  intros Hne HD. unfold ScanDistanceNominal.
  destruct (OrderedTask.task_points t) as [|start l] eqn:Et; [congruence|].
  rewrite <- Et in *.
  destruct (last (OrderedTask.task_points t)) as [finish|] eqn:El.
  2:{ apply last_None in El. congruence. }
  cbn [of_option]. rewrite bind_Ret. cbv zeta.
  set (D := TaskLeg_ScanDistanceNominal (OrderedTask.task_points t)) in *.
  set (r1 := GetCylinderRadiusOrMinusOne (OrderedTaskPoint.oz start)).
  set (r2 := GetCylinderRadiusOrMinusOne (OrderedTaskPoint.oz finish)).
  eexists. split; [reflexivity|]. unfold Double.sub.
  assert (H1 : ((if Qltb 0 r1 && Qltb r1 D then Double.round (D - r1) else D) <= D
                /\ (0 <= D ->
                    0 <= (if Qltb 0 r1 && Qltb r1 D then Double.round (D - r1) else D)))%Q).
  { destruct (Qltb 0 r1) eqn:A; cbn [andb]; [|split; [apply Qle_refl|auto]].
    destruct (Qltb r1 D) eqn:B; [|split; [apply Qle_refl|auto]].
    apply Qltb_lt in A, B.
    destruct (Double_facts.round_below (D - r1) D HD) as [L U]; [lra|lra|].
    split; [exact U|intros _; exact L]. }
  set (d1 := if Qltb 0 r1 && Qltb r1 D then Double.round (D - r1) else D) in *.
  destruct H1 as [H1 H1'].
  destruct (Qltb 0 r2) eqn:A; cbn [andb]; [|split; assumption].
  destruct (Qltb r2 d1) eqn:B; [|split; assumption].
  apply Qltb_lt in A, B.
  destruct (Double_facts.round_below (d1 - r2) D HD) as [L U]; [lra|lra|].
  split; [exact U|intros _; exact L].
Qed.

(** X15.  [UpdateAfterPEV] outside the case of the scored window: it always
    clears [pev_received]; with a negative [state.time] it does nothing
    else; when the start scores pilot events it sets
    [pev_based_advance_ready] and opens the start at the minute after the
    wait, with no end; and without a wait the window opens at the minute
    of the fix. *)
Theorem UpdateAfterPEV_other_cases
    (state : AircraftState.t) (bt : BrokenTime.t) (t : Task) :
  let start := OrderedTaskSettings.start_constraints (OrderedTask.ordered_settings t) in
  let t' := UpdateAfterPEV state bt t in
  let span :=
    StartConstraints.open_time_span
      (OrderedTaskSettings.start_constraints (OrderedTask.ordered_settings t')) in
  let minute := RoughTime.minutes_of_seconds (AircraftState.time state) in
  OrderedTask.pev_received t' = false
  /\ ((AircraftState.time state < 0)%Q -> t' = OrderedTask.set_pev_received t false)
  /\ ((0 <= AircraftState.time state)%Q ->
      StartConstraints.score_pev start = true ->
      TaskStats.pev_based_advance_ready (OrderedTask.stats t') = true
      /\ RoughTimeSpan.finish span = RoughTime.Invalid
      /\ ((0 < StartConstraints.pev_start_wait_time start)%Z ->
          RoughTimeSpan.start span
          = RoughTime.MinuteOfDay
              ((minute + StartConstraints.pev_start_wait_time start / 60
                + (if 0 <? BrokenTime.second bt then 1 else 0)) mod RoughTime.MAX)%Z))
  /\ ((0 <= AircraftState.time state)%Q ->
      (StartConstraints.pev_start_wait_time start <= 0)%Z ->
      RoughTimeSpan.start span = RoughTime.MinuteOfDay minute)
  /\ ((0 <= AircraftState.time state)%Q ->
      StartConstraints.score_pev start = false ->
      (StartConstraints.pev_start_window start <= 0)%Z ->
      RoughTimeSpan.finish span = RoughTime.Invalid
      /\ TaskStats.pev_based_advance_ready (OrderedTask.stats t')
         = TaskStats.pev_based_advance_ready (OrderedTask.stats t)).
Proof.
  intros start t' span minute. subst t' span. unfold UpdateAfterPEV. cbv zeta.
  cbn [OrderedTask.ordered_settings OrderedTask.set_pev_received]. fold start.
  assert (Hneg : (AircraftState.time state < 0)%Q -> Qltb (AircraftState.time state) 0 = true).
  { intros H. destruct (Qltb (AircraftState.time state) 0) eqn:E; [reflexivity|].
    apply Qltb_ge in E. lra. }
  assert (Hpos : (0 <= AircraftState.time state)%Q -> Qltb (AircraftState.time state) 0 = false).
  { intros H. destruct (Qltb (AircraftState.time state) 0) eqn:E; [|reflexivity].
    apply Qltb_lt in E. lra. }
  split_and!.
  - destruct (Qltb _ 0); [reflexivity|].
    destruct (StartConstraints.score_pev start); reflexivity.
  - intros H. rewrite (Hneg H). reflexivity.
  - intros H Hs. rewrite (Hpos H), Hs. cbn. split_and!; [reflexivity|reflexivity|].
    intros Hw. replace (0 <? _)%Z with true by (symmetry; apply Z.ltb_lt; exact Hw).
    unfold RoughTime.FromSinceMidnight, RoughTime.plus. fold minute.
    rewrite Z.quot_div_nonneg by lia.
    destruct (0 <? BrokenTime.second bt)%Z; f_equal; f_equal; lia.
  - intros H Hw. rewrite (Hpos H).
    replace (0 <? StartConstraints.pev_start_wait_time start)%Z with false
      by (symmetry; apply Z.ltb_ge; exact Hw).
    destruct (StartConstraints.score_pev start); reflexivity.
  - intros H Hs Hp. rewrite (Hpos H), Hs.
    replace (0 <? StartConstraints.pev_start_window start)%Z with false
      by (symmetry; apply Z.ltb_ge; exact Hp).
    split; reflexivity.
Qed.

Lemma rotate_one_more {A} (x : A) (c : list A) k :
  k <= length c ->
  drop k (c ++ [x]) ++ take k (c ++ [x]) = drop (S k) (x :: c) ++ take (S k) (x :: c).
Proof.
  intros Hk. cbn [drop take].
  rewrite drop_app_le, take_app_le by lia.
  rewrite <- app_assoc. reflexivity.
Qed.

Lemma SelectOptionalStart_0_once (t t' : Task) :
  SelectOptionalStart 0 t = Ret t' ->
  OrderedTask.optional_start_points t <> [] ->
  exists front rest o os,
    OrderedTask.task_points t = front :: rest
    /\ OrderedTask.optional_start_points t = o :: os
    /\ ident <$> OrderedTask.task_points t' = ident o :: (ident <$> rest)
    /\ ident <$> OrderedTask.optional_start_points t'
       = (ident <$> os) ++ [ident front].
Proof.
  intros H Hne.
  apply SelectOptionalStart_spec in H as (front & rest & chosen & Hfr & Hch & A & B & _).
  destruct (OrderedTask.optional_start_points t) as [|o os] eqn:Eo; [congruence|].
  cbn in Hch. injection Hch as <-.
  exists front, rest, o, os. split_and!; [exact Hfr|reflexivity|exact A|].
  rewrite B. cbn. rewrite fmap_app. reflexivity.
Qed.

Lemma SelectOptionalStart_0_times_spec k (t : Task) :
  ready t = true ->
  OrderedTask.optional_start_points t <> [] ->
  k <= S (length (OrderedTask.optional_start_points t)) ->
  exists t',
    SelectOptionalStart_0_times k t = Ret t'
    /\ ready t' = true
    /\ (ident <$> take 1 (OrderedTask.task_points t'))
       ++ (ident <$> OrderedTask.optional_start_points t')
       = drop k ((ident <$> take 1 (OrderedTask.task_points t))
                 ++ (ident <$> OrderedTask.optional_start_points t))
         ++ take k ((ident <$> take 1 (OrderedTask.task_points t))
                    ++ (ident <$> OrderedTask.optional_start_points t))
    /\ ident <$> drop 1 (OrderedTask.task_points t')
       = ident <$> drop 1 (OrderedTask.task_points t)
    /\ length (OrderedTask.optional_start_points t')
       = length (OrderedTask.optional_start_points t).
Proof.
  revert t. induction k as [|k IH]; intros t Hr Hne Hk.
  - exists t. cbn [SelectOptionalStart_0_times drop take]. rewrite app_nil_r.
    split_and!; reflexivity || exact Hr.
  - cbn [SelectOptionalStart_0_times].
    assert (Hpos : 0 < length (OrderedTask.optional_start_points t))
      by (destruct (OrderedTask.optional_start_points t); [congruence|cbn; lia]).
    destruct (SelectOptionalStart_total 0 t Hr Hpos) as [t1 E1].
    rewrite E1, bind_Ret.
    pose proof (ready_SelectOptionalStart 0 t t1 Hr Hpos E1) as Hr1.
    destruct (SelectOptionalStart_0_once _ _ E1 Hne)
      as (front & rest & o & os & Hfr & Ho & A & B).
    assert (Hlen1 : length (OrderedTask.optional_start_points t1)
                    = length (OrderedTask.optional_start_points t)).
    { apply (f_equal length) in B. rewrite length_app, !length_fmap in B.
      rewrite B, Ho. cbn. lia. }
    assert (Hne1 : OrderedTask.optional_start_points t1 <> []).
    { intros He. rewrite He in Hlen1. cbn in Hlen1. lia. }
    destruct (IH t1 Hr1 Hne1 ltac:(lia)) as (t' & E' & Hr' & C' & D' & L').
    exists t'. split_and!; [exact E'|exact Hr'| | |lia].
    + rewrite C'.
      destruct (OrderedTask.task_points t1) as [|f1 r1] eqn:E1'; [discriminate|].
      change (ident f1 :: (ident <$> r1) = ident o :: (ident <$> rest)) in A.
      assert (A1 : ident f1 = ident o) by congruence.
      rewrite Hfr, Ho, B.
      change (take 1 (f1 :: r1)) with [f1]. change (take 1 (front :: rest)) with [front].
      change (ident <$> [f1]) with [ident f1]. rewrite A1.
      transitivity (drop k ((ident o :: (ident <$> os)) ++ [ident front])
                    ++ take k ((ident o :: (ident <$> os)) ++ [ident front]));
        [reflexivity|].
      rewrite (rotate_one_more (ident front) (ident o :: (ident <$> os)) k);
        [reflexivity|].
      cbn [length]. rewrite length_fmap.
      rewrite Ho in Hk. cbn in Hk. lia.
    + rewrite D'.
      destruct (OrderedTask.task_points t1) as [|f1 r1] eqn:E1'; [discriminate|].
      change (ident f1 :: (ident <$> r1) = ident o :: (ident <$> rest)) in A.
      rewrite Hfr. cbn [drop]. rewrite !drop_0. congruence.
Qed.

(** X16.  [SelectOptionalStart(0)], which [RotateOptionalStarts()] calls,
    puts the first optional start point in the place of the start point
    and the start point behind the other optional ones.  Called once more
    than there are optional start points, it brings every object back to
    the slot it was in. *)
Theorem SelectOptionalStart_0_full_turn (t : Task) :
  ready t = true ->
  OrderedTask.optional_start_points t <> [] ->
  (exists t1 front o os,
     SelectOptionalStart 0 t = Ret t1
     /\ OrderedTask.task_points t !! 0 = Some front
     /\ OrderedTask.optional_start_points t = o :: os
     /\ addrs (OrderedTask.task_points t1)
        = <[0 := OrderedTaskPoint.addr_of o]> (addrs (OrderedTask.task_points t))
     /\ addrs (OrderedTask.optional_start_points t1)
        = addrs os ++ [OrderedTaskPoint.addr_of front])
  /\ exists t',
       SelectOptionalStart_0_times (S (length (OrderedTask.optional_start_points t))) t
       = Ret t'
       /\ ident <$> OrderedTask.task_points t' = ident <$> OrderedTask.task_points t
       /\ ident <$> OrderedTask.optional_start_points t'
          = ident <$> OrderedTask.optional_start_points t.
Proof.
  intros Hr Hne.
  assert (Hpos : 0 < length (OrderedTask.optional_start_points t))
    by (destruct (OrderedTask.optional_start_points t); [congruence|cbn; lia]).
  split.
  - destruct (SelectOptionalStart_total 0 t Hr Hpos) as [t1 E1].
    destruct (SelectOptionalStart_0_once _ _ E1 Hne)
      as (front & rest & o & os & Hfr & Ho & A & B).
    exists t1, front, o, os.
    split_and!; [exact E1|rewrite Hfr; reflexivity|exact Ho| |].
    + unfold addrs.
      transitivity (fst <$> (ident <$> OrderedTask.task_points t1)).
      { rewrite <- list_fmap_compose. reflexivity. }
      rewrite A, Hfr. cbn. rewrite <- list_fmap_compose. reflexivity.
    + unfold addrs.
      transitivity (fst <$> (ident <$> OrderedTask.optional_start_points t1)).
      { rewrite <- list_fmap_compose. reflexivity. }
      rewrite B, fmap_app, <- list_fmap_compose. reflexivity.
  - destruct (SelectOptionalStart_0_times_spec
                (S (length (OrderedTask.optional_start_points t))) t Hr Hne ltac:(lia))
      as (t' & E' & _ & C & D & L).
    exists t'. split; [exact E'|].
    destruct (ready_elim _ Hr) as (H2 & _).
    destruct (OrderedTask.task_points t) as [|f r] eqn:Et; [cbn in H2; lia|].
    change (take 1 (f :: r)) with [f] in C.
    assert (Hfull : S (length (OrderedTask.optional_start_points t))
                    = length ((ident <$> [f])
                              ++ (ident <$> OrderedTask.optional_start_points t)))
      by (rewrite length_app, !length_fmap; cbn; lia).
    rewrite Hfull, drop_all, firstn_all in C. cbn [app] in C.
    destruct (OrderedTask.task_points t') as [|f' r'] eqn:Et'.
    { apply (f_equal length) in C. cbn in C. rewrite !length_fmap in C. lia. }
    change (take 1 (f' :: r')) with [f'] in C.
    cbn [drop] in D. rewrite !drop_0 in D.
    change (ident f' :: (ident <$> OrderedTask.optional_start_points t')
            = ident f :: (ident <$> OrderedTask.optional_start_points t)) in C.
    assert (C1 : ident f' = ident f) by congruence.
    assert (C2 : ident <$> OrderedTask.optional_start_points t'
                 = ident <$> OrderedTask.optional_start_points t) by congruence.
    split; [|exact C2].
    change (ident f' :: (ident <$> r') = ident f :: (ident <$> r)). congruence.
Qed.

(** X17.  A task emptied by [RemoveAllPoints()] is inert: [CheckTransitions]
    returns false and leaves it as it is, [TaskStarted] is false, there is
    no active task point, every position is out of range for [Remove],
    and [UpdateGeometry()] returns with both cached pointers null; and
    [Append] accepts any point as the first one. *)
Theorem RemoveAllPoints_inert
    (state state_last : AircraftState.t) (soft : bool) (new_tp : Point)
    (position : nat) (t : Task) :
  let e := RemoveAllPoints t in
  CheckTransitions state state_last e = Ret (false, e)
  /\ TaskStarted soft e = Ret false
  /\ GetActiveTaskPoint e = None
  /\ Remove position e = (false, e)
  /\ ScanDistanceNominal e = Ret 0%Q
  /\ (exists e', UpdateGeometry e = Ret e'
                 /\ OrderedTask.task_points e' = []
                 /\ OrderedTask.taskpoint_start e' = None
                 /\ OrderedTask.taskpoint_finish e' = None)
  /\ fst (Append new_tp e) = true
  /\ length (OrderedTask.task_points (snd (Append new_tp e))) = 1.
Proof.
  intros e. subst e.
  split_and!; [reflexivity|reflexivity|reflexivity| |reflexivity| |
               reflexivity|reflexivity].
  - unfold Remove.
    change (length (OrderedTask.task_points (RemoveAllPoints t))) with 0.
    reflexivity.
  - exists (UpdateStatsGeometry (RemoveAllPoints t)).
    destruct (UpdateStatsGeometry_spec (RemoveAllPoints t)) as (Htp & _ & _ & F1 & F2).
    change (OrderedTask.task_points (RemoveAllPoints t)) with (@nil Point) in Htp.
    rewrite Htp in F1, F2. unfold UpdateGeometry. rewrite Htp.
    split_and!; [reflexivity|reflexivity|exact F1|exact F2].
Qed.

(** X18.  [ScanDistanceMin] outside the incremental test.  With
    [full = true] it runs [RunDijsktraMin], which solves only on a task
    of two points or more, and makes [location] the new
    [last_min_location].  With [full = false], when [location] or
    [last_min_location] is invalid, or the move is not significant, it
    runs nothing and is the leg scan of the task as it is, however much
    the distance to the active point has changed. *)
Theorem ScanDistanceMin_other_cases (location : GeoPoint) (t : Task) :
  OrderedTask.active_task_point t < length (OrderedTask.task_points t) ->
  (exists d t',
     ScanDistanceMin location true t = Ret (d, t')
     /\ OrderedTask.last_min_location t' = location
     /\ (2 <= TaskSize t ->
         OrderedTask.dijkstra_min t' = Some (S (default 0 (OrderedTask.dijkstra_min t))))
     /\ (TaskSize t < 2 -> OrderedTask.dijkstra_min t' = OrderedTask.dijkstra_min t))
  /\ (GeoPoint_IsValid location
      && GeoPoint_IsValid (OrderedTask.last_min_location t)
      && DistanceIsSignificant location (OrderedTask.last_min_location t) t = false ->
      ScanDistanceMin location false t = front_scan LegMin None t).
Proof.
  intros Ha.
  assert (Hne : OrderedTask.task_points t <> [])
    by (destruct (OrderedTask.task_points t); [cbn in Ha; lia|discriminate]).
  split.
  - unfold ScanDistanceMin. cbn [negb andb].
    destruct (RunDijsktraMin_Ret location t Ha) as (b & t1 & E1 & Hlen & _ & Hd & Hsame).
    rewrite E1. repeat (rewrite bind_Ret; cbv beta iota).
    destruct (front_scan_Ret LegMin None (OrderedTask.set_last_min_location t1 location))
      as (d & t' & E & Hmin & Hdd).
    { cbn. intros He. rewrite He in Hlen. cbn in Hlen.
      destruct (OrderedTask.task_points t); [congruence|discriminate]. }
    exists d, t'. split; [exact E|]. rewrite Hmin, Hdd. cbn. unfold TaskSize.
    split_and!; [reflexivity|exact Hd|].
    intros Hs. rewrite (Hsame Hs). reflexivity.
  - intros Hc. unfold ScanDistanceMin. cbn [negb andb].
    replace (true && GeoPoint_IsValid location)
      with (GeoPoint_IsValid location) by reflexivity.
    rewrite Hc. rewrite bind_Ret. reflexivity.
Qed.

(** [SetPEV]: before the first fix ([last_state_time] undefined) the
    pilot event is refused; so it is while the start point scores pilot
    events and the start gate has not begun; without a start point, after
    a fix, it is accepted.  A refused event leaves the task as it is; an
    accepted one sets [pev_received] and [pev_receive_time] and nothing
    else. *)
Theorem SetPEV_outcome (bt : BrokenTime.t) (t : Task) :
  (TimeStamp.IsDefined (OrderedTask.last_state_time t) = false ->
   SetPEV bt t = Ret (false, t))
  /\ (TimeStamp.IsDefined (OrderedTask.last_state_time t) = true ->
      OrderedTask.taskpoint_start t = None ->
      SetPEV bt t
      = Ret (true, OrderedTask.set_pev_receive_time (OrderedTask.set_pev_received t true) bt))
  /\ (forall start,
        TimeStamp.IsDefined (OrderedTask.last_state_time t) = true ->
        deref (OrderedTask.taskpoint_start t) t = Ret start ->
        GetScorePEV start = true ->
        RoughTimeSpan.HasBegun
          (StartConstraints.open_time_span
             (OrderedTaskSettings.start_constraints (OrderedTask.ordered_settings t)))
          (RoughTime.FromTimeStamp (OrderedTask.last_state_time t)) = false ->
        SetPEV bt t = Ret (false, t))
  /\ (forall b t',
        SetPEV bt t = Ret (b, t') ->
        t' = if b
             then OrderedTask.set_pev_receive_time (OrderedTask.set_pev_received t true) bt
             else t).
Proof.
  unfold SetPEV. split_and!.
  - intros ->. reflexivity.
  - intros -> ->. reflexivity.
  - intros start -> Hd Hs Hb.
    destruct (OrderedTask.taskpoint_start t) as [a|] eqn:Es; [|discriminate].
    cbn [negb]. rewrite Hd, bind_Ret, Hs, Hb. reflexivity.
  - intros b t'. destruct (negb _); [intros [= <- <-]; reflexivity|].
    intros H. inv_bind H. destruct x; injection H as <- <-; reflexivity.
Qed.

(** *** One step at a time *)

Lemma active_CheckTransitionOptionalStart_from n i state state_last bb_now bb_last
    enter exit pev fu (t t' : Task) r :
  CheckTransitionOptionalStart_from n i state state_last bb_now bb_last enter exit pev fu t
  = Ret (r, t') ->
  OrderedTask.active_task_point t' = OrderedTask.active_task_point t.
Proof.
  revert i enter exit fu t. induction n as [|n IH]; intros i enter exit fu t.
  - intros [= <- <-]. reflexivity.
  - cbn [CheckTransitionOptionalStart_from]. intros H. inv_bind H. inv_bind H.
    destruct x0 as [[u [en1 ex1]] t1].
    apply noisy_CheckTransitionPoint in E0 as (N1 & _).
    apply noisy_scalars in N1 as (A1 & _).
    cbv zeta in H. destruct (en1 || ex1).
    + inv_bind H. injection H as <- <-.
      apply SelectOptionalStart_spec in E0 as (_ & _ & _ & _ & _ & _ & _ & S & _).
      destruct S as (A2 & _). rewrite A2. exact A1.
    + rewrite (IH _ _ _ _ _ H). exact A1.
Qed.

Lemma active_CheckTransitions_body i n_task state state_last bb_now bb_last fu
    (t t' : Task) i' fu' :
  (0 <= i)%Z ->
  CheckTransitions_body i n_task state state_last bb_now bb_last fu t = Ret (i', fu', t') ->
  OrderedTask.active_task_point t' = OrderedTask.active_task_point t
  \/ (i = Z.of_nat (OrderedTask.active_task_point t)
      /\ OrderedTask.active_task_point t' = S (OrderedTask.active_task_point t)
      /\ i' = (i + 1)%Z).
Proof.
  intros Hi. unfold CheckTransitions_body. intros H. inv_bind H.
  destruct x as [[u1 [en1 ex1]] t1].
  assert (A1 : OrderedTask.active_task_point t1 = OrderedTask.active_task_point t).
  { destruct (i =? 0)%Z.
    - eapply active_CheckTransitionOptionalStart_from, E.
    - injection E as _ _ _ <-. reflexivity. }
  clear E. cbv zeta in H. inv_bind H. inv_bind H.
  destruct x0 as [[u2 [en2 ex2]] t2].
  apply noisy_CheckTransitionPoint in E0 as (N2 & _).
  apply noisy_scalars in N2 as (A2 & _).
  assert (A : OrderedTask.active_task_point t2 = OrderedTask.active_task_point t)
    by (rewrite A2; exact A1).
  clear A1 A2.
  destruct (i =? Z.of_nat (OrderedTask.active_task_point t2))%Z eqn:Ei.
  - apply Z.eqb_eq in Ei. inv_bind H.
    destruct (CheckReadyToAdvance _ _ _ _ _) as [rdy adv].
    destruct rdy.
    + destruct (i + 1 <? n_task)%Z.
      * inv_bind H. inv_bind H. injection H as <- <- <-.
        apply quiet_ScanActive_from in E1.
        pose proof (noisy_scalars _ _ (quiet_noisy _ _ E1)) as (A3 & _).
        assert (A4 : OrderedTask.active_task_point (emit (TaskEvent.ActiveAdvanced
                       (OrderedTaskPoint.addr_of x2) (i + 1)) x1)
                     = OrderedTask.active_task_point x1)
          by (unfold emit; destruct (OrderedTask.task_events x1); reflexivity).
        rewrite A4, A3. unfold SetActiveTaskPoint.
        destruct (_ || _).
        -- left. exact A.
        -- right. cbn. split_and!; [lia|lia|reflexivity].
      * injection H as <- <- <-. left. exact A.
    + destruct (_ && _); injection H as <- <- <-; left; [|exact A].
      unfold emit. destruct (OrderedTask.task_events _); exact A.
  - injection H as <- <- <-. left. exact A.
Qed.

Lemma active_CheckTransitions_loop fuel i t_max n_task state state_last bb_now bb_last fu
    (t t' : Task) fu' :
  (0 <= i)%Z ->
  (t_max <= Z.of_nat (OrderedTask.active_task_point t))%Z ->
  CheckTransitions_loop fuel i t_max n_task state state_last bb_now bb_last fu t
  = Ret (fu', t') ->
  OrderedTask.active_task_point t' <= S (OrderedTask.active_task_point t).
Proof.
  revert i fu t. induction fuel as [|fuel IH]; intros i fu t Hi Hmax;
    cbn [CheckTransitions_loop].
  - destruct (i <=? t_max)%Z; [discriminate|]. intros [= <- <-]. lia.
  - destruct (i <=? t_max)%Z eqn:Ele; [|intros [= <- <-]; lia].
    apply Z.leb_le in Ele.
    intros H. inv_bind H. destruct x as [[i1 fu1] t1].
    pose proof (onward_CheckTransitions_body _ _ _ _ _ _ _ _ _ _ _ E) as [_ Hi1].
    destruct (active_CheckTransitions_body _ _ _ _ _ _ _ _ _ _ _ Hi E)
      as [A|(Ai & A & Hi')].
    + apply IH in H; [|lia|rewrite A; exact Hmax]. rewrite A in H. exact H.
    + subst i1. destruct fuel as [|fuel']; cbn [CheckTransitions_loop] in H.
      * destruct (i + 1 + 1 <=? t_max)%Z eqn:E2; [apply Z.leb_le in E2; lia|].
        injection H as _ <-. lia.
      * destruct (i + 1 + 1 <=? t_max)%Z eqn:E2; [apply Z.leb_le in E2; lia|].
        injection H as _ <-. lia.
Qed.

(** X19.  A call of [CheckTransitions] moves the active index forward by
    one at most: the point after the active one is never passed over in
    a single call, whatever the two fixes are. *)
Theorem CheckTransitions_advances_by_one
    (state state_last : AircraftState.t) (t t' : Task) (r : bool) :
  CheckTransitions state state_last t = Ret (r, t') ->
  OrderedTask.active_task_point t <= OrderedTask.active_task_point t'
  /\ OrderedTask.active_task_point t' <= S (OrderedTask.active_task_point t).
Proof.
  intros H. split; [apply (CheckTransitions_bounds _ _ _ _ _ H)|].
  unfold CheckTransitions in H.
  destruct (OrderedTask.taskpoint_start t) as [a|] eqn:Es.
  2:{ injection H as _ <-. lia. }
  inv_bind H. rename x into t0.
  pose proof (noisy_scalars _ _ (quiet_noisy _ _ (quiet_ScanActive_from _ _ _ E)))
    as (A0 & _).
  destruct (negb (AircraftState.flying state)); [injection H as _ <-; lia|].
  cbv zeta in H. destruct (_ =? 0)%Z; [injection H as _ <-; lia|].
  inv_bind H. destruct x as [fu t1].
  apply active_CheckTransitions_loop in E0; [|lia|lia].
  apply placed_CheckTransitions_end in H as [_ (_ & _ & _ & _ & P)].
  rewrite P. lia.
Qed.

End MoreEngineFacts.

(** ** More on the NMEA checksum *)

Module NMEA_more_facts.
Import NMEA.
Local Open Scope Z_scope.

Lemma xor_count_prefix s rest acc :
  xor_count (s ++ rest) (length s) acc = Ret (xor_bytes s acc).
Proof.
  revert acc. induction s as [|c s IH]; intros acc; [destruct rest; reflexivity|].
  cbn [app length xor_count]. apply IH.
Qed.

Lemma xor_count_short p n acc : (length p < n)%nat -> xor_count p n acc = Fault OutOfRange.
Proof.
  revert p acc. induction n as [|n IH]; intros p acc Hn; [lia|].
  destruct p as [|c p]; [reflexivity|]. cbn [xor_count]. apply IH. cbn in Hn. lia.
Qed.

(** X20.  [NMEAChecksum(p, length)] reads the first [length] chars and no
    other: whatever follows them in the buffer, and whatever they are
    (NUL and '*' included), the result is the XOR of these chars without
    one leading '$' or '!'; a buffer shorter than [length] is read past
    its end. *)
Theorem NMEAChecksum_length_reads_prefix (s rest p : list Z) (n : nat) :
  NMEAChecksum_length (s ++ rest) (length s) = Ret (xor_bytes (skip_lead s) 0)
  /\ ((length p < n)%nat -> NMEAChecksum_length p n = Fault OutOfRange).
Proof.
  split.
  - destruct s as [|c s]; [reflexivity|].
    cbn [app length NMEAChecksum_length skip_lead].
    destruct (is_lead c).
    + apply xor_count_prefix.
    + apply (xor_count_prefix (c :: s)).
  - intros Hn. destruct n as [|n]; [lia|].
    destruct p as [|c p]; [reflexivity|]. cbn [NMEAChecksum_length].
    destruct (is_lead c).
    + apply xor_count_short. cbn in Hn. lia.
    + apply xor_count_short. exact Hn.
Qed.

Lemma xor_to_terminator_apple_asterisk s rest acc :
  forallb plain_char s = true ->
  xor_to_terminator true (s ++ asterisk :: rest) acc = Ret (xor_bytes s acc).
Proof.
  revert acc. induction s as [|c s IH]; intros acc Hs.
  - reflexivity.
  - cbn in Hs. apply andb_prop in Hs as [Hc Hs].
    unfold plain_char in Hc. apply andb_prop in Hc as [Hz Ha].
    apply negb_true_iff in Hz, Ha.
    cbn [app xor_to_terminator]. rewrite Hz, Ha. cbn [orb andb].
    apply IH, Hs.
Qed.

Lemma xor_to_terminator_to_nul s acc :
  forallb (fun c => negb (c =? 0)) s = true ->
  xor_to_terminator false (s ++ [0]) acc = Ret (xor_bytes s acc).
Proof.
  revert acc. induction s as [|c s IH]; intros acc Hs.
  - reflexivity.
  - cbn in Hs. apply andb_prop in Hs as [Hz Hs]. apply negb_true_iff in Hz.
    cbn [app xor_to_terminator]. rewrite Hz. cbn [orb andb].
    apply IH, Hs.
Qed.

(** X21.  On a sentence that carries its "*hh" suffix the two builds of
    [NMEAChecksum(p)] differ: the Apple build stops at the '*' and
    returns the checksum of the chars before it, the same as
    [NMEAChecksum(p, n)] with [n] the position of the '*'; the other
    build goes on to the NUL and takes in the '*' and what follows. *)
Theorem NMEAChecksum_at_asterisk (s suffix : list Z) :
  forallb plain_char s = true ->
  forallb (fun c => negb (c =? 0)) suffix = true ->
  let p := s ++ asterisk :: suffix ++ [0] in
  NMEAChecksum true p = Ret (xor_bytes (skip_lead s) 0)
  /\ NMEAChecksum true p = NMEAChecksum_length p (length s)
  /\ NMEAChecksum false p = Ret (xor_bytes (skip_lead (s ++ asterisk :: suffix)) 0).
Proof.
  intros Hs Hx p. subst p.
  assert (Ha : NMEAChecksum true (s ++ asterisk :: suffix ++ [0])
               = Ret (xor_bytes (skip_lead s) 0)).
  { destruct s as [|c s]; [reflexivity|].
    cbn in Hs. apply andb_prop in Hs as [Hc Hs].
    cbn [app NMEAChecksum skip_lead]. destruct (is_lead c).
    - apply xor_to_terminator_apple_asterisk, Hs.
    - apply (xor_to_terminator_apple_asterisk (c :: s)). cbn. rewrite Hc, Hs. reflexivity. }
  split_and!.
  - exact Ha.
  - rewrite Ha. symmetry.
    apply (proj1 (NMEAChecksum_length_reads_prefix s (asterisk :: suffix ++ [0]) [] 0)).
  - assert (Hall : forallb (fun c => negb (c =? 0)) (s ++ asterisk :: suffix) = true).
    { rewrite forallb_app. apply andb_true_iff. split.
      - apply forallb_forall. intros c Hc.
        rewrite forallb_forall in Hs. specialize (Hs c Hc).
        unfold plain_char in Hs. apply andb_prop in Hs as [Hz _]. exact Hz.
      - cbn. exact Hx. }
    replace (s ++ asterisk :: suffix ++ [0]) with ((s ++ asterisk :: suffix) ++ [0])
      by (rewrite <- app_assoc; reflexivity).
    destruct (s ++ asterisk :: suffix) as [|c l] eqn:E.
    { destruct s; discriminate. }
    cbn in Hall. apply andb_prop in Hall as [Hc Hl].
    cbn [app NMEAChecksum skip_lead]. destruct (is_lead c).
    + apply xor_to_terminator_to_nul, Hl.
    + apply (xor_to_terminator_to_nul (c :: l)). cbn. rewrite Hc, Hl. reflexivity.
Qed.

Lemma xor_bytes_Permutation s s' acc : Permutation s s' -> xor_bytes s acc = xor_bytes s' acc.
Proof.
  intros H. revert acc. induction H as [|x l l' _ IH|x y l|l l' l'' _ IH1 _ IH2]; intros acc.
  - reflexivity.
  - apply IH.
  - unfold xor_bytes. cbn [fold_left]. f_equal.
    rewrite !Z.lxor_assoc. f_equal. apply Z.lxor_comm.
  - rewrite IH1. apply IH2.
Qed.

(** X22.  The checksum does not see the order of the chars: two sentences
    whose bodies (behind the '$') hold the same chars in another order
    have the same checksum. *)
Theorem NMEAChecksum_order_blind (apple : bool) (s s' : list Z) :
  Permutation s s' ->
  forallb plain_char s = true ->
  NMEAChecksum apple (dollar :: s ++ [0]) = NMEAChecksum apple (dollar :: s' ++ [0])
  /\ NMEAChecksum_length (dollar :: s) (S (length s))
     = NMEAChecksum_length (dollar :: s') (S (length s')).
Proof.
  intros Hp Hs.
  assert (Hs' : forallb plain_char s' = true).
  { apply forallb_forall. intros c Hc. rewrite forallb_forall in Hs. apply Hs.
    apply (Permutation_in _ (Permutation_sym Hp) Hc). }
  split.
  - change (NMEAChecksum apple (dollar :: s ++ [0]))
      with (xor_to_terminator apple (s ++ [0]) 0).
    change (NMEAChecksum apple (dollar :: s' ++ [0]))
      with (xor_to_terminator apple (s' ++ [0]) 0).
    rewrite !NMEA_facts.xor_to_terminator_app by assumption.
    f_equal. apply xor_bytes_Permutation, Hp.
  - change (NMEAChecksum_length (dollar :: s) (S (length s)))
      with (xor_count s (length s) 0).
    change (NMEAChecksum_length (dollar :: s') (S (length s')))
      with (xor_count s' (length s') 0).
    pose proof (xor_count_prefix s [] 0) as H1. rewrite app_nil_r in H1.
    pose proof (xor_count_prefix s' [] 0) as H2. rewrite app_nil_r in H2.
    rewrite H1, H2. f_equal. apply xor_bytes_Permutation, Hp.
Qed.

End NMEA_more_facts.

(** ** The further statements on the scenarios *)

Module MoreCases.
Import Track Scenarios MoreScenarios.

Ltac evaluated :=
  lazymatch goal with
  | |- lt _ _ => apply (proj1 (Nat.ltb_lt _ _)); vm_compute; reflexivity
  | |- le _ _ => apply (proj1 (Nat.leb_le _ _)); vm_compute; reflexivity
  | |- (_ <= _ < _)%Z =>
      split; [apply (proj1 (Z.leb_le _ _))|apply (proj1 (Z.ltb_lt _ _))];
      vm_compute; reflexivity
  | |- _ /\ _ => split; evaluated
  | |- _ \/ _ => first [left; evaluated | right; evaluated]
  | |- _ => vm_compute; first [reflexivity | discriminate]
  end.

(** a hypothesis on the object in a given slot: the slot is looked up *)
Ltac looked_up :=
  intros;
  repeat match goal with
         | H : _ = Some _ |- _ => vm_compute in H; first [discriminate H | injection H as <-]
         end;
  evaluated.

(** use the next hypothesis of [W] *)
Ltac supply W := lapply W; [clear W; intros W|first [evaluated | looked_up]].

(** A turnpoint inserted at position 1 of the task of four points, the
    third one active: five points, the same object active, now at 3. *)
Lemma Insert_in_range_witness :
  fst (Insert turnpoint 1 four_points) = true
  /\ length (OrderedTask.task_points (snd (Insert turnpoint 1 four_points))) = 5
  /\ OrderedTask.active_task_point (snd (Insert turnpoint 1 four_points)) = 3
  /\ unlinked
     <$> OrderedTask.task_points (snd (Insert turnpoint 1 four_points))
         !! OrderedTask.active_task_point (snd (Insert turnpoint 1 four_points))
     = unlinked
       <$> OrderedTask.task_points four_points !! OrderedTask.active_task_point four_points.
Proof.
  pose proof (Insert_in_range turnpoint 1 four_points) as W.
  do 5 supply W. cbv zeta in W. destruct W as (Hr & Hl & _ & _ & _ & Ha & _).
  split_and!; [exact Hr| | |exact Ha].
  - etransitivity; [exact Hl|evaluated].
  - evaluated.
Defined.

(** [Remove(1)] on the task of four points, the third one active: the
    same object is active afterwards. *)
Lemma Remove_keeps_active_object_witness :
  unlinked
  <$> OrderedTask.task_points (snd (Remove 1 four_points))
      !! OrderedTask.active_task_point (snd (Remove 1 four_points))
  = unlinked
    <$> OrderedTask.task_points four_points !! OrderedTask.active_task_point four_points.
Proof.
  pose proof (Remove_keeps_active_object 1 four_points) as W.
  do 2 supply W. cbv zeta in W. destruct W as (H & _).
  apply H. evaluated.
Defined.

(** The turnpoint inserted at position 1 and removed again. *)
Lemma Remove_undoes_Insert_witness :
  unlinked <$> OrderedTask.task_points
                 (snd (Remove 1 (snd (Insert turnpoint 1 four_points))))
  = unlinked <$> OrderedTask.task_points four_points
  /\ OrderedTask.active_task_point (snd (Remove 1 (snd (Insert turnpoint 1 four_points))))
     = OrderedTask.active_task_point four_points.
Proof.
  pose proof (Remove_undoes_Insert turnpoint 1 four_points) as W.
  do 5 supply W. cbv zeta in W. destruct W as (_ & _ & Hu & _ & Ha).
  split; [exact Hu|exact Ha].
Defined.

(** A finish point appended to the task that has none yet. *)
Lemma Append_accepted_witness :
  fst (Append new_finish open_ended) = true
  /\ OrderedTask.active_task_point (snd (Append new_finish open_ended))
     = OrderedTask.active_task_point open_ended
  /\ linked (OrderedTask.task_points (snd (Append new_finish open_ended)))
       (length (OrderedTask.task_points open_ended)).
Proof.
  pose proof (Append_accepted new_finish open_ended) as W.
  supply W. cbv zeta in W. destruct W as (Hr & _ & _ & Ha & _ & _ & Hl).
  split_and!; [exact Hr|exact Ha|exact Hl].
Defined.

(** The second point of the task of four points replaced by the
    turnpoint. *)
Lemma Replace_in_range_witness :
  fst (Replace turnpoint 1 four_points) = true
  /\ OrderedTask.active_task_point (snd (Replace turnpoint 1 four_points))
     = OrderedTask.active_task_point four_points
  /\ linked (OrderedTask.task_points (snd (Replace turnpoint 1 four_points))) 1.
Proof.
  pose proof (Replace_in_range turnpoint (nth_point four_points 1) 1 four_points) as W.
  supply W. destruct W as [_ W]. do 3 supply W. cbv zeta in W.
  destruct W as (Hr & _ & Ha & _ & Hl & _).
  split_and!; [exact Hr|exact Ha|exact Hl].
Defined.

(** The task of four points after [Remove(1)]. *)
Lemma UpdateGeometry_cached_pointers_witness :
  exists t',
    UpdateGeometry (snd (Remove 1 four_points)) = Ret t'
    /\ OrderedTask.taskpoint_start t' = start_of (OrderedTask.task_points t')
    /\ OrderedTask.taskpoint_finish t' = finish_of (OrderedTask.task_points t').
Proof.
  pose proof (UpdateGeometry_cached_pointers (snd (Remove 1 four_points))) as W.
  supply W. destruct W as (t' & H & Hs & Hf & _).
  exists t'. split_and!; [exact H|exact Hs|exact Hf].
Defined.

(** The start point of the racing task removed. *)
Lemma Remove_front_leaves_start_pointer_witness :
  OrderedTask.taskpoint_start (snd (Remove 0 racing)) = OrderedTask.taskpoint_start racing
  /\ TaskStarted false (snd (Remove 0 racing)) = Fault Dangling
  /\ CheckTransitions in_start before_start (snd (Remove 0 racing)) = Fault Dangling.
Proof.
  pose proof (Remove_front_leaves_start_pointer in_start before_start false racing) as W.
  supply W. cbv zeta in W. destruct W as (H1 & H2 & H3 & _).
  split_and!; [exact H1|exact H2|exact H3].
Defined.

(** The flight of the racing task. *)
Lemma CheckTransitions_along_a_flight_witness :
  exists t',
    CheckTransitions_along racing_flight before_start racing = Ret t'
    /\ ready t' = true
    /\ OrderedTask.active_task_point racing <= OrderedTask.active_task_point t'.
Proof.
  pose proof (CheckTransitions_along_a_flight racing_flight before_start racing) as W.
  supply W. destruct W as (t' & H & Hr & _ & Ha & _).
  exists t'. split_and!; [exact H|exact Hr|exact Ha].
Defined.

(** The two overlapping cylinders: 4000 m, between 0 and the 10000 m of
    the leg. *)
Lemma ScanDistanceNominal_bounds_witness :
  exists d,
    ScanDistanceNominal overlapping = Ret d
    /\ (d <= TaskLeg_ScanDistanceNominal (OrderedTask.task_points overlapping))%Q
    /\ (0 <= d)%Q.
Proof.
  pose proof (ScanDistanceNominal_bounds overlapping) as W.
  do 2 supply W. destruct W as (d & H & Hle & Hge).
  exists d. split_and!; [exact H|exact Hle|apply Hge; evaluated].
Defined.

(** The scored start and the event at 12:03:20: open from 12:09, with no
    end, and [pev_based_advance_ready] set. *)
Lemma UpdateAfterPEV_other_cases_witness :
  OrderedTask.pev_received
    (UpdateAfterPEV (aircraft 0 1000 30 43400 true) at_12_03_20 pev_scored) = false
  /\ TaskStats.pev_based_advance_ready
       (OrderedTask.stats
          (UpdateAfterPEV (aircraft 0 1000 30 43400 true) at_12_03_20 pev_scored)) = true
  /\ StartConstraints.open_time_span
       (OrderedTaskSettings.start_constraints
          (OrderedTask.ordered_settings
             (UpdateAfterPEV (aircraft 0 1000 30 43400 true) at_12_03_20 pev_scored)))
     = {| RoughTimeSpan.start := RoughTime.MinuteOfDay 729;
          RoughTimeSpan.finish := RoughTime.Invalid |}.
Proof.
  pose proof (UpdateAfterPEV_other_cases (aircraft 0 1000 30 43400 true) at_12_03_20
                pev_scored) as W.
  cbv zeta in W. destruct W as (H1 & _ & H3 & _).
  do 2 supply H3. destruct H3 as (Hr & Hf & Hs). supply Hs.
  split_and!; [exact H1|exact Hr|].
  destruct (StartConstraints.open_time_span _) as [s f]. cbn in Hf, Hs.
  rewrite Hf, Hs. reflexivity.
Defined.

(** One primary start and two optional ones: three calls bring every
    object back. *)
Lemma SelectOptionalStart_0_full_turn_witness :
  exists t',
    SelectOptionalStart_0_times 3 with_optional_starts = Ret t'
    /\ ident <$> OrderedTask.task_points t'
       = ident <$> OrderedTask.task_points with_optional_starts
    /\ ident <$> OrderedTask.optional_start_points t'
       = ident <$> OrderedTask.optional_start_points with_optional_starts.
Proof.
  pose proof (SelectOptionalStart_0_full_turn with_optional_starts) as W.
  do 2 supply W. destruct W as (_ & t' & H & Ht & Ho).
  exists t'. split_and!; [exact H|exact Ht|exact Ho].
Defined.

(** The area task: the point at index 1 is an AAT point, the one at index
    2 is not, and index 7 is past the end. *)
Lemma GetAATTaskPoint_cases_witness :
  GetAATTaskPoint 7 area_task = Ret None
  /\ GetAATTaskPoint 1 area_task = Ret (Some 2).
Proof.
  split.
  - pose proof (GetAATTaskPoint_cases 7 area_task) as W.
    do 2 supply W. destruct W as (_ & H & _). apply H; evaluated.
  - pose proof (GetAATTaskPoint_cases 1 area_task) as W.
    do 2 supply W. destruct W as (_ & _ & H).
    etransitivity; [apply (H (nth_point area_task 1)); evaluated|evaluated].
Defined.

(** The third of four points active: one point further is a task point,
    three points back is not. *)
Lemma IsValidTaskPoint_iff_witness :
  IsValidTaskPoint 1 four_points = true /\ IsValidTaskPoint (-3) four_points <> true.
Proof.
  split.
  - pose proof (IsValidTaskPoint_iff 1 four_points) as W.
    do 3 supply W. apply (proj2 W). evaluated.
  - pose proof (IsValidTaskPoint_iff (-3) four_points) as W.
    do 3 supply W. intros H. apply (proj1 W) in H. vm_compute in H.
    destruct H as [H _]. apply H. reflexivity.
Defined.

(** The start at 0 and the active finish at 20000, the last solve at
    10000: a forced scan from 11500 solves once more. *)
Lemma ScanDistanceMin_other_cases_witness :
  exists d t',
    ScanDistanceMin (position 11500) true (scanned_at 10000 two_legs) = Ret (d, t')
    /\ OrderedTask.last_min_location t' = position 11500.
Proof.
  pose proof (ScanDistanceMin_other_cases (position 11500) (scanned_at 10000 two_legs)) as W.
  supply W. destruct W as ((d & t' & H & Hl & _) & _).
  exists d, t'. split; [exact H|exact Hl].
Defined.

(** The racing task before its first fix refuses the pilot event; after
    the fix of 12:03:20 it is accepted. *)
Lemma SetPEV_outcome_witness :
  SetPEV at_12_03_20 racing = Ret (false, racing)
  /\ after (SetPEV at_12_03_20 pev_window)
     = OrderedTask.set_pev_receive_time (OrderedTask.set_pev_received pev_window true)
         at_12_03_20.
Proof.
  split.
  - pose proof (SetPEV_outcome at_12_03_20 racing) as (H & _). apply H. evaluated.
  - pose proof (SetPEV_outcome at_12_03_20 pev_window) as (_ & _ & _ & H).
    apply (H true). evaluated.
Defined.

(** The exit from the start cylinder moves the active index from 0 to
    1. *)
Lemma CheckTransitions_advances_by_one_witness :
  exists r t',
    CheckTransitions out_of_start in_start racing_entered = Ret (r, t')
    /\ OrderedTask.active_task_point racing_entered <= OrderedTask.active_task_point t'
    /\ OrderedTask.active_task_point t' <= S (OrderedTask.active_task_point racing_entered).
Proof.
  destruct (CheckTransitions out_of_start in_start racing_entered) as [[r t']|] eqn:E;
    [|vm_compute in E; discriminate].
  exists r, t'. split; [reflexivity|].
  apply (CheckTransitions_advances_by_one out_of_start in_start racing_entered t' r E).
Defined.

End MoreCases.

Module NMEA_more_cases.
Import NMEA.
Local Open Scope Z_scope.

(** "$GP" in a buffer of three chars, read with length 4. *)
Lemma NMEAChecksum_length_reads_prefix_witness :
  NMEAChecksum_length ([36; 71; 80] ++ [42; 49]) 3 = Ret 23
  /\ NMEAChecksum_length [36; 71; 80] 4 = Fault OutOfRange.
Proof.
  destruct (NMEA_more_facts.NMEAChecksum_length_reads_prefix [36; 71; 80] [42; 49]
              [36; 71; 80] 4) as [H1 H2].
  split; [exact H1|apply H2; vm_compute; lia].
Defined.

(** "$GP*17": 23 on the Apple build, 23 xor 42 xor 49 xor 55 otherwise. *)
Lemma NMEAChecksum_at_asterisk_witness :
  NMEAChecksum true ([36; 71; 80] ++ 42 :: [49; 55] ++ [0]) = Ret 23
  /\ NMEAChecksum false ([36; 71; 80] ++ 42 :: [49; 55] ++ [0]) = Ret 59.
Proof.
  destruct (NMEA_more_facts.NMEAChecksum_at_asterisk [36; 71; 80] [49; 55] eq_refl eq_refl)
    as (H1 & _ & H3).
  split; [exact H1|exact H3].
Defined.

(** "$GP" and "$PG". *)
Lemma NMEAChecksum_order_blind_witness :
  NMEAChecksum false (36 :: [71; 80] ++ [0]) = NMEAChecksum false (36 :: [80; 71] ++ [0]).
Proof.
  destruct (NMEA_more_facts.NMEAChecksum_order_blind false [71; 80] [80; 71]
              (perm_swap 80 71 []) eq_refl) as [H _].
  exact H.
Defined.

End NMEA_more_cases.
